(** * A segregated-free-list storage allocator (mm.c), embedded and verified

    The allocator of [mm.c] keeps boundary-tagged blocks inside one flat byte
    range obtained from an sbrk-style region provider, and threads the free
    blocks on twelve doubly-linked lists whose heads live in a directory at
    the start of the range.

    The embedding below follows the C text function by function.  The target
    is the ILP32 build the source is written for (pointers are stored in one
    4-byte word by [PUT_PTR] and the directory is strided by 4), so
    [size_t], [unsigned int] and pointers are all 32-bit values; they are
    modelled as [Z] with the wrap-around written out.  Memory is a finite map
    from byte addresses to bytes (a byte that was never written reads as 0);
    a word access is four little-endian bytes.
    Every function that touches memory lives in a small error monad: an access
    outside the provider's memory is a [Fault], and a loop that follows
    pointers takes a fuel argument and reports [OutOfFuel] when it runs out. *)

From Stdlib Require Import ZArith Lia List String.
From Stdlib Require Import Strings.Byte.
From stdpp Require Import base option list gmap.

Open Scope Z_scope.

(** ** Results of effectful code *)

Inductive res (A : Type) : Type :=
| Ok (a : A)
| Fault
| OutOfFuel.

Arguments Ok {A} a.
Arguments Fault {A}.
Arguments OutOfFuel {A}.

#[global] Instance res_ret : MRet res := fun A a => Ok a.
#[global] Instance res_bind : MBind res := fun A B f m =>
  match m with
  | Ok a => f a
  | Fault => Fault
  | OutOfFuel => OutOfFuel
  end.

(** ** Machine integers *)

Definition wrap (x : Z) : Z := x mod 2 ^ 32.

(** [(int)x < 0] for a 32-bit [x]. *)
Definition int_negative (x : Z) : bool := 2 ^ 31 <=? wrap x.

(** ** MACROS *)

Definition WSIZE : Z := 4.
Definition DSIZE : Z := 8.
Definition CHUNKS : Z := Z.shiftl 1 5.
Definition numlists : Z := 12.
Definition ALIGNMENT : Z := 8.
Definition NULL : Z := 0.

Definition PACK (size alloc : Z) : Z := Z.lor size alloc.
Definition MAX (x y : Z) : Z := if x >? y then x else y.
Definition ALIGN (size : Z) : Z := Z.land (wrap (size + (ALIGNMENT - 1))) (Z.lnot 7).

(** ** The region provider and the memory it hands out *)

Record state : Type := mkState {
  mem : gmap Z byte;     (* byte address -> byte *)
  mem_start_brk : Z;     (* first byte of the provider's memory *)
  mem_brk : Z;           (* current end of the region *)
  mem_max_addr : Z;      (* end of the provider's memory *)
  heap_listp : Z;        (* static char *heap_listp *)
  freelist_p : Z         (* static void *freelist_p *)
}.

Definition set_mem (st : state) (m : gmap Z byte) : state :=
  mkState m (mem_start_brk st) (mem_brk st) (mem_max_addr st)
          (heap_listp st) (freelist_p st).

Definition set_brk (st : state) (b : Z) : state :=
  mkState (mem st) (mem_start_brk st) b (mem_max_addr st)
          (heap_listp st) (freelist_p st).

Definition set_heap_listp (st : state) (p : Z) : state :=
  mkState (mem st) (mem_start_brk st) (mem_brk st) (mem_max_addr st)
          p (freelist_p st).

Definition set_freelist_p (st : state) (p : Z) : state :=
  mkState (mem st) (mem_start_brk st) (mem_brk st) (mem_max_addr st)
          (heap_listp st) p.

(** Modelled from the spec: the region provider ([mem_sbrk] of memlib.c, which
    is not part of the sources).  [sbrk(n)] extends the region by exactly [n]
    bytes and returns a pointer to the first new byte; on failure it returns
    the all-ones pointer and leaves the region alone.  The provider refuses
    when the request does not fit below [mem_max_addr]. *)
Definition SBRK_FAILED : Z := 2 ^ 32 - 1.

Definition mem_sbrk (st : state) (incr : Z) : state * Z :=
  if mem_brk st + incr <=? mem_max_addr st
  then (set_brk st (mem_brk st + incr), mem_brk st)
  else (st, SBRK_FAILED).

(** Modelled from the spec: the provider's memory is one array of bytes from
    [mem_start_brk] to [mem_max_addr]; an access is defined exactly when it
    lies inside that array. *)
Definition accessible (st : state) (a len : Z) : bool :=
  (mem_start_brk st <=? a) && (a + len <=? mem_max_addr st).

Definition Z_of_byte (b : byte) : Z := Z.of_N (Byte.to_N b).

Definition byte_of_Z (v : Z) : byte :=
  match Byte.of_N (Z.to_N (v mod 256)) with
  | Some b => b
  | None => Byte.x00
  end.

Definition raw_at (st : state) (a : Z) : byte := default Byte.x00 (mem st !! a).

Definition byte_at (st : state) (a : Z) : Z := Z_of_byte (raw_at st a).

Definition load8 (st : state) (a : Z) : res byte :=
  if accessible st a 1 then Ok (raw_at st a) else Fault.

Definition store8 (st : state) (a : Z) (b : byte) : res state :=
  if accessible st a 1 then Ok (set_mem st (<[a := b]> (mem st))) else Fault.

(** [GET(f)] and [PUT(f, val)]: one little-endian 32-bit word. *)
Definition GET (st : state) (f : Z) : res Z :=
  if accessible st f 4
  then Ok (byte_at st f + 2 ^ 8 * byte_at st (f + 1)
           + 2 ^ 16 * byte_at st (f + 2) + 2 ^ 24 * byte_at st (f + 3))
  else Fault.

Definition PUT (st : state) (f val : Z) : res state :=
  if accessible st f 4
  then Ok (set_mem st
             (<[f + 3 := byte_of_Z (val / 2 ^ 24)]>
              (<[f + 2 := byte_of_Z (val / 2 ^ 16)]>
               (<[f + 1 := byte_of_Z (val / 2 ^ 8)]>
                (<[f := byte_of_Z val]> (mem st))))))
  else Fault.

(** [PUT_PTR] stores a pointer as one word; it is [PUT]. *)
Definition PUT_PTR (st : state) (p ptr : Z) : res state := PUT st p ptr.

Definition GET_SIZE (st : state) (p : Z) : res Z :=
  v ← GET st p; Ok (Z.land v (Z.lnot 7)).

Definition GET_ALLOC (st : state) (p : Z) : res Z :=
  v ← GET st p; Ok (Z.land v 1).

Definition HDRP (bp : Z) : Z := wrap (bp - WSIZE).

Definition FTRP (st : state) (bp : Z) : res Z :=
  sz ← GET_SIZE st (HDRP bp); Ok (wrap (bp + sz - DSIZE)).

Definition NEXT_BLKP (st : state) (bp : Z) : res Z :=
  sz ← GET_SIZE st (wrap (bp - WSIZE)); Ok (wrap (bp + sz)).

Definition PREV_BLKP (st : state) (bp : Z) : res Z :=
  sz ← GET_SIZE st (wrap (bp - DSIZE)); Ok (wrap (bp - sz)).

(** [GETfreelistp(freelistpointer, listnum)], as an rvalue and as an lvalue. *)
Definition freelist_slot (st : state) (listnum : Z) : Z :=
  wrap (freelist_p st + 4 * listnum).

Definition GETfreelistp (st : state) (listnum : Z) : res Z :=
  GET st (freelist_slot st listnum).

Definition SETfreelistp (st : state) (listnum v : Z) : res state :=
  PUT st (freelist_slot st listnum) v.

(** [GET_NPTR(bp)] and [GET_PPTR(bp)], as rvalues and as lvalues. *)
Definition GET_NPTR (st : state) (bp : Z) : res Z := GET st (wrap (bp + WSIZE)).
Definition GET_PPTR (st : state) (bp : Z) : res Z := GET st bp.
Definition SET_NPTR (st : state) (bp v : Z) : res state := PUT st (wrap (bp + WSIZE)) v.
Definition SET_PPTR (st : state) (bp v : Z) : res state := PUT st bp v.

(** ** Size classes

    The loop [while ((num < numlists-1) && (bsize > 1)) { bsize >>= 1; num++; }]
    that opens [ADD_free], [deletefree] and [find_fit].  [num] grows by one
    per iteration and the loop stops at [numlists-1], so eleven iterations
    always suffice. *)
Fixpoint list_num_loop (n : nat) (num bsize : Z) : Z :=
  match n with
  | O => num
  | S n' =>
      if (num <? numlists - 1) && (bsize >? 1)
      then list_num_loop n' (num + 1) (Z.shiftr bsize 1)
      else num
  end.

Definition list_num (size : Z) : Z := list_num_loop 11 0 size.

(** ** Helper functions *)

Definition ADD_free (st : state) (bp size : Z) : res state :=
  let num := list_num size in
  l_ptr ← GETfreelistp st num;
  if negb (l_ptr =? NULL) then
    st ← SET_NPTR st bp l_ptr;
    st ← SET_PPTR st bp NULL;
    st ← SET_PPTR st l_ptr bp;
    SETfreelistp st num bp
  else
    st ← SETfreelistp st num bp;
    st ← SET_NPTR st bp l_ptr;
    SET_PPTR st bp NULL.

Definition deletefree (st : state) (bp : Z) : res state :=
  bsize ← GET_SIZE st (HDRP bp);
  let num := list_num bsize in
  pp ← GET_PPTR st bp;
  if negb (pp =? NULL) then
    np ← GET_NPTR st bp;
    if negb (np =? NULL) then
      pp ← GET_PPTR st bp;
      np ← GET_NPTR st bp;
      st ← SET_NPTR st pp np;
      np ← GET_NPTR st bp;
      pp ← GET_PPTR st bp;
      SET_PPTR st np pp
    else
      pp ← GET_PPTR st bp;
      SET_NPTR st pp NULL
  else
    np ← GET_NPTR st bp;
    if negb (np =? NULL) then
      np ← GET_NPTR st bp;
      st ← SETfreelistp st num np;
      np ← GET_NPTR st bp;
      SET_PPTR st np NULL
    else
      np ← GET_NPTR st bp;
      SETfreelistp st num np.

Definition place (st : state) (bp asize : Z) : res (state * Z) :=
  csize ← GET_SIZE st (HDRP bp);
  st ← deletefree st bp;
  if wrap (csize - asize) >=? 2 * DSIZE then
    st ← PUT st (HDRP bp) (PACK asize 1);
    f ← FTRP st bp;
    st ← PUT st f (PACK asize 1);
    fin ← NEXT_BLKP st bp;
    st ← PUT st (HDRP fin) (PACK (wrap (csize - asize)) 0);
    f ← FTRP st fin;
    st ← PUT st f (PACK (wrap (csize - asize)) 0);
    st ← ADD_free st fin (wrap (csize - asize));
    Ok (st, bp)
  else
    st ← PUT st (HDRP bp) (PACK csize 1);
    f ← FTRP st bp;
    st ← PUT st f (PACK csize 1);
    Ok (st, bp).

(** The [for] loop of [find_fit]; it follows [GET_NPTR] links, so it takes
    fuel. *)
Fixpoint find_fit_loop (fuel : nat) (st : state) (size bp : Z) : res Z :=
  match fuel with
  | O => OutOfFuel
  | S fuel' =>
      if bp =? NULL then Ok NULL
      else
        bsz ← GET_SIZE st (HDRP bp);
        if size <=? bsz then Ok bp
        else
          nxt ← GET_NPTR st bp;
          find_fit_loop fuel' st size nxt
  end.

Definition find_fit (fuel : nat) (st : state) (size : Z) : res Z :=
  let num := list_num size in
  bp ← GETfreelistp st num;
  find_fit_loop fuel st size bp.

Definition coalesce (st : state) (bp : Z) : res (state * Z) :=
  blocksize ← GET_SIZE st (HDRP bp);
  prev ← PREV_BLKP st bp;
  p_status ← GET_ALLOC st (HDRP prev);
  next ← NEXT_BLKP st bp;
  n_status ← GET_ALLOC st (HDRP next);
  if negb (n_status =? 0) && negb (p_status =? 0) then
    st ← ADD_free st bp blocksize;
    Ok (st, bp)
  else if negb (n_status =? 0) && (p_status =? 0) then
    prev ← PREV_BLKP st bp;
    st ← deletefree st prev;
    prev ← PREV_BLKP st bp;
    psz ← GET_SIZE st (HDRP prev);
    let blocksize := wrap (blocksize + psz) in
    prev ← PREV_BLKP st bp;
    st ← PUT st (HDRP prev) (PACK blocksize 0);
    f ← FTRP st bp;
    st ← PUT st f (PACK blocksize 0);
    bp ← PREV_BLKP st bp;
    st ← ADD_free st bp blocksize;
    Ok (st, bp)
  else if negb (p_status =? 0) && (n_status =? 0) then
    next ← NEXT_BLKP st bp;
    st ← deletefree st next;
    next ← NEXT_BLKP st bp;
    nsz ← GET_SIZE st (HDRP next);
    let blocksize := wrap (blocksize + nsz) in
    st ← PUT st (HDRP bp) (PACK blocksize 0);
    f ← FTRP st bp;
    st ← PUT st f (PACK blocksize 0);
    st ← ADD_free st bp blocksize;
    Ok (st, bp)
  else
    prev ← PREV_BLKP st bp;
    st ← deletefree st prev;
    next ← NEXT_BLKP st bp;
    st ← deletefree st next;
    next ← NEXT_BLKP st bp;
    nf ← FTRP st next;
    nsz ← GET_SIZE st nf;
    let blocksize := wrap (blocksize + nsz) in
    prev ← PREV_BLKP st bp;
    psz ← GET_SIZE st (HDRP prev);
    let blocksize := wrap (blocksize + psz) in
    prev ← PREV_BLKP st bp;
    st ← PUT st (HDRP prev) (PACK blocksize 0);
    next ← NEXT_BLKP st bp;
    nf ← FTRP st next;
    st ← PUT st nf (PACK blocksize 0);
    bp ← PREV_BLKP st bp;
    st ← ADD_free st bp blocksize;
    Ok (st, bp).

Definition extend_heap (st : state) (words : Z) : res (state * Z) :=
  let size := if negb (words mod 2 =? 0)
              then wrap ((words + 1) * WSIZE) else wrap (words * WSIZE) in
  let '(st, bp) := mem_sbrk st size in
  if bp =? SBRK_FAILED then Ok (st, NULL)
  else
    let size := MAX size 16 in
    st ← PUT st (HDRP bp) (PACK size 0);
    f ← FTRP st bp;
    st ← PUT st f (PACK size 0);
    next ← NEXT_BLKP st bp;
    st ← PUT st (HDRP next) (PACK 0 1);
    coalesce st bp.

(** ** The allocator surface *)

(** The loop [for (num = 0; num < numlists; num++) GETfreelistp(freelist_p, num) = NULL]. *)
Fixpoint init_lists (n : nat) (st : state) (num : Z) : res state :=
  match n with
  | O => Ok st
  | S n' =>
      if num <? numlists then
        st ← SETfreelistp st num NULL;
        init_lists n' st (num + 1)
      else Ok st
  end.

Definition mm_init (st : state) : res (state * Z) :=
  let '(st, p) := mem_sbrk st (numlists * WSIZE) in
  let st := set_freelist_p st p in
  st ← init_lists 12 st 0;
  let '(st, p) := mem_sbrk st (4 * WSIZE) in
  let st := set_heap_listp st p in
  if p =? SBRK_FAILED then Ok (st, -1)
  else
    st ← PUT st (heap_listp st) 0;
    st ← PUT st (wrap (heap_listp st + 1 * WSIZE)) (PACK DSIZE 1);
    st ← PUT st (wrap (heap_listp st + 2 * WSIZE)) (PACK DSIZE 1);
    st ← PUT st (wrap (heap_listp st + 3 * WSIZE)) (PACK 0 1);
    let st := set_heap_listp st (wrap (heap_listp st + 2 * WSIZE)) in
    '(st, bp) ← extend_heap st (CHUNKS / WSIZE);
    if bp =? NULL then Ok (st, -1) else Ok (st, 0).

(** The [if]/[else] of [mm_malloc] that assigns [adjusted_size]. *)
Definition adjust_size (size : Z) : Z :=
  if size <=? DSIZE then 2 * DSIZE
  else wrap (DSIZE * (wrap (size + DSIZE + (DSIZE - 1)) / DSIZE)).

Definition mm_malloc (fuel : nat) (st : state) (size : Z) : res (state * Z) :=
  if size =? 0 then Ok (st, NULL)
  else
    let adjusted_size := adjust_size size in
    bp ← find_fit fuel st adjusted_size;
    if negb (bp =? NULL) then place st bp adjusted_size
    else
      let extendsize := MAX adjusted_size CHUNKS in
      '(st, bp) ← extend_heap st (extendsize / WSIZE);
      if bp =? NULL then Ok (st, NULL)
      else place st bp adjusted_size.

(** [runheaptest] is the constant 0 in the source, so the block of [mm_free]
    that calls the checker is never executed; it is left out. *)
Definition mm_free (st : state) (ptr : Z) : res state :=
  if ptr =? NULL then Ok st
  else
    blocksize ← GET_SIZE st (HDRP ptr);
    f ← FTRP st ptr;
    st ← PUT st f (PACK blocksize 0);
    st ← PUT st (HDRP ptr) (PACK blocksize 0);
    '(st, _) ← coalesce st ptr;
    Ok st.

(** [memcpy] of libc, copying bytes at ascending addresses. *)
Fixpoint memcpy_loop (n : nat) (st : state) (dst src : Z) : res state :=
  match n with
  | O => Ok st
  | S n' =>
      b ← load8 st src;
      st ← store8 st dst b;
      memcpy_loop n' st (wrap (dst + 1)) (wrap (src + 1))
  end.

Definition memcpy (st : state) (dst src n : Z) : res state :=
  memcpy_loop (Z.to_nat n) st dst src.

Definition mm_realloc (fuel : nat) (st : state) (ptr size : Z) : res (state * Z) :=
  let size := ALIGN size in
  let newbsize := wrap (size + DSIZE) in
  oldbsize ← GET_SIZE st (HDRP ptr);
  let bp := ptr in
  if ptr =? NULL then mm_malloc fuel st size
  else if int_negative size then Ok (st, NULL)
  else if wrap size =? 0 then
    st ← mm_free st ptr;
    Ok (st, NULL)
  else if newbsize =? oldbsize then Ok (st, ptr)
  else if oldbsize >? newbsize then
    if wrap (oldbsize - newbsize) <=? 2 * DSIZE then Ok (st, ptr)
    else
      st ← PUT st (HDRP ptr) (PACK newbsize 1);
      f ← FTRP st ptr;
      st ← PUT st f (PACK newbsize 1);
      fin ← NEXT_BLKP st ptr;
      st ← PUT st (HDRP fin) (PACK (wrap (oldbsize - newbsize)) 0);
      f ← FTRP st fin;
      st ← PUT st f (PACK (wrap (oldbsize - newbsize)) 0);
      st ← ADD_free st fin (wrap (oldbsize - newbsize));
      Ok (st, ptr)
  else
    blocksize ← GET_SIZE st (HDRP bp);
    next ← NEXT_BLKP st bp;
    n_status ← GET_ALLOC st (HDRP next);
    sz1 ← GET_SIZE st (HDRP bp);
    next ← NEXT_BLKP st bp;
    sz2 ← GET_SIZE st (HDRP next);
    let newoldbsize := wrap (sz1 + sz2) in
    if (n_status =? 0) && (newoldbsize >=? newbsize) then
      next ← NEXT_BLKP st bp;
      st ← deletefree st next;
      next ← NEXT_BLKP st bp;
      nsz ← GET_SIZE st (HDRP next);
      let blocksize := wrap (blocksize + nsz) in
      st ← PUT st (HDRP bp) (PACK blocksize 0);
      f ← FTRP st bp;
      st ← PUT st f (PACK blocksize 0);
      if wrap (newoldbsize - newbsize) <? 2 * DSIZE then
        st ← PUT st (HDRP bp) (PACK newoldbsize 1);
        f ← FTRP st bp;
        st ← PUT st f (PACK newoldbsize 1);
        Ok (st, bp)
      else
        st ← PUT st (HDRP bp) (PACK newbsize 1);
        f ← FTRP st bp;
        st ← PUT st f (PACK newbsize 1);
        fin ← NEXT_BLKP st bp;
        st ← PUT st (HDRP fin) (PACK (wrap (newoldbsize - newbsize)) 0);
        f ← FTRP st fin;
        st ← PUT st f (PACK (wrap (newoldbsize - newbsize)) 0);
        st ← ADD_free st fin (wrap (newoldbsize - newbsize));
        Ok (st, ptr)
    else
      '(st, newblockptr) ← mm_malloc fuel st newbsize;
      if newblockptr =? NULL then Ok (st, NULL)
      else
        st ← memcpy st newblockptr ptr newbsize;
        st ← mm_free st ptr;
        Ok (st, newblockptr).

(** ** The heap consistency checker

    [printf] is modelled by appending the message to [out]. *)

Record checker : Type := mkChecker {
  check : Z;
  numcount : Z;
  count : Z;
  c : Z;
  out : list string
}.

Definition msg_not_free : string :=
  "Test failed : block in the free list is not free. ".
Definition msg_contiguous : string :=
  "Test failed : Contigous blocks of memory detected in the heap. ".
Definition msg_overlap : string :=
  "Test failed : ALLOCATED BLOCKS ARE OVERLAPPING".
Definition msg_too_small : string :=
  "Test failed : ALLOCATED BLOCK SIZE IS LESS THAN THE MINIMUM BLOCK SIZE OF 16 BYTES".
Definition msg_count : string :=
  "Test failed : Number of blocks in the free list does not match the number of free blocks in the heap".

(** [check = 0; printf(msg);] *)
Definition fail_with (k : checker) (msg : string) : checker :=
  mkChecker 0 (numcount k) (count k) (c k) (out k ++ [msg]).

Definition incr_numcount (k : checker) : checker :=
  mkChecker (check k) (numcount k + 1) (count k) (c k) (out k).

Definition incr_count (k : checker) : checker :=
  mkChecker (check k) (numcount k) (count k + 1) (c k) (out k).

Definition incr_c (k : checker) : checker :=
  mkChecker (check k) (numcount k) (count k) (c k + 1) (out k).

(** The allocation test on a block of a free list. *)
Definition check_marked_free (st : state) (bp : Z) (k : checker) : res checker :=
  a ← GET_ALLOC st (HDRP bp);
  if negb (a =? 0) then Ok (fail_with k msg_not_free) else Ok k.

(** The contiguous-free-blocks test on a block of a free list. *)
Definition check_contiguous (st : state) (bp : Z) (k : checker) : res checker :=
  prev ← PREV_BLKP st bp;
  p_status ← GET_ALLOC st (HDRP prev);
  next ← NEXT_BLKP st bp;
  n_status ← GET_ALLOC st (HDRP next);
  if (p_status =? 0) || (n_status =? 0)
  then Ok (fail_with k msg_contiguous) else Ok k.

(** The body of the inner [for] loop. *)
Definition check_list_body (st : state) (bp : Z) (k : checker) : res checker :=
  let k := incr_numcount k in
  k ← check_marked_free st bp k;
  check_contiguous st bp k.

(** [for (bp = ...; bp != NULL; bp = GET_NPTR(bp))] *)
Fixpoint check_list (fuel : nat) (st : state) (bp : Z) (k : checker) : res checker :=
  match fuel with
  | O => OutOfFuel
  | S fuel' =>
      if bp =? NULL then Ok k
      else
        k ← check_list_body st bp k;
        nxt ← GET_NPTR st bp;
        check_list fuel' st nxt k
  end.

(** [for (seglistnum = 0; seglistnum < numlists; seglistnum++)] *)
Fixpoint check_lists (n : nat) (fuel : nat) (st : state) (seglistnum : Z)
    (k : checker) : res checker :=
  match n with
  | O => Ok k
  | S n' =>
      if seglistnum <? numlists then
        bp ← GETfreelistp st seglistnum;
        k ← check_list fuel st bp k;
        check_lists n' fuel st (seglistnum + 1) k
      else Ok k
  end.

(** The overlap test of the heap walk. *)
Definition check_overlap (st : state) (blockpointer : Z) (k : checker) : res checker :=
  f ← FTRP st blockpointer;
  next ← NEXT_BLKP st blockpointer;
  if f >? HDRP next then Ok (fail_with k msg_overlap) else Ok k.

(** The minimum-size test of the heap walk; [&&] does not read the header
    when [c] is 0. *)
Definition check_min_size (st : state) (blockpointer : Z) (k : checker) : res checker :=
  if c k >? 0 then
    sz ← GET_SIZE st (HDRP blockpointer);
    if sz <? 16 then Ok (fail_with k msg_too_small) else Ok k
  else Ok k.

(** [while (GET_SIZE(HDRP(blockpointer)) != 0)] *)
Fixpoint check_walk (fuel : nat) (st : state) (blockpointer : Z) (k : checker)
    : res checker :=
  match fuel with
  | O => OutOfFuel
  | S fuel' =>
      sz ← GET_SIZE st (HDRP blockpointer);
      if negb (sz =? 0) then
        a ← GET_ALLOC st (HDRP blockpointer);
        let k := if a =? 0 then incr_count k else k in
        k ← check_overlap st blockpointer k;
        k ← check_min_size st blockpointer k;
        next ← NEXT_BLKP st blockpointer;
        check_walk fuel' st next (incr_c k)
      else Ok k
  end.

(** [mm_check] returns its [int] result together with what it printed. *)
Definition mm_check (fuel : nat) (st : state) : res (Z * list string) :=
  let k := mkChecker 1 0 0 0 [] in
  k ← check_lists 12 fuel st 0 k;
  k ← check_walk fuel st (heap_listp st) k;
  let k := if negb (count k =? numcount k) then fail_with k msg_count else k in
  if negb (check k =? 0) then Ok (1, out k) else Ok (0, out k).

(** * Specification-side notions *)

(** Two states that differ in memory contents only. *)
Definition same_regs (st st' : state) : Prop :=
  mem_start_brk st' = mem_start_brk st ∧ mem_brk st' = mem_brk st ∧
  mem_max_addr st' = mem_max_addr st ∧ heap_listp st' = heap_listp st ∧
  freelist_p st' = freelist_p st.

(** [st'] has the bytes of [st] at every address that satisfies [keep]. *)
Definition frame (keep : Z → Prop) (st st' : state) : Prop :=
  same_regs st st' ∧ ∀ a, keep a → raw_at st' a = raw_at st a.

(** The bytes of the word at [f] are [f .. f+3]. *)
Definition outside_word (f a : Z) : Prop := a < f ∨ f + 4 <= a.

(** ** Concrete heaps used in examples

    The provider starts with an empty region at address 65536 and one
    mebibyte of memory behind it. *)

Definition st_fresh : state := mkState ∅ 65536 65536 (65536 + 2 ^ 20) 0 0.

Definition state_of {A} (r : res (state * A)) : state :=
  match r with Ok (st, _) => st | _ => st_fresh end.

Definition value_of (r : res (state * Z)) : Z :=
  match r with Ok (_, p) => p | _ => -1 end.

Definition state_or_fresh (r : res state) : state :=
  match r with Ok st => st | _ => st_fresh end.

Definition succeeded {A} (r : res A) : bool :=
  match r with Ok _ => true | _ => false end.

(** The heap right after [mm_init()]. *)
Definition st_init : state := state_of (mm_init st_fresh).

(** What the caller does with a payload pointer: write and read bytes. *)
Fixpoint write_bytes (st : state) (a : Z) (bs : list byte) : res state :=
  match bs with
  | [] => Ok st
  | b :: bs' => st ← store8 st a b; write_bytes st (a + 1) bs'
  end.

Fixpoint read_bytes (n : nat) (st : state) (a : Z) : res (list byte) :=
  match n with
  | O => Ok []
  | S n' => b ← load8 st a; bs ← read_bytes n' st (a + 1); Ok (b :: bs)
  end.

(** The heap after [mm_init(); mm_malloc(24)]: the first free block is used
    whole, so the last block before the epilogue is allocated. *)
Definition st_full : state := state_of (mm_malloc 64 st_init 24).

(** Sixteen bytes to store through a pointer. *)
Definition sample_bytes : list byte :=
  map (λ i, byte_of_Z (Z.of_nat i + 65)) (seq 0 16).

(** The checker's variables at its entry. *)
Definition checker_start : checker := mkChecker 1 0 0 0 [].

(** ** The contiguity test as the specification words it *)

(** The test on [bp] reports a failure: it clears the flag and prints. *)
Definition reports_contiguous (st : state) (bp : Z) (k : checker) : Prop :=
  check_contiguous st bp k = Ok (fail_with k msg_contiguous).

(** The allocation bits of the two physical neighbours of [bp]. *)
Definition neighbour_bits (st : state) (bp : Z) (p_status n_status : Z) : Prop :=
  (∃ prev, PREV_BLKP st bp = Ok prev ∧ GET_ALLOC st (HDRP prev) = Ok p_status) ∧
  (∃ next, NEXT_BLKP st bp = Ok next ∧ GET_ALLOC st (HDRP next) = Ok n_status).

(** The reading of the open-questions note: failure exactly when a neighbour
    is allocated. *)
Definition reports_when_neighbour_allocated (st : state) (bp : Z) (k : checker) : Prop :=
  ∀ p_status n_status, neighbour_bits st bp p_status n_status →
    (reports_contiguous st bp k ↔ (p_status = 1 ∨ n_status = 1)).

(** ** The fallback path of [mm_realloc] *)

(** The tests of [mm_realloc] that lead to its last [else] branch: a non-null
    pointer, a positive size, a block smaller than required, and a next block
    that is allocated or too small to make up the difference. *)
Definition takes_fallback (st : state) (ptr n : Z) : Prop :=
  let size := ALIGN n in
  let newbsize := wrap (size + DSIZE) in
  ptr ≠ NULL ∧ int_negative size = false ∧ wrap size ≠ 0 ∧
  ∃ oldbsize next n_status nsz,
    GET_SIZE st (HDRP ptr) = Ok oldbsize ∧
    NEXT_BLKP st ptr = Ok next ∧
    GET_ALLOC st (HDRP next) = Ok n_status ∧
    GET_SIZE st (HDRP next) = Ok nsz ∧
    oldbsize < newbsize ∧
    ¬ (n_status = 0 ∧ newbsize <= wrap (oldbsize + nsz)).

(** Allocate, copy [required] bytes, free the old block. *)
Definition realloc_fallback (fuel : nat) (st : state) (ptr required : Z)
    : res (state * Z) :=
  '(st, q) ← mm_malloc fuel st required;
  if q =? NULL then Ok (st, NULL)
  else
    st ← memcpy st q ptr required;
    st ← mm_free st ptr;
    Ok (st, q).

(** ** Heap extension as the specification words it

    Round [words] up to even, request [words * WSIZE] bytes, return null on
    failure, overlay a free header and footer of that size, write the new
    epilogue, return [coalesce] of the new block. *)
Definition extend_heap_as_specified (st : state) (words : Z) : res (state * Z) :=
  let size := if negb (words mod 2 =? 0)
              then wrap ((words + 1) * WSIZE) else wrap (words * WSIZE) in
  let '(st, bp) := mem_sbrk st size in
  if bp =? SBRK_FAILED then Ok (st, NULL)
  else
    st ← PUT st (HDRP bp) (PACK size 0);
    st ← PUT st (wrap (bp + size - DSIZE)) (PACK size 0);
    st ← PUT st (wrap (bp + size - WSIZE)) (PACK 0 1);
    coalesce st bp.

(** ** Free lists as the specification sees them *)

(** [free_chain st h bl]: following [GET_NPTR] from [h] visits the blocks of
    [bl] in order, each with the size recorded next to it, and then reaches
    null. *)
Fixpoint free_chain (st : state) (h : Z) (bl : list (Z * Z)) : Prop :=
  match bl with
  | [] => h = NULL
  | (b, s) :: bl' =>
      h = b ∧ b ≠ NULL ∧ GET_SIZE st (HDRP b) = Ok s ∧
      ∃ n, GET_NPTR st b = Ok n ∧ free_chain st n bl'
  end.

(** The first block of [bl] whose size is at least [size], or null. *)
Definition first_fit (size : Z) (bl : list (Z * Z)) : Z :=
  match List.find (λ bs, size <=? snd bs) bl with
  | Some bs => fst bs
  | None => NULL
  end.

(** [dllseg st pp h l t]: [l] is a doubly-linked segment that starts at [h],
    whose first block points back to [pp] and whose last block points on to
    [t]. *)
Fixpoint dllseg (st : state) (pp h : Z) (l : list Z) (t : Z) : Prop :=
  match l with
  | [] => h = t
  | b :: l' =>
      h = b ∧ b ≠ NULL ∧ GET_PPTR st b = Ok pp ∧
      ∃ n, GET_NPTR st b = Ok n ∧ dllseg st b n l' t
  end.

Definition dll (st : state) (h : Z) (l : list Z) : Prop :=
  dllseg st NULL h l NULL.

(** The bytes of the directory, and the bytes of the two link words of a
    block. *)
Definition in_directory (st : state) (a : Z) : Prop :=
  freelist_p st <= a < freelist_p st + 4 * numlists.

Definition in_cells (b a : Z) : Prop := b <= a < b + 8.

(** A payload pointer that can sit on a free list: aligned, above the
    directory, with its two link words inside the provider's memory. *)
Definition placed (st : state) (b : Z) : Prop :=
  b mod 8 = 0 ∧ freelist_p st + 4 * numlists <= b ∧ b + 8 <= mem_max_addr st.

(** The provider's memory lies strictly inside the 32-bit address space,
    above null, and holds the directory. *)
Definition sane (st : state) : Prop :=
  0 < mem_start_brk st ∧ mem_max_addr st < 2 ^ 32 ∧
  mem_start_brk st <= freelist_p st ∧
  freelist_p st + 4 * numlists <= mem_max_addr st.

(** The link words of [b] are the same in both states. *)
Definition cells_same (st st' : state) (b : Z) : Prop :=
  GET_PPTR st' b = GET_PPTR st b ∧ GET_NPTR st' b = GET_NPTR st b.

(** The twelve lists [L 0 .. L 11] are laid out in memory: every head is in
    its directory slot, every list is doubly linked and ends in null, and no
    block occurs twice. *)
Record lists_ok (st : state) (L : Z → list Z) : Prop := mkListsOk {
  lo_sane : sane st;
  lo_heads : ∀ k, 0 <= k < numlists →
             ∃ h, GETfreelistp st k = Ok h ∧ dll st h (L k);
  lo_placed : ∀ k b, 0 <= k < numlists → List.In b (L k) → placed st b;
  lo_nodup : ∀ k, 0 <= k < numlists → List.NoDup (L k);
  lo_disjoint : ∀ k k' b, 0 <= k < numlists → 0 <= k' < numlists →
                List.In b (L k) → List.In b (L k') → k = k'
}.

(** Bytes that belong neither to the directory nor to the link words of a
    listed block. *)
Definition untouched (st : state) (L : Z → list Z) (a : Z) : Prop :=
  ¬ in_directory st a ∧
  ∀ k b, 0 <= k < numlists → List.In b (L k) → ¬ in_cells b a.

(** Inserting at the head of list [k], and removing from list [k]. *)
Definition L_ins (k b : Z) (L : Z → list Z) : Z → list Z :=
  λ j, if j =? k then b :: L j else L j.

Definition L_del (k b : Z) (L : Z → list Z) : Z → list Z :=
  λ j, if j =? k then List.remove Z.eq_dec b (L j) else L j.

(** ** Coalescing as the specification sees it *)

(** The block that [coalesce(bp)] produces, given the size [sz] of the block
    at [bp], the size [psz] and allocation bit [pa] of the previous block and
    the size [nsz] and allocation bit [na] of the next one. *)
Definition merged_start (bp psz pa : Z) : Z :=
  if pa =? 0 then bp - psz else bp.

Definition merged_size (sz psz pa nsz na : Z) : Z :=
  (if pa =? 0 then psz else 0) + sz + (if na =? 0 then nsz else 0).

(** The free lists after [coalesce(bp)]: the free neighbours leave the lists
    of their size classes and the merged block enters the list of its own. *)
Definition merged_lists (L : Z → list Z) (bp sz psz pa nsz na : Z) : Z → list Z :=
  let L1 := if pa =? 0 then L_del (list_num psz) (bp - psz) L else L in
  let L2 := if na =? 0 then L_del (list_num nsz) (bp + sz) L1 else L1 in
  L_ins (list_num (merged_size sz psz pa nsz na)) (merged_start bp psz pa) L2.

(** The situation in which [mm_free] and [extend_heap] call [coalesce(bp)]:
    the block at [bp] carries a free header and footer of size [sz] and is on
    no list; its neighbours are found through the boundary tags; a free
    neighbour has matching tags and sits on the list of its size class; the
    other listed blocks lie outside the blocks involved. *)
Record just_freed (st : state) (L : Z → list Z) (bp sz psz pa nsz na : Z)
    : Prop := mkJustFreed {
  jf_lists : lists_ok st L;
  jf_aligned : bp mod 8 = 0;
  jf_size : 16 <= sz ∧ sz mod 8 = 0;
  jf_header : GET st (bp - 4) = Ok sz;
  jf_footer : GET st (bp + sz - 8) = Ok sz;
  jf_prev_footer : GET_SIZE st (bp - 8) = Ok psz;
  jf_prev_alloc : GET_ALLOC st (bp - psz - 4) = Ok pa;
  jf_next_alloc : GET_ALLOC st (bp + sz - 4) = Ok na;
  jf_prev_free :
    pa = 0 →
    16 <= psz ∧ GET_SIZE st (bp - psz - 4) = Ok psz ∧
    List.In (bp - psz) (L (list_num psz));
  jf_next_free :
    na = 0 →
    16 <= nsz ∧ GET_SIZE st (bp + sz - 4) = Ok nsz ∧
    GET_SIZE st (bp + sz + nsz - 8) = Ok nsz ∧
    List.In (bp + sz) (L (list_num nsz));
  jf_low : freelist_p st + 4 * numlists + 4 <= bp - psz;
  jf_high : bp + sz + (if na =? 0 then nsz else 0) <= mem_max_addr st;
  jf_others :
    ∀ j m, 0 <= j < numlists → List.In m (L j) →
      (pa = 0 ∧ m = bp - psz) ∨ (na = 0 ∧ m = bp + sz) ∨
      m + 8 <= merged_start bp psz pa - 4 ∨
      merged_start bp psz pa + merged_size sz psz pa nsz na - 4 <= m
}.

(** A word inside the merged block that is not a link word of a free
    neighbour: a boundary tag. *)
Definition tag_word (bp sz psz pa nsz na t : Z) : Prop :=
  merged_start bp psz pa - 4 <= t ∧
  t + 4 <= merged_start bp psz pa + merged_size sz psz pa nsz na - 4 ∧
  (pa = 0 → t + 4 <= bp - psz ∨ bp - psz + 8 <= t) ∧
  (na = 0 → t + 4 <= bp + sz ∨ bp + sz + 8 <= t).

(** What [coalesce(bp)] leaves behind: it returns the start of the merged
    block, the lists are those of [merged_lists], the merged block carries a
    free header and footer of the merged size, and every byte outside the
    directory, the link words of listed blocks and the merged block is as
    before. *)
Definition coalesced (st : state) (L : Z → list Z) (bp sz psz pa nsz na : Z)
    (st' : state) (r : Z) : Prop :=
  let tot := merged_size sz psz pa nsz na in
  r = merged_start bp psz pa ∧
  lists_ok st' (merged_lists L bp sz psz pa nsz na) ∧
  GET st' (r - 4) = Ok tot ∧
  GET st' (r + tot - 8) = Ok tot ∧
  frame (λ a, untouched st L a ∧ (a < r - 4 ∨ r + tot - 4 <= a)) st st'.

(** The statements of [mm_free] that precede its call of [coalesce]: the
    footer and the header of the block are rewritten with the allocation bit
    clear. *)
Definition mark_free (st : state) (ptr : Z) : res state :=
  blocksize ← GET_SIZE st (HDRP ptr);
  f ← FTRP st ptr;
  st ← PUT st f (PACK blocksize 0);
  PUT st (HDRP ptr) (PACK blocksize 0).

(** Four allocations of 16 bytes [a], [b], [c], [d] at 65600, 65624, 65648
    and 65672; then [a] and [c] are freed; then [b] is marked free. *)
Definition st_four : state :=
  let st := state_of (mm_malloc 64 st_init 16) in
  let st := state_of (mm_malloc 64 st 16) in
  let st := state_of (mm_malloc 64 st 16) in
  state_of (mm_malloc 64 st 16).

Definition st_holes : state :=
  state_or_fresh (mm_free (state_or_fresh (mm_free st_four 65600)) 65648).

Definition st_marked : state := state_or_fresh (mark_free st_holes 65624).

(** The free lists of [st_holes] and [st_marked]. *)
Definition L_holes : Z → list Z :=
  λ k, if k =? 4 then [65648; 65600] else if k =? 6 then [65696] else [].

(** ** The end of the heap as the specification sees it *)

(** The heap ends at [mem_brk]: the word before it is the epilogue header,
    the block before that has size [psz] and allocation bit [pa], and, when
    it is free, matching tags and a place on the list of its size class; all
    the other listed blocks lie below it. *)
Record heap_tail (st : state) (L : Z → list Z) (psz pa : Z) : Prop := mkHeapTail {
  ht_lists : lists_ok st L;
  ht_brk : mem_brk st mod 8 = 0;
  ht_prev_footer : GET_SIZE st (mem_brk st - 8) = Ok psz;
  ht_prev_size : 8 <= psz;
  ht_prev_alloc : GET_ALLOC st (mem_brk st - psz - 4) = Ok pa;
  ht_prev_free :
    pa = 0 →
    16 <= psz ∧ GET_SIZE st (mem_brk st - psz - 4) = Ok psz ∧
    List.In (mem_brk st - psz) (L (list_num psz));
  ht_low : freelist_p st + 4 * numlists + 4 <= mem_brk st - psz;
  ht_others :
    ∀ j m, 0 <= j < numlists → List.In m (L j) →
      (pa = 0 ∧ m = mem_brk st - psz) ∨
      m + 8 <= merged_start (mem_brk st) psz pa - 4
}.

(** A provider with room for the initial heap only, initialised. *)
Definition st_tight : state :=
  state_of (mm_init (mkState ∅ 65536 65536 (65536 + 96) 0 0)).

(** The free lists right after [mm_init]: one block of 32 bytes. *)
Definition L_init : Z → list Z := λ k, if k =? 5 then [65600] else [].

(** ** Further macros *)

(** [ROUND8(p)]: [(p%8) ? p + 8 - (p%8) : p], on a 32-bit unsigned [p]. *)
Definition ROUND8 (p : Z) : Z :=
  if negb (p mod 8 =? 0) then wrap (wrap (p + 8) - p mod 8) else p.

(** The checker's flag and its output agree: the flag is still set and
    nothing was printed, or it is cleared and something was. *)
Definition flag_matches_output (k : checker) : Prop :=
  (check k = 1 ∧ out k = []) ∨ (check k = 0 ∧ out k ≠ []).

(** ** Blocks on the free lists *)

(** A free block of size [csize] at [bp], as [place] finds it: its header
    records the size, it sits on the list of its size class, it lies above
    the directory and inside the provider's memory, and no other listed
    block has its link words inside it. *)
Record free_block (st : state) (L : Z → list Z) (bp csize : Z) : Prop := mkFreeBlock {
  fb_lists : lists_ok st L;
  fb_aligned : bp mod 8 = 0;
  fb_size : 16 <= csize ∧ csize mod 8 = 0;
  fb_header : GET st (bp - 4) = Ok csize;
  fb_listed : List.In bp (L (list_num csize));
  fb_low : freelist_p st + 4 * numlists + 4 <= bp;
  fb_high : bp + csize <= mem_max_addr st;
  fb_others :
    ∀ j m, 0 <= j < numlists → List.In m (L j) →
      m = bp ∨ m + 8 <= bp - 4 ∨ bp + csize - 4 <= m
}.

(** The part of the block that [place(bp, asize)] marks allocated: [asize]
    bytes when at least 16 bytes are left over, the whole block otherwise. *)
Definition placed_size (csize asize : Z) : Z :=
  if 16 <=? csize - asize then asize else csize.

(** The free lists after [place(bp, asize)]: the block leaves the list of
    its class, and a remainder of at least 16 bytes enters the list of its
    own class. *)
Definition placed_lists (L : Z → list Z) (bp csize asize : Z) : Z → list Z :=
  let L1 := L_del (list_num csize) bp L in
  if 16 <=? csize - asize
  then L_ins (list_num (csize - asize)) (bp + asize) L1
  else L1.

(** ** The heap as a sequence of blocks

    Between the prologue and the epilogue the heap is a sequence of blocks,
    each described by its size and its allocation bit. *)

(** The bytes that a sequence of blocks covers. *)
Fixpoint span (bl : list (Z * Z)) : Z :=
  match bl with
  | [] => 0
  | (s, _) :: bl' => s + span bl'
  end.

(** The blocks of a sequence laid out from address [p] on, each with its
    payload pointer. *)
Fixpoint blocks_from (p : Z) (bl : list (Z * Z)) : list (Z * (Z * Z)) :=
  match bl with
  | [] => []
  | (s, a) :: bl' => (p, (s, a)) :: blocks_from (p + s) bl'
  end.

(** The memory holds the sequence [bl] from payload pointer [p] on: every
    block is at least 16 bytes and a multiple of 8, and carries its size and
    allocation bit in its header and in its footer. *)
Fixpoint tiles (st : state) (p : Z) (bl : list (Z * Z)) : Prop :=
  match bl with
  | [] => True
  | (s, a) :: bl' =>
      16 <= s ∧ s mod 8 = 0 ∧ (a = 0 ∨ a = 1) ∧
      GET st (p - 4) = Ok (s + a) ∧ GET st (p + s - 8) = Ok (s + a) ∧
      tiles st (p + s) bl'
  end.

(** The payload pointer of the first block after the prologue. *)
Definition first_block (st : state) : Z := heap_listp st + 8.

(** The blocks of the heap with their payload pointers. *)
Definition heap_blocks (st : state) (bl : list (Z * Z)) : list (Z * (Z * Z)) :=
  blocks_from (first_block st) bl.

(** The heap invariant: the free lists are well formed; the directory is
    followed by the padding word, the prologue block, the blocks [bl], and
    the epilogue header, which ends the region handed out by the provider;
    and the listed blocks are exactly the free blocks of [bl], each on the
    list of its size class. *)
Record heap_ok (st : state) (L : Z → list Z) (bl : list (Z * Z)) : Prop := mkHeapOk {
  hk_lists : lists_ok st L;
  hk_aligned : freelist_p st mod 8 = 0;
  hk_listp : heap_listp st = freelist_p st + 4 * numlists + 8;
  hk_prologue : GET st (heap_listp st - 4) = Ok 9 ∧ GET st (heap_listp st) = Ok 9;
  hk_tiles : tiles st (first_block st) bl;
  hk_brk : mem_brk st = first_block st + span bl;
  hk_room : mem_brk st <= mem_max_addr st;
  hk_epilogue : GET st (mem_brk st - 4) = Ok 1;
  hk_listed : ∀ m s, List.In (m, (s, 0)) (heap_blocks st bl) →
                     List.In m (L (list_num s));
  hk_free : ∀ k m, 0 <= k < numlists → List.In m (L k) →
                   ∃ s, List.In (m, (s, 0)) (heap_blocks st bl)
}.

(** The part of the invariant that does not say which free blocks are
    listed: only that every listed block is a free block. *)
Record heap_shape (st : state) (L : Z → list Z) (bl : list (Z * Z)) : Prop := mkHeapShape {
  hs_lists : lists_ok st L;
  hs_aligned : freelist_p st mod 8 = 0;
  hs_listp : heap_listp st = freelist_p st + 4 * numlists + 8;
  hs_prologue : GET st (heap_listp st - 4) = Ok 9 ∧ GET st (heap_listp st) = Ok 9;
  hs_tiles : tiles st (first_block st) bl;
  hs_brk : mem_brk st = first_block st + span bl;
  hs_room : mem_brk st <= mem_max_addr st;
  hs_epilogue : GET st (mem_brk st - 4) = Ok 1;
  hs_free : ∀ k m, 0 <= k < numlists → List.In m (L k) →
                   ∃ s, List.In (m, (s, 0)) (heap_blocks st bl)
}.

(** No two physically adjacent blocks are both free. *)
Fixpoint no_adjacent_free (bl : list (Z * Z)) : Prop :=
  match bl with
  | [] => True
  | (_, a) :: bl' =>
      match bl' with
      | [] => True
      | (_, a') :: _ => ¬ (a = 0 ∧ a' = 0)
      end ∧ no_adjacent_free bl'
  end.

(** From [(st, bl)] to [(st', bl')] every allocated block stays where it
    is, with its size and with every byte of its payload. *)
Definition keeps_allocated (st : state) (bl : list (Z * Z))
    (st' : state) (bl' : list (Z * Z)) : Prop :=
  ∀ q t, List.In (q, (t, 1)) (heap_blocks st bl) →
    List.In (q, (t, 1)) (heap_blocks st' bl') ∧
    ∀ a, q <= a < q + t - 8 → raw_at st' a = raw_at st a.

(** The free lists of a heap without free blocks. *)
Definition L_none : Z → list Z := λ _, [].

(** A word that is neither in the directory nor in a link word of a listed
    block. *)
Definition clear_word (st : state) (L : Z → list Z) (t : Z) : Prop :=
  freelist_p st + 4 * numlists <= t ∧
  ∀ j m, 0 <= j < numlists → List.In m (L j) → t + 4 <= m ∨ m + 8 <= t.

(** A sequence that starts, or ends, with a free block. *)
Definition head_free (l : list (Z * Z)) : Prop := ∃ s l', l = (s, 0) :: l'.
Definition last_free (l : list (Z * Z)) : Prop := ∃ s l', l = l' ++ [(s, 0)].

(** The heap as [coalesce] finds it: the blocks are [l1], a block of size
    [s], and [l2]; the block in the middle carries free tags but is on no
    list yet, and every other free block is listed. *)
Record heap_pending (st : state) (L : Z → list Z) (l1 : list (Z * Z)) (s : Z)
    (l2 : list (Z * Z)) : Prop := mkHeapPending {
  hp_lists : lists_ok st L;
  hp_aligned : freelist_p st mod 8 = 0;
  hp_listp : heap_listp st = freelist_p st + 4 * numlists + 8;
  hp_prologue : GET st (heap_listp st - 4) = Ok 9 ∧ GET st (heap_listp st) = Ok 9;
  hp_tiles : tiles st (first_block st) (l1 ++ (s, 0) :: l2);
  hp_brk : mem_brk st = first_block st + span (l1 ++ (s, 0) :: l2);
  hp_room : mem_brk st <= mem_max_addr st;
  hp_epilogue : GET st (mem_brk st - 4) = Ok 1;
  hp_listed : ∀ m s', List.In (m, (s', 0)) (heap_blocks st (l1 ++ (s, 0) :: l2)) →
                      m ≠ first_block st + span l1 → List.In m (L (list_num s'));
  hp_free : ∀ k m, 0 <= k < numlists → List.In m (L k) →
                   ∃ s', List.In (m, (s', 0)) (heap_blocks st (l1 ++ (s, 0) :: l2)) ∧
                         m ≠ first_block st + span l1
}.

(** A free neighbour that takes part in a merge, as a sequence of zero or
    one block. *)
Definition free_part (a sz : Z) : list (Z * Z) :=
  if a =? 0 then [(sz, 0)] else [].

(** From [(st, bl)] to [(st', bl')] every allocated block other than the
    one at [p] stays where it is, with its size and its payload. *)
Definition keeps_others (p : Z) (st : state) (bl : list (Z * Z))
    (st' : state) (bl' : list (Z * Z)) : Prop :=
  ∀ q t, List.In (q, (t, 1)) (heap_blocks st bl) → q ≠ p →
    List.In (q, (t, 1)) (heap_blocks st' bl') ∧
    ∀ a, q <= a < q + t - 8 → raw_at st' a = raw_at st a.

(** Every allocated block of [(st', bl')] other than the one at [r] was
    already allocated in [(st, bl)]. *)
Definition allocates_only (r : Z) (st : state) (bl : list (Z * Z))
    (st' : state) (bl' : list (Z * Z)) : Prop :=
  ∀ q t, List.In (q, (t, 1)) (heap_blocks st' bl') → q ≠ r →
    List.In (q, (t, 1)) (heap_blocks st bl).

(** The members of the lists [num], [num + 1], ... ([n] of them), one list
    after the other, and the free blocks of a sequence. *)
Fixpoint all_listed (L : Z → list Z) (n : nat) (num : Z) : list Z :=
  match n with
  | O => []
  | S n' => L num ++ all_listed L n' (num + 1)
  end.

Definition free_blocks (bl : list (Z * Z)) : list (Z * Z) :=
  List.filter (λ b, snd b =? 0) bl.

(** The checker's variables after it has counted [n] more listed blocks,
    and after it has walked over [bl]. *)
Definition counted (k : checker) (n : nat) : checker :=
  mkChecker (check k) (numcount k + Z.of_nat n) (count k) (c k) (out k).

Definition walked (k : checker) (bl : list (Z * Z)) : checker :=
  mkChecker (check k) (numcount k)
            (count k + Z.of_nat (length (free_blocks bl)))
            (c k + Z.of_nat (length bl)) (out k).

(** The checker's variables after it has counted [n] more listed blocks of
    which [j] had a free neighbour: each of those cleared the flag and
    printed the contiguity diagnostic. *)
Definition reported (k : checker) (n j : nat) : checker :=
  mkChecker (match j with O => check k | S _ => 0 end)
            (numcount k + Z.of_nat n) (count k) (c k)
            (out k ++ repeat msg_contiguous j).

(** ** Clients

    The states a client can bring the allocator to, together with the blocks
    the client holds (pointer and requested size): it initialises the
    allocator, asks for blocks, stores bytes into the blocks it holds, and
    gives blocks back. *)
Inductive reaches (st0 : state) : state → list (Z * Z) → Prop :=
| reach_init st :
    mm_init st0 = Ok (st, 0) → reaches st0 st []
| reach_malloc st live fuel n st' r :
    reaches st0 st live → 0 < n → n + 15 < 2 ^ 32 →
    mm_malloc fuel st n = Ok (st', r) →
    reaches st0 st' (if r =? NULL then live else (r, n) :: live)
| reach_store st live p n a v st' :
    reaches st0 st live → List.In (p, n) live → p <= a < p + n →
    store8 st a v = Ok st' →
    reaches st0 st' live
| reach_free st live p n st' :
    reaches st0 st live → List.In (p, n) live →
    mm_free st p = Ok st' →
    reaches st0 st' (List.filter (λ x, negb (fst x =? p)) live).

(** What holds in every such state: the heap invariant, no two adjacent
    free blocks, and every block the client holds is a distinct allocated
    block with room for the requested bytes. *)
Definition client_ok (st : state) (live : list (Z * Z)) : Prop :=
  ∃ L bl, heap_ok st L bl ∧ no_adjacent_free bl ∧
          List.NoDup (map fst live) ∧
          ∀ p n, List.In (p, n) live →
                 ∃ t, List.In (p, (t, 1)) (heap_blocks st bl) ∧ n + 8 <= t.

(** The heap after [mm_init(); mm_malloc(100)]: an allocated block of 112
    bytes at 65600 and a free block of 32 bytes at 65712. *)
Definition st_hundred : state := state_of (mm_malloc 64 st_init 100).

Definition L_hundred : Z → list Z := λ k, if k =? 5 then [65712] else [].

(** The blocks of [st_holes]. *)
Definition bl_holes : list (Z * Z) := [(24, 0); (24, 1); (24, 0); (24, 1); (64, 0)].

(** A provider with 152 bytes, used to the brim:
    [mm_init(); a = mm_malloc(48); b = mm_malloc(24); mm_free(a)] leaves a
    free block of 56 bytes at 65600 and the allocated block [b] of 32 bytes
    at 65656, which ends at the end of the provider's memory. *)
Definition st_brim : state :=
  let st := state_of (mm_init (mkState ∅ 65536 65536 (65536 + 152) 0 0)) in
  let st := state_of (mm_malloc 64 st 48) in
  let st := state_of (mm_malloc 64 st 24) in
  state_or_fresh (mm_free st 65600).

(** The same with [mm_realloc] among the calls: a block the client holds
    is resized to a size that is positive after rounding; a null result
    leaves the client with the old block, any other result replaces it. *)
Inductive reaches_with_realloc (st0 : state) : state → list (Z * Z) → Prop :=
| rr_init st :
    mm_init st0 = Ok (st, 0) → reaches_with_realloc st0 st []
| rr_malloc st live fuel n st' r :
    reaches_with_realloc st0 st live → 0 < n → n + 15 < 2 ^ 32 →
    mm_malloc fuel st n = Ok (st', r) →
    reaches_with_realloc st0 st' (if r =? NULL then live else (r, n) :: live)
| rr_store st live p n a v st' :
    reaches_with_realloc st0 st live → List.In (p, n) live → p <= a < p + n →
    store8 st a v = Ok st' →
    reaches_with_realloc st0 st' live
| rr_free st live p n st' :
    reaches_with_realloc st0 st live → List.In (p, n) live →
    mm_free st p = Ok st' →
    reaches_with_realloc st0 st' (List.filter (λ x, negb (fst x =? p)) live)
| rr_realloc st live fuel p m n st' r :
    reaches_with_realloc st0 st live → List.In (p, m) live →
    0 < n → n + 7 < 2 ^ 31 →
    mm_realloc fuel st p n = Ok (st', r) →
    reaches_with_realloc st0 st'
      (if r =? NULL then live
       else (r, n) :: List.filter (λ x, negb (fst x =? p)) live).

(** What holds in every such state: the heap invariant, and every block
    the client holds is a distinct allocated block with room for the
    requested bytes. *)
Definition client_heap (st : state) (live : list (Z * Z)) : Prop :=
  ∃ L bl, heap_ok st L bl ∧
          List.NoDup (map fst live) ∧
          ∀ p n, List.In (p, n) live →
                 ∃ t, List.In (p, (t, 1)) (heap_blocks st bl) ∧ n + 8 <= t.


(** * Properties of the embedding *)

Ltac Zify.zify_post_hook ::= Z.div_mod_to_equations.

(** Inversion of a monadic bind that returned. *)
Lemma bind_Ok {A B} (m : res A) (f : A → res B) (b : B) :
  (x ← m; f x) = Ok b → ∃ a, m = Ok a ∧ f a = Ok b.
Proof. destruct m; simpl; intros H; try discriminate. eauto. Qed.

Ltac inv_bind H :=
  let a := fresh "v" in
  let Ha := fresh "E" in
  apply bind_Ok in H; destruct H as (a & Ha & H).

(** Closed facts about concrete heaps are settled by evaluation. *)
Ltac by_computation :=
  repeat match goal with |- _ ∧ _ => split end; vm_compute; reflexivity.

(** A run that is known to succeed returns the state it is projected to;
    this keeps evaluation away from the normal form of whole memories. *)
Lemma run_value (r : res (state * Z)) (v : Z) :
  succeeded r = true → value_of r = v → r = Ok (state_of r, v).
Proof. destruct r as [[st p] | |]; simpl; intros; subst; congruence. Qed.

Lemma run_state (r : res state) :
  succeeded r = true → r = Ok (state_or_fresh r).
Proof. destruct r; simpl; intros; congruence. Qed.

Ltac run_ok :=
  first [ apply run_value; vm_compute; reflexivity
        | apply run_state; vm_compute; reflexivity ].

(** ** Machine arithmetic *)

Section Arith.

Lemma wrap_range x : 0 <= wrap x < 2 ^ 32.
Proof. unfold wrap. lia. Qed.

Lemma wrap_small x : 0 <= x < 2 ^ 32 → wrap x = x.
Proof. unfold wrap. intros. apply Z.mod_small. lia. Qed.

Lemma word_of_bytes v :
  v mod 256 + 2 ^ 8 * ((v / 2 ^ 8) mod 256) + 2 ^ 16 * ((v / 2 ^ 16) mod 256)
    + 2 ^ 24 * ((v / 2 ^ 24) mod 256) = wrap v.
Proof.
  unfold wrap.
  change (2 ^ 8) with 256. change (2 ^ 16) with 65536.
  change (2 ^ 24) with 16777216. change (2 ^ 32) with 4294967296.
  lia.
Qed.

(** Clearing the three low bits rounds down to a multiple of 8. *)
Lemma land_lnot_7 v : Z.land v (Z.lnot 7) = 8 * (v / 8).
Proof.
  change (Z.lnot 7) with (Z.lnot (Z.ones 3)).
  rewrite <- Z.ldiff_land, Z.ldiff_ones_r by lia.
  rewrite Z.shiftr_div_pow2, Z.shiftl_mul_pow2 by lia.
  change (2 ^ 3) with 8. lia.
Qed.

Lemma land_1 v : Z.land v 1 = v mod 2.
Proof. change 1 with (Z.ones 1). rewrite Z.land_ones by lia. reflexivity. Qed.

Lemma PACK_0 size : PACK size 0 = size.
Proof. unfold PACK. apply Z.lor_0_r. Qed.

Lemma PACK_1 size : size mod 2 = 0 → PACK size 1 = size + 1.
Proof.
  intros H. unfold PACK.
  pose proof (Z.add_lor_land size 1) as E.
  rewrite land_1 in E. lia.
Qed.

Lemma size_of_PACK size a :
  size mod 8 = 0 → (a = 0 ∨ a = 1) → Z.land (PACK size a) (Z.lnot 7) = size.
Proof.
  intros H [-> | ->].
  - rewrite PACK_0, land_lnot_7. lia.
  - rewrite PACK_1, land_lnot_7 by lia. lia.
Qed.

Lemma alloc_of_PACK size a :
  size mod 8 = 0 → (a = 0 ∨ a = 1) → Z.land (PACK size a) 1 = a.
Proof.
  intros H [-> | ->].
  - rewrite PACK_0, land_1. lia.
  - rewrite PACK_1, land_1 by lia. lia.
Qed.

Lemma MAX_max x y : MAX x y = Z.max x y.
Proof. unfold MAX. destruct (Z.gtb_spec x y); lia. Qed.

End Arith.

(** ** Memory *)

Section Memory.

Lemma Z_of_byte_range b : 0 <= Z_of_byte b < 256.
Proof.
  unfold Z_of_byte. pose proof (Byte.to_N_bounded b) as H.
  apply N.lt_succ_r in H. change (N.succ 255) with 256%N in H. lia.
Qed.

Lemma Z_of_byte_of_Z v : Z_of_byte (byte_of_Z v) = v mod 256.
Proof.
  unfold byte_of_Z, Z_of_byte.
  destruct (Byte.of_N (Z.to_N (v mod 256))) as [b |] eqn:E.
  - apply Byte.to_of_N in E. rewrite E. lia.
  - apply Byte.of_N_None_iff in E. lia.
Qed.

Lemma byte_at_range st a : 0 <= byte_at st a < 256.
Proof. apply Z_of_byte_range. Qed.

Lemma GET_range st f v : GET st f = Ok v → 0 <= v < 2 ^ 32.
Proof.
  unfold GET. destruct (accessible st f 4); [|discriminate].
  intros [= <-].
  pose proof (byte_at_range st f). pose proof (byte_at_range st (f + 1)).
  pose proof (byte_at_range st (f + 2)). pose proof (byte_at_range st (f + 3)).
  lia.
Qed.

Lemma GET_accessible st f v : GET st f = Ok v → accessible st f 4 = true.
Proof. unfold GET. destruct (accessible st f 4); [reflexivity | discriminate]. Qed.

Lemma GET_Ok st f : accessible st f 4 = true → ∃ v, GET st f = Ok v.
Proof. unfold GET. intros ->. eauto. Qed.

Lemma PUT_Ok st f v : accessible st f 4 = true → ∃ st', PUT st f v = Ok st'.
Proof. unfold PUT. intros ->. eauto. Qed.

Lemma same_regs_refl st : same_regs st st.
Proof. repeat split. Qed.

Lemma same_regs_trans st1 st2 st3 :
  same_regs st1 st2 → same_regs st2 st3 → same_regs st1 st3.
Proof. unfold same_regs. intuition congruence. Qed.

Lemma same_regs_accessible st st' a n :
  same_regs st st' → accessible st' a n = accessible st a n.
Proof. unfold same_regs, accessible. intros (-> & _ & -> & _). reflexivity. Qed.

Lemma same_regs_slot st st' k :
  same_regs st st' → freelist_slot st' k = freelist_slot st k.
Proof. unfold same_regs, freelist_slot. intros (_ & _ & _ & _ & ->). reflexivity. Qed.

Lemma frame_refl K st : frame K st st.
Proof. split; [apply same_regs_refl | reflexivity]. Qed.

Lemma frame_trans (K1 K2 : Z → Prop) st1 st2 st3 :
  frame K1 st1 st2 → frame K2 st2 st3 → frame (λ a, K1 a ∧ K2 a) st1 st3.
Proof.
  intros [R1 H1] [R2 H2]. split; [eapply same_regs_trans; eassumption |].
  intros a [Ha1 Ha2]. rewrite H2, H1 by assumption. reflexivity.
Qed.

Lemma frame_weaken (K K' : Z → Prop) st st' :
  (∀ a, K' a → K a) → frame K st st' → frame K' st st'.
Proof. intros HK [R H]. split; [assumption | auto]. Qed.

Lemma frame_GET K st st' f :
  frame K st st' → K f → K (f + 1) → K (f + 2) → K (f + 3) →
  GET st' f = GET st f.
Proof.
  intros [R H] K0 K1 K2 K3. unfold GET, byte_at.
  rewrite (same_regs_accessible _ _ _ _ R), !H by assumption. reflexivity.
Qed.

Lemma PUT_frame st f v st' :
  PUT st f v = Ok st' → frame (outside_word f) st st'.
Proof.
  unfold PUT. destruct (accessible st f 4); [|discriminate].
  intros [= <-]. split; [repeat split |].
  intros a Ha. unfold outside_word in Ha. unfold raw_at, set_mem; simpl.
  rewrite !lookup_insert_ne by lia. reflexivity.
Qed.

Lemma PUT_regs st f v st' : PUT st f v = Ok st' → same_regs st st'.
Proof. intros H. apply (PUT_frame _ _ _ _ H). Qed.

Lemma GET_PUT_eq st f v st' : PUT st f v = Ok st' → GET st' f = Ok (wrap v).
Proof.
  intros H. unfold GET.
  rewrite (same_regs_accessible _ _ _ _ (PUT_regs _ _ _ _ H)).
  revert H. unfold PUT. destruct (accessible st f 4); [|discriminate].
  intros [= <-]. f_equal. rewrite <- word_of_bytes.
  unfold byte_at, raw_at, set_mem; simpl.
  rewrite (lookup_insert_ne _ (f + 3) f), (lookup_insert_ne _ (f + 2) f),
    (lookup_insert_ne _ (f + 1) f), (lookup_insert_eq _ f) by lia.
  rewrite (lookup_insert_ne _ (f + 3) (f + 1)), (lookup_insert_ne _ (f + 2) (f + 1)),
    (lookup_insert_eq _ (f + 1)) by lia.
  rewrite (lookup_insert_ne _ (f + 3) (f + 2)), (lookup_insert_eq _ (f + 2)) by lia.
  rewrite (lookup_insert_eq _ (f + 3)).
  simpl. rewrite !Z_of_byte_of_Z. reflexivity.
Qed.

Lemma GET_PUT_ne st f v st' a :
  PUT st f v = Ok st' → a + 4 <= f ∨ f + 4 <= a → GET st' a = GET st a.
Proof.
  intros H Ha. eapply frame_GET; [apply (PUT_frame _ _ _ _ H) | ..];
    unfold outside_word; lia.
Qed.

Lemma GET_ALLOC_bit st p a : GET_ALLOC st p = Ok a → a = 0 ∨ a = 1.
Proof.
  unfold GET_ALLOC. intros H. inv_bind H. injection H as <-.
  rewrite land_1. lia.
Qed.

Lemma GET_SIZE_mult8 st p sz : GET_SIZE st p = Ok sz → 0 <= sz < 2 ^ 32 ∧ sz mod 8 = 0.
Proof.
  unfold GET_SIZE. intros H. inv_bind H. injection H as <-.
  apply GET_range in E. rewrite land_lnot_7. lia.
Qed.

Lemma GET_SIZE_of_GET st t v : GET st t = Ok v → v mod 8 = 0 → GET_SIZE st t = Ok v.
Proof.
  intros H Hv. unfold GET_SIZE. rewrite H. cbn [mbind res_bind].
  rewrite land_lnot_7. f_equal. lia.
Qed.

Lemma GET_SIZE_same st st' t : GET st' t = GET st t → GET_SIZE st' t = GET_SIZE st t.
Proof. intros H. unfold GET_SIZE. rewrite H. reflexivity. Qed.

Lemma GET_ALLOC_same st st' t : GET st' t = GET st t → GET_ALLOC st' t = GET_ALLOC st t.
Proof. intros H. unfold GET_ALLOC. rewrite H. reflexivity. Qed.

End Memory.


(** ** The contiguity test of the checker *)

Section CheckContiguous.

Lemma neighbour_bits_fun st bp p n p' n' :
  neighbour_bits st bp p n → neighbour_bits st bp p' n' → p = p' ∧ n = n'.
Proof.
  intros [(x & E1 & E2) (y & E3 & E4)] [(x' & E1' & E2') (y' & E3' & E4')].
  split; congruence.
Qed.

(** C8 (as stated) fails on the heap right after initialisation: the only
    free block sits between the prologue and the epilogue, both of which are
    allocated, and the test reports nothing. *)
Lemma check_contiguous_init_silent :
  GETfreelistp st_init 5 = Ok 65600 ∧
  neighbour_bits st_init 65600 1 1 ∧
  check_contiguous st_init 65600 checker_start = Ok checker_start ∧
  ¬ reports_when_neighbour_allocated st_init 65600 checker_start.
Proof.
  assert (B : neighbour_bits st_init 65600 1 1).
  { split; [exists 65592 | exists 65632]; split; vm_compute; reflexivity. }
  split; [vm_compute; reflexivity |].
  split; [exact B |].
  split; [vm_compute; reflexivity |].
  intros H. specialize (H 1 1 B). destruct H as [_ H].
  specialize (H (or_introl eq_refl)). unfold reports_contiguous in H.
  vm_compute in H. discriminate H.
Qed.

(** C8 (amended): the test clears the flag and prints its diagnostic exactly
    when the previous or the next physical block is free; with both
    neighbours allocated it leaves the checker's variables alone. *)
Theorem check_contiguous_fires_on_free_neighbour st bp k k' :
  check_contiguous st bp k = Ok k' →
  ∃ p_status n_status,
    neighbour_bits st bp p_status n_status ∧
    ((k' = fail_with k msg_contiguous ∧ check k' = 0 ∧
      (p_status = 0 ∨ n_status = 0))
     ∨ (k' = k ∧ p_status = 1 ∧ n_status = 1)).
Proof.
  unfold check_contiguous. intros H.
  inv_bind H. inv_bind H. inv_bind H. inv_bind H.
  exists v0, v2. split.
  { split; eauto. }
  destruct (GET_ALLOC_bit _ _ _ E0) as [-> | ->],
           (GET_ALLOC_bit _ _ _ E2) as [-> | ->];
    simpl in H; injection H as <-; auto.
Qed.

Lemma check_contiguous_fires_witness :
  check_contiguous st_init 65600 checker_start = Ok checker_start ∧
  ∃ p_status n_status,
    neighbour_bits st_init 65600 p_status n_status ∧
    ((checker_start = fail_with checker_start msg_contiguous ∧ check checker_start = 0 ∧
      (p_status = 0 ∨ n_status = 0))
     ∨ (checker_start = checker_start ∧ p_status = 1 ∧ n_status = 1)).
Proof.
  split; [vm_compute; reflexivity |].
  apply (check_contiguous_fires_on_free_neighbour st_init 65600 checker_start checker_start).
  vm_compute; reflexivity.
Defined.

End CheckContiguous.


(** ** The overlap test of the checker *)

Section CheckOverlap.

Lemma NEXT_BLKP_aligned st bp next :
  bp mod 8 = 0 → NEXT_BLKP st bp = Ok next → next mod 8 = 0.
Proof.
  unfold NEXT_BLKP. intros Hbp H. inv_bind H. injection H as <-.
  apply GET_SIZE_mult8 in E. unfold wrap.
  change (2 ^ 32) with 4294967296 in *. lia.
Qed.

Lemma FTRP_next_header st bp f next :
  bp mod 8 = 0 → FTRP st bp = Ok f → NEXT_BLKP st bp = Ok next →
  f = HDRP next - WSIZE ∧ (f >? HDRP next) = false.
Proof.
  unfold FTRP, NEXT_BLKP, HDRP. intros Hbp Hf Hn.
  inv_bind Hf. inv_bind Hn. rewrite E in E0. injection E0 as <-.
  injection Hf as <-. injection Hn as <-.
  apply GET_SIZE_mult8 in E. unfold wrap, WSIZE, DSIZE.
  change (2 ^ 32) with 4294967296 in *.
  split; [| rewrite Z.gtb_ltb; apply Z.ltb_ge]; lia.
Qed.

(** Both addresses come from the same header word: whenever the header of
    [bp] can be read, the footer address is the next header's address less
    one word, in 32-bit arithmetic. *)
Lemma FTRP_one_word_below st bp :
  accessible st (HDRP bp) 4 = true →
  ∃ f next, FTRP st bp = Ok f ∧ NEXT_BLKP st bp = Ok next ∧
            f = wrap (HDRP next - WSIZE).
Proof.
  intros Ha. destruct (GET_Ok st _ Ha) as [v Hv].
  assert (Hs : GET_SIZE st (HDRP bp) = Ok (Z.land v (Z.lnot 7)))
    by (unfold GET_SIZE; rewrite Hv; reflexivity).
  exists (wrap (bp + Z.land v (Z.lnot 7) - DSIZE)), (wrap (bp + Z.land v (Z.lnot 7))).
  split; [unfold FTRP; rewrite Hs; reflexivity |].
  split; [unfold NEXT_BLKP; change (wrap (bp - WSIZE)) with (HDRP bp);
          rewrite Hs; reflexivity |].
  generalize (Z.land v (Z.lnot 7)). intros sz.
  unfold HDRP, wrap, WSIZE, DSIZE. change (2 ^ 32) with 4294967296. lia.
Qed.

Lemma check_overlap_silent st bp k k' :
  bp mod 8 = 0 → check_overlap st bp k = Ok k' → k' = k.
Proof.
  unfold check_overlap. intros Hbp H. inv_bind H. inv_bind H.
  destruct (FTRP_next_header _ _ _ _ Hbp E E0) as [_ Hlt].
  rewrite Hlt in H. congruence.
Qed.

Lemma fail_with_other k msg :
  msg ≠ msg_overlap → ¬ In msg_overlap (out k) →
  ¬ In msg_overlap (out (fail_with k msg)).
Proof.
  intros Hm Hk. simpl. rewrite in_app_iff. simpl. intuition congruence.
Qed.

Lemma check_list_body_quiet st bp k k' :
  check_list_body st bp k = Ok k' →
  ¬ In msg_overlap (out k) → ¬ In msg_overlap (out k').
Proof.
  unfold check_list_body, check_marked_free, check_contiguous. intros H Hk.
  inv_bind H. inv_bind E.
  assert (Hv : ¬ In msg_overlap (out v)).
  { destruct (negb (v0 =? 0)); injection E as <-;
      [apply fail_with_other; [discriminate | exact Hk] | exact Hk]. }
  inv_bind H. inv_bind H. inv_bind H. inv_bind H.
  destruct ((v2 =? 0) || (v4 =? 0)); injection H as <-;
    [apply fail_with_other; [discriminate | exact Hv] | exact Hv].
Qed.

Lemma check_list_quiet fuel st : ∀ bp k k',
  check_list fuel st bp k = Ok k' →
  ¬ In msg_overlap (out k) → ¬ In msg_overlap (out k').
Proof.
  induction fuel as [| fuel IH]; intros bp k k' H Hk; simpl in H; [discriminate |].
  destruct (bp =? NULL); [injection H as <-; exact Hk |].
  inv_bind H. inv_bind H.
  eapply IH; [exact H |]. eapply check_list_body_quiet; eassumption.
Qed.

Lemma check_lists_quiet n fuel st : ∀ num k k',
  check_lists n fuel st num k = Ok k' →
  ¬ In msg_overlap (out k) → ¬ In msg_overlap (out k').
Proof.
  induction n as [| n IH]; intros num k k' H Hk; simpl in H;
    [injection H as <-; exact Hk |].
  destruct (num <? numlists); [| injection H as <-; exact Hk].
  inv_bind H. inv_bind H.
  eapply IH; [exact H |]. eapply check_list_quiet; eassumption.
Qed.

Lemma check_min_size_quiet st bp k k' :
  check_min_size st bp k = Ok k' →
  ¬ In msg_overlap (out k) → ¬ In msg_overlap (out k').
Proof.
  unfold check_min_size. intros H Hk.
  destruct (c k >? 0); [| injection H as <-; exact Hk].
  inv_bind H.
  destruct (v <? 16); injection H as <-;
    [apply fail_with_other; [discriminate | exact Hk] | exact Hk].
Qed.

Lemma check_walk_quiet fuel st : ∀ bp k k',
  bp mod 8 = 0 →
  check_walk fuel st bp k = Ok k' →
  ¬ In msg_overlap (out k) → ¬ In msg_overlap (out k').
Proof.
  induction fuel as [| fuel IH]; intros bp k k' Hbp H Hk; simpl in H; [discriminate |].
  inv_bind H.
  destruct (negb (v =? 0)); [| injection H as <-; exact Hk].
  inv_bind H. inv_bind H. inv_bind H. inv_bind H.
  apply check_overlap_silent in E1; [| exact Hbp]. subst v1.
  eapply IH; [| exact H |].
  - eapply NEXT_BLKP_aligned; eassumption.
  - simpl. eapply check_min_size_quiet; [exact E2 |].
    destruct (v0 =? 0); exact Hk.
Qed.

(** C10: for every block pointer whose header can be read, [FTRP(bp)] and
    [HDRP(NEXT_BLKP(bp))] are computed from the same size and the first is
    the second less one word (in 32-bit arithmetic); for an 8-byte aligned
    block pointer that difference does not wrap around, so the comparison of
    the overlap test is false; the checker started on a heap whose
    [heap_listp] is aligned never prints the overlapping-blocks diagnostic,
    whatever the heap contains. *)
Theorem overlap_branch_unreachable :
  (∀ st bp,
     accessible st (HDRP bp) 4 = true →
     ∃ f next, FTRP st bp = Ok f ∧ NEXT_BLKP st bp = Ok next ∧
               f = wrap (HDRP next - WSIZE)) ∧
  (∀ st bp f next,
     bp mod 8 = 0 → FTRP st bp = Ok f → NEXT_BLKP st bp = Ok next →
     f = HDRP next - WSIZE ∧ (f >? HDRP next) = false) ∧
  (∀ st bp k k',
     bp mod 8 = 0 → check_overlap st bp k = Ok k' → k' = k) ∧
  (∀ fuel st r o,
     heap_listp st mod 8 = 0 → mm_check fuel st = Ok (r, o) →
     ¬ In msg_overlap o).
Proof.
  split; [exact FTRP_one_word_below |].
  split; [exact FTRP_next_header |].
  split; [exact check_overlap_silent |].
  intros fuel st r o Hal H. unfold mm_check in H.
  inv_bind H. inv_bind H.
  assert (Q : ¬ In msg_overlap (out v0)).
  { eapply check_walk_quiet; [exact Hal | exact E0 |].
    eapply check_lists_quiet; [exact E |]. simpl. tauto. }
  assert (Q' : ¬ In msg_overlap
                 (out (if negb (count v0 =? numcount v0)
                       then fail_with v0 msg_count else v0))).
  { destruct (negb (count v0 =? numcount v0));
      [apply fail_with_other; [discriminate | exact Q] | exact Q]. }
  destruct (negb (check _ =? 0)); injection H as <- <-; exact Q'.
Qed.

Lemma overlap_branch_unreachable_witness :
  (65600 mod 8 = 0 ∧ FTRP st_init 65600 = Ok 65624 ∧
   NEXT_BLKP st_init 65600 = Ok 65632 ∧
   65624 = HDRP 65632 - WSIZE ∧ (65624 >? HDRP 65632) = false) ∧
  (check_overlap st_init 65600 checker_start = Ok checker_start) ∧
  (heap_listp st_init mod 8 = 0 ∧ mm_check 64 st_init = Ok (1, []) ∧
   ¬ In msg_overlap []).
Proof.
  destruct overlap_branch_unreachable as (_ & H1 & H2 & H3).
  split; [| split].
  - split; [reflexivity |]. split; [vm_compute; reflexivity |].
    split; [vm_compute; reflexivity |].
    apply (H1 st_init 65600 65624 65632);
      [reflexivity | vm_compute; reflexivity | vm_compute; reflexivity].
  - vm_compute; reflexivity.
  - split; [vm_compute; reflexivity |]. split; [vm_compute; reflexivity |].
    apply (H3 64%nat st_init 1 []); [vm_compute; reflexivity | vm_compute; reflexivity].
Defined.

End CheckOverlap.


(** ** Degenerate arguments of [mm_realloc] *)

Section ReallocDegenerate.

Lemma GET_SIZE_unfold st p :
  GET_SIZE st p =
  if accessible st p 4 then v ← GET st p; Ok (Z.land v (Z.lnot 7)) else Fault.
Proof. unfold GET_SIZE, GET. destruct (accessible st p 4); reflexivity. Qed.

(** C9: on a null pointer [mm_realloc] first reads the header word at
    [NULL - 4], the last word of the address space, and only then takes the
    branch that calls [mm_malloc]; the call returns what [mm_malloc] returns
    when that word can be read and faults otherwise. *)
Theorem mm_realloc_null_reads_header fuel st n :
  HDRP NULL = 2 ^ 32 - 4 ∧
  mm_realloc fuel st NULL n =
    (_ ← GET_SIZE st (HDRP NULL); mm_malloc fuel st (ALIGN n)) ∧
  mm_realloc fuel st NULL n =
    (if accessible st (HDRP NULL) 4 then mm_malloc fuel st (ALIGN n) else Fault).
Proof.
  split; [reflexivity |].
  split.
  - unfold mm_realloc. destruct (GET_SIZE st (HDRP NULL)); reflexivity.
  - unfold mm_realloc, GET_SIZE, GET.
    destruct (accessible st (HDRP NULL) 4); reflexivity.
Qed.

(** Where the degenerate cases do behave as documented: a zero size frees the
    block, and a size that is still negative after [ALIGN] changes nothing. *)
Lemma mm_realloc_zero fuel st ptr :
  ptr ≠ NULL → accessible st (HDRP ptr) 4 = true →
  mm_realloc fuel st ptr 0 = (st' ← mm_free st ptr; Ok (st', NULL)).
Proof.
  intros Hp Ha. destruct (GET_Ok st _ Ha) as [v Hv].
  assert (Hs : GET_SIZE st (HDRP ptr) = Ok (Z.land v (Z.lnot 7)))
    by (unfold GET_SIZE; rewrite Hv; reflexivity).
  unfold mm_realloc. rewrite Hs. cbn [mbind res_bind].
  destruct (Z.eqb_spec ptr NULL); [contradiction |].
  assert (E1 : int_negative (ALIGN 0) = false) by (vm_compute; reflexivity).
  assert (E2 : (wrap (ALIGN 0) =? 0) = true) by (vm_compute; reflexivity).
  rewrite E1, E2. reflexivity.
Qed.

Lemma ALIGN_value n : ALIGN n = 8 * (wrap (n + 7) / 8).
Proof. unfold ALIGN, ALIGNMENT. rewrite land_lnot_7. reflexivity. Qed.

Lemma mm_realloc_negative fuel st ptr n :
  ptr ≠ NULL → accessible st (HDRP ptr) 4 = true →
  2 ^ 31 <= n <= 2 ^ 32 - 8 →
  mm_realloc fuel st ptr n = Ok (st, NULL).
Proof.
  intros Hp Ha Hn. destruct (GET_Ok st _ Ha) as [v Hv].
  assert (Hs : GET_SIZE st (HDRP ptr) = Ok (Z.land v (Z.lnot 7)))
    by (unfold GET_SIZE; rewrite Hv; reflexivity).
  unfold mm_realloc. rewrite Hs. cbn [mbind res_bind].
  destruct (Z.eqb_spec ptr NULL); [contradiction |].
  assert (E : int_negative (ALIGN n) = true).
  { unfold int_negative. rewrite ALIGN_value. unfold wrap.
    change (2 ^ 31) with 2147483648 in *. change (2 ^ 32) with 4294967296 in *.
    apply Z.leb_le. lia. }
  rewrite E. reflexivity.
Qed.

(** C6 (the code at the failing inputs): on the heap holding one 16-byte
    allocation [p], a size of [2^32 - 1] (that is, -1) is rounded by [ALIGN]
    to 0 before the sign test, so [mm_realloc] frees [p] instead of leaving
    it alone; and [mm_realloc(NULL, 16)] reads the word at [2^32 - 4], which
    is outside the provider's memory, where [mm_malloc(16)] succeeds. *)
Theorem mm_realloc_degenerate_inputs :
  let st1 := state_of (mm_malloc 64 st_init 16) in
  let p := 65600 in
  mm_init st_fresh = Ok (st_init, 0) ∧
  mm_malloc 64 st_init 16 = Ok (st1, p) ∧
  GET st1 (HDRP p) = Ok (PACK 24 1) ∧
  int_negative (2 ^ 32 - 1) = true ∧
  (∃ st2, mm_realloc 64 st1 p (2 ^ 32 - 1) = Ok (st2, NULL) ∧
          mm_free st1 p = Ok st2 ∧
          GET st2 (HDRP p) = Ok (PACK 64 0) ∧
          GETfreelistp st2 (list_num 64) = Ok p) ∧
  mm_realloc 64 st1 NULL 16 = Fault ∧
  (∃ st3, mm_malloc 64 st1 16 = Ok (st3, 65624)).
Proof.
  cbv zeta.
  split; [vm_compute; reflexivity |].
  split; [vm_compute; reflexivity |].
  split; [vm_compute; reflexivity |].
  split; [vm_compute; reflexivity |].
  split.
  { exists (state_of (mm_realloc 64 (state_of (mm_malloc 64 st_init 16)) 65600 (2 ^ 32 - 1))).
    by_computation. }
  split; [vm_compute; reflexivity |].
  exists (state_of (mm_malloc 64 (state_of (mm_malloc 64 st_init 16)) 16)).
  vm_compute; reflexivity.
Qed.

End ReallocDegenerate.

(** ** The checker after a shrinking [mm_realloc] *)

Section ReallocShrink.

(** C1 (the code at the failing input): from the initialised heap,
    [p = mm_malloc(100)] leaves a heap the checker accepts; then
    [mm_realloc(p, 50)] returns [p] and turns the 48 surplus bytes into a
    free block without coalescing it with the free 32-byte block that
    follows, and the checker returns 0, printing the contiguity diagnostic
    for each of the two adjacent free blocks. *)
Theorem mm_realloc_shrink_fails_check :
  let st1 := state_of (mm_malloc 64 st_init 100) in
  let p := 65600 in
  let st2 := state_of (mm_realloc 64 st1 p 50) in
  mm_init st_fresh = Ok (st_init, 0) ∧
  mm_check 64 st_init = Ok (1, []) ∧
  mm_malloc 64 st_init 100 = Ok (st1, p) ∧
  mm_check 64 st1 = Ok (1, []) ∧
  mm_realloc 64 st1 p 50 = Ok (st2, p) ∧
  GET st2 (HDRP p) = Ok (PACK 64 1) ∧
  GET st2 (HDRP (p + 64)) = Ok (PACK 48 0) ∧
  GET st2 (HDRP (p + 64 + 48)) = Ok (PACK 32 0) ∧
  GETfreelistp st2 (list_num 48) = Ok (p + 64) ∧
  GET_NPTR st2 (p + 64) = Ok (p + 64 + 48) ∧
  mm_check 64 st2 = Ok (0, [msg_contiguous; msg_contiguous]).
Proof.
  cbv zeta. by_computation.
Qed.

End ReallocShrink.


(** ** The fallback path of [mm_realloc] *)

Section ReallocFallback.

Lemma load8_inv st a b :
  load8 st a = Ok b → accessible st a 1 = true ∧ b = raw_at st a.
Proof.
  unfold load8. destruct (accessible st a 1); [| discriminate].
  intros [= <-]. auto.
Qed.

Lemma store8_inv st a b st' :
  store8 st a b = Ok st' →
  accessible st a 1 = true ∧ same_regs st st' ∧ raw_at st' a = b ∧
  ∀ a', a' ≠ a → raw_at st' a' = raw_at st a'.
Proof.
  unfold store8. destruct (accessible st a 1); [| discriminate].
  intros [= <-]. split; [reflexivity |]. split; [repeat split |].
  unfold raw_at, set_mem; simpl. split.
  - rewrite lookup_insert_eq. reflexivity.
  - intros a' Ha. rewrite lookup_insert_ne by congruence. reflexivity.
Qed.

Lemma accessible_1_bounds st a :
  accessible st a 1 = true → mem_start_brk st <= a < mem_max_addr st.
Proof. unfold accessible. intros H. apply andb_true_iff in H. lia. Qed.

(** Copying at ascending addresses: nothing outside the destination changes,
    and a destination byte receives the source byte of the state before the
    copy whenever that byte had not been overwritten yet. *)
Lemma memcpy_loop_spec n : ∀ st dst src st',
  0 < mem_start_brk st → mem_max_addr st <= 2 ^ 32 →
  memcpy_loop n st dst src = Ok st' →
  frame (λ a, a < dst ∨ dst + Z.of_nat n <= a) st st' ∧
  ∀ i, 0 <= i < Z.of_nat n → i < dst - src ∨ dst <= src →
       raw_at st' (dst + i) = raw_at st (src + i).
Proof.
  induction n as [| n IH]; intros st dst src st' Hlo Hhi H.
  { simpl in H. injection H as <-. split; [apply frame_refl | lia]. }
  simpl in H. inv_bind H. inv_bind H.
  apply load8_inv in E as [As ->].
  apply store8_inv in E0 as (Ad & R & Hd & Ho).
  apply accessible_1_bounds in As, Ad.
  destruct n as [| n].
  { simpl in H. injection H as <-. split.
    - split; [exact R |]. intros a Ha. apply Ho. lia.
    - intros i Hi _. replace i with 0 by lia. rewrite !Z.add_0_r. exact Hd. }
  assert (Hs : wrap (src + 1) = src + 1 ∧ wrap (dst + 1) = dst + 1).
  { pose proof H as H'. simpl in H'. inv_bind H'. inv_bind H'.
    apply load8_inv in E as [A1 _]. apply store8_inv in E0 as (A2 & _).
    apply accessible_1_bounds in A1, A2.
    destruct R as (R1 & _ & R3 & _).
    unfold wrap in *. change (2 ^ 32) with 4294967296 in *. lia. }
  destruct Hs as [Es Ed]. rewrite Es, Ed in H.
  assert (Hlo' : 0 < mem_start_brk v0) by (destruct R as (-> & _); exact Hlo).
  assert (Hhi' : mem_max_addr v0 <= 2 ^ 32) by (destruct R as (_ & _ & -> & _); exact Hhi).
  destruct (IH _ _ _ _ Hlo' Hhi' H) as [[R2 F] C].
  split.
  - split; [eapply same_regs_trans; eassumption |].
    intros a Ha. rewrite F by lia. apply Ho. lia.
  - intros i Hi Hc. destruct (Z.eq_dec i 0) as [-> | Hne].
    + rewrite !Z.add_0_r, F by lia. exact Hd.
    + replace (dst + i) with (dst + 1 + (i - 1)) by lia.
      rewrite C by lia. replace (src + 1 + (i - 1)) with (src + i) by lia.
      apply Ho. lia.
Qed.

Lemma memcpy_spec st dst src n st' :
  0 < mem_start_brk st → mem_max_addr st <= 2 ^ 32 → 0 <= n →
  memcpy st dst src n = Ok st' →
  frame (λ a, a < dst ∨ dst + n <= a) st st' ∧
  ∀ i, 0 <= i < n → i < dst - src ∨ dst <= src →
       raw_at st' (dst + i) = raw_at st (src + i).
Proof.
  intros Hlo Hhi Hn H. unfold memcpy in H.
  apply memcpy_loop_spec in H; [| assumption ..].
  rewrite Z2Nat.id in H by exact Hn. exact H.
Qed.

Lemma mm_realloc_takes_fallback fuel st ptr n :
  takes_fallback st ptr n →
  mm_realloc fuel st ptr n = realloc_fallback fuel st ptr (wrap (ALIGN n + DSIZE)).
Proof.
  intros (Hp & Hneg & Hz & old & next & ns & nsz & E1 & E2 & E3 & E4 & Hlt & Hno).
  cbv zeta in *.
  unfold mm_realloc, realloc_fallback. rewrite E1. cbn [mbind res_bind].
  destruct (Z.eqb_spec ptr NULL) as [| _]; [contradiction |].
  rewrite Hneg.
  destruct (Z.eqb_spec (wrap (ALIGN n)) 0) as [| _]; [contradiction |].
  destruct (Z.eqb_spec (wrap (ALIGN n + DSIZE)) old) as [| _]; [lia |].
  destruct (Z.gtb_spec old (wrap (ALIGN n + DSIZE))) as [| _]; [lia |].
  rewrite E2. cbn [mbind res_bind]. rewrite E3. cbn [mbind res_bind].
  rewrite E4. cbn [mbind res_bind].
  assert (C : (ns =? 0) && (wrap (old + nsz) >=? wrap (ALIGN n + DSIZE)) = false).
  { apply andb_false_iff.
    destruct (Z.eqb_spec ns 0) as [-> |]; [right | left; reflexivity].
    rewrite Z.geb_leb. apply Z.leb_gt. lia. }
  rewrite C. reflexivity.
Qed.

(** The functional scenario, for arbitrary bytes written through [p]. *)
Lemma realloc_16_to_4096 (bs : list byte) :
  length bs = 16%nat →
  ∃ st1 p st2 st3 r,
    mm_malloc 64 st_init 16 = Ok (st1, p) ∧
    write_bytes st1 p bs = Ok st2 ∧
    takes_fallback st2 p 4096 ∧
    mm_realloc 64 st2 p 4096 = Ok (st3, r) ∧
    r ≠ p ∧
    read_bytes 16 st3 r = Ok bs.
Proof.
  intros Hlen.
  do 16 (destruct bs as [| ? bs]; [discriminate Hlen |]).
  destruct bs; [| discriminate Hlen]. clear Hlen.
  set (bs := [_; _; _; _; _; _; _; _; _; _; _; _; _; _; _; _]).
  set (st1 := state_of (mm_malloc 64 st_init 16)).
  set (st2 := state_or_fresh (write_bytes st1 65600 bs)).
  set (st3 := state_of (mm_realloc 64 st2 65600 4096)).
  exists st1, 65600, st2, st3, 65624.
  split; [subst st1; run_ok |].
  split; [subst st2; run_ok |].
  split.
  { split; [discriminate |]. split; [vm_compute; reflexivity |].
    split; [vm_compute; discriminate |].
    exists 24, 65624, 0, 40.
    split; [vm_compute; reflexivity |]. split; [vm_compute; reflexivity |].
    split; [vm_compute; reflexivity |]. split; [vm_compute; reflexivity |].
    split; [vm_compute; reflexivity |].
    intros [_ H]. vm_compute in H. apply H. reflexivity. }
  split; [subst st3; run_ok |].
  split; [discriminate |].
  vm_compute; reflexivity.
Qed.

End ReallocFallback.


(** ** Heap extension *)

Section ExtendHeap.

Lemma GET_SIZE_PUT_eq st f size a st' :
  PUT st f (PACK size a) = Ok st' →
  0 <= size < 2 ^ 32 → size mod 8 = 0 → a = 0 ∨ a = 1 →
  GET_SIZE st' f = Ok size.
Proof.
  intros H Hr Hm Ha. unfold GET_SIZE. rewrite (GET_PUT_eq _ _ _ _ H).
  cbn [mbind res_bind]. f_equal.
  assert (E : wrap (PACK size a) = PACK size a).
  { apply wrap_small. destruct Ha as [-> | ->];
      [rewrite PACK_0 | rewrite PACK_1]; lia. }
  rewrite E. apply size_of_PACK; assumption.
Qed.

Lemma GET_SIZE_PUT_ne st f v st' a :
  PUT st f v = Ok st' → a + 4 <= f ∨ f + 4 <= a → GET_SIZE st' a = GET_SIZE st a.
Proof. intros H Ha. unfold GET_SIZE. rewrite (GET_PUT_ne _ _ _ _ _ H Ha). reflexivity. Qed.

(** The byte count that [extend_heap] requests. *)
Lemma extend_heap_request words :
  (if negb (words mod 2 =? 0)
   then wrap ((words + 1) * WSIZE) else wrap (words * WSIZE))
  = wrap (WSIZE * (words + words mod 2)).
Proof.
  unfold WSIZE. destruct (Z.eqb_spec (words mod 2) 0) as [E | E]; simpl; f_equal; lia.
Qed.

Lemma extend_heap_request_mult8 words :
  0 <= wrap (WSIZE * (words + words mod 2)) < 2 ^ 32 ∧
  wrap (WSIZE * (words + words mod 2)) mod 8 = 0.
Proof.
  unfold wrap, WSIZE. change (2 ^ 32) with 4294967296. lia.
Qed.


(** What [extend_heap] does up to its call of [coalesce]. *)
Lemma extend_heap_spec st words st' r :
  mem_brk st ≠ SBRK_FAILED →
  extend_heap st words = Ok (st', r) →
  let bytes := wrap (WSIZE * (words + words mod 2)) in
  let bp := mem_brk st in
  let size := Z.max bytes 16 in
  (mem_max_addr st < bp + bytes ∧ mem_sbrk st bytes = (st, SBRK_FAILED) ∧
   st' = st ∧ r = NULL)
  ∨
  (bp + bytes <= mem_max_addr st ∧
   mem_sbrk st bytes = (set_brk st (bp + bytes), bp) ∧
   ∃ st3,
     frame (λ a, outside_word (HDRP bp) a ∧
                 outside_word (wrap (bp + size - DSIZE)) a ∧
                 outside_word (HDRP (wrap (bp + size))) a)
           (set_brk st (bp + bytes)) st3 ∧
     GET st3 (HDRP bp) = Ok (PACK size 0) ∧
     FTRP st3 bp = Ok (wrap (bp + size - DSIZE)) ∧
     GET st3 (wrap (bp + size - DSIZE)) = Ok (PACK size 0) ∧
     NEXT_BLKP st3 bp = Ok (wrap (bp + size)) ∧
     GET st3 (HDRP (wrap (bp + size))) = Ok (PACK 0 1) ∧
     coalesce st3 bp = Ok (st', r)).
Proof.
  intros Hbrk H. cbv zeta. unfold extend_heap in H.
  rewrite extend_heap_request in H.
  destruct (extend_heap_request_mult8 words) as [Hb Hm].
  set (bytes := wrap (WSIZE * (words + words mod 2))) in *.
  unfold mem_sbrk in *.
  destruct (Z.leb_spec (mem_brk st + bytes) (mem_max_addr st)) as [Hfit | Hfit].
  2:{ left. rewrite Z.eqb_refl in H. injection H as <- <-. auto. }
  right. split; [exact Hfit |]. split; [reflexivity |].
  destruct (Z.eqb_spec (mem_brk st) SBRK_FAILED) as [| _]; [contradiction |].
  rewrite MAX_max in H.
  set (size := Z.max bytes 16) in *.
  assert (Hs : 0 <= size < 2 ^ 32 ∧ size mod 8 = 0 ∧ 16 <= size).
  { subst size. change (2 ^ 32) with 4294967296 in *. lia. }
  destruct Hs as (Hs1 & Hs2 & Hs3).
  set (bp := mem_brk st) in *.
  inv_bind H. rename v into sa, E into Pa.
  inv_bind H. rename v into f, E into Ef.
  inv_bind H. rename v into sb, E into Pb.
  inv_bind H. rename v into next, E into En.
  inv_bind H. rename v into sc, E into Pc.
  assert (Ga : GET_SIZE sa (HDRP bp) = Ok size).
  { eapply GET_SIZE_PUT_eq; [exact Pa | lia | exact Hs2 | auto]. }
  unfold FTRP in Ef. rewrite Ga in Ef. cbn [mbind res_bind] in Ef.
  injection Ef as <-.
  assert (Dhf : HDRP bp + 4 <= wrap (bp + size - DSIZE)
                ∨ wrap (bp + size - DSIZE) + 4 <= HDRP bp).
  { unfold HDRP, wrap, WSIZE, DSIZE. change (2 ^ 32) with 4294967296 in *. lia. }
  assert (Gb : GET_SIZE sb (HDRP bp) = Ok size).
  { rewrite (GET_SIZE_PUT_ne _ _ _ _ _ Pb) by lia. exact Ga. }
  unfold NEXT_BLKP in En. change (wrap (bp - WSIZE)) with (HDRP bp) in En.
  rewrite Gb in En. cbn [mbind res_bind] in En. injection En as <-.
  assert (Dhe : HDRP bp + 4 <= HDRP (wrap (bp + size))
                ∨ HDRP (wrap (bp + size)) + 4 <= HDRP bp).
  { unfold HDRP, wrap, WSIZE, DSIZE. change (2 ^ 32) with 4294967296 in *. lia. }
  assert (Dfe : wrap (bp + size - DSIZE) + 4 <= HDRP (wrap (bp + size))
                ∨ HDRP (wrap (bp + size)) + 4 <= wrap (bp + size - DSIZE)).
  { unfold HDRP, wrap, WSIZE, DSIZE. change (2 ^ 32) with 4294967296 in *. lia. }
  exists sc.
  assert (Gh : GET sc (HDRP bp) = Ok (PACK size 0)).
  { rewrite (GET_PUT_ne _ _ _ _ _ Pc) by lia.
    rewrite (GET_PUT_ne _ _ _ _ _ Pb) by lia.
    rewrite (GET_PUT_eq _ _ _ _ Pa). f_equal. apply wrap_small.
    rewrite PACK_0. lia. }
  assert (Gf : GET sc (wrap (bp + size - DSIZE)) = Ok (PACK size 0)).
  { rewrite (GET_PUT_ne _ _ _ _ _ Pc) by lia.
    rewrite (GET_PUT_eq _ _ _ _ Pb). f_equal. apply wrap_small.
    rewrite PACK_0. lia. }
  assert (Gs : GET_SIZE sc (HDRP bp) = Ok size).
  { unfold GET_SIZE. rewrite Gh. cbn [mbind res_bind]. f_equal.
    apply size_of_PACK; auto. }
  split.
  { eapply frame_weaken; [| eapply frame_trans;
      [eapply frame_trans; [exact (PUT_frame _ _ _ _ Pa) | exact (PUT_frame _ _ _ _ Pb)]
      | exact (PUT_frame _ _ _ _ Pc)]].
    cbv beta. intros a (K1 & K2 & K3). auto. }
  split; [exact Gh |].
  split; [unfold FTRP; rewrite Gs; reflexivity |].
  split; [exact Gf |].
  split; [unfold NEXT_BLKP; change (wrap (bp - WSIZE)) with (HDRP bp);
          rewrite Gs; reflexivity |].
  split; [| exact H].
  rewrite (GET_PUT_eq _ _ _ _ Pc). reflexivity.
Qed.



End ExtendHeap.


(** ** Size classes and the first-fit search *)

Section FindFit.

Lemma list_num_loop_range n : ∀ num bsize,
  0 <= num <= 11 → 0 <= list_num_loop n num bsize <= 11.
Proof.
  induction n as [| n IH]; intros num bsize Hn; simpl; [lia |].
  unfold numlists.
  destruct (Z.ltb_spec num (12 - 1)); simpl; [| lia].
  destruct (bsize >? 1); [apply IH |]; lia.
Qed.

Lemma list_num_range size : 0 <= list_num size < numlists.
Proof.
  unfold list_num, numlists. pose proof (list_num_loop_range 11 0 size). lia.
Qed.

(** More fuel does not change the class: the loop has stopped by then. *)
Lemma list_num_loop_stable n : ∀ num bsize,
  0 <= num → (Z.to_nat (11 - num) <= n)%nat →
  list_num_loop (S n) num bsize = list_num_loop n num bsize.
Proof.
  induction n as [| n IH]; intros num bsize H0 Hn.
  - simpl. unfold numlists.
    destruct (Z.ltb_spec num (12 - 1)); [lia | reflexivity].
  - change (list_num_loop (S (S n)) num bsize)
      with (if (num <? numlists - 1) && (bsize >? 1)
            then list_num_loop (S n) (num + 1) (Z.shiftr bsize 1) else num).
    change (list_num_loop (S n) num bsize)
      with (if (num <? numlists - 1) && (bsize >? 1)
            then list_num_loop n (num + 1) (Z.shiftr bsize 1) else num).
    destruct ((num <? numlists - 1) && (bsize >? 1)) eqn:E; [| reflexivity].
    apply andb_true_iff in E as [E _]. apply Z.ltb_lt in E. unfold numlists in E.
    apply IH; lia.
Qed.

Lemma find_fit_loop_first_fit st size : ∀ bl fuel h,
  free_chain st h bl → (length bl < fuel)%nat →
  find_fit_loop fuel st size h = Ok (first_fit size bl).
Proof.
  induction bl as [| [b s] bl IH]; intros fuel h Hc Hf.
  - simpl in Hc. subst h. destruct fuel; [simpl in Hf; lia | reflexivity].
  - destruct Hc as (-> & Hb & Hs & n & Hn & Hc).
    destruct fuel as [| fuel]; [simpl in Hf; lia |].
    simpl in Hf. simpl.
    destruct (Z.eqb_spec b NULL) as [| _]; [contradiction |].
    rewrite Hs. cbn [mbind res_bind]. unfold first_fit. simpl.
    destruct (size <=? s); [reflexivity |].
    rewrite Hn. cbn [mbind res_bind]. apply IH; [exact Hc | lia].
Qed.



End FindFit.


(** ** Doubly-linked free lists in memory *)

Section FreeLists.

Lemma frame_GET_word K st st' f :
  frame K st st' → (∀ a, f <= a < f + 4 → K a) → GET st' f = GET st f.
Proof. intros F H. eapply frame_GET; [exact F | ..]; apply H; lia. Qed.

Lemma accessible_4 st a :
  accessible st a 4 = true ↔ mem_start_brk st <= a ∧ a + 4 <= mem_max_addr st.
Proof. unfold accessible. rewrite andb_true_iff, !Z.leb_le. reflexivity. Qed.

Lemma PUT_GET_same st f v :
  accessible st f 4 = true → 0 <= v < 2 ^ 32 →
  ∃ st', PUT st f v = Ok st' ∧ GET st' f = Ok v.
Proof.
  intros Ha Hv. destruct (PUT_Ok st f v Ha) as [st' H]. exists st'.
  split; [exact H |]. rewrite (GET_PUT_eq _ _ _ _ H), wrap_small by exact Hv.
  reflexivity.
Qed.

(** Addresses of slots and link words under [lists_ok]. *)
Lemma slot_addr st k :
  sane st → 0 <= k < numlists →
  freelist_slot st k = freelist_p st + 4 * k ∧
  accessible st (freelist_slot st k) 4 = true.
Proof.
  intros (P1 & P2 & D1 & D2) Hk. unfold numlists in *.
  assert (E : freelist_slot st k = freelist_p st + 4 * k).
  { unfold freelist_slot. apply wrap_small. lia. }
  split; [exact E |]. rewrite E. apply accessible_4. lia.
Qed.

Lemma placed_addr st b :
  sane st → placed st b →
  0 < b ∧ b + 8 <= 2 ^ 32 ∧ wrap (b + WSIZE) = b + 4 ∧
  accessible st b 4 = true ∧ accessible st (b + 4) 4 = true.
Proof.
  intros (P1 & P2 & D1 & D2) (A & B & C). unfold numlists, WSIZE in *.
  split; [lia |]. split; [lia |].
  split; [apply wrap_small; lia |].
  split; apply accessible_4; lia.
Qed.

Lemma placed_apart st b b' :
  placed st b → placed st b' → b ≠ b' → b + 8 <= b' ∨ b' + 8 <= b.
Proof. intros (A & _) (A' & _) Hne. lia. Qed.

Lemma placed_above_directory st b a :
  placed st b → in_cells b a → ¬ in_directory st a.
Proof. unfold placed, in_cells, in_directory. lia. Qed.

Lemma placed_regs st st' b : same_regs st st' → placed st b → placed st' b.
Proof. intros (_ & _ & R3 & _ & R5). unfold placed. rewrite R3, R5. tauto. Qed.

Lemma sane_regs st st' : same_regs st st' → sane st → sane st'.
Proof. intros (R1 & _ & R3 & _ & R5). unfold sane. rewrite R1, R3, R5. tauto. Qed.

(** A store outside the link words of [b] leaves them alone. *)
Lemma PUT_cells_same st w v st' b :
  sane st → placed st b → PUT st w v = Ok st' →
  w + 4 <= b ∨ b + 8 <= w → cells_same st st' b.
Proof.
  intros Hs Hb H Hw. destruct (placed_addr _ _ Hs Hb) as (_ & _ & E & _).
  unfold cells_same, GET_PPTR, GET_NPTR. rewrite E.
  split; apply (GET_PUT_ne _ _ _ _ _ H); lia.
Qed.

Lemma cells_same_refl st b : cells_same st st b.
Proof. split; reflexivity. Qed.

Lemma cells_same_trans st1 st2 st3 b :
  cells_same st1 st2 b → cells_same st2 st3 b → cells_same st1 st3 b.
Proof. unfold cells_same. intros [A B] [C D]. split; congruence. Qed.

(** A segment only depends on the link words of its blocks. *)
Lemma dllseg_frame st st' : ∀ l pp h t,
  (∀ b, List.In b l → cells_same st st' b) →
  dllseg st pp h l t → dllseg st' pp h l t.
Proof.
  induction l as [| b l IH]; intros pp h t Hsame H; simpl in *; [exact H |].
  destruct H as (-> & Hb & Hp & n & Hn & Hrest).
  destruct (Hsame b (or_introl eq_refl)) as [E1 E2].
  split; [reflexivity |]. split; [exact Hb |]. split; [congruence |].
  exists n. split; [congruence |]. apply IH; [| exact Hrest].
  intros b' Hb'. apply Hsame. right. exact Hb'.
Qed.

Lemma last_cons (l : list Z) : ∀ b d, List.last (b :: l) d = List.last l b.
Proof.
  induction l as [| c l IH]; intros b d; [reflexivity |].
  change (List.last (b :: c :: l) d) with (List.last (c :: l) d).
  rewrite (IH c d), (IH c b). reflexivity.
Qed.

Lemma dllseg_app st : ∀ l1 l2 pp h t,
  dllseg st pp h (l1 ++ l2) t ↔
  ∃ m, dllseg st pp h l1 m ∧ dllseg st (List.last l1 pp) m l2 t.
Proof.
  induction l1 as [| b l1 IH]; intros l2 pp h t.
  - simpl. split.
    + intros H. exists h. split; [reflexivity | exact H].
    + intros (m & -> & H). exact H.
  - change ((b :: l1) ++ l2) with (b :: (l1 ++ l2)).
    rewrite last_cons. simpl. split.
    + intros (-> & Hb & Hp & n & Hn & H). apply IH in H as (m & H1 & H2).
      exists m. split; [| exact H2]. eauto 10.
    + intros (m & (-> & Hb & Hp & n & Hn & H1) & H2).
      split; [reflexivity |]. split; [exact Hb |]. split; [exact Hp |].
      exists n. split; [exact Hn |]. apply IH. eauto.
Qed.

Lemma dllseg_nonnull st : ∀ l pp h t b,
  dllseg st pp h l t → List.In b l → b ≠ NULL.
Proof.
  induction l as [| c l IH]; intros pp h t b H Hb; [contradiction |].
  destruct H as (-> & Hc & _ & n & _ & H). destruct Hb as [<- | Hb]; [exact Hc |].
  eapply IH; eassumption.
Qed.

Lemma last_In (l : list Z) (d : Z) : l ≠ [] → List.In (List.last l d) l.
Proof.
  induction l as [| b l IH]; [congruence |]. intros _.
  destruct l as [| c l]; [left; reflexivity |].
  right. apply IH. discriminate.
Qed.

(** Redirecting the forward link of the last block of a segment. *)
Lemma dllseg_set_tail st st' : ∀ l pp h x n,
  sane st → (∀ b, List.In b l → placed st b) → List.NoDup l → l ≠ [] →
  dllseg st pp h l x → 0 <= n < 2 ^ 32 →
  SET_NPTR st (List.last l pp) n = Ok st' →
  dllseg st' pp h l n.
Proof.
  induction l as [| b l IH]; intros pp h x n Hs Hpl Hnd Hne H Hn Hput;
    [congruence |].
  destruct H as (-> & Hb & Hp & n0 & Hn0 & H).
  assert (Pb : placed st b) by (apply Hpl; left; reflexivity).
  destruct (placed_addr _ _ Hs Pb) as (_ & _ & Eb & _).
  inversion Hnd as [| ? ? Hnotin Hnd']; subst.
  destruct l as [| c l].
  - simpl in H. subst n0. simpl in Hput. unfold SET_NPTR in Hput. rewrite Eb in Hput.
    split; [reflexivity |]. split; [exact Hb |].
    split.
    { unfold GET_PPTR in *. rewrite (GET_PUT_ne _ _ _ _ _ Hput) by lia. exact Hp. }
    exists n. split; [| reflexivity].
    unfold GET_NPTR. rewrite Eb, (GET_PUT_eq _ _ _ _ Hput), wrap_small by exact Hn.
    reflexivity.
  - rewrite last_cons in Hput.
    assert (Hl : List.In (List.last (c :: l) b) (c :: l)) by (apply last_In; discriminate).
    assert (Pl : placed st (List.last (c :: l) b)) by (apply Hpl; right; exact Hl).
    assert (Hd : List.last (c :: l) b ≠ b) by (intros E; rewrite E in Hl; contradiction).
    destruct (placed_addr _ _ Hs Pl) as (_ & _ & El & _).
    assert (Cb : cells_same st st' b).
    { unfold SET_NPTR in Hput. rewrite El in Hput.
      eapply PUT_cells_same; [exact Hs | exact Pb | exact Hput |].
      pose proof (placed_apart _ _ _ Pb Pl). lia. }
    destruct Cb as [C1 C2].
    split; [reflexivity |]. split; [exact Hb |]. split; [congruence |].
    exists n0. split; [congruence |].
    eapply IH; try eassumption; [| discriminate].
    intros b' Hb'. apply Hpl. right. exact Hb'.
Qed.

(** Redirecting the backward link of the first block of a segment. *)
Lemma dllseg_set_prev st st' l pp h t q :
  sane st → (∀ b, List.In b l → placed st b) → List.NoDup l → l ≠ [] →
  dllseg st pp h l t → 0 <= q < 2 ^ 32 →
  SET_PPTR st h q = Ok st' →
  dllseg st' q h l t.
Proof.
  intros Hs Hpl Hnd Hne H Hq Hput. destruct l as [| b l]; [congruence |].
  destruct H as (-> & Hb & Hp & n & Hn & H).
  assert (Pb : placed st b) by (apply Hpl; left; reflexivity).
  destruct (placed_addr _ _ Hs Pb) as (_ & _ & Eb & _).
  inversion Hnd as [| ? ? Hnotin Hnd']; subst.
  unfold SET_PPTR in Hput.
  split; [reflexivity |]. split; [exact Hb |].
  split.
  { unfold GET_PPTR. rewrite (GET_PUT_eq _ _ _ _ Hput), wrap_small by exact Hq.
    reflexivity. }
  exists n. split.
  { unfold GET_NPTR in *. rewrite Eb in *.
    rewrite (GET_PUT_ne _ _ _ _ _ Hput) by lia. exact Hn. }
  eapply dllseg_frame; [| exact H].
  intros b' Hb'.
  assert (Pb' : placed st b') by (apply Hpl; right; exact Hb').
  eapply PUT_cells_same; [exact Hs | exact Pb' | exact Hput |].
  assert (b' ≠ b) by (intros ->; contradiction).
  pose proof (placed_apart _ _ _ Pb Pb'). lia.
Qed.

Lemma remove_middle (x : Z) (l1 l2 : list Z) :
  List.NoDup (l1 ++ x :: l2) →
  List.remove Z.eq_dec x (l1 ++ x :: l2) = l1 ++ l2.
Proof.
  intros H. apply List.NoDup_remove_2 in H.
  rewrite List.remove_app, List.remove_cons.
  rewrite !List.notin_remove; [reflexivity | |];
    intros Hin; apply H; apply List.in_or_app; auto.
Qed.

Lemma NoDup_remove_Z (x : Z) (l : list Z) :
  List.NoDup l → List.NoDup (List.remove Z.eq_dec x l).
Proof.
  induction 1 as [| y l Hy Hl IH]; simpl; [constructor |].
  destruct (Z.eq_dec x y); [exact IH |].
  constructor; [| exact IH]. intros Hin. apply List.in_remove in Hin. tauto.
Qed.

(** Replacing list [k] of a well-formed family. *)
Lemma lists_ok_update st st' L L' k hk :
  lists_ok st L → same_regs st st' → 0 <= k < numlists →
  (∀ j, j ≠ k → L' j = L j) →
  (∀ b, List.In b (L' k) → placed st b) →
  List.NoDup (L' k) →
  (∀ j b, 0 <= j < numlists → j ≠ k → List.In b (L' k) → ¬ List.In b (L j)) →
  GETfreelistp st' k = Ok hk → dll st' hk (L' k) →
  (∀ j, 0 <= j < numlists → j ≠ k → GETfreelistp st' j = GETfreelistp st j) →
  (∀ j b, 0 <= j < numlists → j ≠ k → List.In b (L j) → cells_same st st' b) →
  lists_ok st' L'.
Proof.
  intros [Hs Hh Hp Hn Hd] R Hk Ho Hpk Hnk Hdk Hhk Hdll Hslots Hcells.
  constructor.
  - eapply sane_regs; eassumption.
  - intros j Hj. destruct (Z.eq_dec j k) as [-> | Hne]; [eauto |].
    destruct (Hh j Hj) as (h & E & D). exists h.
    rewrite Hslots, Ho by assumption. split; [exact E |].
    eapply dllseg_frame; [| exact D]. intros b Hb. eapply Hcells; eassumption.
  - intros j b Hj Hb. eapply placed_regs; [exact R |].
    destruct (Z.eq_dec j k) as [-> | Hne]; [auto |].
    rewrite Ho in Hb by assumption. eapply Hp; eassumption.
  - intros j Hj. destruct (Z.eq_dec j k) as [-> | Hne]; [assumption |].
    rewrite Ho by assumption. auto.
  - intros j j' b Hj Hj' Hb Hb'.
    destruct (Z.eq_dec j k) as [Ej | Hne], (Z.eq_dec j' k) as [Ej' | Hne'].
    + congruence.
    + subst j. rewrite Ho in Hb' by assumption.
      exfalso. exact (Hdk j' b Hj' Hne' Hb Hb').
    + subst j'. rewrite Ho in Hb by assumption.
      exfalso. exact (Hdk j b Hj Hne Hb' Hb).
    + rewrite Ho in Hb, Hb' by assumption. eapply Hd; eassumption.
Qed.

(** Stores into the directory and into link words, seen from the other
    slots and link words. *)
Lemma PUT_keeps_slot st w v st' j :
  sane st → 0 <= j < numlists → freelist_p st + 4 * numlists <= w →
  PUT st w v = Ok st' → GETfreelistp st' j = GETfreelistp st j.
Proof.
  intros Hs Hj Hw H. unfold GETfreelistp.
  rewrite (same_regs_slot _ _ _ (PUT_regs _ _ _ _ H)).
  destruct (slot_addr _ _ Hs Hj) as [E _]. rewrite E.
  apply (GET_PUT_ne _ _ _ _ _ H). unfold numlists in *. lia.
Qed.

Lemma SETfreelistp_get st k v st' :
  SETfreelistp st k v = Ok st' → 0 <= v < 2 ^ 32 → GETfreelistp st' k = Ok v.
Proof.
  unfold SETfreelistp, GETfreelistp. intros H Hv.
  rewrite (same_regs_slot _ _ _ (PUT_regs _ _ _ _ H)).
  rewrite (GET_PUT_eq _ _ _ _ H), wrap_small by exact Hv. reflexivity.
Qed.

Lemma SETfreelistp_other st k v st' j :
  sane st → 0 <= k < numlists → 0 <= j < numlists → j ≠ k →
  SETfreelistp st k v = Ok st' → GETfreelistp st' j = GETfreelistp st j.
Proof.
  unfold SETfreelistp, GETfreelistp. intros Hs Hk Hj Hne H.
  rewrite (same_regs_slot _ _ _ (PUT_regs _ _ _ _ H)).
  destruct (slot_addr _ _ Hs Hk) as [Ek _]. destruct (slot_addr _ _ Hs Hj) as [Ej _].
  rewrite Ek in H. rewrite Ej. apply (GET_PUT_ne _ _ _ _ _ H). lia.
Qed.

Lemma SETfreelistp_cells st k v st' b :
  sane st → 0 <= k < numlists → placed st b →
  SETfreelistp st k v = Ok st' → cells_same st st' b.
Proof.
  unfold SETfreelistp. intros Hs Hk Hb H.
  destruct (slot_addr _ _ Hs Hk) as [Ek _]. rewrite Ek in H.
  eapply PUT_cells_same; [exact Hs | exact Hb | exact H |].
  destruct Hb as (_ & Hb & _). unfold numlists in *. lia.
Qed.

Lemma SETfreelistp_frame st L k v st' :
  sane st → 0 <= k < numlists →
  SETfreelistp st k v = Ok st' → frame (untouched st L) st st'.
Proof.
  unfold SETfreelistp. intros Hs Hk H.
  destruct (slot_addr _ _ Hs Hk) as [Ek _]. rewrite Ek in H.
  eapply frame_weaken; [| exact (PUT_frame _ _ _ _ H)].
  intros a [Hd _]. unfold in_directory, outside_word, numlists in *. lia.
Qed.

Lemma SETfreelistp_Ok st k v :
  sane st → 0 <= k < numlists → ∃ st', SETfreelistp st k v = Ok st'.
Proof.
  intros Hs Hk. destruct (slot_addr _ _ Hs Hk) as [_ A]. apply PUT_Ok. exact A.
Qed.

Lemma SET_PPTR_Ok st b v :
  sane st → placed st b → ∃ st', SET_PPTR st b v = Ok st'.
Proof.
  intros Hs Hb. destruct (placed_addr _ _ Hs Hb) as (_ & _ & _ & A & _).
  apply PUT_Ok. exact A.
Qed.

Lemma SET_NPTR_Ok st b v :
  sane st → placed st b → ∃ st', SET_NPTR st b v = Ok st'.
Proof.
  intros Hs Hb. destruct (placed_addr _ _ Hs Hb) as (_ & _ & E & _ & A).
  unfold SET_NPTR. rewrite E. apply PUT_Ok. exact A.
Qed.

(** A store into a link word of [b]: the slots, the other blocks, the frame. *)
Lemma SET_link_facts st b w v st' :
  sane st → placed st b → PUT st w v = Ok st' → w = b ∨ w = b + 4 →
  same_regs st st' ∧
  (∀ j, 0 <= j < numlists → GETfreelistp st' j = GETfreelistp st j) ∧
  (∀ b', placed st b' → b' ≠ b → cells_same st st' b') ∧
  (∀ L k, 0 <= k < numlists → List.In b (L k) → frame (untouched st L) st st').
Proof.
  intros Hs Hb H Hw. split; [exact (PUT_regs _ _ _ _ H) |].
  split; [| split].
  - intros j Hj. eapply PUT_keeps_slot; [exact Hs | exact Hj | | exact H].
    destruct Hb as (_ & Hb & _). lia.
  - intros b' Hb' Hne. eapply PUT_cells_same; [exact Hs | exact Hb' | exact H |].
    pose proof (placed_apart _ _ _ Hb Hb' ltac:(congruence)). lia.
  - intros L k Hk Hin. eapply frame_weaken; [| exact (PUT_frame _ _ _ _ H)].
    intros a [_ Hc]. specialize (Hc k b Hk Hin).
    unfold in_cells, outside_word in *. lia.
Qed.

Lemma untouched_regs st st' L a :
  same_regs st st' → untouched st L a → untouched st' L a.
Proof.
  intros (_ & _ & _ & _ & R) [H1 H2]. split; [| exact H2].
  unfold in_directory in *. rewrite R. exact H1.
Qed.

Lemma frame_untouched_trans st1 st2 st3 L :
  frame (untouched st1 L) st1 st2 → frame (untouched st2 L) st2 st3 →
  frame (untouched st1 L) st1 st3.
Proof.
  intros F1 F2. eapply frame_weaken; [| eapply frame_trans; [exact F1 | exact F2]].
  cbv beta. intros a Ha. split; [exact Ha |].
  eapply untouched_regs; [apply F1 | exact Ha].
Qed.

Lemma GET_pointer_range st f v : GET st f = Ok v → 0 <= v < 2 ^ 32.
Proof. apply GET_range. Qed.

Lemma L_del_other k x L j : j ≠ k → L_del k x L j = L j.
Proof. intros H. unfold L_del. destruct (Z.eqb_spec j k); [contradiction | reflexivity]. Qed.

Lemma L_del_same k x L : L_del k x L k = List.remove Z.eq_dec x (L k).
Proof. unfold L_del. rewrite Z.eqb_refl. reflexivity. Qed.

(** [deletefree] unlinks a listed block from the list of its size class and
    touches nothing but the directory and the link words of listed blocks. *)
Lemma deletefree_spec st L k x s :
  lists_ok st L → 0 <= k < numlists → List.In x (L k) →
  GET_SIZE st (HDRP x) = Ok s → list_num s = k →
  ∃ st', deletefree st x = Ok st' ∧ lists_ok st' (L_del k x L) ∧
         frame (untouched st L) st st'.
Proof.
  intros Hok Hk Hx Hsz Hcl.
  pose proof Hok as [Hs Hheads Hplaced Hnodup Hdisj].
  destruct (Hheads k Hk) as (h & Eh & Hdll).
  destruct (List.in_split _ _ Hx) as (l1 & l2 & El).
  pose proof (Hnodup k Hk) as ND. rewrite El in ND.
  unfold dll in Hdll. rewrite El in Hdll.
  apply dllseg_app in Hdll as (m & H1 & H2).
  destruct H2 as (-> & Hx0 & Hpp & n & Hn & H2).
  assert (Pk : ∀ b, List.In b (L k) → placed st b) by (intros b; apply Hplaced; exact Hk).
  assert (Px : placed st x) by (apply Pk; exact Hx).
  assert (P1 : ∀ b, List.In b l1 → placed st b).
  { intros b Hb. apply Pk. rewrite El. apply List.in_or_app. auto. }
  assert (P2 : ∀ b, List.In b l2 → placed st b).
  { intros b Hb. apply Pk. rewrite El. apply List.in_or_app. right. right. exact Hb. }
  assert (ND1 : List.NoDup l1) by (apply List.NoDup_app_remove_r in ND; exact ND).
  assert (ND2 : List.NoDup l2).
  { apply List.NoDup_app_remove_l in ND. inversion ND; assumption. }
  assert (Nx1 : ¬ List.In x l1).
  { intros Hin. apply List.NoDup_remove_2 in ND. apply ND, List.in_or_app. auto. }
  assert (Nx2 : ¬ List.In x l2).
  { intros Hin. apply List.NoDup_remove_2 in ND. apply ND, List.in_or_app. auto. }
  assert (N12 : ∀ b, List.In b l1 → ¬ List.In b l2).
  { intros b Hb1 Hb2. apply List.NoDup_remove_1 in ND.
    revert Hb1 Hb2. clear -ND. induction l1 as [| c l1 IH]; [contradiction |].
    simpl in ND. inversion ND as [| ? ? Hc ND']; subst.
    intros [-> | Hb1] Hb2; [apply Hc, List.in_or_app; auto | auto]. }
  (* what the result has to satisfy, whatever the case *)
  assert (Enew : L_del k x L k = l1 ++ l2).
  { rewrite L_del_same, El. apply remove_middle. exact ND. }
  assert (Fin : ∀ st' hk,
    same_regs st st' →
    GETfreelistp st' k = Ok hk → dll st' hk (l1 ++ l2) →
    (∀ j, 0 <= j < numlists → j ≠ k → GETfreelistp st' j = GETfreelistp st j) →
    (∀ j b, 0 <= j < numlists → j ≠ k → List.In b (L j) → cells_same st st' b) →
    lists_ok st' (L_del k x L)).
  { intros st' hk R Hh Hd Hsl Hce.
    eapply (lists_ok_update st st' L (L_del k x L) k hk); try eassumption.
    - intros j Hj. apply L_del_other. exact Hj.
    - intros b Hb. rewrite L_del_same in Hb. apply List.in_remove in Hb as [Hb _]. auto.
    - rewrite L_del_same. apply NoDup_remove_Z. auto.
    - intros j b Hj Hne Hb Hb'. rewrite L_del_same in Hb.
      apply List.in_remove in Hb as [Hb _]. apply Hne. eapply Hdisj; eassumption.
    - rewrite Enew. exact Hd. }
  assert (Other : ∀ j b, 0 <= j < numlists → j ≠ k → List.In b (L j) →
                         placed st b ∧ ¬ List.In b (L k)).
  { intros j b Hj Hne Hb. split; [eapply Hplaced; eassumption |].
    intros Hb'. apply Hne. eapply Hdisj; eassumption. }
  unfold deletefree. rewrite Hsz. cbn [mbind res_bind]. rewrite Hcl, Hpp.
  cbn [mbind res_bind]. rewrite Hn. cbn [mbind res_bind].
  pose proof (GET_pointer_range _ _ _ Hn) as Rn.
  pose proof (GET_pointer_range _ _ _ Hpp) as Rp.
  destruct l1 as [| a0 l1'] eqn:El1.
  - (* the block is the head of its list *)
    simpl in H1. subst h. simpl in Hpp |- *.
    change (List.last [] NULL) with NULL in *.
    change (negb (NULL =? NULL)) with false. cbv iota.
    destruct l2 as [| n' l2'].
    + (* and the only block *)
      simpl in H2. subst n. change (negb (NULL =? NULL)) with false. cbv iota.
      destruct (SETfreelistp_Ok st k NULL Hs Hk) as [st' Hput].
      exists st'. split; [exact Hput |]. split.
      * apply (Fin st' NULL).
        -- apply (PUT_regs _ _ _ _ Hput).
        -- eapply SETfreelistp_get; [exact Hput | unfold NULL; lia].
        -- reflexivity.
        -- intros j Hj Hne. exact (SETfreelistp_other _ _ _ _ _ Hs Hk Hj Hne Hput).
        -- intros j b Hj Hne Hb.
           exact (SETfreelistp_cells _ _ _ _ _ Hs Hk (proj1 (Other j b Hj Hne Hb)) Hput).
      * exact (SETfreelistp_frame _ L _ _ _ Hs Hk Hput).
    + (* with a successor *)
      destruct H2 as (-> & Hn0 & Hpn & n2 & Hnn & H2).
      destruct (Z.eqb_spec n' NULL) as [| _]; [contradiction |]. cbn [negb].
      destruct (SETfreelistp_Ok st k n' Hs Hk) as [st1 Hput1].
      rewrite Hput1. cbn [mbind res_bind].
      assert (Pn : placed st n') by (apply P2; left; reflexivity).
      assert (R1 : same_regs st st1) by (apply (PUT_regs _ _ _ _ Hput1)).
      assert (Hs1 : sane st1) by (eapply sane_regs; eassumption).
      assert (Cx : cells_same st st1 x)
        by exact (SETfreelistp_cells _ _ _ _ _ Hs Hk Px Hput1).
      destruct Cx as [_ Cx]. rewrite Cx, Hn. cbn [mbind res_bind].
      destruct (SET_PPTR_Ok st1 n' NULL Hs1 (placed_regs _ _ _ R1 Pn)) as [st' Hput2].
      exists st'. split; [exact Hput2 |].
      destruct (SET_link_facts st1 n' n' NULL st' Hs1 (placed_regs _ _ _ R1 Pn) Hput2
                  (or_introl eq_refl)) as (R2 & Sl & Ce & Fr).
      split.
      * apply (Fin st' n').
        -- eapply same_regs_trans; eassumption.
        -- rewrite Sl by exact Hk. eapply SETfreelistp_get; eassumption.
        -- simpl. unfold dll.
           assert (Q1 : ∀ b, List.In b (n' :: l2') → placed st1 b).
           { intros b Hb. eapply placed_regs; [exact R1 | apply P2; exact Hb]. }
           assert (Q2 : dllseg st1 x n' (n' :: l2') NULL).
           { eapply dllseg_frame; [| simpl; eauto 10].
             intros b Hb. exact (SETfreelistp_cells _ _ _ _ _ Hs Hk (P2 b Hb) Hput1). }
           assert (Q3 : 0 <= NULL < 2 ^ 32) by (unfold NULL; lia).
           exact (dllseg_set_prev st1 st' (n' :: l2') x n' NULL NULL Hs1 Q1 ND2
                    ltac:(discriminate) Q2 Q3 Hput2).
        -- intros j Hj Hne. rewrite Sl by exact Hj.
           exact (SETfreelistp_other _ _ _ _ _ Hs Hk Hj Hne Hput1).
        -- intros j b Hj Hne Hb. destruct (Other j b Hj Hne Hb) as [Pb Nb].
           eapply cells_same_trans.
           ++ exact (SETfreelistp_cells _ _ _ _ _ Hs Hk Pb Hput1).
           ++ apply Ce; [eapply placed_regs; eassumption |].
              intros ->. apply Nb. rewrite El. apply List.in_or_app. right. right. left. reflexivity.
      * eapply frame_untouched_trans.
        -- exact (SETfreelistp_frame _ L _ _ _ Hs Hk Hput1).
        -- apply (Fr L k Hk). rewrite El. apply List.in_or_app. right. right. left. reflexivity.
  - (* the block has a predecessor *)
    rewrite <- El1 in *.
    assert (Hne1 : l1 ≠ []) by (rewrite El1; discriminate).
    set (p := List.last l1 NULL) in *.
    assert (Hp1 : List.In p l1) by (apply last_In; exact Hne1).
    assert (Pp : placed st p) by (apply P1; exact Hp1).
    assert (Hp0 : p ≠ NULL) by exact (dllseg_nonnull st l1 NULL h x p H1 Hp1).
    assert (Hpx : p ≠ x) by (intros E; rewrite E in Hp1; contradiction).
    destruct (Z.eqb_spec p NULL) as [| _]; [contradiction |]. cbn [negb].
    destruct l2 as [| n' l2'].
    + (* and no successor *)
      simpl in H2. subst n. change (negb (NULL =? NULL)) with false. cbv iota.
      destruct (SET_NPTR_Ok st p NULL Hs Pp) as [st' Hput].
      exists st'. split; [exact Hput |].
      pose proof Hput as Hput'. unfold SET_NPTR in Hput'.
      destruct (placed_addr _ _ Hs Pp) as (_ & _ & Ep & _). rewrite Ep in Hput'.
      destruct (SET_link_facts st p (p + 4) NULL st' Hs Pp Hput' (or_intror eq_refl))
        as (R & Sl & Ce & Fr).
      split.
      * apply (Fin st' h).
        -- exact R.
        -- rewrite Sl by exact Hk. exact Eh.
        -- rewrite List.app_nil_r. unfold dll.
           assert (Q3 : 0 <= NULL < 2 ^ 32) by (unfold NULL; lia).
           exact (dllseg_set_tail st st' l1 NULL h x NULL Hs P1 ND1 Hne1 H1 Q3 Hput).
        -- intros j Hj Hne. apply Sl. exact Hj.
        -- intros j b Hj Hne Hb. destruct (Other j b Hj Hne Hb) as [Pb Nb].
           apply Ce; [exact Pb |]. intros ->. apply Nb. rewrite El.
           apply List.in_or_app. left. exact Hp1.
      * apply (Fr L k Hk). rewrite El. apply List.in_or_app. left. exact Hp1.
    + (* between two blocks *)
      destruct H2 as (-> & Hn0 & Hpn & n2 & Hnn & H2).
      destruct (Z.eqb_spec n' NULL) as [| _]; [contradiction |]. cbn [negb].
      assert (Pn : placed st n') by (apply P2; left; reflexivity).
      destruct (SET_NPTR_Ok st p n' Hs Pp) as [st1 Hput1].
      rewrite Hput1. cbn [mbind res_bind].
      pose proof Hput1 as Hput1'. unfold SET_NPTR in Hput1'.
      destruct (placed_addr _ _ Hs Pp) as (_ & _ & Ep & _). rewrite Ep in Hput1'.
      destruct (SET_link_facts st p (p + 4) n' st1 Hs Pp Hput1' (or_intror eq_refl))
        as (R1 & Sl1 & Ce1 & Fr1).
      assert (Hs1 : sane st1) by (eapply sane_regs; eassumption).
      destruct (Ce1 x Px ltac:(congruence)) as [Cx1 Cx2].
      rewrite Cx2, Hn. cbn [mbind res_bind]. rewrite Cx1, Hpp. cbn [mbind res_bind].
      destruct (SET_PPTR_Ok st1 n' p Hs1 (placed_regs _ _ _ R1 Pn)) as [st' Hput2].
      exists st'. split; [exact Hput2 |].
      destruct (SET_link_facts st1 n' n' p st' Hs1 (placed_regs _ _ _ R1 Pn) Hput2
                  (or_introl eq_refl)) as (R2 & Sl2 & Ce2 & Fr2).
      assert (Hn1 : ¬ List.In n' l1).
      { intros Hin. apply (N12 n' Hin). left. reflexivity. }
      split.
      * apply (Fin st' h).
        -- eapply same_regs_trans; eassumption.
        -- rewrite Sl2, Sl1 by exact Hk. exact Eh.
        -- unfold dll. apply dllseg_app. exists n'. split.
           ++ eapply dllseg_frame;
                [| exact (dllseg_set_tail st st1 l1 NULL h x n' Hs P1 ND1 Hne1 H1 Rn Hput1)].
              intros b Hb. apply Ce2; [eapply placed_regs; [exact R1 | auto] |].
              intros ->. contradiction.
           ++ fold p.
              assert (Q1 : ∀ b, List.In b (n' :: l2') → placed st1 b).
              { intros b Hb. eapply placed_regs; [exact R1 | apply P2; exact Hb]. }
              assert (Q2 : dllseg st1 x n' (n' :: l2') NULL).
              { eapply dllseg_frame; [| simpl; eauto 10].
                intros b Hb. apply Ce1; [apply P2; exact Hb |].
                intros ->. exact (N12 p Hp1 Hb). }
              exact (dllseg_set_prev st1 st' (n' :: l2') x n' NULL p Hs1 Q1 ND2
                       ltac:(discriminate) Q2 Rp Hput2).
        -- intros j Hj Hne. rewrite Sl2, Sl1 by exact Hj. reflexivity.
        -- intros j b Hj Hne Hb. destruct (Other j b Hj Hne Hb) as [Pb Nb].
           eapply cells_same_trans.
           ++ apply Ce1; [exact Pb |]. intros ->. apply Nb. rewrite El.
              apply List.in_or_app. left. exact Hp1.
           ++ apply Ce2; [eapply placed_regs; eassumption |].
              intros ->. apply Nb. rewrite El.
              apply List.in_or_app. right. right. left. reflexivity.
      * eapply frame_untouched_trans.
        -- apply (Fr1 L k Hk). rewrite El. apply List.in_or_app. left. exact Hp1.
        -- apply (Fr2 L k Hk). rewrite El.
           apply List.in_or_app. right. right. left. reflexivity.
Qed.

Lemma L_ins_other k x L j : j ≠ k → L_ins k x L j = L j.
Proof. intros H. unfold L_ins. destruct (Z.eqb_spec j k); [contradiction | reflexivity]. Qed.

Lemma L_ins_same k x L : L_ins k x L k = x :: L k.
Proof. unfold L_ins. rewrite Z.eqb_refl. reflexivity. Qed.

Lemma untouched_L_ins st L k bp a :
  untouched st (L_ins k bp L) a → 0 <= k < numlists →
  untouched st L a ∧ ¬ in_cells bp a.
Proof.
  intros [H1 H2] Hk. split; [split; [exact H1 |] |].
  - intros j b Hj Hb. apply (H2 j b Hj). unfold L_ins.
    destruct (j =? k); [right |]; exact Hb.
  - apply (H2 k bp Hk). rewrite L_ins_same. left. reflexivity.
Qed.

(** [ADD_free] puts a block at the head of the list of its size class and
    touches nothing but the directory and the link words of listed blocks,
    the new one included. *)
Lemma ADD_free_spec st L bp size k :
  lists_ok st L → placed st bp →
  (∀ j, 0 <= j < numlists → ¬ List.In bp (L j)) →
  list_num size = k →
  ∃ st', ADD_free st bp size = Ok st' ∧ lists_ok st' (L_ins k bp L) ∧
         frame (untouched st (L_ins k bp L)) st st'.
Proof.
  intros Hok Pbp Hfresh Hcl.
  pose proof Hok as [Hs Hheads Hplaced Hnodup Hdisj].
  assert (Hk : 0 <= k < numlists) by (rewrite <- Hcl; apply list_num_range).
  destruct (Hheads k Hk) as (h & Eh & Hdll).
  destruct (placed_addr _ _ Hs Pbp) as (Bp0 & Bp1 & Ebp & _).
  assert (Rbp : 0 <= bp < 2 ^ 32) by lia.
  assert (Pk : ∀ b, List.In b (L k) → placed st b) by (intros b; apply Hplaced; exact Hk).
  assert (Fin : ∀ st',
    same_regs st st' →
    GETfreelistp st' k = Ok bp → dll st' bp (bp :: L k) →
    (∀ j, 0 <= j < numlists → j ≠ k → GETfreelistp st' j = GETfreelistp st j) →
    (∀ j b, 0 <= j < numlists → j ≠ k → List.In b (L j) → cells_same st st' b) →
    lists_ok st' (L_ins k bp L)).
  { intros st' R Hh Hd Hsl Hce.
    eapply (lists_ok_update st st' L (L_ins k bp L) k bp); try eassumption.
    - intros j Hj. apply L_ins_other. exact Hj.
    - intros b Hb. rewrite L_ins_same in Hb. destruct Hb as [<- | Hb]; auto.
    - rewrite L_ins_same. constructor; [apply Hfresh; exact Hk | auto].
    - intros j b Hj Hne Hb Hb'. rewrite L_ins_same in Hb.
      destruct Hb as [<- | Hb]; [exact (Hfresh j Hj Hb') |].
      apply Hne. eapply Hdisj; eassumption.
    - rewrite L_ins_same. exact Hd. }
  assert (Other : ∀ j b, 0 <= j < numlists → List.In b (L j) → placed st b ∧ b ≠ bp).
  { intros j b Hj Hb. split; [eapply Hplaced; eassumption |].
    intros ->. exact (Hfresh j Hj Hb). }
  assert (Frm : ∀ st1 st2 w v,
    same_regs st st1 → PUT st1 w v = Ok st2 → w = bp ∨ w = bp + 4 →
    frame (untouched st1 (L_ins k bp L)) st1 st2).
  { intros st1 st2 w v R H Hw.
    destruct (SET_link_facts st1 bp w v st2 (sane_regs _ _ R Hs)
                (placed_regs _ _ _ R Pbp) H Hw) as (_ & _ & _ & Fr).
    apply (Fr _ k Hk). rewrite L_ins_same. left. reflexivity. }
  unfold ADD_free. rewrite Hcl, Eh. cbn [mbind res_bind].
  unfold dll in Hdll. destruct (L k) as [| c l] eqn:ELk.
  - (* empty list *)
    simpl in Hdll. subst h. change (negb (NULL =? NULL)) with false. cbv iota.
    destruct (SETfreelistp_Ok st k bp Hs Hk) as [st1 Hput1].
    rewrite Hput1. cbn [mbind res_bind].
    assert (R1 : same_regs st st1) by (apply (PUT_regs _ _ _ _ Hput1)).
    assert (Hs1 : sane st1) by (eapply sane_regs; eassumption).
    assert (P1 : placed st1 bp) by (eapply placed_regs; eassumption).
    destruct (SET_NPTR_Ok st1 bp NULL Hs1 P1) as [st2 Hput2].
    rewrite Hput2. cbn [mbind res_bind].
    pose proof Hput2 as Hput2'. unfold SET_NPTR in Hput2'. rewrite Ebp in Hput2'.
    destruct (SET_link_facts st1 bp (bp + 4) NULL st2 Hs1 P1 Hput2' (or_intror eq_refl))
      as (R2 & Sl2 & Ce2 & _).
    assert (Hs2 : sane st2) by (eapply sane_regs; eassumption).
    assert (P2 : placed st2 bp) by (eapply placed_regs; eassumption).
    destruct (SET_PPTR_Ok st2 bp NULL Hs2 P2) as [st' Hput3].
    exists st'. split; [exact Hput3 |].
    destruct (SET_link_facts st2 bp bp NULL st' Hs2 P2 Hput3 (or_introl eq_refl))
      as (R3 & Sl3 & Ce3 & _).
    split.
    + apply Fin.
      * eapply same_regs_trans; [eapply same_regs_trans |]; eassumption.
      * rewrite Sl3, Sl2 by exact Hk. eapply SETfreelistp_get; eassumption.
      * unfold dll. simpl. split; [reflexivity |]. split; [unfold NULL; lia |].
        split.
        { unfold GET_PPTR. unfold SET_PPTR in Hput3.
          rewrite (GET_PUT_eq _ _ _ _ Hput3). reflexivity. }
        exists NULL. split; [| reflexivity].
        unfold GET_NPTR. rewrite Ebp. unfold SET_PPTR in Hput3.
        rewrite (GET_PUT_ne _ _ _ _ _ Hput3) by lia.
        rewrite (GET_PUT_eq _ _ _ _ Hput2'). reflexivity.
      * intros j Hj Hne. rewrite Sl3, Sl2 by exact Hj.
        exact (SETfreelistp_other _ _ _ _ _ Hs Hk Hj Hne Hput1).
      * intros j b Hj Hne Hb. destruct (Other j b Hj Hb) as [Pb Nb].
        eapply cells_same_trans;
          [exact (SETfreelistp_cells _ _ _ _ _ Hs Hk Pb Hput1) |].
        eapply cells_same_trans.
        -- apply Ce2; [eapply placed_regs; eassumption | exact Nb].
        -- apply Ce3; [eapply placed_regs; [| exact Pb];
                       eapply same_regs_trans; eassumption | exact Nb].
    + eapply frame_untouched_trans;
        [exact (SETfreelistp_frame _ _ _ _ _ Hs Hk Hput1) |].
      eapply frame_untouched_trans; [exact (Frm _ _ _ _ R1 Hput2' (or_intror eq_refl)) |].
      apply (Frm _ _ _ _ (same_regs_trans _ _ _ R1 R2) Hput3 (or_introl eq_refl)).
  - (* non-empty list *)
    destruct Hdll as (-> & Hc0 & Hpc & n & Hnc & Hrest).
    destruct (Z.eqb_spec c NULL) as [| _]; [contradiction |]. cbn [negb].
    assert (Pc : placed st c) by (apply Pk; left; reflexivity).
    assert (Hcb : c ≠ bp).
    { intros ->. apply (Hfresh k Hk). rewrite ELk. left. reflexivity. }
    destruct (SET_NPTR_Ok st bp c Hs Pbp) as [st1 Hput1].
    rewrite Hput1. cbn [mbind res_bind].
    pose proof Hput1 as Hput1'. unfold SET_NPTR in Hput1'. rewrite Ebp in Hput1'.
    destruct (SET_link_facts st bp (bp + 4) c st1 Hs Pbp Hput1' (or_intror eq_refl))
      as (R1 & Sl1 & Ce1 & _).
    assert (Hs1 : sane st1) by (eapply sane_regs; eassumption).
    assert (P1 : placed st1 bp) by (eapply placed_regs; eassumption).
    destruct (SET_PPTR_Ok st1 bp NULL Hs1 P1) as [st2 Hput2].
    rewrite Hput2. cbn [mbind res_bind].
    destruct (SET_link_facts st1 bp bp NULL st2 Hs1 P1 Hput2 (or_introl eq_refl))
      as (R2 & Sl2 & Ce2 & _).
    assert (R12 : same_regs st st2) by (eapply same_regs_trans; eassumption).
    assert (Hs2 : sane st2) by (eapply sane_regs; eassumption).
    assert (Pc2 : placed st2 c) by (eapply placed_regs; eassumption).
    destruct (SET_PPTR_Ok st2 c bp Hs2 Pc2) as [st3 Hput3].
    rewrite Hput3. cbn [mbind res_bind].
    destruct (SET_link_facts st2 c c bp st3 Hs2 Pc2 Hput3 (or_introl eq_refl))
      as (R3 & Sl3 & Ce3 & Fr3).
    assert (R13 : same_regs st st3) by (eapply same_regs_trans; eassumption).
    assert (Hs3 : sane st3) by (eapply sane_regs; eassumption).
    destruct (SETfreelistp_Ok st3 k bp Hs3 Hk) as [st' Hput4].
    exists st'. split; [exact Hput4 |].
    assert (R4 : same_regs st3 st') by (apply (PUT_regs _ _ _ _ Hput4)).
    assert (C02 : ∀ b, placed st b → b ≠ bp → cells_same st st2 b).
    { intros b Pb Nb. eapply cells_same_trans; [apply Ce1; assumption |].
      apply Ce2; [eapply placed_regs; eassumption | exact Nb]. }
    split.
    + apply Fin.
      * eapply same_regs_trans; eassumption.
      * eapply SETfreelistp_get; eassumption.
      * unfold dll.
        assert (Q0 : dllseg st2 NULL c (c :: l) NULL).
        { eapply dllseg_frame; [| simpl; eauto 10].
          intros b Hb. apply C02; [apply Pk; exact Hb |].
          intros ->. apply (Hfresh k Hk). rewrite ELk. exact Hb. }
        assert (Q1 : ∀ b, List.In b (c :: l) → placed st2 b).
        { intros b Hb. eapply placed_regs; [exact R12 | apply Pk; exact Hb]. }
        assert (ND : List.NoDup (c :: l)) by (rewrite <- ELk; auto).
        pose proof (dllseg_set_prev st2 st3 (c :: l) NULL c NULL bp Hs2 Q1 ND
                      ltac:(discriminate) Q0 Rbp Hput3) as Q3.
        assert (Q4 : dllseg st' bp c (c :: l) NULL).
        { eapply dllseg_frame; [| exact Q3].
          intros b Hb.
          refine (SETfreelistp_cells _ _ _ _ _ Hs3 Hk _ Hput4).
          eapply placed_regs; [exact R13 | apply Pk; exact Hb]. }
        assert (Cbp : cells_same st2 st' bp).
        { eapply cells_same_trans.
          - apply Ce3; [eapply placed_regs; eassumption | congruence].
          - refine (SETfreelistp_cells _ _ _ _ _ Hs3 Hk _ Hput4).
            eapply placed_regs; eassumption. }
        destruct Cbp as [Cb1 Cb2].
        simpl. split; [reflexivity |]. split; [unfold NULL; lia |].
        split.
        { rewrite Cb1. unfold GET_PPTR. unfold SET_PPTR in Hput2.
          rewrite (GET_PUT_eq _ _ _ _ Hput2). reflexivity. }
        exists c. split; [| exact Q4].
        rewrite Cb2. unfold GET_NPTR. rewrite Ebp. unfold SET_PPTR in Hput2.
        rewrite (GET_PUT_ne _ _ _ _ _ Hput2) by lia.
        rewrite (GET_PUT_eq _ _ _ _ Hput1'), wrap_small; [reflexivity |].
        destruct (placed_addr _ _ Hs Pc). lia.
      * intros j Hj Hne.
        rewrite (SETfreelistp_other _ _ _ _ _ Hs3 Hk Hj Hne Hput4).
        rewrite Sl3, Sl2, Sl1 by exact Hj. reflexivity.
      * intros j b Hj Hne Hb. destruct (Other j b Hj Hb) as [Pb Nb].
        eapply cells_same_trans; [apply C02; assumption |].
        eapply cells_same_trans.
        -- apply Ce3; [eapply placed_regs; eassumption |].
           intros ->. apply Hne. apply (Hdisj j k c Hj Hk Hb). rewrite ELk. left. reflexivity.
        -- refine (SETfreelistp_cells _ _ _ _ _ Hs3 Hk _ Hput4).
           eapply placed_regs; eassumption.
    + eapply frame_untouched_trans; [exact (Frm _ _ _ _ (same_regs_refl st) Hput1' (or_intror eq_refl)) |].
      eapply frame_untouched_trans; [exact (Frm _ _ _ _ R1 Hput2 (or_introl eq_refl)) |].
      eapply frame_untouched_trans.
      * apply (Fr3 _ k Hk). rewrite L_ins_same, ELk. right. left. reflexivity.
      * exact (SETfreelistp_frame _ _ _ _ _ Hs3 Hk Hput4).
Qed.

End FreeLists.


(** ** Coalescing *)

Section Coalesce.

Lemma untouched_GET st st' L t :
  frame (untouched st L) st st' →
  freelist_p st + 4 * numlists <= t →
  (∀ j m, 0 <= j < numlists → List.In m (L j) → t + 4 <= m ∨ m + 8 <= t) →
  GET st' t = GET st t.
Proof.
  intros F Hd Hm. apply (frame_GET_word _ _ _ _ F). intros a Ha. split.
  - unfold in_directory. lia.
  - intros j m Hj Hin. specialize (Hm j m Hj Hin). unfold in_cells. lia.
Qed.

Lemma untouched_sub st st' L L' a :
  same_regs st st' →
  (∀ j m, 0 <= j < numlists → List.In m (L' j) → List.In m (L j)) →
  untouched st L a → untouched st' L' a.
Proof.
  intros R Hsub [H1 H2]. split.
  - unfold in_directory in *. destruct R as (_ & _ & _ & _ & ->). exact H1.
  - intros j m Hj Hin. apply (H2 j m Hj). apply Hsub; assumption.
Qed.

Lemma L_del_sub k x L j m : List.In m (L_del k x L j) → List.In m (L j) ∧ (j = k → m ≠ x).
Proof.
  unfold L_del. destruct (Z.eqb_spec j k) as [-> | Hne].
  - intros H. apply List.in_remove in H. tauto.
  - intros H. split; [exact H | contradiction].
Qed.

Lemma L_del_keeps k x L j m : List.In m (L j) → m ≠ x → List.In m (L_del k x L j).
Proof.
  unfold L_del. intros H Hne. destruct (j =? k); [| exact H].
  apply List.in_in_remove; assumption.
Qed.

(** After its removal a block is on no list. *)
Lemma L_del_fresh st L k x :
  lists_ok st L → 0 <= k < numlists → List.In x (L k) →
  ∀ j, 0 <= j < numlists → ¬ List.In x (L_del k x L j).
Proof.
  intros Hok Hk Hx j Hj Hin. apply L_del_sub in Hin as [Hin Hne].
  apply Hne; [| reflexivity]. eapply (lo_disjoint _ _ Hok); eassumption.
Qed.

(** A store that stays clear of the directory and of the link words keeps
    the lists. *)
Lemma lists_ok_PUT st L t v st' :
  lists_ok st L → PUT st t v = Ok st' →
  freelist_p st + 4 * numlists <= t →
  (∀ j m, 0 <= j < numlists → List.In m (L j) → t + 4 <= m ∨ m + 8 <= t) →
  lists_ok st' L.
Proof.
  intros [Hs Hh Hp Hn Hd] H Ht Hm.
  pose proof (PUT_regs _ _ _ _ H) as R.
  constructor.
  - eapply sane_regs; eassumption.
  - intros j Hj. destruct (Hh j Hj) as (h & E & D). exists h.
    rewrite (PUT_keeps_slot _ _ _ _ _ Hs Hj Ht H). split; [exact E |].
    eapply dllseg_frame; [| exact D]. intros b Hb.
    eapply PUT_cells_same; [exact Hs | exact (Hp j b Hj Hb) | exact H |].
    apply (Hm j b Hj Hb).
  - intros j b Hj Hb. eapply placed_regs; [exact R | eapply Hp; eassumption].
  - exact Hn.
  - exact Hd.
Qed.

Lemma NEXT_BLKP_val st bp v :
  GET_SIZE st (HDRP bp) = Ok v → NEXT_BLKP st bp = Ok (wrap (bp + v)).
Proof. intros H. unfold NEXT_BLKP. change (wrap (bp - WSIZE)) with (HDRP bp). rewrite H. reflexivity. Qed.

Lemma PREV_BLKP_val st bp v :
  GET_SIZE st (wrap (bp - DSIZE)) = Ok v → PREV_BLKP st bp = Ok (wrap (bp - v)).
Proof. intros H. unfold PREV_BLKP. rewrite H. reflexivity. Qed.

Lemma FTRP_val st bp v :
  GET_SIZE st (HDRP bp) = Ok v → FTRP st bp = Ok (wrap (bp + v - DSIZE)).
Proof. intros H. unfold FTRP. rewrite H. reflexivity. Qed.

Ltac rd E := rewrite E; cbn [mbind res_bind].

Section Neighbourhood.

Variables (st : state) (L : Z → list Z) (bp sz psz pa nsz na : Z).
Hypothesis JF : just_freed st L bp sz psz pa nsz na.

Lemma jf_bits : (pa = 0 ∨ pa = 1) ∧ (na = 0 ∨ na = 1).
Proof.
  split; eapply GET_ALLOC_bit; [apply (jf_prev_alloc _ _ _ _ _ _ _ _ JF)
                               | apply (jf_next_alloc _ _ _ _ _ _ _ _ JF)].
Qed.

Lemma jf_bounds :
  sane st ∧ 0 <= psz < 2 ^ 32 ∧ psz mod 8 = 0 ∧
  (na = 0 → 16 <= nsz < 2 ^ 32 ∧ nsz mod 8 = 0) ∧ (pa = 0 → 16 <= psz).
Proof.
  destruct JF as [Hok _ _ _ _ Hpf _ _ Hp Hn _ _ _].
  split; [apply (lo_sane _ _ Hok) |].
  apply GET_SIZE_mult8 in Hpf. split; [tauto |]. split; [tauto |].
  split.
  - intros E. destruct (Hn E) as (H1 & H2 & _). apply GET_SIZE_mult8 in H2. lia.
  - intros E. destruct (Hp E) as (H1 & _). exact H1.
Qed.

Lemma jf_addresses :
  HDRP bp = bp - 4 ∧ wrap (bp - DSIZE) = bp - 8 ∧
  wrap (bp - psz) = bp - psz ∧ wrap (bp + sz) = bp + sz ∧
  HDRP (bp - psz) = bp - psz - 4 ∧ HDRP (bp + sz) = bp + sz - 4 ∧
  wrap (bp + sz - DSIZE) = bp + sz - 8 ∧
  (na = 0 → wrap (bp + sz + nsz - DSIZE) = bp + sz + nsz - 8 ∧
            wrap (sz + nsz) = sz + nsz) ∧
  (pa = 0 → wrap (sz + psz) = sz + psz) ∧
  (pa = 0 → na = 0 → wrap (sz + nsz + psz) = sz + nsz + psz).
Proof.
  destruct jf_bounds as ((S1 & S2 & S3 & S4) & Hpsz & _ & Hn & Hp).
  pose proof (jf_low _ _ _ _ _ _ _ _ JF) as Hlo.
  pose proof (jf_high _ _ _ _ _ _ _ _ JF) as Hhi.
  pose proof (jf_size _ _ _ _ _ _ _ _ JF) as [Hsz _].
  unfold HDRP, WSIZE, DSIZE, numlists in *.
  assert (Hhi' : bp + sz <= mem_max_addr st).
  { destruct (Z.eqb_spec na 0) as [E |]; [specialize (Hn E) |]; lia. }
  split_and!; try (apply wrap_small; lia).
  - intros E. specialize (Hn E). rewrite (proj2 (Z.eqb_eq na 0) E) in Hhi.
    split; apply wrap_small; lia.
  - intros E. specialize (Hp E). apply wrap_small; lia.
  - intros E E'. specialize (Hp E). specialize (Hn E').
    rewrite (proj2 (Z.eqb_eq na 0) E') in Hhi. apply wrap_small; lia.
Qed.

(** A boundary tag is neither in the directory nor in a link word. *)
Lemma tag_word_clear t :
  tag_word bp sz psz pa nsz na t →
  freelist_p st + 4 * numlists <= t ∧
  ∀ j m, 0 <= j < numlists → List.In m (L j) → t + 4 <= m ∨ m + 8 <= t.
Proof.
  intros (T1 & T2 & T3 & T4).
  pose proof (jf_low _ _ _ _ _ _ _ _ JF) as Hlo.
  destruct jf_bounds as (_ & Hpsz & _).
  split.
  - unfold merged_start in T1. destruct (pa =? 0); lia.
  - intros j m Hj Hin.
    destruct (jf_others _ _ _ _ _ _ _ _ JF j m Hj Hin)
      as [[E ->] | [[E ->] | [H | H]]]; [auto | auto | lia | lia].
Qed.

Lemma tag_word_frame st1 st2 L' t :
  same_regs st st1 →
  (∀ j m, 0 <= j < numlists → List.In m (L' j) → List.In m (L j)) →
  frame (untouched st1 L') st1 st2 →
  tag_word bp sz psz pa nsz na t →
  GET st2 t = GET st1 t.
Proof.
  intros R Hsub F Ht. destruct (tag_word_clear t Ht) as [Hd Hm].
  eapply untouched_GET; [exact F | |].
  - destruct R as (_ & _ & _ & _ & ->). exact Hd.
  - intros j m Hj Hin. apply (Hm j m Hj). apply Hsub; assumption.
Qed.

Lemma merged_extent :
  merged_start bp psz pa + merged_size sz psz pa nsz na
  = bp + sz + (if na =? 0 then nsz else 0).
Proof. unfold merged_start, merged_size. destruct (pa =? 0); lia. Qed.

Lemma tag_word_accessible st1 t :
  same_regs st st1 → tag_word bp sz psz pa nsz na t → accessible st1 t 4 = true.
Proof.
  intros R Ht. destruct (tag_word_clear t Ht) as [Hd _].
  destruct Ht as (_ & T2 & _). rewrite merged_extent in T2.
  pose proof (jf_high _ _ _ _ _ _ _ _ JF) as Hhi.
  destruct jf_bounds as ((S1 & S2 & S3 & S4) & _).
  rewrite (same_regs_accessible _ _ _ _ R). apply accessible_4.
  unfold numlists in *. lia.
Qed.

Lemma lists_ok_PUT_tag st1 L' t v st2 :
  same_regs st st1 →
  (∀ j m, 0 <= j < numlists → List.In m (L' j) → List.In m (L j)) →
  lists_ok st1 L' → tag_word bp sz psz pa nsz na t →
  PUT st1 t v = Ok st2 → lists_ok st2 L'.
Proof.
  intros R Hsub Hok Ht H. destruct (tag_word_clear t Ht) as [Hd Hm].
  eapply lists_ok_PUT; [exact Hok | exact H | |].
  - destruct R as (_ & _ & _ & _ & ->). exact Hd.
  - intros j m Hj Hin. apply (Hm j m Hj). apply Hsub; assumption.
Qed.

Lemma merged_block_placed :
  let r := merged_start bp psz pa in
  let tot := merged_size sz psz pa nsz na in
  placed st r ∧ 16 <= tot < 2 ^ 32 ∧ tot mod 8 = 0 ∧ bp - psz <= r <= bp.
Proof.
  cbv zeta. pose proof merged_extent as Hext.
  pose proof (jf_low _ _ _ _ _ _ _ _ JF) as Hlo.
  pose proof (jf_high _ _ _ _ _ _ _ _ JF) as Hhi.
  pose proof (jf_size _ _ _ _ _ _ _ _ JF) as [Hsz Hsz8].
  pose proof (jf_aligned _ _ _ _ _ _ _ _ JF) as Hal.
  destruct jf_bounds as ((S1 & S2 & S3 & S4) & Hpsz & Hpsz8 & Hn & Hp).
  unfold placed, merged_start, merged_size, numlists in *.
  destruct (Z.eqb_spec pa 0) as [Ep | Ep], (Z.eqb_spec na 0) as [En | En];
    try specialize (Hp Ep); try specialize (Hn En);
    change (2 ^ 32) with 4294967296 in *; lia.
Qed.

(** The last step of every case: the merged block, whose tags are in place,
    enters the list of its size class. *)
Lemma coalesce_finish stT LD :
  let r := merged_start bp psz pa in
  let tot := merged_size sz psz pa nsz na in
  same_regs st stT → lists_ok stT LD →
  (∀ j m, 0 <= j < numlists → List.In m (LD j) → List.In m (L j)) →
  (∀ j, 0 <= j < numlists → ¬ List.In r (LD j)) →
  (pa = 0 → ∀ j, 0 <= j < numlists → ¬ List.In (bp - psz) (LD j)) →
  (na = 0 → ∀ j, 0 <= j < numlists → ¬ List.In (bp + sz) (LD j)) →
  GET stT (r - 4) = Ok tot → GET stT (r + tot - 8) = Ok tot →
  frame (λ a, untouched st L a ∧ (a < r - 4 ∨ r + tot - 4 <= a)) st stT →
  ∃ st', ADD_free stT r tot = Ok st' ∧
         lists_ok st' (L_ins (list_num tot) r LD) ∧
         GET st' (r - 4) = Ok tot ∧ GET st' (r + tot - 8) = Ok tot ∧
         frame (λ a, untouched st L a ∧ (a < r - 4 ∨ r + tot - 4 <= a)) st st'.
Proof.
  intros r tot R Hok Hsub Hfresh Hfp Hfn Gh Gf F.
  destruct merged_block_placed as (Pr & Htot & Htot8 & Hr). fold r tot in Pr, Htot, Htot8, Hr.
  pose proof (jf_low _ _ _ _ _ _ _ _ JF) as Hlo.
  assert (PrT : placed stT r) by (eapply placed_regs; eassumption).
  destruct (ADD_free_spec stT LD r tot (list_num tot) Hok PrT Hfresh eq_refl)
    as (st' & HA & Hok' & F').
  assert (Clear : ∀ t, r - 4 <= t → t + 4 <= r + tot - 4 →
                       t + 4 <= r ∨ r + 8 <= t →
                       GET st' t = GET stT t).
  { intros t T1 T2 T3. eapply untouched_GET; [exact F' | |].
    - destruct R as (_ & _ & _ & _ & ->). unfold numlists in *. lia.
    - intros j m Hj Hin. unfold L_ins in Hin.
      assert (Hm : m = r ∨ List.In m (LD j)).
      { destruct (j =? list_num tot); [destruct Hin; auto | auto]. }
      destruct Hm as [-> | Hm]; [lia |].
      destruct (jf_others _ _ _ _ _ _ _ _ JF j m Hj (Hsub j m Hj Hm))
        as [[E ->] | [[E ->] | [H | H]]].
      + exfalso. exact (Hfp E j Hj Hm).
      + exfalso. exact (Hfn E j Hj Hm).
      + fold r in H. lia.
      + fold r tot in H. lia. }
  exists st'. split; [exact HA |]. split; [exact Hok' |].
  split; [rewrite Clear by lia; exact Gh |].
  split; [rewrite Clear by lia; exact Gf |].
  eapply frame_weaken; [| eapply frame_trans; [exact F | exact F']].
  cbv beta. intros a [Ha Hout]. split; [split; assumption |].
  destruct Ha as [Hd Hc]. split.
  - unfold in_directory in *. destruct R as (_ & _ & _ & _ & ->). exact Hd.
  - intros j m Hj Hin. unfold L_ins in Hin.
    assert (Hm : m = r ∨ List.In m (LD j)).
    { destruct (j =? list_num tot); [destruct Hin; auto | auto]. }
    destruct Hm as [-> | Hm]; [unfold in_cells; lia |].
    apply (Hc j m Hj). apply Hsub; assumption.
Qed.

(** What [coalesce] reads before it chooses its case. *)
Lemma jf_reads :
  GET_SIZE st (HDRP bp) = Ok sz ∧
  PREV_BLKP st bp = Ok (bp - psz) ∧
  GET_ALLOC st (HDRP (bp - psz)) = Ok pa ∧
  NEXT_BLKP st bp = Ok (bp + sz) ∧
  GET_ALLOC st (HDRP (bp + sz)) = Ok na.
Proof.
  destruct jf_addresses as (E1 & E2 & E3 & E4 & E5 & E6 & _).
  pose proof (jf_size _ _ _ _ _ _ _ _ JF) as [_ Hsz8].
  assert (Hs : GET_SIZE st (HDRP bp) = Ok sz).
  { rewrite E1. apply GET_SIZE_of_GET; [apply (jf_header _ _ _ _ _ _ _ _ JF) | exact Hsz8]. }
  split; [exact Hs |].
  split; [rewrite <- E3; apply PREV_BLKP_val; rewrite E2;
          apply (jf_prev_footer _ _ _ _ _ _ _ _ JF) |].
  split; [rewrite E5; apply (jf_prev_alloc _ _ _ _ _ _ _ _ JF) |].
  split; [rewrite <- E4; apply NEXT_BLKP_val; exact Hs |].
  rewrite E6. apply (jf_next_alloc _ _ _ _ _ _ _ _ JF).
Qed.

(** The block at [bp] is on no list. *)
Lemma jf_fresh j : 0 <= j < numlists → ¬ List.In bp (L j).
Proof.
  intros Hj Hin.
  pose proof (jf_size _ _ _ _ _ _ _ _ JF) as [Hsz _].
  destruct jf_bounds as (_ & Hpsz & _ & Hn & Hp).
  destruct (jf_others _ _ _ _ _ _ _ _ JF j bp Hj Hin) as [[E H] | [[E H] | [H | H]]].
  - specialize (Hp E). lia.
  - lia.
  - unfold merged_start in H. destruct (pa =? 0); lia.
  - rewrite merged_extent in H. destruct (Z.eqb_spec na 0) as [E |]; [specialize (Hn E) |]; lia.
Qed.

Lemma jf_span :
  0 < bp - psz ∧ bp + sz + (if na =? 0 then nsz else 0) < 2 ^ 32.
Proof.
  pose proof (jf_low _ _ _ _ _ _ _ _ JF) as Hlo.
  pose proof (jf_high _ _ _ _ _ _ _ _ JF) as Hhi.
  destruct jf_bounds as ((S1 & S2 & S3 & S4) & _).
  unfold numlists in *. lia.
Qed.

Ltac tagw Epa Ena :=
  unfold tag_word, merged_start, merged_size; rewrite Epa, Ena;
  cbn [Z.eqb]; repeat split; try (intros ?; first [discriminate | lia]); lia.

(** Case A: both neighbours allocated. *)
Lemma coalesce_both_allocated :
  pa = 1 → na = 1 →
  ∃ st', coalesce st bp = Ok (st', merged_start bp psz pa) ∧
         coalesced st L bp sz psz pa nsz na st' (merged_start bp psz pa).
Proof.
  intros Epa Ena.
  destruct jf_reads as (R1 & R2 & R3 & R4 & R5).
  pose proof (coalesce_finish st L) as Fin. cbv zeta in Fin.
  unfold coalesced, merged_lists. cbv zeta.
  unfold merged_start, merged_size in Fin |- *. rewrite Epa, Ena in Fin |- *.
  cbn [Z.eqb] in Fin |- *. rewrite Z.add_0_l, Z.add_0_r in Fin |- *.
  destruct Fin as (st' & HA & Hok & Gh & Gf & F).
  - apply same_regs_refl.
  - apply (jf_lists _ _ _ _ _ _ _ _ JF).
  - auto.
  - exact jf_fresh.
  - intros E; discriminate E.
  - intros E; discriminate E.
  - apply (jf_header _ _ _ _ _ _ _ _ JF).
  - apply (jf_footer _ _ _ _ _ _ _ _ JF).
  - apply frame_refl.
  - exists st'. unfold coalesce. rd R1. rd R2. rd R3. rd R4. rd R5.
    rewrite Epa, Ena. cbn [negb andb Z.eqb]. rd HA.
    split; [reflexivity |]. auto 10.
Qed.

(** Case C: only the previous block is free. *)
Lemma coalesce_prev_free :
  pa = 0 → na = 1 →
  ∃ st', coalesce st bp = Ok (st', merged_start bp psz pa) ∧
         coalesced st L bp sz psz pa nsz na st' (merged_start bp psz pa).
Proof.
  intros Epa Ena.
  destruct jf_reads as (R1 & R2 & R3 & R4 & R5).
  destruct jf_addresses as (E1 & E2 & E3 & E4 & E5 & E6 & E7 & _ & Ew & _).
  specialize (Ew Epa).
  destruct (jf_prev_free _ _ _ _ _ _ _ _ JF Epa) as (Hp16 & Hph & Hpin).
  pose proof (jf_size _ _ _ _ _ _ _ _ JF) as [Hsz Hsz8].
  destruct jf_bounds as (Hs & Hpsz & Hpsz8 & _).
  pose proof (jf_lists _ _ _ _ _ _ _ _ JF) as Hok.
  pose proof (list_num_range psz) as Hkp.
  pose proof jf_span as [Sp1 Sp2]. rewrite Ena in Sp2. cbn [Z.eqb] in Sp2.
  (* the removal of the previous block *)
  destruct (deletefree_spec st L (list_num psz) (bp - psz) psz Hok Hkp Hpin) as (st1 & D1 & Ok1 & F1);
    [rewrite E5; exact Hph | reflexivity |].
  assert (Rg1 : same_regs st st1) by apply F1.
  assert (T1 : ∀ t, tag_word bp sz psz pa nsz na t → GET st1 t = GET st t).
  { intros t Ht. eapply (tag_word_frame st st1 L); [apply same_regs_refl | auto | exact F1 | exact Ht]. }
  assert (Sub : ∀ j m, 0 <= j < numlists → List.In m (L_del (list_num psz) (bp - psz) L j) → List.In m (L j)).
  { intros j m _ Hin. apply L_del_sub in Hin. tauto. }
  assert (Wpf : tag_word bp sz psz pa nsz na (bp - 8)) by tagw Epa Ena.
  assert (Wph : tag_word bp sz psz pa nsz na (bp - psz - 4)) by (tagw Epa Ena).
  assert (Wh : tag_word bp sz psz pa nsz na (bp - 4)) by tagw Epa Ena.
  assert (Wf : tag_word bp sz psz pa nsz na (bp + sz - 8)) by tagw Epa Ena.
  assert (Pf1 : GET_SIZE st1 (wrap (bp - DSIZE)) = Ok psz).
  { rewrite E2, (GET_SIZE_same _ _ _ (T1 _ Wpf)). apply (jf_prev_footer _ _ _ _ _ _ _ _ JF). }
  assert (Ph1 : GET_SIZE st1 (HDRP (bp - psz)) = Ok psz).
  { rewrite E5, (GET_SIZE_same _ _ _ (T1 _ Wph)). exact Hph. }
  assert (Hh1 : GET st1 (bp - 4) = Ok sz).
  { rewrite (T1 _ Wh). apply (jf_header _ _ _ _ _ _ _ _ JF). }
  assert (Pv1 : PREV_BLKP st1 bp = Ok (bp - psz)).
  { rewrite (PREV_BLKP_val _ _ _ Pf1), E3. reflexivity. }
  (* the new header *)
  destruct (PUT_Ok st1 (HDRP (bp - psz)) (PACK (wrap (sz + psz)) 0)) as [st2 P2];
    [rewrite E5; apply tag_word_accessible; assumption |].
  assert (Rg2 : same_regs st st2)
    by (eapply same_regs_trans; [exact Rg1 | apply (PUT_regs _ _ _ _ P2)]).
  assert (Hh2 : GET_SIZE st2 (HDRP bp) = Ok sz).
  { rewrite E1. apply GET_SIZE_of_GET; [| exact Hsz8].
    rewrite (GET_PUT_ne _ _ _ _ _ P2); [exact Hh1 |]. rewrite E5. idtac. lia. }
  assert (Ft2 : FTRP st2 bp = Ok (bp + sz - 8)).
  { rewrite (FTRP_val _ _ _ Hh2), E7. reflexivity. }
  (* the new footer *)
  destruct (PUT_Ok st2 (bp + sz - 8) (PACK (wrap (sz + psz)) 0)) as [st3 P3];
    [apply tag_word_accessible; assumption |].
  assert (Rg3 : same_regs st st3)
    by (eapply same_regs_trans; [exact Rg2 | apply (PUT_regs _ _ _ _ P3)]).
  assert (Pv3 : PREV_BLKP st3 bp = Ok (bp - psz)).
  { rewrite <- E3. apply PREV_BLKP_val.
    rewrite (GET_SIZE_PUT_ne _ _ _ _ _ P3) by (rewrite E2; lia).
    rewrite (GET_SIZE_PUT_ne _ _ _ _ _ P2) by (rewrite E2, E5; lia).
    exact Pf1. }
  assert (Ok3 : lists_ok st3 (L_del (list_num psz) (bp - psz) L)).
  { eapply (lists_ok_PUT_tag st2); [exact Rg2 | exact Sub | | exact Wf | exact P3].
    eapply (lists_ok_PUT_tag st1); [exact Rg1 | exact Sub | exact Ok1 | exact Wph |].
    rewrite <- E5. exact P2. }
  assert (Etot : PACK (wrap (sz + psz)) 0 = psz + sz) by (rewrite Ew, PACK_0; lia).
  rewrite Etot in P2, P3.
  (* the insertion *)
  pose proof (coalesce_finish st3 (L_del (list_num psz) (bp - psz) L)) as Fin. cbv zeta in Fin.
  unfold coalesced, merged_lists. cbv zeta.
  unfold merged_start, merged_size in Fin |- *. rewrite Epa, Ena in Fin |- *.
  cbn [Z.eqb] in Fin |- *. rewrite Z.add_0_r in Fin |- *.
  destruct Fin as (st' & HA & Hok' & Gh & Gf & F).
  - exact Rg3.
  - exact Ok3.
  - exact Sub.
  - apply (L_del_fresh st L (list_num psz) (bp - psz) Hok Hkp Hpin).
  - intros _. apply (L_del_fresh st L (list_num psz) (bp - psz) Hok Hkp Hpin).
  - intros E; discriminate E.
  - rewrite (GET_PUT_ne _ _ _ _ _ P3) by (lia).
    rewrite E5 in P2. rewrite (GET_PUT_eq _ _ _ _ P2). f_equal. apply wrap_small.
    change (2 ^ 32) with 4294967296 in *. lia.
  - replace (bp - psz + (psz + sz) - 8) with (bp + sz - 8) by (lia).
    rewrite (GET_PUT_eq _ _ _ _ P3). f_equal. apply wrap_small.
    change (2 ^ 32) with 4294967296 in *. lia.
  - eapply frame_weaken;
      [| eapply frame_trans;
         [eapply frame_trans; [exact F1 | exact (PUT_frame _ _ _ _ P2)]
         | exact (PUT_frame _ _ _ _ P3)]].
    cbv beta. intros a [Ha Hout]. rewrite E5. unfold outside_word.
    split; [split; [exact Ha |] |]; lia.
  - exists st'. unfold coalesce. rd R1. rd R2. rd R3. rd R4. rd R5.
    rewrite Epa, Ena. cbn [negb andb Z.eqb].
    rd D1. rd Pv1. rd Ph1. rewrite Ew. replace (sz + psz) with (psz + sz) by lia.
    rewrite PACK_0.
    rd P2. rd Ft2. rd P3. rd Pv3. rd HA.
    split; [reflexivity |]. auto 10.
Qed.

(** Case B: only the next block is free. *)
Lemma coalesce_next_free :
  pa = 1 → na = 0 →
  ∃ st', coalesce st bp = Ok (st', merged_start bp psz pa) ∧
         coalesced st L bp sz psz pa nsz na st' (merged_start bp psz pa).
Proof.
  intros Epa Ena.
  destruct jf_reads as (R1 & R2 & R3 & R4 & R5).
  destruct jf_addresses as (E1 & E2 & E3 & E4 & E5 & E6 & E7 & En & _).
  destruct (En Ena) as [E8 Ew]. clear En.
  destruct (jf_next_free _ _ _ _ _ _ _ _ JF Ena) as (Hn16 & Hnh & Hnf & Hnin).
  pose proof (jf_size _ _ _ _ _ _ _ _ JF) as [Hsz Hsz8].
  destruct jf_bounds as (Hs & Hpsz & Hpsz8 & Hnb & _). specialize (Hnb Ena).
  pose proof (jf_lists _ _ _ _ _ _ _ _ JF) as Hok.
  pose proof (list_num_range nsz) as Hkn.
  pose proof jf_span as [Sp1 Sp2]. rewrite Ena in Sp2. cbn [Z.eqb] in Sp2.
  (* the removal of the next block *)
  destruct (deletefree_spec st L (list_num nsz) (bp + sz) nsz Hok Hkn Hnin)
    as (st1 & D1 & Ok1 & F1); [rewrite E6; exact Hnh | reflexivity |].
  assert (Rg1 : same_regs st st1) by apply F1.
  assert (T1 : ∀ t, tag_word bp sz psz pa nsz na t → GET st1 t = GET st t).
  { intros t Ht. eapply (tag_word_frame st st1 L); [apply same_regs_refl | auto | exact F1 | exact Ht]. }
  assert (Sub : ∀ j m, 0 <= j < numlists →
                       List.In m (L_del (list_num nsz) (bp + sz) L j) → List.In m (L j)).
  { intros j m _ Hin. apply L_del_sub in Hin. tauto. }
  assert (Wh : tag_word bp sz psz pa nsz na (bp - 4)) by tagw Epa Ena.
  assert (Wnh : tag_word bp sz psz pa nsz na (bp + sz - 4)) by tagw Epa Ena.
  assert (Wnf : tag_word bp sz psz pa nsz na (bp + sz + nsz - 8)) by tagw Epa Ena.
  assert (Hh1 : GET_SIZE st1 (HDRP bp) = Ok sz).
  { rewrite E1. apply GET_SIZE_of_GET; [| exact Hsz8].
    rewrite (T1 _ Wh). apply (jf_header _ _ _ _ _ _ _ _ JF). }
  assert (Nx1 : NEXT_BLKP st1 bp = Ok (bp + sz)).
  { rewrite (NEXT_BLKP_val _ _ _ Hh1), E4. reflexivity. }
  assert (Nh1 : GET_SIZE st1 (HDRP (bp + sz)) = Ok nsz).
  { rewrite E6, (GET_SIZE_same _ _ _ (T1 _ Wnh)). exact Hnh. }
  (* the new header *)
  destruct (PUT_Ok st1 (HDRP bp) (PACK (wrap (sz + nsz)) 0)) as [st2 P2];
    [rewrite E1; apply tag_word_accessible; assumption |].
  assert (Rg2 : same_regs st st2)
    by (eapply same_regs_trans; [exact Rg1 | apply (PUT_regs _ _ _ _ P2)]).
  assert (Hh2 : GET_SIZE st2 (HDRP bp) = Ok (sz + nsz)).
  { rewrite Ew in P2. eapply GET_SIZE_PUT_eq; [exact P2 | | | auto];
      change (2 ^ 32) with 4294967296 in *; lia. }
  assert (Ft2 : FTRP st2 bp = Ok (bp + sz + nsz - 8)).
  { rewrite (FTRP_val _ _ _ Hh2). rewrite <- E8. f_equal. f_equal. lia. }
  (* the new footer *)
  destruct (PUT_Ok st2 (bp + sz + nsz - 8) (PACK (wrap (sz + nsz)) 0)) as [st3 P3];
    [apply tag_word_accessible; assumption |].
  assert (Rg3 : same_regs st st3)
    by (eapply same_regs_trans; [exact Rg2 | apply (PUT_regs _ _ _ _ P3)]).
  assert (Ok3 : lists_ok st3 (L_del (list_num nsz) (bp + sz) L)).
  { eapply (lists_ok_PUT_tag st2); [exact Rg2 | exact Sub | | exact Wnf | exact P3].
    eapply (lists_ok_PUT_tag st1); [exact Rg1 | exact Sub | exact Ok1 | exact Wh |].
    rewrite <- E1. exact P2. }
  assert (Etot : PACK (wrap (sz + nsz)) 0 = sz + nsz) by (rewrite Ew, PACK_0; lia).
  (* the insertion *)
  pose proof (coalesce_finish st3 (L_del (list_num nsz) (bp + sz) L)) as Fin.
  cbv zeta in Fin. unfold coalesced, merged_lists. cbv zeta.
  unfold merged_start, merged_size in Fin |- *. rewrite Epa, Ena in Fin |- *.
  cbn [Z.eqb] in Fin |- *. rewrite Z.add_0_l in Fin |- *.
  destruct Fin as (st' & HA & Hok' & Gh & Gf & F).
  - exact Rg3.
  - exact Ok3.
  - exact Sub.
  - intros j Hj Hin. apply (jf_fresh j Hj). apply (Sub j bp Hj Hin).
  - intros E; discriminate E.
  - intros _. apply (L_del_fresh st L (list_num nsz) (bp + sz) Hok Hkn Hnin).
  - rewrite (GET_PUT_ne _ _ _ _ _ P3) by lia.
    rewrite E1 in P2. rewrite (GET_PUT_eq _ _ _ _ P2), Etot. f_equal. apply wrap_small.
    change (2 ^ 32) with 4294967296 in *. lia.
  - replace (bp + (sz + nsz) - 8) with (bp + sz + nsz - 8) by lia.
    rewrite (GET_PUT_eq _ _ _ _ P3), Etot. f_equal. apply wrap_small.
    change (2 ^ 32) with 4294967296 in *. lia.
  - eapply frame_weaken;
      [| eapply frame_trans;
         [eapply frame_trans; [exact F1 | exact (PUT_frame _ _ _ _ P2)]
         | exact (PUT_frame _ _ _ _ P3)]].
    cbv beta. intros a [Ha Hout]. rewrite E1. unfold outside_word.
    split; [split; [exact Ha |] |]; lia.
  - exists st'. unfold coalesce. rd R1. rd R2. rd R3. rd R4. rd R5.
    rewrite Epa, Ena. cbn [negb andb Z.eqb].
    rd D1. rd Nx1. rd Nh1. rd P2. rd Ft2. rd P3. rewrite Ew. rd HA.
    split; [reflexivity |]. auto 10.
Qed.

(** Case D: both neighbours are free. *)
Lemma coalesce_both_free :
  pa = 0 → na = 0 →
  ∃ st', coalesce st bp = Ok (st', merged_start bp psz pa) ∧
         coalesced st L bp sz psz pa nsz na st' (merged_start bp psz pa).
Proof.
  intros Epa Ena.
  destruct jf_reads as (R1 & R2 & R3 & R4 & R5).
  destruct jf_addresses as (E1 & E2 & E3 & E4 & E5 & E6 & E7 & En & _ & Ew).
  destruct (En Ena) as [E8 Ewn]. clear En. specialize (Ew Epa Ena).
  destruct (jf_prev_free _ _ _ _ _ _ _ _ JF Epa) as (Hp16 & Hph & Hpin).
  destruct (jf_next_free _ _ _ _ _ _ _ _ JF Ena) as (Hn16 & Hnh & Hnf & Hnin).
  pose proof (jf_size _ _ _ _ _ _ _ _ JF) as [Hsz Hsz8].
  destruct jf_bounds as (Hs & Hpsz & Hpsz8 & Hnb & _). specialize (Hnb Ena).
  pose proof (jf_lists _ _ _ _ _ _ _ _ JF) as Hok.
  pose proof (list_num_range psz) as Hkp.
  pose proof (list_num_range nsz) as Hkn.
  pose proof jf_span as [Sp1 Sp2]. rewrite Ena in Sp2. cbn [Z.eqb] in Sp2.
  (* the removal of the previous block *)
  destruct (deletefree_spec st L (list_num psz) (bp - psz) psz Hok Hkp Hpin)
    as (st1 & D1 & Ok1 & F1); [rewrite E5; exact Hph | reflexivity |].
  assert (Rg1 : same_regs st st1) by apply F1.
  assert (T1 : ∀ t, tag_word bp sz psz pa nsz na t → GET st1 t = GET st t).
  { intros t Ht. eapply (tag_word_frame st st1 L); [apply same_regs_refl | auto | exact F1 | exact Ht]. }
  assert (Sub1 : ∀ j m, 0 <= j < numlists →
                        List.In m (L_del (list_num psz) (bp - psz) L j) → List.In m (L j)).
  { intros j m _ Hin. apply L_del_sub in Hin. tauto. }
  assert (Wph : tag_word bp sz psz pa nsz na (bp - psz - 4)) by tagw Epa Ena.
  assert (Wpf : tag_word bp sz psz pa nsz na (bp - 8)) by tagw Epa Ena.
  assert (Wh : tag_word bp sz psz pa nsz na (bp - 4)) by tagw Epa Ena.
  assert (Wnh : tag_word bp sz psz pa nsz na (bp + sz - 4)) by tagw Epa Ena.
  assert (Wnf : tag_word bp sz psz pa nsz na (bp + sz + nsz - 8)) by tagw Epa Ena.
  assert (Hh1 : GET_SIZE st1 (HDRP bp) = Ok sz).
  { rewrite E1. apply GET_SIZE_of_GET; [| exact Hsz8].
    rewrite (T1 _ Wh). apply (jf_header _ _ _ _ _ _ _ _ JF). }
  assert (Nx1 : NEXT_BLKP st1 bp = Ok (bp + sz)).
  { rewrite (NEXT_BLKP_val _ _ _ Hh1), E4. reflexivity. }
  (* the removal of the next block *)
  assert (Hnin1 : List.In (bp + sz) (L_del (list_num psz) (bp - psz) L (list_num nsz))).
  { apply L_del_keeps; [exact Hnin | lia]. }
  destruct (deletefree_spec st1 _ (list_num nsz) (bp + sz) nsz Ok1 Hkn Hnin1)
    as (st2 & D2 & Ok2 & F2);
    [rewrite E6, (GET_SIZE_same _ _ _ (T1 _ Wnh)); exact Hnh | reflexivity |].
  assert (Rg12 : same_regs st1 st2) by apply F2.
  assert (Rg2 : same_regs st st2) by (eapply same_regs_trans; eassumption).
  assert (T2 : ∀ t, tag_word bp sz psz pa nsz na t → GET st2 t = GET st t).
  { intros t Ht. rewrite <- (T1 t Ht).
    eapply (tag_word_frame st1 st2); [exact Rg1 | exact Sub1 | exact F2 | exact Ht]. }
  assert (Sub2 : ∀ j m, 0 <= j < numlists →
                        List.In m (L_del (list_num nsz) (bp + sz)
                                     (L_del (list_num psz) (bp - psz) L) j) →
                        List.In m (L j)).
  { intros j m Hj Hin. apply L_del_sub in Hin as [Hin _]. apply (Sub1 j m Hj Hin). }
  assert (Hh2 : GET_SIZE st2 (HDRP bp) = Ok sz).
  { rewrite E1. apply GET_SIZE_of_GET; [| exact Hsz8].
    rewrite (T2 _ Wh). apply (jf_header _ _ _ _ _ _ _ _ JF). }
  assert (Nx2 : NEXT_BLKP st2 bp = Ok (bp + sz)).
  { rewrite (NEXT_BLKP_val _ _ _ Hh2), E4. reflexivity. }
  assert (Nh2 : GET_SIZE st2 (HDRP (bp + sz)) = Ok nsz).
  { rewrite E6, (GET_SIZE_same _ _ _ (T2 _ Wnh)). exact Hnh. }
  assert (Nf2 : FTRP st2 (bp + sz) = Ok (bp + sz + nsz - 8)).
  { rewrite (FTRP_val _ _ _ Nh2), E8. reflexivity. }
  assert (Nfs2 : GET_SIZE st2 (bp + sz + nsz - 8) = Ok nsz).
  { rewrite (GET_SIZE_same _ _ _ (T2 _ Wnf)). exact Hnf. }
  assert (Pf2 : GET_SIZE st2 (wrap (bp - DSIZE)) = Ok psz).
  { rewrite E2, (GET_SIZE_same _ _ _ (T2 _ Wpf)). apply (jf_prev_footer _ _ _ _ _ _ _ _ JF). }
  assert (Pv2 : PREV_BLKP st2 bp = Ok (bp - psz)).
  { rewrite (PREV_BLKP_val _ _ _ Pf2), E3. reflexivity. }
  assert (Ph2 : GET_SIZE st2 (HDRP (bp - psz)) = Ok psz).
  { rewrite E5, (GET_SIZE_same _ _ _ (T2 _ Wph)). exact Hph. }
  assert (Etot : PACK (wrap (wrap (sz + nsz) + psz)) 0 = psz + sz + nsz).
  { rewrite Ewn, Ew, PACK_0. lia. }
  (* the new header *)
  destruct (PUT_Ok st2 (HDRP (bp - psz)) (psz + sz + nsz)) as [st3 P3];
    [rewrite E5; apply tag_word_accessible; assumption |].
  assert (Rg3 : same_regs st st3)
    by (eapply same_regs_trans; [exact Rg2 | apply (PUT_regs _ _ _ _ P3)]).
  assert (G3 : ∀ t, t + 4 <= bp - psz - 4 ∨ bp - psz <= t → GET st3 t = GET st2 t).
  { intros t Ht. apply (GET_PUT_ne _ _ _ _ _ P3). rewrite E5. lia. }
  assert (Nx3 : NEXT_BLKP st3 bp = Ok (bp + sz)).
  { rewrite <- E4. apply NEXT_BLKP_val. rewrite <- Hh2, E1.
    apply GET_SIZE_same, G3. lia. }
  assert (Nf3 : FTRP st3 (bp + sz) = Ok (bp + sz + nsz - 8)).
  { rewrite <- E8. apply FTRP_val. rewrite <- Nh2, E6.
    apply GET_SIZE_same, G3. lia. }
  (* the new footer *)
  destruct (PUT_Ok st3 (bp + sz + nsz - 8) (psz + sz + nsz)) as [st4 P4];
    [apply tag_word_accessible; assumption |].
  assert (Rg4 : same_regs st st4)
    by (eapply same_regs_trans; [exact Rg3 | apply (PUT_regs _ _ _ _ P4)]).
  assert (Pv4 : PREV_BLKP st4 bp = Ok (bp - psz)).
  { rewrite <- E3. apply PREV_BLKP_val.
    rewrite (GET_SIZE_PUT_ne _ _ _ _ _ P4) by (rewrite E2; lia).
    rewrite <- Pf2. apply GET_SIZE_same, G3. rewrite E2. lia. }
  assert (Ok4 : lists_ok st4 (L_del (list_num nsz) (bp + sz)
                                (L_del (list_num psz) (bp - psz) L))).
  { eapply (lists_ok_PUT_tag st3); [exact Rg3 | exact Sub2 | | exact Wnf | exact P4].
    eapply (lists_ok_PUT_tag st2); [exact Rg2 | exact Sub2 | exact Ok2 | exact Wph |].
    rewrite <- E5. exact P3. }
  (* the insertion *)
  pose proof (coalesce_finish st4 (L_del (list_num nsz) (bp + sz)
                                     (L_del (list_num psz) (bp - psz) L))) as Fin.
  cbv zeta in Fin. unfold coalesced, merged_lists. cbv zeta.
  unfold merged_start, merged_size in Fin |- *. rewrite Epa, Ena in Fin |- *.
  cbn [Z.eqb] in Fin |- *.
  destruct Fin as (st' & HA & Hok' & Gh & Gf & F).
  - exact Rg4.
  - exact Ok4.
  - exact Sub2.
  - intros j Hj Hin. apply L_del_sub in Hin as [Hin _].
    exact (L_del_fresh st L (list_num psz) (bp - psz) Hok Hkp Hpin j Hj Hin).
  - intros _ j Hj Hin. apply L_del_sub in Hin as [Hin _].
    exact (L_del_fresh st L (list_num psz) (bp - psz) Hok Hkp Hpin j Hj Hin).
  - intros _. apply (L_del_fresh st1 _ (list_num nsz) (bp + sz) Ok1 Hkn Hnin1).
  - rewrite (GET_PUT_ne _ _ _ _ _ P4) by lia.
    rewrite E5 in P3. rewrite (GET_PUT_eq _ _ _ _ P3). f_equal. apply wrap_small.
    change (2 ^ 32) with 4294967296 in *. lia.
  - replace (bp - psz + (psz + sz + nsz) - 8) with (bp + sz + nsz - 8) by lia.
    rewrite (GET_PUT_eq _ _ _ _ P4). f_equal. apply wrap_small.
    change (2 ^ 32) with 4294967296 in *. lia.
  - eapply frame_weaken;
      [| eapply frame_trans;
         [eapply frame_trans;
            [eapply frame_trans; [exact F1 | exact F2] | exact (PUT_frame _ _ _ _ P3)]
         | exact (PUT_frame _ _ _ _ P4)]].
    cbv beta. intros a [Ha Hout]. rewrite E5. unfold outside_word.
    split; [split; [split; [exact Ha |] |] |]; [| lia | lia].
    eapply untouched_sub; [exact Rg1 | exact Sub1 | exact Ha].
  - exists st'. unfold coalesce. rd R1. rd R2. rd R3. rd R4. rd R5.
    rewrite Epa, Ena. cbn [negb andb Z.eqb].
    rd D1. rd Nx1. rd D2. rd Nx2. rd Nf2. rd Nfs2. rd Pv2. rd Ph2.
    rewrite Etot. rd P3. rd Nx3. rd Nf3. rd P4. rd Pv4.
    rewrite Ewn, Ew. replace (sz + nsz + psz) with (psz + sz + nsz) by lia. rd HA.
    split; [reflexivity |]. auto 10.
Qed.

(** [coalesce] on a just-freed block, all four cases. *)
Lemma coalesce_spec :
  ∃ st', coalesce st bp = Ok (st', merged_start bp psz pa) ∧
         coalesced st L bp sz psz pa nsz na st' (merged_start bp psz pa).
Proof.
  destruct jf_bits as [[Epa | Epa] [Ena | Ena]].
  - apply coalesce_both_free; assumption.
  - apply coalesce_prev_free; assumption.
  - apply coalesce_next_free; assumption.
  - apply coalesce_both_allocated; assumption.
Qed.

End Neighbourhood.

End Coalesce.


(** ** Concrete heaps satisfy the list invariant

    Tactics that settle, by evaluation, the facts about a closed state. *)

Ltac zfact :=
  vm_compute; first [reflexivity | discriminate | (intros; discriminate) | tauto].

Ltac case_k k Hk :=
  let C := fresh "C" in
  assert (C : k = 0 ∨ k = 1 ∨ k = 2 ∨ k = 3 ∨ k = 4 ∨ k = 5 ∨ k = 6 ∨ k = 7
              ∨ k = 8 ∨ k = 9 ∨ k = 10 ∨ k = 11)
    by (unfold numlists in Hk; lia);
  destruct C as [-> | [-> | [-> | [-> | [-> | [-> | [-> | [-> | [-> | [-> | [-> | ->]]]]]]]]]]].

Ltac solve_dllseg :=
  cbn [dllseg];
  lazymatch goal with
  | |- _ ∧ _ =>
      split; [reflexivity |];
      split; [vm_compute; discriminate |];
      split; [vm_compute; reflexivity |];
      eexists; split; [vm_compute; reflexivity | solve_dllseg]
  | |- _ = _ => reflexivity
  end.

Ltac solve_heads L :=
  let k := fresh "k" in
  let Hk := fresh "Hk" in
  intros k Hk; case_k k Hk;
  (eexists; split; [vm_compute; reflexivity |];
   unfold dll;
   lazymatch goal with
   | |- dllseg _ _ _ (L ?j) _ =>
       let l := eval vm_compute in (L j) in change (L j) with l
   end;
   solve_dllseg).

Ltac solve_placed :=
  unfold placed; split; [| split]; zfact.

Ltac members H :=
  vm_compute in H;
  repeat lazymatch type of H with
         | _ ∨ _ => destruct H as [H | H]
         end;
  first [contradiction | discriminate H | subst].

(** ** [coalesce] by cases *)

Section CoalesceCases.

(** [mm_free] marks the block free and hands it to [coalesce]. *)
Lemma mm_free_marks_then_coalesces st ptr :
  ptr ≠ NULL →
  mm_free st ptr = (st1 ← mark_free st ptr; '(st2, _) ← coalesce st1 ptr; Ok st2).
Proof.
  intros Hp. unfold mm_free, mark_free.
  destruct (Z.eqb_spec ptr NULL) as [| _]; [contradiction |].
  destruct (GET_SIZE st (HDRP ptr)); cbn [mbind res_bind]; [| reflexivity ..].
  destruct (FTRP st ptr); cbn [mbind res_bind]; [| reflexivity ..].
  destruct (PUT st a0 (PACK a 0)); cbn [mbind res_bind]; [| reflexivity ..].
  destruct (PUT a1 (HDRP ptr) (PACK a 0)); reflexivity.
Qed.

Lemma lists_ok_head st L k b :
  lists_ok st L → 0 <= k < numlists → (∃ l, L k = b :: l) →
  GETfreelistp st k = Ok b.
Proof.
  intros Hok Hk [l El]. destruct (lo_heads _ _ Hok k Hk) as (h & Eh & D).
  unfold dll in D. rewrite El in D. destruct D as (-> & _). exact Eh.
Qed.

(** C2: [coalesce(bp)] on a just-freed block goes by the allocation bits of
    the two neighbours.  Both allocated: the block enters the list of its
    size class and [bp] is returned.  Only the next block free: it leaves its
    list and the result is a block of size [size(bp) + size(next)] at [bp].
    Only the previous block free: it leaves its list and the result is a
    block of size [size(prev) + size(bp)] at [prev].  Both free: both leave
    their lists and the result is a block of the three sizes together at
    [prev].  In every case the resulting block carries a free header and
    footer of its size and is the head of the list of its size class. *)
Theorem coalesce_by_cases st L bp sz psz pa nsz na :
  just_freed st L bp sz psz pa nsz na →
  ∃ st' r tot,
    coalesce st bp = Ok (st', r) ∧
    GET st' (HDRP r) = Ok (PACK tot 0) ∧
    FTRP st' r = Ok (r + tot - 8) ∧
    GET st' (r + tot - 8) = Ok (PACK tot 0) ∧
    GETfreelistp st' (list_num tot) = Ok r ∧
    ((pa = 1 ∧ na = 1 ∧ r = bp ∧ tot = sz ∧
      lists_ok st' (L_ins (list_num sz) bp L))
     ∨ (pa = 1 ∧ na = 0 ∧ r = bp ∧ tot = sz + nsz ∧
        lists_ok st' (L_ins (list_num (sz + nsz)) bp
                        (L_del (list_num nsz) (bp + sz) L)))
     ∨ (pa = 0 ∧ na = 1 ∧ r = bp - psz ∧ tot = psz + sz ∧
        lists_ok st' (L_ins (list_num (psz + sz)) (bp - psz)
                        (L_del (list_num psz) (bp - psz) L)))
     ∨ (pa = 0 ∧ na = 0 ∧ r = bp - psz ∧ tot = psz + sz + nsz ∧
        lists_ok st' (L_ins (list_num (psz + sz + nsz)) (bp - psz)
                        (L_del (list_num nsz) (bp + sz)
                           (L_del (list_num psz) (bp - psz) L))))).
Proof.
  intros JF.
  destruct (coalesce_spec _ _ _ _ _ _ _ _ JF) as (st' & Hc & _ & Hok & Gh & Gf & _).
  destruct (merged_block_placed _ _ _ _ _ _ _ _ JF) as (Pr & Htot & Htot8 & Hr).
  cbv zeta in Hok, Gh, Gf.
  set (r := merged_start bp psz pa) in *.
  set (tot := merged_size sz psz pa nsz na) in *.
  assert (Hs' : sane st').
  { apply (lo_sane _ _ Hok). }
  assert (Br : 4 <= r ∧ r + tot < 2 ^ 32).
  { destruct (jf_bounds _ _ _ _ _ _ _ _ JF) as ((S1 & S2 & S3 & S4) & _).
    destruct Pr as (_ & B1 & B2).
    pose proof (merged_extent bp sz psz pa nsz na) as Hext. fold r tot in Hext.
    pose proof (jf_span _ _ _ _ _ _ _ _ JF) as [_ Sp].
    unfold numlists in *. lia. }
  assert (Er : HDRP r = r - 4).
  { unfold HDRP, WSIZE. apply wrap_small. lia. }
  exists st', r, tot.
  split; [exact Hc |].
  split; [rewrite Er, PACK_0; exact Gh |].
  split.
  { rewrite (FTRP_val st' r tot).
    - f_equal. apply wrap_small. unfold DSIZE. lia.
    - rewrite Er. apply GET_SIZE_of_GET; assumption. }
  split; [rewrite PACK_0; exact Gf |].
  split.
  { apply (lists_ok_head st' _ _ r Hok (list_num_range tot)).
    unfold merged_lists. cbv zeta. fold r tot. rewrite L_ins_same. eauto. }
  unfold merged_lists in Hok. cbv zeta in Hok. subst r tot.
  unfold merged_start, merged_size in *.
  destruct (jf_bits _ _ _ _ _ _ _ _ JF) as [[Epa | Epa] [Ena | Ena]];
    rewrite Epa, Ena in Hok |- *; cbn [Z.eqb] in Hok |- *;
    rewrite ?Z.add_0_l, ?Z.add_0_r in Hok |- *.
  - right. right. right. auto 10.
  - right. right. left. auto 10.
  - right. left. auto 10.
  - left. auto 10.
Qed.

Lemma lists_ok_marked : lists_ok st_marked L_holes.
Proof.
  constructor.
  - unfold sane. split; [| split; [| split]]; zfact.
  - solve_heads L_holes.
  - intros k b Hk Hb. case_k k Hk; members Hb; solve_placed.
  - intros k Hk. case_k k Hk;
      lazymatch goal with
      | |- List.NoDup (L_holes ?j) =>
          let l := eval vm_compute in (L_holes j) in change (L_holes j) with l
      end;
      repeat constructor; simpl; intuition discriminate.
  - intros k k' b Hk Hk' Hb Hb'.
    case_k k Hk; members Hb; case_k k' Hk'; members Hb'; reflexivity.
Qed.

Lemma just_freed_marked : just_freed st_marked L_holes 65624 24 24 0 24 0.
Proof.
  constructor.
  - exact lists_ok_marked.
  - reflexivity.
  - split; [lia | reflexivity].
  - vm_compute; reflexivity.
  - vm_compute; reflexivity.
  - vm_compute; reflexivity.
  - vm_compute; reflexivity.
  - vm_compute; reflexivity.
  - intros _. split; [lia |]. split; [vm_compute; reflexivity |].
    vm_compute. tauto.
  - intros _. split; [lia |]. split; [vm_compute; reflexivity |].
    split; [vm_compute; reflexivity |]. vm_compute. tauto.
  - zfact.
  - zfact.
  - intros j m Hj Hm. unfold merged_start, merged_size. simpl.
    case_k j Hj; members Hm; lia.
Qed.

Lemma coalesce_by_cases_witness :
  just_freed st_marked L_holes 65624 24 24 0 24 0 ∧
  mark_free st_holes 65624 = Ok st_marked ∧
  ∃ st' r tot,
    coalesce st_marked 65624 = Ok (st', r) ∧
    GET st' (HDRP r) = Ok (PACK tot 0) ∧
    GETfreelistp st' (list_num tot) = Ok r ∧
    r = 65624 - 24 ∧ tot = 24 + 24 + 24 ∧
    lists_ok st' (L_ins (list_num (24 + 24 + 24)) (65624 - 24)
                    (L_del (list_num 24) (65624 + 24)
                       (L_del (list_num 24) (65624 - 24) L_holes))).
Proof.
  split; [exact just_freed_marked |].
  split; [unfold st_marked; apply run_state; vm_compute; reflexivity |].
  destruct (coalesce_by_cases _ _ _ _ _ _ _ _ just_freed_marked)
    as (st' & r & tot & Hc & Gh & _ & _ & Gl & Hcase).
  exists st', r, tot.
  split; [exact Hc |]. split; [exact Gh |]. split; [exact Gl |].
  destruct Hcase as [(E & _) | [(E & _) | [(_ & E & _) | (_ & _ & Er & Et & Hok)]]];
    [discriminate E | discriminate E | discriminate E |].
  auto.
Defined.

End CoalesceCases.


(** ** [mm_malloc] *)

Section Malloc.

Lemma place_result st bp asize st' r : place st bp asize = Ok (st', r) → r = bp.
Proof.
  unfold place. intros H. inv_bind H. inv_bind H.
  destruct (wrap (v - asize) >=? 2 * DSIZE).
  - do 8 inv_bind H. injection H as _ <-. reflexivity.
  - do 3 inv_bind H. injection H as _ <-. reflexivity.
Qed.

Lemma adjust_size_small n : n <= 8 → adjust_size n = 16.
Proof.
  intros H. unfold adjust_size, DSIZE.
  destruct (Z.leb_spec n 8); [reflexivity | lia].
Qed.

Lemma adjust_size_large n :
  8 < n →
  adjust_size n = wrap (8 * ((wrap (n + 8) + 7) / 8)) ∧
  (n + 15 < 2 ^ 32 → adjust_size n mod 8 = 0 ∧ n + 8 <= adjust_size n < n + 16).
Proof.
  intros H. unfold adjust_size, DSIZE.
  destruct (Z.leb_spec n 8); [lia |].
  replace (n + 8 + (8 - 1)) with (n + 15) by lia.
  unfold wrap. change (2 ^ 32) with 4294967296. split; [| intros Hn]; lia.
Qed.

Lemma adjust_size_range n : 16 <= Z.max (adjust_size n) CHUNKS < 2 ^ 32 ∧
                            Z.max (adjust_size n) CHUNKS mod 8 = 0 ∧
                            32 <= Z.max (adjust_size n) CHUNKS.
Proof.
  change CHUNKS with 32. unfold adjust_size, DSIZE.
  destruct (Z.leb_spec n 8).
  - change (2 ^ 32) with 4294967296. lia.
  - unfold wrap. change (2 ^ 32) with 4294967296. lia.
Qed.

Lemma malloc_request n :
  let bytes := Z.max (adjust_size n) CHUNKS in
  wrap (WSIZE * (bytes / WSIZE + (bytes / WSIZE) mod 2)) = bytes.
Proof.
  cbv zeta. destruct (adjust_size_range n) as (H1 & H2 & H3).
  set (bytes := Z.max (adjust_size n) CHUNKS) in *.
  unfold wrap, WSIZE. change (2 ^ 32) with 4294967296 in *. lia.
Qed.

(** The lists only depend on the words below a bound that covers the
    directory and every link word. *)
Lemma lists_ok_below st st' L B :
  lists_ok st L →
  mem_start_brk st' = mem_start_brk st → mem_max_addr st' = mem_max_addr st →
  freelist_p st' = freelist_p st →
  (∀ t, t + 4 <= B → GET st' t = GET st t) →
  freelist_p st + 4 * numlists <= B →
  (∀ j m, 0 <= j < numlists → List.In m (L j) → m + 8 <= B) →
  lists_ok st' L.
Proof.
  intros [Hs Hh Hp Hn Hd] R1 R3 R5 Hget Hdir Hmem.
  assert (Hs' : sane st') by (unfold sane; rewrite R1, R3, R5; exact Hs).
  constructor; [exact Hs' | | | exact Hn | exact Hd].
  - intros j Hj. destruct (Hh j Hj) as (h & E & D). exists h. split.
    + unfold GETfreelistp in *.
      destruct (slot_addr _ _ Hs Hj) as [Ej _].
      destruct (slot_addr _ _ Hs' Hj) as [Ej' _].
      rewrite Ej', R5, <- Ej. rewrite Hget; [exact E |].
      rewrite Ej. unfold numlists in *. lia.
    + eapply dllseg_frame; [| exact D]. intros b Hb.
      specialize (Hmem j b Hj Hb).
      destruct (placed_addr _ _ Hs (Hp j b Hj Hb)) as (_ & _ & Eb & _).
      unfold cells_same, GET_PPTR, GET_NPTR. rewrite Eb.
      split; apply Hget; lia.
  - intros j b Hj Hb. specialize (Hp j b Hj Hb).
    unfold placed in *. rewrite R3, R5. exact Hp.
Qed.

(** The block that [extend_heap] lays out at the end of the heap is in the
    situation [coalesce] expects, with the new epilogue as its allocated
    right neighbour. *)
Lemma tail_just_freed st L psz pa st3 bytes :
  heap_tail st L psz pa →
  16 <= bytes → bytes mod 8 = 0 → mem_brk st + bytes <= mem_max_addr st →
  frame (λ a, outside_word (HDRP (mem_brk st)) a ∧
              outside_word (wrap (mem_brk st + bytes - DSIZE)) a ∧
              outside_word (HDRP (wrap (mem_brk st + bytes))) a)
        (set_brk st (mem_brk st + bytes)) st3 →
  GET st3 (HDRP (mem_brk st)) = Ok (PACK bytes 0) →
  GET st3 (wrap (mem_brk st + bytes - DSIZE)) = Ok (PACK bytes 0) →
  GET st3 (HDRP (wrap (mem_brk st + bytes))) = Ok (PACK 0 1) →
  just_freed st3 L (mem_brk st) bytes psz pa 0 1.
Proof.
  intros [Hok Hal Hpf Hp8 Hpa Hpfree Hlow Hoth] Hb16 Hb8 Hfit F Gh Gf Ge.
  set (bp := mem_brk st) in *.
  pose proof (lo_sane _ _ Hok) as (S1 & S2 & S3 & S4).
  assert (Hpsz : 0 <= psz < 2 ^ 32) by (apply GET_SIZE_mult8 in Hpf; tauto).
  assert (E1 : HDRP bp = bp - 4).
  { unfold HDRP, WSIZE. apply wrap_small. unfold numlists in *. lia. }
  assert (E2 : wrap (bp + bytes - DSIZE) = bp + bytes - 8).
  { unfold DSIZE. apply wrap_small. unfold numlists in *. lia. }
  assert (E3 : HDRP (wrap (bp + bytes)) = bp + bytes - 4).
  { unfold HDRP, WSIZE. rewrite (wrap_small (bp + bytes)) by (unfold numlists in *; lia).
    apply wrap_small. unfold numlists in *. lia. }
  rewrite E1 in F, Gh. rewrite E2 in F, Gf. rewrite E3 in F, Ge.
  rewrite PACK_0 in Gh, Gf.
  pose proof F as [(R1 & R2 & R3 & R4 & R5) _]. simpl in R1, R3, R5.
  assert (Below : ∀ t, t + 4 <= bp - 4 → GET st3 t = GET st t).
  { intros t Ht.
    change (GET st t) with (GET (set_brk st (bp + bytes)) t).
    apply (frame_GET_word _ _ _ _ F).
    intros a Ha. unfold outside_word. lia. }
  assert (Hm : ∀ j m, 0 <= j < numlists → List.In m (L j) → m + 8 <= bp - 4).
  { intros j m Hj Hin. destruct (Hoth j m Hj Hin) as [[E ->] | H].
    - destruct (Hpfree E) as (H16 & _). lia.
    - unfold merged_start in H. destruct (pa =? 0); lia. }
  constructor.
  - eapply (lists_ok_below st st3 L (bp - 4)); try eassumption. lia.
  - exact Hal.
  - split; assumption.
  - exact Gh.
  - exact Gf.
  - rewrite (GET_SIZE_same st st3); [exact Hpf | apply Below; lia].
  - rewrite (GET_ALLOC_same st st3); [exact Hpa | apply Below; lia].
  - unfold GET_ALLOC. rewrite Ge. reflexivity.
  - intros E. destruct (Hpfree E) as (H16 & Hh & Hin).
    split; [exact H16 |]. split; [| exact Hin].
    rewrite (GET_SIZE_same st st3); [exact Hh | apply Below; lia].
  - intros E. discriminate E.
  - rewrite R5. exact Hlow.
  - rewrite R3. simpl. lia.
  - intros j m Hj Hin. destruct (Hoth j m Hj Hin) as [H | H]; auto.
Qed.

(** With a sound heap tail, [extend_heap] returns null only when the
    provider refuses. *)
Lemma extend_heap_null st L psz pa words st' :
  heap_tail st L psz pa →
  16 <= wrap (WSIZE * (words + words mod 2)) →
  extend_heap st words = Ok (st', NULL) →
  mem_sbrk st (wrap (WSIZE * (words + words mod 2))) = (st, SBRK_FAILED) ∧ st' = st.
Proof.
  intros HT Hb H.
  assert (Hbrk : mem_brk st ≠ SBRK_FAILED).
  { pose proof (ht_brk _ _ _ _ HT) as Hal. intros E. rewrite E in Hal.
    vm_compute in Hal. discriminate Hal. }
  destruct (extend_heap_spec st words st' NULL Hbrk H)
    as [(_ & Hs & -> & _) | (Hfit & _ & st3 & F & Gh & _ & Gf & _ & Ge & Hc)];
    [auto |].
  exfalso.
  destruct (extend_heap_request_mult8 words) as [Hr Hm8].
  rewrite Z.max_l in F, Gh, Gf, Ge by lia.
  pose proof (tail_just_freed st L psz pa st3 _ HT Hb Hm8 Hfit F Gh Gf Ge) as JF.
  destruct (coalesce_spec _ _ _ _ _ _ _ _ JF) as (st'' & Hc' & _).
  rewrite Hc in Hc'. injection Hc' as _ Hnull.
  pose proof (ht_low _ _ _ _ HT) as Hlow.
  pose proof (lo_sane _ _ (ht_lists _ _ _ _ HT)) as (S1 & S2 & S3 & S4).
  pose proof (ht_prev_size _ _ _ _ HT) as Hp8.
  unfold merged_start, NULL, numlists in *. destruct (pa =? 0); lia.
Qed.

(** The steps of [mm_malloc]: [mm_malloc(0)] returns null; the adjusted
    size is 16 for requests of at most 8 bytes and, above that, [n + 8]
    rounded up to a multiple of 8 in 32-bit arithmetic (as integers only
    while [n + 15 < 2^32]); a hit of the search is placed; on a miss the
    heap is extended by exactly [max(asize, CHUNKS)] bytes and the block is
    placed there; and on a heap with a sound tail null is returned only for
    a zero request or when the provider refuses that growth. *)
Theorem mm_malloc_protocol :
  (∀ fuel st, mm_malloc fuel st 0 = Ok (st, NULL)) ∧
  (∀ n, n <= 8 → adjust_size n = 16) ∧
  (∀ n, 8 < n →
     adjust_size n = wrap (8 * ((wrap (n + 8) + 7) / 8)) ∧
     (n + 15 < 2 ^ 32 →
      adjust_size n mod 8 = 0 ∧ n + 8 <= adjust_size n < n + 16)) ∧
  (∀ fuel st n b,
     n ≠ 0 → find_fit fuel st (adjust_size n) = Ok b → b ≠ NULL →
     mm_malloc fuel st n = place st b (adjust_size n)) ∧
  (∀ fuel st n,
     n ≠ 0 → find_fit fuel st (adjust_size n) = Ok NULL →
     let bytes := Z.max (adjust_size n) CHUNKS in
     wrap (WSIZE * (bytes / WSIZE + (bytes / WSIZE) mod 2)) = bytes ∧
     mm_malloc fuel st n =
       ('(st1, b) ← extend_heap st (bytes / WSIZE);
        if b =? NULL then Ok (st1, NULL) else place st1 b (adjust_size n))) ∧
  (∀ fuel st L psz pa n st',
     heap_tail st L psz pa → mm_malloc fuel st n = Ok (st', NULL) →
     n = 0 ∨
     (find_fit fuel st (adjust_size n) = Ok NULL ∧
      mem_sbrk st (Z.max (adjust_size n) CHUNKS) = (st, SBRK_FAILED) ∧
      st' = st)).
Proof.
  split; [reflexivity |].
  split; [exact adjust_size_small |].
  split; [exact adjust_size_large |].
  split; [| split].
  - intros fuel st n b Hn Hf Hb. unfold mm_malloc.
    destruct (Z.eqb_spec n 0) as [| _]; [contradiction |].
    cbv zeta. rewrite Hf. cbn [mbind res_bind].
    destruct (Z.eqb_spec b NULL) as [| _]; [contradiction | reflexivity].
  - intros fuel st n Hn Hf. cbv zeta. split; [apply malloc_request |].
    unfold mm_malloc. destruct (Z.eqb_spec n 0) as [| _]; [contradiction |].
    cbv zeta. rewrite Hf. cbn [mbind res_bind].
    rewrite Z.eqb_refl. cbn [negb]. rewrite MAX_max. reflexivity.
  - intros fuel st L psz pa n st' HT H.
    destruct (Z.eq_dec n 0) as [-> | Hn]; [left; reflexivity | right].
    unfold mm_malloc in H. destruct (Z.eqb_spec n 0) as [| _]; [contradiction |].
    cbv zeta in H. inv_bind H. rename v into b.
    destruct (Z.eqb_spec b NULL) as [-> | Hb]; cbn [negb] in H.
    2:{ apply place_result in H. congruence. }
    rewrite MAX_max in H. inv_bind H. destruct v as [st1 b1].
    pose proof (malloc_request n) as Hreq. cbv zeta in Hreq.
    destruct (adjust_size_range n) as (_ & _ & H32).
    destruct (Z.eqb_spec b1 NULL) as [-> | Hb1].
    + injection H as <-.
      destruct (extend_heap_null st L psz pa
                  (Z.max (adjust_size n) CHUNKS / WSIZE) st1 HT) as [Hs ->];
        [rewrite Hreq; lia | exact E0 |].
      rewrite Hreq in Hs. auto.
    + apply place_result in H. congruence.
Qed.

Lemma lists_ok_tight : lists_ok st_tight L_init.
Proof.
  constructor.
  - unfold sane. split; [| split; [| split]]; zfact.
  - solve_heads L_init.
  - intros k b Hk Hb. case_k k Hk; members Hb; solve_placed.
  - intros k Hk. case_k k Hk;
      lazymatch goal with
      | |- List.NoDup (L_init ?j) =>
          let l := eval vm_compute in (L_init j) in change (L_init j) with l
      end;
      repeat constructor; simpl; intuition discriminate.
  - intros k k' b Hk Hk' Hb Hb'.
    case_k k Hk; members Hb; case_k k' Hk'; members Hb'; reflexivity.
Qed.

Lemma heap_tail_tight : heap_tail st_tight L_init 32 0.
Proof.
  constructor.
  - exact lists_ok_tight.
  - vm_compute; reflexivity.
  - vm_compute; reflexivity.
  - lia.
  - vm_compute; reflexivity.
  - intros _. split; [lia |]. split; [vm_compute; reflexivity |]. vm_compute. tauto.
  - zfact.
  - intros j m Hj Hm. case_k j Hj; members Hm. left. split; reflexivity.
Qed.

Lemma mm_malloc_protocol_witness :
  (24 ≠ 0 ∧ find_fit 64 st_init (adjust_size 24) = Ok 65600 ∧ 65600 ≠ NULL ∧
   mm_malloc 64 st_init 24 = place st_init 65600 (adjust_size 24)) ∧
  (100 ≠ 0 ∧ find_fit 64 st_init (adjust_size 100) = Ok NULL ∧
   8 < 100 ∧ 100 + 15 < 2 ^ 32 ∧
   (adjust_size 100 mod 8 = 0 ∧ 100 + 8 <= adjust_size 100 < 100 + 16) ∧
   mm_malloc 64 st_init 100 =
     ('(st1, b) ← extend_heap st_init (Z.max (adjust_size 100) CHUNKS / WSIZE);
      if b =? NULL then Ok (st1, NULL) else place st1 b (adjust_size 100))) ∧
  (heap_tail st_tight L_init 32 0 ∧
   mm_malloc 64 st_tight 100 = Ok (st_tight, NULL) ∧
   (100 = 0 ∨
    (find_fit 64 st_tight (adjust_size 100) = Ok NULL ∧
     mem_sbrk st_tight (Z.max (adjust_size 100) CHUNKS) = (st_tight, SBRK_FAILED) ∧
     st_tight = st_tight))).
Proof.
  destruct mm_malloc_protocol as (_ & _ & H3 & H4 & H5 & H6).
  assert (F1 : find_fit 64 st_init (adjust_size 24) = Ok 65600) by (vm_compute; reflexivity).
  assert (F2 : find_fit 64 st_init (adjust_size 100) = Ok NULL) by (vm_compute; reflexivity).
  assert (M : mm_malloc 64 st_tight 100 = Ok (st_tight, NULL)) by (vm_compute; reflexivity).
  split; [| split].
  - split; [discriminate |]. split; [exact F1 |]. split; [discriminate |].
    apply (H4 64%nat st_init 24 65600); [discriminate | exact F1 | discriminate].
  - split; [discriminate |]. split; [exact F2 |].
    assert (B1 : 8 < 100) by lia.
    assert (B2 : 100 + 15 < 2 ^ 32) by (change (2 ^ 32) with 4294967296; lia).
    split; [exact B1 |]. split; [exact B2 |].
    split; [exact (proj2 (H3 100 B1) B2) |].
    apply (proj2 (H5 64%nat st_init 100 ltac:(discriminate) F2)).
  - split; [exact heap_tail_tight |]. split; [exact M |].
    exact (H6 64%nat st_tight L_init 32 0 100 st_tight heap_tail_tight M).
Defined.

End Malloc.


(** ** Size classes *)

Section SizeClasses.

(** The class loop halves [bsize] once per step: it stops at the binary
    logarithm of [bsize] or at the last list. *)
Lemma list_num_loop_log n : ∀ num bsize,
  0 <= num <= 11 → 1 <= bsize → (Z.to_nat (11 - num) <= n)%nat →
  let r := list_num_loop n num bsize in
  num <= r <= 11 ∧ 2 ^ (r - num) <= bsize ∧
  (r < 11 → bsize < 2 ^ (r - num + 1)).
Proof.
  induction n as [| n IH]; intros num bsize Hn Hb Hf; cbv zeta.
  - assert (num = 11) by lia. subst num. simpl.
    rewrite Z.sub_diag. change (2 ^ 0) with 1. lia.
  - simpl. unfold numlists.
    destruct (Z.ltb_spec num (12 - 1)) as [Hlt | Hge]; simpl.
    + destruct (Z.gtb_spec bsize 1) as [Hgt | Hle].
      * rewrite Z.shiftr_div_pow2 by lia. change (2 ^ 1) with 2.
        assert (Hh : 1 <= bsize / 2) by lia.
        specialize (IH (num + 1) (bsize / 2) ltac:(lia) Hh ltac:(lia)).
        cbv zeta in IH.
        set (r := list_num_loop n (num + 1) (bsize / 2)) in *.
        destruct IH as (Hr & Hlo & Hhi).
        replace (r - num) with (Z.succ (r - (num + 1))) by lia.
        replace (Z.succ (r - (num + 1)) + 1) with (Z.succ (r - (num + 1) + 1)) by lia.
        rewrite !Z.pow_succ_r by lia.
        split; [lia |]. split; [lia |]. intros Hr11. specialize (Hhi Hr11). lia.
      * assert (bsize = 1) by lia. subst bsize.
        rewrite Z.sub_diag. change (2 ^ 0) with 1. change (2 ^ (0 + 1)) with 2. lia.
    + assert (num = 11) by lia. subst num.
      rewrite Z.sub_diag. change (2 ^ 0) with 1. lia.
Qed.

Lemma list_num_log size :
  1 <= size →
  2 ^ list_num size <= size ∧ (list_num size < 11 → size < 2 ^ (list_num size + 1)).
Proof.
  intros Hs. pose proof (list_num_loop_log 11 0 size ltac:(lia) Hs ltac:(simpl; lia)) as H.
  cbv zeta in H. fold (list_num size) in H. rewrite !Z.sub_0_r in H. tauto.
Qed.

Lemma list_num_small size : size <= 1 → list_num size = 0.
Proof.
  intros H. unfold list_num. simpl. unfold numlists. simpl.
  destruct (Z.gtb_spec size 1); [lia | reflexivity].
Qed.

Lemma pow2_lt_mono a b : 0 <= a → 0 <= b → 2 ^ a < 2 ^ (b + 1) → a <= b.
Proof.
  intros Ha Hb H. destruct (Z.le_gt_cases a b) as [| Hgt]; [assumption | exfalso].
  assert (2 ^ (b + 1) <= 2 ^ a) by (apply Z.pow_le_mono_r; lia). lia.
Qed.

Lemma list_num_mono s s' : 0 <= s <= s' → list_num s <= list_num s'.
Proof.
  intros H. pose proof (list_num_range s) as R. pose proof (list_num_range s') as R'.
  unfold numlists in *.
  destruct (Z.le_gt_cases s 1) as [Hs | Hs]; [rewrite (list_num_small s Hs); lia |].
  destruct (list_num_log s ltac:(lia)) as [Lo _].
  destruct (list_num_log s' ltac:(lia)) as [_ Hi'].
  destruct (Z.eq_dec (list_num s') 11) as [E | Hne]; [lia |].
  apply pow2_lt_mono; lia.
Qed.

(** X1: the class of a size is its binary logarithm, capped at the last list:
    sizes 0 and 1 go to list 0, a size in [2^k, 2^(k+1)) goes to list [k] for
    [k < 11], every size from 2^11 on goes to list 11, and the class never
    decreases when the size grows. *)
Theorem list_num_size_class :
  (∀ size, size <= 1 → list_num size = 0) ∧
  (∀ size k, 0 <= k < 11 → 2 ^ k <= size < 2 ^ (k + 1) → list_num size = k) ∧
  (∀ size, 2 ^ 11 <= size → list_num size = 11) ∧
  (∀ s s', 0 <= s <= s' → list_num s <= list_num s').
Proof.
  split; [exact list_num_small |].
  split; [| split; [| exact list_num_mono]].
  - intros size k Hk [Lo Hi].
    assert (Hs : 1 <= size) by (pose proof (Z.pow_pos_nonneg 2 k); lia).
    pose proof (list_num_range size) as R. unfold numlists in R.
    destruct (list_num_log size Hs) as [Lo' Hi'].
    assert (list_num size <= k) by (apply pow2_lt_mono; lia).
    assert (k <= list_num size).
    { apply pow2_lt_mono; [lia | lia |]. specialize (Hi' ltac:(lia)). lia. }
    lia.
  - intros size Hs.
    pose proof (list_num_range size) as R. unfold numlists in R.
    destruct (list_num_log size ltac:(change (2 ^ 11) with 2048 in Hs; lia)) as [_ Hi'].
    destruct (Z.eq_dec (list_num size) 11) as [E | Hne]; [exact E | exfalso].
    specialize (Hi' ltac:(lia)).
    assert (2 ^ (list_num size + 1) <= 2 ^ 11) by (apply Z.pow_le_mono_r; lia).
    lia.
Qed.

Lemma list_num_size_class_witness :
  list_num 1 = 0 ∧ list_num 48 = 5 ∧ list_num 4104 = 11 ∧ list_num 24 <= list_num 48.
Proof.
  destruct list_num_size_class as (H1 & H2 & H3 & H4).
  split; [apply H1; lia |].
  split; [apply H2; [lia | split; [change (2 ^ 5) with 32; lia | change (2 ^ (5 + 1)) with 64; lia]] |].
  split; [apply H3; change (2 ^ 11) with 2048; lia |].
  apply H4; lia.
Defined.

End SizeClasses.

(** ** Rounding and boundary tags *)

Section Tags.

(** X2: [ALIGN] rounds a size up to the next multiple of 8, as [ROUND8] does,
    as long as that multiple fits in 32 bits; the seven sizes above
    [2^32 - 8] wrap around to 0. *)
Theorem ALIGN_rounds_up n :
  0 <= n < 2 ^ 32 →
  (n <= 2 ^ 32 - 8 →
   ALIGN n mod 8 = 0 ∧ n <= ALIGN n < n + 8 ∧ ALIGN n = ROUND8 n) ∧
  (2 ^ 32 - 8 < n → ALIGN n = 0).
Proof.
  intros Hn. rewrite ALIGN_value. unfold ROUND8, wrap.
  change (2 ^ 32) with 4294967296 in *.
  split.
  - intros Hle. split; [lia |]. split; [lia |].
    destruct (Z.eqb_spec (n mod 8) 0); simpl; lia.
  - intros Hgt. lia.
Qed.

Lemma ALIGN_rounds_up_witness :
  ALIGN 50 mod 8 = 0 ∧ 50 <= ALIGN 50 < 58 ∧ ALIGN 50 = ROUND8 50 ∧
  ALIGN (2 ^ 32 - 3) = 0.
Proof.
  assert (R1 : 0 <= 50 < 2 ^ 32) by (change (2 ^ 32) with 4294967296; lia).
  assert (R2 : 0 <= 2 ^ 32 - 3 < 2 ^ 32) by (change (2 ^ 32) with 4294967296; lia).
  destruct (ALIGN_rounds_up 50 R1) as [H _].
  destruct (ALIGN_rounds_up (2 ^ 32 - 3) R2) as [_ H'].
  specialize (H ltac:(change (2 ^ 32) with 4294967296; lia)).
  specialize (H' ltac:(change (2 ^ 32) with 4294967296; lia)).
  tauto.
Defined.

(** X3: a boundary tag written with [PUT(p, PACK(size, alloc))] reads back
    through [GET_SIZE] and [GET_ALLOC] as the size and the bit that went in,
    and every word that does not overlap [p] reads as before. *)
Theorem tag_round_trip st p size a st' :
  0 <= size < 2 ^ 32 → size mod 8 = 0 → a = 0 ∨ a = 1 →
  PUT st p (PACK size a) = Ok st' →
  GET_SIZE st' p = Ok size ∧ GET_ALLOC st' p = Ok a ∧
  (∀ q, q + 4 <= p ∨ p + 4 <= q → GET st' q = GET st q) ∧
  same_regs st st'.
Proof.
  intros Hr Hm Ha H.
  assert (E : wrap (PACK size a) = PACK size a).
  { apply wrap_small. destruct Ha as [-> | ->];
      [rewrite PACK_0 | rewrite PACK_1]; change (2 ^ 32) with 4294967296 in *; lia. }
  split; [eapply GET_SIZE_PUT_eq; eassumption |].
  split.
  { unfold GET_ALLOC. rewrite (GET_PUT_eq _ _ _ _ H), E. cbn [mbind res_bind].
    f_equal. apply alloc_of_PACK; assumption. }
  split; [| exact (PUT_regs _ _ _ _ H)].
  intros q Hq. apply (GET_PUT_ne _ _ _ _ _ H). lia.
Qed.

Lemma tag_round_trip_witness :
  let st' := state_or_fresh (PUT st_init 65620 (PACK 48 1)) in
  GET_SIZE st' 65620 = Ok 48 ∧ GET_ALLOC st' 65620 = Ok 1 ∧
  GET st' 65596 = GET st_init 65596.
Proof.
  cbv zeta.
  assert (H : PUT st_init 65620 (PACK 48 1)
              = Ok (state_or_fresh (PUT st_init 65620 (PACK 48 1)))) by run_ok.
  destruct (tag_round_trip st_init 65620 48 1 _
              ltac:(change (2 ^ 32) with 4294967296; lia) ltac:(reflexivity)
              ltac:(right; reflexivity) H) as (H1 & H2 & H3 & _).
  split; [exact H1 |]. split; [exact H2 |]. apply H3. lia.
Defined.

End Tags.

(** ** The checker's verdict *)

Section Verdict.

Lemma fail_with_matches k msg : flag_matches_output (fail_with k msg).
Proof. right. simpl. split; [reflexivity |]. destruct (out k); discriminate. Qed.

Lemma check_list_body_matches st bp k k' :
  check_list_body st bp k = Ok k' → flag_matches_output k → flag_matches_output k'.
Proof.
  unfold check_list_body, check_marked_free, check_contiguous. intros H Hk.
  inv_bind H. inv_bind E.
  assert (Hv : flag_matches_output v).
  { destruct (negb (v0 =? 0)); injection E as <-;
      [apply fail_with_matches | exact Hk]. }
  inv_bind H. inv_bind H. inv_bind H. inv_bind H.
  destruct ((v2 =? 0) || (v4 =? 0)); injection H as <-;
    [apply fail_with_matches | exact Hv].
Qed.

Lemma check_list_matches fuel st : ∀ bp k k',
  check_list fuel st bp k = Ok k' → flag_matches_output k → flag_matches_output k'.
Proof.
  induction fuel as [| fuel IH]; intros bp k k' H Hk; simpl in H; [discriminate |].
  destruct (bp =? NULL); [injection H as <-; exact Hk |].
  inv_bind H. inv_bind H.
  eapply IH; [exact H |]. eapply check_list_body_matches; eassumption.
Qed.

Lemma check_lists_matches n fuel st : ∀ num k k',
  check_lists n fuel st num k = Ok k' → flag_matches_output k → flag_matches_output k'.
Proof.
  induction n as [| n IH]; intros num k k' H Hk; simpl in H;
    [injection H as <-; exact Hk |].
  destruct (num <? numlists); [| injection H as <-; exact Hk].
  inv_bind H. inv_bind H.
  eapply IH; [exact H |]. eapply check_list_matches; eassumption.
Qed.

Lemma check_walk_matches fuel st : ∀ bp k k',
  check_walk fuel st bp k = Ok k' → flag_matches_output k → flag_matches_output k'.
Proof.
  induction fuel as [| fuel IH]; intros bp k k' H Hk; simpl in H; [discriminate |].
  inv_bind H.
  destruct (negb (v =? 0)); [| injection H as <-; exact Hk].
  inv_bind H. inv_bind H. inv_bind H. inv_bind H.
  eapply IH; [exact H |].
  assert (H0 : flag_matches_output (if v0 =? 0 then incr_count k else k))
    by (destruct (v0 =? 0); exact Hk).
  assert (H1 : flag_matches_output v1).
  { unfold check_overlap in E1. inv_bind E1. inv_bind E1.
    destruct (v4 >? HDRP v5); injection E1 as <-;
      [apply fail_with_matches | exact H0]. }
  unfold check_min_size in E2.
  destruct (c v1 >? 0); [| injection E2 as <-; exact H1].
  inv_bind E2.
  destruct (v4 <? 16); injection E2 as <-; [apply fail_with_matches | exact H1].
Qed.

(** X4: the checker returns 1 exactly when it printed nothing, and 0 exactly
    when it printed at least one diagnostic; it returns no other value. *)
Theorem mm_check_verdict fuel st r o :
  mm_check fuel st = Ok (r, o) → (r = 1 ∧ o = []) ∨ (r = 0 ∧ o ≠ []).
Proof.
  unfold mm_check. intros H. inv_bind H. inv_bind H.
  assert (H0 : flag_matches_output (mkChecker 1 0 0 0 [])) by (left; auto).
  assert (H1 : flag_matches_output v0).
  { eapply check_walk_matches; [exact E0 |]. eapply check_lists_matches; eassumption. }
  assert (H2 : flag_matches_output
                 (if negb (count v0 =? numcount v0) then fail_with v0 msg_count else v0)).
  { destruct (negb (count v0 =? numcount v0)); [apply fail_with_matches | exact H1]. }
  destruct H2 as [[C O] | [C O]]; rewrite C in H; simpl in H;
    injection H as <- <-; auto.
Qed.

Lemma mm_check_verdict_witness :
  mm_check 64 st_init = Ok (1, []) ∧ ((1 = 1 ∧ @nil string = []) ∨ (1 = 0 ∧ @nil string ≠ [])).
Proof.
  assert (H : mm_check 64 st_init = Ok (1, [])) by (vm_compute; reflexivity).
  split; [exact H |]. exact (mm_check_verdict 64 st_init 1 [] H).
Defined.

End Verdict.


(** ** Insertion into and removal from the free lists *)

Section ListOperations.

(** Only the lists themselves matter, not the function that names them. *)
Lemma lists_ok_ext st L L' :
  lists_ok st L → (∀ j, 0 <= j < numlists → L' j = L j) → lists_ok st L'.
Proof.
  intros [Hs Hh Hp Hn Hd] E. constructor.
  - exact Hs.
  - intros j Hj. rewrite (E j Hj). exact (Hh j Hj).
  - intros j b Hj. rewrite (E j Hj). exact (Hp j b Hj).
  - intros j Hj. rewrite (E j Hj). exact (Hn j Hj).
  - intros j j' b Hj Hj'. rewrite (E j Hj), (E j' Hj'). exact (Hd j j' b Hj Hj').
Qed.

Lemma L_del_L_ins k b L j :
  ¬ List.In b (L k) → L_del k b (L_ins k b L) j = L j.
Proof.
  intros Hb. unfold L_del, L_ins. destruct (Z.eqb_spec j k) as [-> | _]; [| reflexivity].
  simpl. destruct (Z.eq_dec b b) as [_ | C]; [| contradiction].
  apply List.notin_remove. exact Hb.
Qed.

(** The head of a list and the links of its first block. *)
Lemma lists_ok_front st L k b l :
  lists_ok st L → 0 <= k < numlists → L k = b :: l →
  GETfreelistp st k = Ok b ∧ GET_PPTR st b = Ok NULL ∧
  ∃ n, GET_NPTR st b = Ok n ∧ dllseg st b n l NULL.
Proof.
  intros Hok Hk El. destruct (lo_heads _ _ Hok k Hk) as (h & Eh & D).
  unfold dll in D. rewrite El in D. destruct D as (-> & _ & Hp & n & Hn & D).
  split; [exact Eh |]. split; [exact Hp |]. exists n. auto.
Qed.

Lemma ADD_free_front st L bp size :
  lists_ok st L → placed st bp →
  (∀ j, 0 <= j < numlists → ¬ List.In bp (L j)) →
  ∃ st', ADD_free st bp size = Ok st' ∧
         lists_ok st' (L_ins (list_num size) bp L) ∧
         GETfreelistp st' (list_num size) = Ok bp ∧
         GET_PPTR st' bp = Ok NULL ∧
         (∀ h, GETfreelistp st (list_num size) = Ok h →
               GET_NPTR st' bp = Ok h ∧ (h ≠ NULL → GET_PPTR st' h = Ok bp)) ∧
         frame (untouched st (L_ins (list_num size) bp L)) st st'.
Proof.
  intros Hok Pbp Hfresh.
  destruct (ADD_free_spec st L bp size _ Hok Pbp Hfresh eq_refl) as (st' & HA & Hok' & F).
  pose proof (list_num_range size) as Hk.
  destruct (lists_ok_front st' _ _ bp (L (list_num size)) Hok' Hk (L_ins_same _ _ _))
    as (Eh & Ep & n & En & D).
  exists st'. split; [exact HA |]. split; [exact Hok' |].
  split; [exact Eh |]. split; [exact Ep |]. split; [| exact F].
  intros h Hh. destruct (lo_heads _ _ Hok _ Hk) as (h' & Eh' & D').
  rewrite Hh in Eh'. injection Eh' as <-. unfold dll in D'.
  destruct (L (list_num size)) as [| b l].
  - simpl in D, D'. subst h n. split; [exact En |]. intros C. contradiction.
  - simpl in D, D'. destruct D as (-> & _ & Hp & _). destruct D' as (-> & _).
    split; [exact En |]. intros _. exact Hp.
Qed.

(** X5: [ADD_free(bp, size)] pushes the block on the front of the list of
    class [class(size)]: afterwards the directory slot of that class holds
    [bp], the block's previous link is null, its next link is the old head,
    the old head (if any) points back to [bp], all twelve lists are still
    well-formed doubly-linked lists, and nothing but the directory and the
    link words of listed blocks was written. *)
Theorem ADD_free_pushes_front st L bp size :
  lists_ok st L → placed st bp →
  (∀ j, 0 <= j < numlists → ¬ List.In bp (L j)) →
  ∃ st', ADD_free st bp size = Ok st' ∧
         lists_ok st' (L_ins (list_num size) bp L) ∧
         GETfreelistp st' (list_num size) = Ok bp ∧
         GET_PPTR st' bp = Ok NULL ∧
         (∀ h, GETfreelistp st (list_num size) = Ok h →
               GET_NPTR st' bp = Ok h ∧ (h ≠ NULL → GET_PPTR st' h = Ok bp)) ∧
         frame (untouched st (L_ins (list_num size) bp L)) st st'.
Proof. exact (ADD_free_front st L bp size). Qed.

Lemma marked_block_fresh : ∀ j, 0 <= j < numlists → ¬ List.In 65624 (L_holes j).
Proof. intros j Hj Hin. case_k j Hj; members Hin. Qed.

Lemma marked_block_placed : placed st_marked 65624.
Proof. solve_placed. Qed.

Lemma ADD_free_pushes_front_witness :
  lists_ok st_marked L_holes ∧ placed st_marked 65624 ∧
  GETfreelistp st_marked (list_num 24) = Ok 65648 ∧
  ∃ st', ADD_free st_marked 65624 24 = Ok st' ∧
         GETfreelistp st' (list_num 24) = Ok 65624 ∧
         GET_NPTR st' 65624 = Ok 65648 ∧ GET_PPTR st' 65648 = Ok 65624.
Proof.
  assert (Hh : GETfreelistp st_marked (list_num 24) = Ok 65648) by (vm_compute; reflexivity).
  split; [exact lists_ok_marked |]. split; [exact marked_block_placed |].
  split; [exact Hh |].
  destruct (ADD_free_pushes_front st_marked L_holes 65624 24
              lists_ok_marked marked_block_placed marked_block_fresh)
    as (st' & HA & _ & Eh & _ & Hold & _).
  destruct (Hold 65648 Hh) as [En Ep].
  exists st'. split; [exact HA |]. split; [exact Eh |]. split; [exact En |].
  apply Ep. discriminate.
Defined.

Lemma deletefree_then_fresh st L x s :
  lists_ok st L → List.In x (L (list_num s)) →
  GET_SIZE st (HDRP x) = Ok s →
  ∃ st', deletefree st x = Ok st' ∧
         lists_ok st' (L_del (list_num s) x L) ∧
         (∀ j, 0 <= j < numlists → ¬ List.In x (L_del (list_num s) x L j)) ∧
         frame (untouched st L) st st'.
Proof.
  intros Hok Hx Hs. pose proof (list_num_range s) as Hk.
  destruct (deletefree_spec st L _ x s Hok Hk Hx Hs eq_refl) as (st' & HD & Hok' & F).
  exists st'. split; [exact HD |]. split; [exact Hok' |]. split; [| exact F].
  apply (L_del_fresh st); assumption.
Qed.

(** X6: [deletefree(bp)] unlinks a listed block from the list of the class of
    its header size, wherever it stands in that list: afterwards the block
    is on no list, the other members keep their order, all twelve lists are
    still well-formed, and nothing but the directory and the link words of
    listed blocks was written. *)
Theorem deletefree_unlinks st L x s :
  lists_ok st L → List.In x (L (list_num s)) →
  GET_SIZE st (HDRP x) = Ok s →
  ∃ st', deletefree st x = Ok st' ∧
         lists_ok st' (L_del (list_num s) x L) ∧
         (∀ j, 0 <= j < numlists → ¬ List.In x (L_del (list_num s) x L j)) ∧
         frame (untouched st L) st st'.
Proof. exact (deletefree_then_fresh st L x s). Qed.

Lemma deletefree_unlinks_witness :
  lists_ok st_marked L_holes ∧ List.In 65600 (L_holes (list_num 24)) ∧
  GET_SIZE st_marked (HDRP 65600) = Ok 24 ∧
  ∃ st', deletefree st_marked 65600 = Ok st' ∧
         lists_ok st' (L_del (list_num 24) 65600 L_holes) ∧
         L_del (list_num 24) 65600 L_holes 4 = [65648].
Proof.
  assert (Hin : List.In 65600 (L_holes (list_num 24))) by (vm_compute; tauto).
  assert (Hs : GET_SIZE st_marked (HDRP 65600) = Ok 24) by (vm_compute; reflexivity).
  split; [exact lists_ok_marked |]. split; [exact Hin |]. split; [exact Hs |].
  destruct (deletefree_unlinks st_marked L_holes 65600 24 lists_ok_marked Hin Hs)
    as (st' & HD & Hok & _).
  exists st'. split; [exact HD |]. split; [exact Hok |]. vm_compute. reflexivity.
Defined.

(** The header of a block that is inserted is not a word [ADD_free] writes,
    provided it lies above the directory and in no listed block's link
    words. *)
Lemma ADD_free_keeps_header st L bp size st' :
  frame (untouched st (L_ins (list_num size) bp L)) st st' →
  freelist_p st + 4 * numlists + 4 <= bp →
  (∀ j m, 0 <= j < numlists → List.In m (L j) → bp <= m ∨ m + 8 <= bp - 4) →
  GET st' (bp - 4) = GET st (bp - 4).
Proof.
  intros F Hlow Hm. eapply untouched_GET; [exact F | lia |].
  intros j m Hj Hin. unfold L_ins in Hin.
  destruct (j =? list_num size).
  - destruct Hin as [<- | Hin]; [lia |]. specialize (Hm j m Hj Hin). lia.
  - specialize (Hm j m Hj Hin). lia.
Qed.

(** X7: insertion followed by removal is the identity on the lists: after
    [ADD_free(bp, size)] on a block whose header records [size],
    [deletefree(bp)] succeeds and the twelve lists are the ones from before
    the insertion, in the same order. *)
Theorem ADD_free_then_deletefree st L bp size :
  lists_ok st L → placed st bp →
  (∀ j, 0 <= j < numlists → ¬ List.In bp (L j)) →
  GET_SIZE st (HDRP bp) = Ok size → HDRP bp = bp - 4 →
  freelist_p st + 4 * numlists + 4 <= bp →
  (∀ j m, 0 <= j < numlists → List.In m (L j) → bp <= m ∨ m + 8 <= bp - 4) →
  ∃ st1 st2, ADD_free st bp size = Ok st1 ∧ deletefree st1 bp = Ok st2 ∧
             lists_ok st2 L ∧
             ∀ k, 0 <= k < numlists → GETfreelistp st2 k = GETfreelistp st k.
Proof.
  intros Hok Pbp Hfresh Hs Eh Hlow Hm.
  destruct (ADD_free_front st L bp size Hok Pbp Hfresh) as (st1 & HA & Hok1 & _ & _ & _ & F).
  assert (Hs1 : GET_SIZE st1 (HDRP bp) = Ok size).
  { rewrite <- Hs. apply GET_SIZE_same. rewrite Eh.
    eapply ADD_free_keeps_header; eassumption. }
  assert (Hin : List.In bp (L_ins (list_num size) bp L (list_num size)))
    by (rewrite L_ins_same; left; reflexivity).
  destruct (deletefree_then_fresh st1 _ bp size Hok1 Hin Hs1) as (st2 & HD & Hok2 & _ & _).
  pose proof (list_num_range size) as Hk.
  assert (Hok2' : lists_ok st2 L).
  { eapply lists_ok_ext; [exact Hok2 |]. intros j Hj. symmetry.
    apply L_del_L_ins. apply Hfresh. exact Hk. }
  exists st1, st2. split; [exact HA |]. split; [exact HD |]. split; [exact Hok2' |].
  intros k Hk'.
  destruct (lo_heads _ _ Hok k Hk') as (h & E & D).
  destruct (lo_heads _ _ Hok2' k Hk') as (h' & E' & D').
  rewrite E, E'. f_equal. unfold dll in D, D'.
  destruct (L k); simpl in D, D'; [congruence |].
  destruct D as (-> & _). destruct D' as (-> & _). reflexivity.
Qed.

Lemma marked_block_clear :
  ∀ j m, 0 <= j < numlists → List.In m (L_holes j) → 65624 <= m ∨ m + 8 <= 65624 - 4.
Proof. intros j m Hj Hin. case_k j Hj; members Hin; lia. Qed.

Lemma ADD_free_then_deletefree_witness :
  GET_SIZE st_marked (HDRP 65624) = Ok 24 ∧
  ∃ st1 st2, ADD_free st_marked 65624 24 = Ok st1 ∧ deletefree st1 65624 = Ok st2 ∧
             lists_ok st2 L_holes ∧ GETfreelistp st2 4 = Ok 65648.
Proof.
  assert (Hs : GET_SIZE st_marked (HDRP 65624) = Ok 24) by (vm_compute; reflexivity).
  split; [exact Hs |].
  destruct (ADD_free_then_deletefree st_marked L_holes 65624 24
              lists_ok_marked marked_block_placed marked_block_fresh Hs
              ltac:(reflexivity) ltac:(vm_compute; discriminate) marked_block_clear)
    as (st1 & st2 & HA & HD & Hok & Hsl).
  exists st1, st2. split; [exact HA |]. split; [exact HD |]. split; [exact Hok |].
  rewrite (Hsl 4 ltac:(unfold numlists; lia)). vm_compute. reflexivity.
Defined.

(** X8: the lists are last-in first-out: right after [ADD_free(bp, size)] on
    a block whose header records [size], [find_fit(asize)] returns that very
    block for every request of the same class that it can hold. *)
Theorem find_fit_after_ADD_free st L bp size asize fuel :
  lists_ok st L → placed st bp →
  (∀ j, 0 <= j < numlists → ¬ List.In bp (L j)) →
  GET_SIZE st (HDRP bp) = Ok size → HDRP bp = bp - 4 →
  freelist_p st + 4 * numlists + 4 <= bp →
  (∀ j m, 0 <= j < numlists → List.In m (L j) → bp <= m ∨ m + 8 <= bp - 4) →
  list_num asize = list_num size → asize <= size →
  ∃ st1, ADD_free st bp size = Ok st1 ∧ find_fit (S fuel) st1 asize = Ok bp.
Proof.
  intros Hok Pbp Hfresh Hs Eh Hlow Hm Hcl Hle.
  destruct (ADD_free_front st L bp size Hok Pbp Hfresh) as (st1 & HA & Hok1 & Hh & _ & _ & F).
  assert (Hs1 : GET_SIZE st1 (HDRP bp) = Ok size).
  { rewrite <- Hs. apply GET_SIZE_same. rewrite Eh.
    eapply ADD_free_keeps_header; eassumption. }
  exists st1. split; [exact HA |].
  unfold find_fit. rewrite Hcl, Hh. cbn [mbind res_bind find_fit_loop].
  assert (Hnn : bp ≠ NULL).
  { destruct Pbp as (_ & B & _). pose proof (lo_sane _ _ Hok) as (S1 & _ & S3 & _).
    unfold NULL, numlists in *. lia. }
  destruct (Z.eqb_spec bp NULL) as [| _]; [contradiction |].
  rewrite Hs1. cbn [mbind res_bind].
  destruct (Z.leb_spec asize size); [reflexivity | lia].
Qed.

Lemma find_fit_after_ADD_free_witness :
  ∃ st1, ADD_free st_marked 65624 24 = Ok st1 ∧ find_fit 1 st1 16 = Ok 65624.
Proof.
  assert (Hs : GET_SIZE st_marked (HDRP 65624) = Ok 24) by (vm_compute; reflexivity).
  exact (find_fit_after_ADD_free st_marked L_holes 65624 24 16 0
           lists_ok_marked marked_block_placed marked_block_fresh Hs
           ltac:(reflexivity) ltac:(vm_compute; discriminate) marked_block_clear
           ltac:(reflexivity) ltac:(lia)).
Defined.

End ListOperations.


(** ** Placing a request in a free block *)

Ltac rd E := rewrite E; cbn [mbind res_bind].

Section Place.

(** A store inside a region [lo, hi) that holds no link word of a listed
    block keeps the lists and everything outside the region. *)
Lemma region_PUT st st1 L L' lo hi t v :
  sane st → same_regs st st1 → lists_ok st1 L' →
  freelist_p st + 4 * numlists <= lo → hi <= mem_max_addr st →
  lo <= t → t + 4 <= hi →
  (∀ j m, 0 <= j < numlists → List.In m (L' j) → m + 8 <= t ∨ t + 4 <= m) →
  frame (λ a, untouched st L a ∧ (a < lo ∨ hi <= a)) st st1 →
  ∃ st2, PUT st1 t v = Ok st2 ∧ same_regs st st2 ∧ lists_ok st2 L' ∧
         GET st2 t = Ok (wrap v) ∧
         (∀ q, q + 4 <= t ∨ t + 4 <= q → GET st2 q = GET st1 q) ∧
         frame (λ a, untouched st L a ∧ (a < lo ∨ hi <= a)) st st2.
Proof.
  intros (S1 & S2 & S3 & S4) R Hok Hlo Hhi Ht1 Ht2 Hm F.
  destruct (PUT_Ok st1 t v) as [st2 P].
  { rewrite (same_regs_accessible _ _ _ _ R). apply accessible_4.
    unfold numlists in *. lia. }
  exists st2. split; [exact P |].
  split; [eapply same_regs_trans; [exact R | exact (PUT_regs _ _ _ _ P)] |].
  split.
  { eapply lists_ok_PUT; [exact Hok | exact P | |].
    - destruct R as (_ & _ & _ & _ & ->). lia.
    - intros j m Hj Hin. specialize (Hm j m Hj Hin). lia. }
  split; [exact (GET_PUT_eq _ _ _ _ P) |].
  split; [intros q Hq; apply (GET_PUT_ne _ _ _ _ _ P); lia |].
  eapply frame_weaken; [| eapply frame_trans; [exact F | exact (PUT_frame _ _ _ _ P)]].
  cbv beta. intros a [Ha Hout]. split; [split; assumption |].
  unfold outside_word. lia.
Qed.

Variables (st : state) (L : Z → list Z) (bp csize asize : Z).
Hypothesis FB : free_block st L bp csize.
Hypothesis Hfit : 16 <= asize <= csize.
Hypothesis Hmul : asize mod 8 = 0.

Lemma fb_bounds :
  sane st ∧ 0 < bp - 4 ∧ bp + csize < 2 ^ 32 ∧ HDRP bp = bp - 4 ∧
  GET_SIZE st (HDRP bp) = Ok csize.
Proof.
  pose proof (lo_sane _ _ (fb_lists _ _ _ _ FB)) as Hs.
  pose proof Hs as (S1 & S2 & S3 & S4).
  pose proof (fb_low _ _ _ _ FB) as Hlo. pose proof (fb_high _ _ _ _ FB) as Hhi.
  pose proof (fb_size _ _ _ _ FB) as [Hc Hc8].
  unfold numlists in *.
  assert (E : HDRP bp = bp - 4) by (unfold HDRP, WSIZE; apply wrap_small; lia).
  split; [exact Hs |]. split; [lia |]. split; [lia |]. split; [exact E |].
  rewrite E. apply GET_SIZE_of_GET; [apply (fb_header _ _ _ _ FB) | exact Hc8].
Qed.

(** The block leaves its list; what stays listed lies outside the block. *)
Lemma fb_unlink :
  ∃ st1, deletefree st bp = Ok st1 ∧
         lists_ok st1 (L_del (list_num csize) bp L) ∧
         same_regs st st1 ∧
         (∀ j m, 0 <= j < numlists →
                 List.In m (L_del (list_num csize) bp L j) →
                 List.In m (L j) ∧ (m + 8 <= bp - 4 ∨ bp + csize - 4 <= m)) ∧
         frame (λ a, untouched st L a ∧ (a < bp - 4 ∨ bp + csize - 4 <= a)) st st1.
Proof.
  destruct fb_bounds as (Hs & _ & _ & E & Hsz).
  pose proof (fb_lists _ _ _ _ FB) as Hok.
  pose proof (fb_listed _ _ _ _ FB) as Hin.
  destruct (deletefree_then_fresh st L bp csize Hok Hin Hsz) as (st1 & D & Ok1 & Fr & F).
  exists st1. split; [exact D |]. split; [exact Ok1 |]. split; [apply F |].
  split.
  - intros j m Hj Hm. pose proof (L_del_sub _ _ _ _ _ Hm) as [Hm' _].
    split; [exact Hm' |].
    destruct (fb_others _ _ _ _ FB j m Hj Hm') as [-> | H]; [| exact H].
    exfalso. exact (Fr j Hj Hm).
  - eapply frame_weaken; [| exact F]. cbv beta. tauto.
Qed.

(** [place] when the remainder is too small to stand alone: the whole block
    is marked allocated. *)
Lemma place_whole :
  csize - asize < 16 →
  ∃ st', place st bp asize = Ok (st', bp) ∧
         GET st' (bp - 4) = Ok (csize + 1) ∧
         GET st' (bp + csize - 8) = Ok (csize + 1) ∧
         lists_ok st' (L_del (list_num csize) bp L) ∧
         frame (λ a, untouched st L a ∧ (a < bp - 4 ∨ bp + csize - 4 <= a)) st st'.
Proof.
  intros Hrem.
  destruct fb_bounds as (Hs & B1 & B2 & E & Hsz).
  pose proof (fb_low _ _ _ _ FB) as Hlo. pose proof (fb_high _ _ _ _ FB) as Hhi.
  pose proof (fb_size _ _ _ _ FB) as [Hc Hc8].
  destruct fb_unlink as (st1 & D & Ok1 & R1 & Cl & F1).
  set (L1 := L_del (list_num csize) bp L) in *.
  assert (Ep : PACK csize 1 = csize + 1) by (apply PACK_1; lia).
  assert (Ew : wrap (csize + 1) = csize + 1)
    by (apply wrap_small; change (2 ^ 32) with 4294967296 in *; lia).
  destruct (region_PUT st st1 L L1 (bp - 4) (bp + csize - 4) (bp - 4) (PACK csize 1))
    as (st2 & P2 & R2 & Ok2 & G2 & N2 & F2);
    [exact Hs | exact R1 | exact Ok1 | unfold numlists in *; lia | lia | lia | lia
    | intros j m Hj Hm; destruct (Cl j m Hj Hm) as [_ H]; lia | exact F1 |].
  assert (Hh2 : GET_SIZE st2 (HDRP bp) = Ok csize).
  { rewrite E. eapply GET_SIZE_PUT_eq; [exact P2 | | exact Hc8 | auto].
    change (2 ^ 32) with 4294967296 in *. lia. }
  assert (Ft2 : FTRP st2 bp = Ok (bp + csize - 8)).
  { rewrite (FTRP_val _ _ _ Hh2). f_equal. apply wrap_small. unfold DSIZE.
    change (2 ^ 32) with 4294967296 in *. lia. }
  destruct (region_PUT st st2 L L1 (bp - 4) (bp + csize - 4) (bp + csize - 8) (PACK csize 1))
    as (st3 & P3 & R3 & Ok3 & G3 & N3 & F3);
    [exact Hs | exact R2 | exact Ok2 | unfold numlists in *; lia | lia | lia | lia
    | intros j m Hj Hm; destruct (Cl j m Hj Hm) as [_ H]; lia | exact F2 |].
  exists st3. split.
  { unfold place. rd Hsz. rd D.
    assert (C : (wrap (csize - asize) >=? 2 * DSIZE) = false).
    { rewrite Z.geb_leb. apply Z.leb_gt. rewrite wrap_small; unfold DSIZE;
        change (2 ^ 32) with 4294967296 in *; lia. }
    rewrite C. rewrite <- E in P2. rd P2. rd Ft2. rd P3. reflexivity. }
  split; [rewrite N3 by lia; rewrite G2, Ep, Ew; reflexivity |].
  split; [rewrite G3, Ep, Ew; reflexivity |].
  split; [exact Ok3 | exact F3].
Qed.

(** [place] when at least 16 bytes are left over: the block is split, its
    first [asize] bytes are marked allocated, and the remainder becomes a
    free block at the head of the list of its class. *)
Lemma place_split :
  16 <= csize - asize →
  ∃ st', place st bp asize = Ok (st', bp) ∧
         GET st' (bp - 4) = Ok (asize + 1) ∧
         GET st' (bp + asize - 8) = Ok (asize + 1) ∧
         GET st' (bp + asize - 4) = Ok (csize - asize) ∧
         GET st' (bp + csize - 8) = Ok (csize - asize) ∧
         lists_ok st' (L_ins (list_num (csize - asize)) (bp + asize)
                         (L_del (list_num csize) bp L)) ∧
         frame (λ a, untouched st L a ∧ (a < bp - 4 ∨ bp + csize - 4 <= a)) st st'.
Proof.
  intros Hrem.
  destruct fb_bounds as (Hs & B1 & B2 & E & Hsz).
  pose proof Hs as (S1 & S2 & S3 & S4).
  pose proof (fb_low _ _ _ _ FB) as Hlo. pose proof (fb_high _ _ _ _ FB) as Hhi.
  pose proof (fb_size _ _ _ _ FB) as [Hc Hc8].
  pose proof (fb_aligned _ _ _ _ FB) as Hal.
  destruct fb_unlink as (st1 & D & Ok1 & R1 & Cl & F1).
  set (L1 := L_del (list_num csize) bp L) in *.
  set (rem := csize - asize) in *.
  assert (Hr8 : rem mod 8 = 0) by (subst rem; lia).
  assert (Ep : PACK asize 1 = asize + 1) by (apply PACK_1; lia).
  assert (Ew : wrap (asize + 1) = asize + 1)
    by (apply wrap_small; change (2 ^ 32) with 4294967296 in *; lia).
  assert (Er : wrap rem = rem)
    by (apply wrap_small; change (2 ^ 32) with 4294967296 in *; lia).
  assert (Clear : ∀ t, bp - 4 <= t → t + 4 <= bp + csize - 4 →
            ∀ j m, 0 <= j < numlists → List.In m (L1 j) → m + 8 <= t ∨ t + 4 <= m).
  { intros t T1 T2 j m Hj Hm. destruct (Cl j m Hj Hm) as [_ H]. lia. }
  (* header and footer of the allocated part *)
  destruct (region_PUT st st1 L L1 (bp - 4) (bp + csize - 4) (bp - 4) (PACK asize 1))
    as (st2 & P2 & R2 & Ok2 & G2 & N2 & F2);
    [exact Hs | exact R1 | exact Ok1 | unfold numlists in *; lia | lia | lia | lia
    | apply Clear; lia | exact F1 |].
  assert (Hh2 : GET_SIZE st2 (HDRP bp) = Ok asize).
  { rewrite E. eapply GET_SIZE_PUT_eq; [exact P2 | | exact Hmul | auto].
    change (2 ^ 32) with 4294967296 in *. lia. }
  assert (Ft2 : FTRP st2 bp = Ok (bp + asize - 8)).
  { rewrite (FTRP_val _ _ _ Hh2). f_equal. apply wrap_small. unfold DSIZE.
    change (2 ^ 32) with 4294967296 in *. lia. }
  destruct (region_PUT st st2 L L1 (bp - 4) (bp + csize - 4) (bp + asize - 8) (PACK asize 1))
    as (st3 & P3 & R3 & Ok3 & G3 & N3 & F3);
    [exact Hs | exact R2 | exact Ok2 | unfold numlists in *; lia | lia | lia | lia
    | apply Clear; lia | exact F2 |].
  assert (Hh3 : GET_SIZE st3 (HDRP bp) = Ok asize).
  { rewrite <- Hh2. apply GET_SIZE_same. rewrite E. apply N3. lia. }
  assert (Nx3 : NEXT_BLKP st3 bp = Ok (bp + asize)).
  { rewrite (NEXT_BLKP_val _ _ _ Hh3). f_equal. apply wrap_small.
    change (2 ^ 32) with 4294967296 in *. lia. }
  assert (Ef : HDRP (bp + asize) = bp + asize - 4).
  { unfold HDRP, WSIZE. apply wrap_small. change (2 ^ 32) with 4294967296 in *. lia. }
  (* header and footer of the remainder *)
  destruct (region_PUT st st3 L L1 (bp - 4) (bp + csize - 4) (bp + asize - 4) (PACK rem 0))
    as (st4 & P4 & R4 & Ok4 & G4 & N4 & F4);
    [exact Hs | exact R3 | exact Ok3 | unfold numlists in *; lia | lia | lia | lia
    | apply Clear; lia | exact F3 |].
  assert (Hh4 : GET_SIZE st4 (HDRP (bp + asize)) = Ok rem).
  { rewrite Ef. eapply GET_SIZE_PUT_eq; [exact P4 | | exact Hr8 | auto].
    change (2 ^ 32) with 4294967296 in *. lia. }
  assert (Ft4 : FTRP st4 (bp + asize) = Ok (bp + csize - 8)).
  { rewrite (FTRP_val _ _ _ Hh4). f_equal. unfold DSIZE.
    rewrite wrap_small; subst rem; change (2 ^ 32) with 4294967296 in *; lia. }
  destruct (region_PUT st st4 L L1 (bp - 4) (bp + csize - 4) (bp + csize - 8) (PACK rem 0))
    as (st5 & P5 & R5 & Ok5 & G5 & N5 & F5);
    [exact Hs | exact R4 | exact Ok4 | unfold numlists in *; lia | lia | lia | lia
    | apply Clear; lia | exact F4 |].
  (* the remainder enters its list *)
  assert (Pf : placed st5 (bp + asize)).
  { eapply placed_regs; [exact R5 |]. unfold placed, numlists in *. lia. }
  assert (Fr : ∀ j, 0 <= j < numlists → ¬ List.In (bp + asize) (L1 j)).
  { intros j Hj Hin. destruct (Cl j _ Hj Hin) as [_ H]. lia. }
  destruct (ADD_free_spec st5 L1 (bp + asize) rem _ Ok5 Pf Fr eq_refl)
    as (st6 & HA & Ok6 & F6).
  assert (Keep : ∀ t, bp - 4 <= t → t + 4 <= bp + csize - 4 →
                      t + 4 <= bp + asize ∨ bp + asize + 8 <= t →
                      GET st6 t = GET st5 t).
  { intros t T1 T2 T3. eapply untouched_GET; [exact F6 | |].
    - destruct R5 as (_ & _ & _ & _ & ->). unfold numlists in *. lia.
    - intros j m Hj Hin. unfold L_ins in Hin.
      assert (Hm : m = bp + asize ∨ List.In m (L1 j)).
      { destruct (j =? list_num rem); [destruct Hin; auto | auto]. }
      destruct Hm as [-> | Hm]; [lia |].
      specialize (Clear t T1 T2 j m Hj Hm). lia. }
  exists st6. split.
  { unfold place. rd Hsz. rd D. fold rem.
    assert (C : (wrap rem >=? 2 * DSIZE) = true).
    { rewrite Z.geb_leb. apply Z.leb_le. rewrite Er. unfold DSIZE. lia. }
    rewrite C. rewrite <- E in P2. rd P2. rd Ft2. rd P3. rd Nx3.
    rewrite Er. rewrite <- Ef in P4. rd P4. rd Ft4. rd P5. rd HA. reflexivity. }
  split.
  { rewrite Keep, N5, N4, N3 by lia. rewrite G2, Ep, Ew. reflexivity. }
  split.
  { rewrite Keep, N5, N4 by lia. rewrite G3, Ep, Ew. reflexivity. }
  split.
  { rewrite Keep, N5 by lia. rewrite G4, PACK_0, Er. reflexivity. }
  split.
  { rewrite Keep by lia. rewrite G5, PACK_0, Er. reflexivity. }
  split; [exact Ok6 |].
  eapply frame_weaken; [| eapply frame_trans; [exact F5 | exact F6]].
  cbv beta. intros a [Ha Hout]. split; [split; assumption |].
  destruct Ha as [Hd Hc']. split.
  - unfold in_directory in *. destruct R5 as (_ & _ & _ & _ & ->). exact Hd.
  - intros j m Hj Hin. unfold L_ins in Hin.
    assert (Hm : m = bp + asize ∨ List.In m (L1 j)).
    { destruct (j =? list_num rem); [destruct Hin; auto | auto]. }
    destruct Hm as [-> | Hm]; [unfold in_cells; lia |].
    apply (Hc' j m Hj). destruct (Cl j m Hj Hm) as [H _]. exact H.
Qed.

Lemma place_spec :
  ∃ st', place st bp asize = Ok (st', bp) ∧
         GET st' (bp - 4) = Ok (placed_size csize asize + 1) ∧
         GET st' (bp + placed_size csize asize - 8)
           = Ok (placed_size csize asize + 1) ∧
         (16 <= csize - asize →
          GET st' (bp + asize - 4) = Ok (csize - asize) ∧
          GET st' (bp + csize - 8) = Ok (csize - asize)) ∧
         lists_ok st' (placed_lists L bp csize asize) ∧
         frame (λ a, untouched st L a ∧ (a < bp - 4 ∨ bp + csize - 4 <= a)) st st'.
Proof.
  unfold placed_size, placed_lists. cbv zeta.
  destruct (Z.leb_spec 16 (csize - asize)) as [Hrem | Hrem].
  - destruct (place_split Hrem) as (st' & H1 & H2 & H3 & H4 & H5 & H6 & H7).
    exists st'. auto 10.
  - destruct (place_whole Hrem) as (st' & H1 & H2 & H3 & H4 & H5).
    exists st'. split; [exact H1 |]. split; [exact H2 |]. split; [exact H3 |].
    split; [intros C; lia |]. auto.
Qed.

End Place.

(** X9: [place(bp, asize)] on a listed free block of size [csize >= asize]
    returns [bp] and takes the block off its list.  When at least 16 bytes
    are left over it splits: the first [asize] bytes get an allocated header
    and footer, the remainder gets a free header and footer of size
    [csize - asize] and goes to the head of the list of its class.
    Otherwise the whole block is marked allocated.  Nothing outside the
    block, the directory and the link words of listed blocks is written. *)
Theorem place_splits_or_takes_whole st L bp csize asize :
  free_block st L bp csize → 16 <= asize <= csize → asize mod 8 = 0 →
  ∃ st', place st bp asize = Ok (st', bp) ∧
         GET st' (bp - 4) = Ok (placed_size csize asize + 1) ∧
         GET st' (bp + placed_size csize asize - 8)
           = Ok (placed_size csize asize + 1) ∧
         (16 <= csize - asize →
          GET st' (bp + asize - 4) = Ok (csize - asize) ∧
          GET st' (bp + csize - 8) = Ok (csize - asize)) ∧
         lists_ok st' (placed_lists L bp csize asize) ∧
         frame (λ a, untouched st L a ∧ (a < bp - 4 ∨ bp + csize - 4 <= a)) st st'.
Proof. exact (place_spec st L bp csize asize). Qed.

Lemma free_block_tight : free_block st_tight L_init 65600 32.
Proof.
  constructor.
  - exact lists_ok_tight.
  - reflexivity.
  - split; [lia | reflexivity].
  - vm_compute; reflexivity.
  - vm_compute; tauto.
  - zfact.
  - zfact.
  - intros j m Hj Hm. case_k j Hj; members Hm. left; reflexivity.
Qed.

Lemma place_splits_or_takes_whole_witness :
  free_block st_tight L_init 65600 32 ∧
  (∃ st', place st_tight 65600 16 = Ok (st', 65600) ∧
          GET st' (65600 - 4) = Ok (16 + 1) ∧
          GET st' (65600 + 16 - 4) = Ok 16 ∧
          lists_ok st' (placed_lists L_init 65600 32 16)) ∧
  (∃ st', place st_tight 65600 24 = Ok (st', 65600) ∧
          GET st' (65600 - 4) = Ok (32 + 1)).
Proof.
  split; [exact free_block_tight |]. split.
  - destruct (place_splits_or_takes_whole st_tight L_init 65600 32 16 free_block_tight
                ltac:(lia) ltac:(reflexivity)) as (st' & H1 & H2 & _ & H4 & H5 & _).
    exists st'. split; [exact H1 |]. split; [exact H2 |].
    split; [apply H4; lia | exact H5].
  - destruct (place_splits_or_takes_whole st_tight L_init 65600 32 24 free_block_tight
                ltac:(lia) ltac:(reflexivity)) as (st' & H1 & H2 & _).
    exists st'. split; [exact H1 | exact H2].
Defined.


(** ** Sequences of blocks *)

Section Blocks.

Lemma span_app l1 l2 : span (l1 ++ l2) = span l1 + span l2.
Proof. induction l1 as [| [s a] l1 IH]; simpl; lia. Qed.

Lemma blocks_from_app : ∀ l1 p l2,
  blocks_from p (l1 ++ l2) = blocks_from p l1 ++ blocks_from (p + span l1) l2.
Proof.
  induction l1 as [| [s a] l1 IH]; intros p l2; simpl.
  - rewrite Z.add_0_r. reflexivity.
  - rewrite IH. f_equal. f_equal. f_equal. lia.
Qed.

Lemma blocks_from_length : ∀ bl p, length (blocks_from p bl) = length bl.
Proof. induction bl as [| [s a] bl IH]; intros p; simpl; [| rewrite IH]; reflexivity. Qed.

Lemma tiles_app st : ∀ l1 p l2,
  tiles st p (l1 ++ l2) ↔ tiles st p l1 ∧ tiles st (p + span l1) l2.
Proof.
  induction l1 as [| [s a] l1 IH]; intros p l2; simpl.
  - rewrite Z.add_0_r. tauto.
  - rewrite IH. replace (p + s + span l1) with (p + (s + span l1)) by lia. tauto.
Qed.

Lemma tiles_span st : ∀ bl p, tiles st p bl → 0 <= span bl.
Proof.
  induction bl as [| [s a] bl IH]; intros p H; simpl in *; [lia |].
  destruct H as (H16 & _ & _ & _ & _ & H). specialize (IH _ H). lia.
Qed.

Lemma tiles_In st : ∀ bl p m s a,
  tiles st p bl → List.In (m, (s, a)) (blocks_from p bl) →
  p <= m ∧ m + s <= p + span bl ∧ 16 <= s ∧ s mod 8 = 0 ∧ (a = 0 ∨ a = 1) ∧
  GET st (m - 4) = Ok (s + a) ∧ GET st (m + s - 8) = Ok (s + a) ∧
  (p mod 8 = 0 → m mod 8 = 0).
Proof.
  induction bl as [| [s0 a0] bl IH]; intros p m s a H Hin; simpl in *; [contradiction |].
  destruct H as (H16 & H8 & Ha & Hh & Hf & H).
  pose proof (tiles_span _ _ _ H) as Hsp.
  destruct Hin as [E | Hin].
  - injection E as <- <- <-. split_and!; try assumption; try lia; tauto.
  - destruct (IH _ _ _ _ H Hin) as (I1 & I2 & I3 & I4 & I5 & I6 & I7 & I8).
    split_and!; try assumption; try lia; intros Hp; apply I8; lia.
Qed.

Lemma blocks_In_split : ∀ bl p m s a,
  List.In (m, (s, a)) (blocks_from p bl) →
  ∃ l1 l2, bl = l1 ++ (s, a) :: l2 ∧ m = p + span l1.
Proof.
  induction bl as [| [s0 a0] bl IH]; intros p m s a Hin; simpl in *; [contradiction |].
  destruct Hin as [E | Hin].
  - injection E as <- <- <-. exists [], bl. simpl. split; [reflexivity | lia].
  - destruct (IH _ _ _ _ Hin) as (l1 & l2 & -> & ->).
    exists ((s0, a0) :: l1), l2. simpl. split; [reflexivity | lia].
Qed.

Lemma blocks_In_middle p l1 s a l2 :
  List.In (p + span l1, (s, a)) (blocks_from p (l1 ++ (s, a) :: l2)).
Proof. rewrite blocks_from_app. apply in_or_app. right. simpl. auto. Qed.

Lemma blocks_apart st : ∀ bl p m s a m' s' a',
  tiles st p bl →
  List.In (m, (s, a)) (blocks_from p bl) → List.In (m', (s', a')) (blocks_from p bl) →
  (m = m' ∧ s = s' ∧ a = a') ∨ m + s <= m' ∨ m' + s' <= m.
Proof.
  induction bl as [| [s0 a0] bl IH]; intros p m s a m' s' a' H Hx Hy; simpl in *;
    [contradiction |].
  destruct H as (H16 & H8 & Ha & Hh & Hf & H).
  destruct Hx as [Ex | Hx], Hy as [Ey | Hy].
  - injection Ex as <- <- <-. injection Ey as <- <- <-. left. auto.
  - injection Ex as <- <- <-. destruct (tiles_In _ _ _ _ _ _ H Hy) as (I1 & _). right. left. lia.
  - injection Ey as <- <- <-. destruct (tiles_In _ _ _ _ _ _ H Hx) as (I1 & _). right. right. lia.
  - eapply IH; eassumption.
Qed.

Lemma tiles_frame st st' : ∀ bl p,
  tiles st p bl →
  (∀ m s a, List.In (m, (s, a)) (blocks_from p bl) →
            GET st' (m - 4) = GET st (m - 4) ∧ GET st' (m + s - 8) = GET st (m + s - 8)) →
  tiles st' p bl.
Proof.
  induction bl as [| [s a] bl IH]; intros p H Hg; simpl in *; [exact I |].
  destruct H as (H16 & H8 & Ha & Hh & Hf & H).
  destruct (Hg p s a (or_introl eq_refl)) as [G1 G2].
  split_and!; try assumption; [rewrite G1; exact Hh | rewrite G2; exact Hf |].
  apply IH; [exact H |]. intros m s' a' Hin. apply (Hg m s' a'). right. exact Hin.
Qed.

(** Reading a boundary tag. *)
Lemma tag_reads st t s a :
  GET st t = Ok (s + a) → 0 <= s → s mod 8 = 0 → a = 0 ∨ a = 1 →
  GET_SIZE st t = Ok s ∧ GET_ALLOC st t = Ok a.
Proof.
  intros G Hs H8 Ha. unfold GET_SIZE, GET_ALLOC. rewrite G. cbn [mbind res_bind].
  rewrite land_lnot_7, land_1. split; f_equal; destruct Ha as [-> | ->]; lia.
Qed.

End Blocks.

(** ** Consequences of the heap invariant *)

Section Shape.

Variables (st : state) (L : Z → list Z) (bl : list (Z * Z)).
Hypothesis HK : heap_shape st L bl.

Lemma hs_layout :
  sane st ∧ first_block st = freelist_p st + 64 ∧ first_block st mod 8 = 0 ∧
  0 <= span bl ∧ mem_brk st < 2 ^ 32 ∧ 0 < freelist_p st.
Proof.
  pose proof (lo_sane _ _ (hs_lists _ _ _ HK)) as Hs. pose proof Hs as (S1 & S2 & S3 & S4).
  pose proof (hs_aligned _ _ _ HK) as Hal. pose proof (hs_listp _ _ _ HK) as Hl.
  pose proof (hs_room _ _ _ HK) as Hr.
  pose proof (tiles_span _ _ _ (hs_tiles _ _ _ HK)) as Hsp.
  unfold first_block, numlists in *. split_and!; try assumption; lia.
Qed.

Lemma hs_block m s a :
  List.In (m, (s, a)) (heap_blocks st bl) →
  first_block st <= m ∧ m + s <= mem_brk st ∧ 16 <= s ∧ s mod 8 = 0 ∧
  (a = 0 ∨ a = 1) ∧ GET st (m - 4) = Ok (s + a) ∧ GET st (m + s - 8) = Ok (s + a) ∧
  m mod 8 = 0.
Proof.
  intros Hin. destruct hs_layout as (_ & _ & Hb8 & _).
  destruct (tiles_In _ _ _ _ _ _ (hs_tiles _ _ _ HK) Hin) as (I1 & I2 & I3 & I4 & I5 & I6 & I7 & I8).
  rewrite (hs_brk _ _ _ HK). split_and!; auto.
Qed.

(** A word above the directory that is in no free block's link words is
    clear. *)
Lemma hs_clear t :
  freelist_p st + 4 * numlists <= t →
  (∀ m s, List.In (m, (s, 0)) (heap_blocks st bl) → t + 4 <= m ∨ m + 8 <= t) →
  clear_word st L t.
Proof.
  intros Ht Hb. split; [exact Ht |]. intros j m Hj Hin.
  destruct (hs_free _ _ _ HK j m Hj Hin) as [s Hs]. exact (Hb m s Hs).
Qed.

(** The boundary tags of every block are clear. *)
Lemma hs_tags_clear m s a :
  List.In (m, (s, a)) (heap_blocks st bl) →
  clear_word st L (m - 4) ∧ clear_word st L (m + s - 8).
Proof.
  intros Hin. destruct hs_layout as (_ & Hfb & _).
  destruct (hs_block _ _ _ Hin) as (B1 & B2 & B3 & _).
  unfold numlists in *.
  split; apply hs_clear; try (unfold numlists; lia); intros m' s' Hin';
    destruct (hs_block _ _ _ Hin') as (B1' & B2' & B3' & _);
    destruct (blocks_apart _ _ _ _ _ _ _ _ _ (hs_tiles _ _ _ HK) Hin Hin')
      as [(-> & -> & ->) | [H | H]]; lia.
Qed.

(** So are the prologue's tags and the epilogue header. *)
Lemma hs_ends_clear :
  clear_word st L (heap_listp st - 4) ∧ clear_word st L (heap_listp st) ∧
  clear_word st L (mem_brk st - 4).
Proof.
  destruct hs_layout as (_ & Hfb & _ & Hsp & _).
  pose proof (hs_brk _ _ _ HK) as Hbrk.
  unfold first_block, numlists in *.
  split_and!; apply hs_clear; try (unfold numlists; lia); intros m' s' Hin';
    destruct (hs_block _ _ _ Hin') as (B1' & B2' & B3' & _);
    unfold first_block in *; lia.
Qed.

(** The payload of an allocated block holds no byte of the directory and no
    link word. *)
Lemma hs_payload_untouched q t a :
  List.In (q, (t, 1)) (heap_blocks st bl) → q <= a < q + t - 8 → untouched st L a.
Proof.
  intros Hin Ha. destruct hs_layout as (_ & Hfb & _).
  destruct (hs_block _ _ _ Hin) as (B1 & B2 & B3 & _).
  split.
  - unfold in_directory, numlists. lia.
  - intros k b Hk Hb. destruct (hs_free _ _ _ HK k b Hk Hb) as [s Hs].
    destruct (hs_block _ _ _ Hs) as (B1' & B2' & B3' & _).
    unfold in_cells.
    destruct (blocks_apart _ _ _ _ _ _ _ _ _ (hs_tiles _ _ _ HK) Hin Hs)
      as [(_ & _ & C) | [H | H]]; [discriminate C | lia | lia].
Qed.

(** No list is longer than the heap has blocks. *)
Lemma hs_list_length k : 0 <= k < numlists → (length (L k) <= length bl)%nat.
Proof.
  intros Hk.
  rewrite <- (blocks_from_length bl (first_block st)).
  rewrite <- (List.length_map fst (blocks_from (first_block st) bl)).
  apply List.NoDup_incl_length; [apply (lo_nodup _ _ (hs_lists _ _ _ HK)); exact Hk |].
  intros m Hm. destruct (hs_free _ _ _ HK k m Hk Hm) as [s Hs].
  apply (List.in_map fst) in Hs. exact Hs.
Qed.

End Shape.

Lemma heap_ok_shape st L bl : heap_ok st L bl → heap_shape st L bl.
Proof. intros [H1 H2 H3 H4 H5 H6 H7 H8 _ H10]. constructor; assumption. Qed.

Lemma heap_pending_shape st L l1 s l2 :
  heap_pending st L l1 s l2 → heap_shape st L (l1 ++ (s, 0) :: l2).
Proof.
  intros [H1 H2 H3 H4 H5 H6 H7 H8 _ H10]. constructor; try assumption.
  intros k m Hk Hm. destruct (H10 k m Hk Hm) as (s' & Hs & _). eauto.
Qed.

Section Heap.

Variables (st : state) (L : Z → list Z) (bl : list (Z * Z)).
Hypothesis HK : heap_ok st L bl.


Lemma hk_listed_block k m :
  0 <= k < numlists → List.In m (L k) →
  ∃ s, List.In (m, (s, 0)) (heap_blocks st bl) ∧ list_num s = k.
Proof.
  intros Hk Hin. destruct (hk_free _ _ _ HK k m Hk Hin) as [s Hs]. exists s.
  split; [exact Hs |].
  apply (lo_disjoint _ _ (hk_lists _ _ _ HK) _ _ m (list_num_range s) Hk);
    [apply (hk_listed _ _ _ HK); exact Hs | exact Hin].
Qed.


(** A listed block is a free block in the sense of [place]. *)
Lemma hk_free_block m s :
  List.In (m, (s, 0)) (heap_blocks st bl) → free_block st L m s.
Proof.
  intros Hin. destruct (hs_layout _ _ _ (heap_ok_shape _ _ _ HK)) as (_ & Hfb & _).
  destruct (hs_block _ _ _ (heap_ok_shape _ _ _ HK) _ _ _ Hin) as (B1 & B2 & B3 & B4 & _ & B6 & _ & B8).
  pose proof (hk_room _ _ _ HK) as Hr.
  constructor.
  - apply (hk_lists _ _ _ HK).
  - exact B8.
  - split; assumption.
  - rewrite Z.add_0_r in B6. exact B6.
  - apply (hk_listed _ _ _ HK). exact Hin.
  - unfold numlists. lia.
  - lia.
  - intros j m' Hj Hin'. destruct (hk_free _ _ _ HK j m' Hj Hin') as [s' Hs'].
    destruct (hs_block _ _ _ (heap_ok_shape _ _ _ HK) _ _ _ Hs') as (B1' & B2' & B3' & _).
    destruct (blocks_apart _ _ _ _ _ _ _ _ _ (hk_tiles _ _ _ HK) Hin Hs')
      as [(-> & _) | [H | H]]; [left; reflexivity | lia | lia].
Qed.

End Heap.


(** ** The neighbours of a block *)

Section Neighbours.

Lemma tiles_span8 st : ∀ bl p, tiles st p bl → span bl mod 8 = 0.
Proof.
  induction bl as [| [s a] bl IH]; intros p H; simpl in *; [reflexivity |].
  destruct H as (_ & H8 & _ & _ & _ & H). specialize (IH _ H). lia.
Qed.

Lemma free_part_span a sz : span (free_part a sz) = if a =? 0 then sz else 0.
Proof. unfold free_part. destruct (a =? 0); simpl; lia. Qed.

Lemma free_part_In p a sz x :
  List.In x (blocks_from p (free_part a sz)) ↔ a = 0 ∧ x = (p, (sz, 0)).
Proof.
  unfold free_part. destruct (Z.eqb_spec a 0) as [-> | Hne]; simpl.
  - split; [intros [<- | []]; auto | intros [_ ->]; auto].
  - split; [contradiction | tauto].
Qed.

Lemma last_free_nil : ¬ last_free [].
Proof. intros (s & l' & E). destruct l'; discriminate E. Qed.

Lemma last_free_snoc l s a : last_free (l ++ [(s, a)]) → a = 0.
Proof.
  intros (s' & l' & E). apply app_inj_tail in E as [_ E]. congruence.
Qed.

(** What lies before a position of the tiling: the prologue, or the last
    block before it; a free one takes part in a merge. *)
Lemma prev_cases st p l1 :
  tiles st p l1 → GET st (p - 12) = Ok 9 → GET st (p - 8) = Ok 9 →
  ∃ psz pa l1',
    8 <= psz ∧ psz mod 8 = 0 ∧ (pa = 0 ∨ pa = 1) ∧
    GET st (p + span l1 - 8) = Ok (psz + pa) ∧
    GET st (p + span l1 - psz - 4) = Ok (psz + pa) ∧
    p - 8 <= p + span l1 - psz ∧
    l1 = l1' ++ free_part pa psz ∧
    (pa = 0 → 16 <= psz) ∧ (pa = 1 → ¬ last_free l1').
Proof.
  intros T Gh Gf. revert T.
  induction l1 as [| [s0 a0] l0 _] using List.rev_ind; intros T.
  - exists 8, 1, []. simpl. rewrite Z.add_0_r.
    replace (p - 8 - 4) with (p - 12) by lia.
    split_and!; auto; try lia. intros _. exact last_free_nil.
  - apply tiles_app in T as [T0 T1]. simpl in T1.
    destruct T1 as (H16 & H8 & Ha & Hh & Hf & _).
    pose proof (tiles_span _ _ _ T0) as Hsp.
    rewrite span_app. simpl. rewrite Z.add_0_r.
    assert (E1 : p + (span l0 + s0) - 8 = p + span l0 + s0 - 8) by lia.
    assert (E2 : p + (span l0 + s0) - s0 - 4 = p + span l0 - 4) by lia.
    destruct Ha as [-> | ->].
    + exists s0, 0, l0. unfold free_part. simpl. rewrite E1, E2.
      split_and!; auto; lia.
    + exists s0, 1, (l0 ++ [(s0, 1)]). unfold free_part. simpl. rewrite app_nil_r.
      rewrite E1, E2. split_and!; auto; try lia.
      intros _ C. apply last_free_snoc in C. discriminate C.
Qed.

(** What lies after: the epilogue, or the first block after it. *)
Lemma next_cases st q l2 :
  tiles st q l2 → GET st (q + span l2 - 4) = Ok 1 →
  ∃ nsz na l2',
    0 <= nsz ∧ nsz mod 8 = 0 ∧ (na = 0 ∨ na = 1) ∧
    GET st (q - 4) = Ok (nsz + na) ∧
    l2 = free_part na nsz ++ l2' ∧
    (na = 0 → 16 <= nsz ∧ GET st (q + nsz - 8) = Ok nsz) ∧
    (na = 1 → ¬ head_free l2').
Proof.
  intros T Ge. destruct l2 as [| [s1 a1] l2].
  - simpl in Ge. rewrite Z.add_0_r in Ge. exists 0, 1, []. unfold free_part. simpl.
    split_and!; auto; try lia.
    intros _ (s & l' & C). discriminate C.
  - simpl in T. destruct T as (H16 & H8 & Ha & Hh & Hf & _).
    destruct Ha as [-> | ->].
    + exists s1, 0, l2. unfold free_part. simpl.
      rewrite Z.add_0_r in Hf. split_and!; auto; lia.
    + exists s1, 1, ((s1, 1) :: l2). unfold free_part. simpl.
      split_and!; auto; try lia.
      intros _ (s & l' & C). discriminate C.
Qed.

(** Adjacent free blocks and concatenation. *)
Lemma naf_app : ∀ l1 l2,
  no_adjacent_free (l1 ++ l2) ↔
  no_adjacent_free l1 ∧ no_adjacent_free l2 ∧ ¬ (last_free l1 ∧ head_free l2).
Proof.
  induction l1 as [| [s a] l1 IH]; intros l2.
  - simpl. split; [| tauto]. intros H. split_and!; auto.
    intros [C _]. exact (last_free_nil C).
  - change (((s, a) :: l1) ++ l2) with ((s, a) :: (l1 ++ l2)).
    cbn [no_adjacent_free]. rewrite IH.
    destruct l1 as [| [s' a'] l1].
    + simpl. split.
      * intros (H1 & _ & H2 & _). split_and!; auto.
        intros [(s0 & l' & E) (s1 & l'' & ->)].
        destruct l' as [| x l']; [| destruct l'; discriminate E].
        injection E as -> ->. apply H1. auto.
      * intros (_ & H2 & H3). split_and!; auto.
        -- destruct l2 as [| [s1 a1] l2]; [exact I |]. intros [-> ->].
           apply H3. split; [exists s, []; reflexivity | exists s1, l2; reflexivity].
        -- intros [C _]. exact (last_free_nil C).
    + cbn [app no_adjacent_free]. split.
      * intros (H1 & (H2 & H3) & H4 & H5). split_and!; auto.
        intros [(s0 & l' & E) Hh]. apply H5. split; [| exact Hh].
        destruct l' as [| x l']; [discriminate E |].
        injection E as _ E. exists s0, l'. exact E.
      * intros ((H1 & H2 & H3) & H4 & H5). split_and!; auto.
        intros [(s0 & l' & E) Hh]. apply H5. split; [| exact Hh].
        exists s0, ((s, a) :: l'). simpl. rewrite <- E. reflexivity.
Qed.

End Neighbours.

(** ** Coalescing restores the heap invariant *)

Section MergeLists.

(** The blocks before and after a merge. *)
Lemma blocks_before_merge base l1' pre s post l2' x :
  List.In x (blocks_from base ((l1' ++ pre) ++ (s, 0) :: post ++ l2')) ↔
  List.In x (blocks_from base l1') ∨
  List.In x (blocks_from (base + span l1') pre) ∨
  x = (base + span l1' + span pre, (s, 0)) ∨
  List.In x (blocks_from (base + span l1' + span pre + s) post) ∨
  List.In x (blocks_from (base + span l1' + span pre + s + span post) l2').
Proof.
  rewrite !blocks_from_app, !in_app_iff. simpl. rewrite blocks_from_app, in_app_iff.
  rewrite span_app.
  replace (base + (span l1' + span pre)) with (base + span l1' + span pre) by lia.
  intuition congruence.
Qed.

Lemma blocks_after_merge base l1' tot l2' x :
  List.In x (blocks_from base (l1' ++ (tot, 0) :: l2')) ↔
  List.In x (blocks_from base l1') ∨ x = (base + span l1', (tot, 0)) ∨
  List.In x (blocks_from (base + span l1' + tot) l2').
Proof.
  rewrite blocks_from_app, in_app_iff. simpl. intuition congruence.
Qed.

(** The members of the lists after a merge. *)
Lemma merged_lists_In_inv st L bp sz psz pa nsz na j m :
  lists_ok st L →
  (pa = 0 → List.In (bp - psz) (L (list_num psz))) →
  (na = 0 → List.In (bp + sz) (L (list_num nsz))) →
  0 <= j < numlists →
  List.In m (merged_lists L bp sz psz pa nsz na j) →
  m = merged_start bp psz pa ∨
  (List.In m (L j) ∧ ¬ (pa = 0 ∧ m = bp - psz) ∧ ¬ (na = 0 ∧ m = bp + sz)).
Proof.
  intros Hok Hp Hn Hj Hin. unfold merged_lists in Hin. cbv zeta in Hin.
  unfold L_ins in Hin.
  assert (Hin' : m = merged_start bp psz pa ∨
                 List.In m ((if na =? 0
                             then L_del (list_num nsz) (bp + sz)
                                    (if pa =? 0 then L_del (list_num psz) (bp - psz) L else L)
                             else if pa =? 0 then L_del (list_num psz) (bp - psz) L else L) j)).
  { destruct (j =? _); [destruct Hin; auto | auto]. }
  clear Hin. destruct Hin' as [-> | Hin]; [left; reflexivity | right].
  assert (D : ∀ x k, List.In x (L k) → 0 <= k < numlists → List.In x (L j) → j = k).
  { intros x k Hx Hk Hx'. eapply (lo_disjoint _ _ Hok); eassumption. }
  destruct (Z.eqb_spec na 0) as [En | En], (Z.eqb_spec pa 0) as [Ep | Ep].
  - apply L_del_sub in Hin as [Hin N1]. apply L_del_sub in Hin as [Hin N2].
    split; [exact Hin |]. split.
    + intros [_ ->]. apply N2; [| reflexivity].
      exact (D _ _ (Hp Ep) (list_num_range _) Hin).
    + intros [_ ->]. apply N1; [| reflexivity].
      exact (D _ _ (Hn En) (list_num_range _) Hin).
  - apply L_del_sub in Hin as [Hin N1].
    split; [exact Hin |]. split; [tauto |].
    intros [_ ->]. apply N1; [| reflexivity].
    exact (D _ _ (Hn En) (list_num_range _) Hin).
  - apply L_del_sub in Hin as [Hin N2].
    split; [exact Hin |]. split; [| tauto].
    intros [_ ->]. apply N2; [| reflexivity].
    exact (D _ _ (Hp Ep) (list_num_range _) Hin).
  - tauto.
Qed.

Lemma merged_lists_In L bp sz psz pa nsz na j m :
  List.In m (L j) → ¬ (pa = 0 ∧ m = bp - psz) → ¬ (na = 0 ∧ m = bp + sz) →
  List.In m (merged_lists L bp sz psz pa nsz na j).
Proof.
  intros Hin Np Nn. unfold merged_lists. cbv zeta.
  assert (H1 : List.In m ((if pa =? 0 then L_del (list_num psz) (bp - psz) L else L) j)).
  { destruct (Z.eqb_spec pa 0); [apply L_del_keeps; [exact Hin | tauto] | exact Hin]. }
  assert (H2 : List.In m ((if na =? 0
                           then L_del (list_num nsz) (bp + sz)
                                  (if pa =? 0 then L_del (list_num psz) (bp - psz) L else L)
                           else if pa =? 0 then L_del (list_num psz) (bp - psz) L else L) j)).
  { destruct (Z.eqb_spec na 0); [apply L_del_keeps; [exact H1 | tauto] | exact H1]. }
  unfold L_ins. destruct (j =? _); [right |]; exact H2.
Qed.

Lemma merged_lists_In_start L bp sz psz pa nsz na :
  List.In (merged_start bp psz pa)
    (merged_lists L bp sz psz pa nsz na (list_num (merged_size sz psz pa nsz na))).
Proof. unfold merged_lists. cbv zeta. rewrite L_ins_same. left. reflexivity. Qed.

(** Reading through a frame. *)
Lemma clear_untouched st L t a :
  clear_word st L t → t <= a < t + 4 → untouched st L a.
Proof.
  intros [Hd Hm] Ha. split.
  - unfold in_directory. lia.
  - intros j m Hj Hin. specialize (Hm j m Hj Hin). unfold in_cells. lia.
Qed.

Lemma frame_clear_GET st st' L lo hi t :
  frame (λ a, untouched st L a ∧ (a < lo ∨ hi <= a)) st st' →
  clear_word st L t → t + 4 <= lo ∨ hi <= t →
  GET st' t = GET st t.
Proof.
  intros F Hc Ht. apply (frame_GET_word _ _ _ _ F). intros a Ha.
  split; [eapply clear_untouched; eassumption | lia].
Qed.

End MergeLists.

Section Pending.

Variables (st : state) (L : Z → list Z) (l1 : list (Z * Z)) (s : Z) (l2 : list (Z * Z)).
Hypothesis HP : heap_pending st L l1 s l2.

Lemma hp_parts :
  sane st ∧ first_block st = freelist_p st + 64 ∧ first_block st mod 8 = 0 ∧
  0 <= span l1 ∧ span l1 mod 8 = 0 ∧ 0 <= span l2 ∧ 16 <= s ∧ s mod 8 = 0 ∧
  mem_brk st = first_block st + span l1 + s + span l2 ∧
  mem_brk st <= mem_max_addr st ∧
  tiles st (first_block st) l1 ∧ tiles st (first_block st + span l1 + s) l2 ∧
  GET st (first_block st + span l1 - 4) = Ok s ∧
  GET st (first_block st + span l1 + s - 8) = Ok s.
Proof.
  pose proof (heap_pending_shape _ _ _ _ _ HP) as HS.
  destruct (hs_layout _ _ _ HS) as (Hs & Hfb & Hb8 & _).
  pose proof (hp_tiles _ _ _ _ _ HP) as T. apply tiles_app in T as [T1 T2].
  simpl in T2. destruct T2 as (H16 & H8 & _ & Hh & Hf & T2).
  rewrite Z.add_0_r in Hh, Hf.
  pose proof (hp_brk _ _ _ _ _ HP) as Hbrk. rewrite span_app in Hbrk. simpl in Hbrk.
  split_and!; try assumption.
  - eapply tiles_span; exact T1.
  - eapply tiles_span8; exact T1.
  - eapply tiles_span; exact T2.
  - lia.
  - apply (hp_room _ _ _ _ _ HP).
Qed.

(** The block in the middle, in the situation [coalesce] expects. *)
Lemma pending_just_freed :
  ∃ psz pa l1' nsz na l2',
    l1 = l1' ++ free_part pa psz ∧ l2 = free_part na nsz ++ l2' ∧
    (pa = 1 → ¬ last_free l1') ∧ (na = 1 → ¬ head_free l2') ∧
    just_freed st L (first_block st + span l1) s psz pa nsz na.
Proof.
  pose proof (heap_pending_shape _ _ _ _ _ HP) as HS.
  destruct hp_parts as (Hs & Hfb & Hb8 & Sp1 & Sp8 & Sp2 & H16 & H8 & Hbrk & Hroom
                        & T1 & T2 & Gh & Gf).
  pose proof (hp_prologue _ _ _ _ _ HP) as [Ph Pf].
  pose proof (hp_epilogue _ _ _ _ _ HP) as Ge.
  pose proof (hp_tiles _ _ _ _ _ HP) as T.
  set (base := first_block st) in *. set (q := base + span l1) in *.
  assert (Eb : heap_listp st = base - 8) by (subst base; unfold first_block; lia).
  rewrite Eb in Ph, Pf. replace (base - 8 - 4) with (base - 12) in Ph by lia.
  destruct (prev_cases st base l1 T1 Ph Pf)
    as (psz & pa & l1' & P8 & Pm & Pa & Pft & Phd & Plo & El1 & P16 & Pnl).
  fold q in Pft, Phd, Plo.
  assert (Ge' : GET st (q + s + span l2 - 4) = Ok 1).
  { rewrite Hbrk in Ge. exact Ge. }
  destruct (next_cases st (q + s) l2 T2 Ge')
    as (nsz & na & l2' & N0 & Nm & Na & Nhd & El2 & Nfree & Nnh).
  exists psz, pa, l1', nsz, na, l2'.
  split; [exact El1 |]. split; [exact El2 |]. split; [exact Pnl |]. split; [exact Nnh |].
  destruct (tag_reads _ _ _ _ Pft ltac:(lia) Pm Pa) as [Rpf _].
  destruct (tag_reads _ _ _ _ Phd ltac:(lia) Pm Pa) as [Rps Rpa].
  destruct (tag_reads _ _ _ _ Nhd N0 Nm Na) as [Rns Rna].
  assert (Sp1' : span l1 = span l1' + (if pa =? 0 then psz else 0)).
  { rewrite El1 at 1. rewrite span_app, free_part_span. reflexivity. }
  assert (Sp2' : span l2 = (if na =? 0 then nsz else 0) + span l2').
  { rewrite El2 at 1. rewrite span_app, free_part_span. reflexivity. }
  assert (Sp2'' : 0 <= span l2').
  { rewrite El2 in T2. apply tiles_app in T2 as [_ T2]. eapply tiles_span; exact T2. }
  (* the pending block and the free neighbours as members of the tiling *)
  assert (Bq : List.In (q, (s, 0)) (blocks_from base (l1 ++ (s, 0) :: l2)))
    by apply blocks_In_middle.
  assert (Bp : pa = 0 → List.In (q - psz, (psz, 0)) (blocks_from base (l1 ++ (s, 0) :: l2))).
  { intros E. rewrite El1. unfold free_part. rewrite E. simpl.
    rewrite <- app_assoc. simpl.
    replace (q - psz) with (base + span l1').
    - apply blocks_In_middle.
    - rewrite E in Sp1'. simpl in Sp1'. subst q. lia. }
  assert (Bn : na = 0 → List.In (q + s, (nsz, 0)) (blocks_from base (l1 ++ (s, 0) :: l2))).
  { intros E. rewrite El2. unfold free_part. rewrite E. simpl.
    replace (l1 ++ (s, 0) :: (nsz, 0) :: l2') with ((l1 ++ [(s, 0)]) ++ (nsz, 0) :: l2')
      by (rewrite <- app_assoc; reflexivity).
    replace (q + s) with (base + span (l1 ++ [(s, 0)])).
    - apply blocks_In_middle.
    - rewrite span_app. simpl. subst q. lia. }
  constructor.
  - apply (hp_lists _ _ _ _ _ HP).
  - subst q. lia.
  - split; assumption.
  - replace (q - 4) with (base + span l1 - 4) by (subst q; lia). exact Gh.
  - exact Gf.
  - exact Rpf.
  - exact Rpa.
  - exact Rna.
  - intros E. split; [exact (P16 E) |]. split; [exact Rps |].
    apply (hp_listed _ _ _ _ _ HP); [exact (Bp E) |]. fold base q. lia.
  - intros E. destruct (Nfree E) as [N16 Nft].
    split; [exact N16 |]. split; [exact Rns |].
    split; [apply GET_SIZE_of_GET; assumption |].
    apply (hp_listed _ _ _ _ _ HP); [exact (Bn E) |]. fold base q. lia.
  - subst base. unfold numlists. lia.
  - destruct (na =? 0); lia.
  - intros j m Hj Hin.
    destruct (hp_free _ _ _ _ _ HP j m Hj Hin) as (s' & Hs' & Hne).
    fold base q in Hne. unfold heap_blocks in Hs'. fold base in Hs'.
    destruct (tiles_In _ _ _ _ _ _ T Hs') as (_ & _ & M16 & _).
    unfold merged_start, merged_size.
    destruct (blocks_apart _ _ _ _ _ _ _ _ _ T Hs' Bq) as [(C & _) | [Hlt | Hgt]];
      [contradiction | |].
    + destruct (Z.eqb_spec pa 0) as [E | E].
      * destruct (blocks_apart _ _ _ _ _ _ _ _ _ T Hs' (Bp E)) as [(C & _) | [H | H]];
          [left; auto | right; right; left; lia | lia].
      * right. right. left. lia.
    + destruct (Z.eqb_spec na 0) as [E | E].
      * destruct (blocks_apart _ _ _ _ _ _ _ _ _ T Hs' (Bn E)) as [(C & _) | [H | H]];
          [right; left; auto | lia | right; right; right; destruct (pa =? 0); lia].
      * right. right. right. destruct (pa =? 0); lia.
Qed.

(** [coalesce] on the block in the middle restores the invariant: the
    merged block is free and listed, the allocated blocks keep their place
    and their payload, and no block becomes allocated. *)
Lemma coalesce_pending :
  ∃ st' L' bl' r tot,
    coalesce st (first_block st + span l1) = Ok (st', r) ∧
    heap_ok st' L' bl' ∧ same_regs st st' ∧
    List.In (r, (tot, 0)) (heap_blocks st' bl') ∧
    r <= first_block st + span l1 ∧ first_block st + span l1 + s <= r + tot ∧
    (∀ q t, List.In (q, (t, 1)) (heap_blocks st (l1 ++ (s, 0) :: l2)) →
            List.In (q, (t, 1)) (heap_blocks st' bl') ∧
            ∀ a, q <= a < q + t - 8 → raw_at st' a = raw_at st a) ∧
    (∀ q t, List.In (q, (t, 1)) (heap_blocks st' bl') →
            List.In (q, (t, 1)) (heap_blocks st (l1 ++ (s, 0) :: l2))) ∧
    (no_adjacent_free l1 → no_adjacent_free l2 → no_adjacent_free bl').
Proof.
  pose proof (heap_pending_shape _ _ _ _ _ HP) as HS.
  destruct hp_parts as (Hs & Hfb & Hb8 & Sp1 & Sp8 & Sp2 & H16 & H8 & Hbrk & Hroom
                        & T1 & T2 & _ & _).
  pose proof (hp_tiles _ _ _ _ _ HP) as T.
  destruct pending_just_freed as (psz & pa & l1' & nsz & na & l2' & El1 & El2 & Pnl & Nnh & JF).
  destruct (coalesce_spec _ _ _ _ _ _ _ _ JF) as (st' & Hc & Hco).
  destruct (merged_block_placed _ _ _ _ _ _ _ _ JF) as (_ & Htot & Htot8 & _).
  destruct (jf_bits _ _ _ _ _ _ _ _ JF) as [Pa Na].
  destruct (jf_bounds _ _ _ _ _ _ _ _ JF) as (_ & Hpsz & _ & Hnb & Hpb).
  unfold coalesced in Hco. cbv zeta in Hco.
  destruct Hco as (_ & Hok' & Gh' & Gf' & F).
  pose proof F as [R _]. pose proof R as (R1 & R2 & R3 & R4 & R5).
  set (base := first_block st) in *. set (q := base + span l1) in *.
  set (pre := free_part pa psz) in *. set (post := free_part na nsz) in *.
  assert (Spre : span pre = if pa =? 0 then psz else 0) by apply free_part_span.
  assert (Spost : span post = if na =? 0 then nsz else 0) by apply free_part_span.
  assert (Er : merged_start q psz pa = base + span l1').
  { unfold merged_start. subst q. rewrite El1, span_app, Spre. destruct (pa =? 0); lia. }
  assert (Et : merged_size s psz pa nsz na = span pre + s + span post).
  { unfold merged_size. rewrite Spre, Spost. reflexivity. }
  rewrite Er in Hc, Gh', Gf', F. rewrite Et in Gh', Gf', F, Htot, Htot8.
  set (r := base + span l1') in *. set (tot := span pre + s + span post) in *.
  assert (Sq : q = r + span pre) by (subst q r; rewrite El1, span_app; lia).
  assert (Spre0 : 0 <= span pre) by (rewrite Spre; destruct (pa =? 0); lia).
  assert (Spost0 : 0 <= span post).
  { rewrite Spost. destruct (Z.eqb_spec na 0) as [E |]; [specialize (Hnb E) |]; lia. }
  assert (Ebl : l1 ++ (s, 0) :: l2 = (l1' ++ pre) ++ (s, 0) :: post ++ l2').
  { rewrite El1, El2. reflexivity. }
  assert (Fb' : first_block st' = base) by (unfold first_block; rewrite R4; reflexivity).
  assert (M0 : ∀ x, List.In x (blocks_from base (l1 ++ (s, 0) :: l2)) ↔
                    List.In x (blocks_from base l1') ∨ List.In x (blocks_from r pre) ∨
                    x = (q, (s, 0)) ∨ List.In x (blocks_from (q + s) post) ∨
                    List.In x (blocks_from (r + tot) l2')).
  { intros x. rewrite Ebl, blocks_before_merge. fold r. rewrite <- Sq.
    replace (q + s + span post) with (r + tot) by (subst tot; lia). reflexivity. }
  assert (M1 : ∀ x, List.In x (blocks_from base (l1' ++ (tot, 0) :: l2')) ↔
                    List.In x (blocks_from base l1') ∨ x = (r, (tot, 0)) ∨
                    List.In x (blocks_from (r + tot) l2')).
  { intros x. apply blocks_after_merge. }
  assert (T' : tiles st base l1' ∧ tiles st (r + tot) l2').
  { rewrite Ebl in T. apply tiles_app in T as [Ta Tb]. apply tiles_app in Ta as [Ta _].
    split; [exact Ta |]. simpl in Tb. destruct Tb as (_ & _ & _ & _ & _ & Tb).
    apply tiles_app in Tb as [_ Tb].
    replace (r + tot) with (base + span (l1' ++ pre) + s + span post); [exact Tb |].
    rewrite span_app. subst r tot. lia. }
  destruct T' as [Ta Tb].
  assert (Sl2' : 0 <= span l2') by (eapply tiles_span; exact Tb).
  assert (Sl1' : 0 <= span l1') by (eapply tiles_span; exact Ta).
  assert (Low : ∀ m s' a, List.In (m, (s', a)) (blocks_from base l1') →
                  List.In (m, (s', a)) (blocks_from base (l1 ++ (s, 0) :: l2)) ∧
                  base <= m ∧ m + s' <= r ∧ 16 <= s').
  { intros m s' a Hin. split; [apply M0; auto |].
    destruct (tiles_In _ _ _ _ _ _ Ta Hin) as (I1 & I2 & I3 & _). subst r. lia. }
  assert (High : ∀ m s' a, List.In (m, (s', a)) (blocks_from (r + tot) l2') →
                   List.In (m, (s', a)) (blocks_from base (l1 ++ (s, 0) :: l2)) ∧
                   r + tot <= m ∧ m + s' <= mem_brk st ∧ 16 <= s').
  { intros m s' a Hin. split; [apply M0; auto 10 |].
    destruct (tiles_In _ _ _ _ _ _ Tb Hin) as (I1 & I2 & I3 & _).
    split; [lia |]. split; [| lia]. rewrite Hbrk, El2, span_app. fold post. fold q. lia. }
  assert (Keep : ∀ t, clear_word st L t → t + 4 <= r - 4 ∨ r + tot - 4 <= t →
                      GET st' t = GET st t).
  { intros t Hcl Ht. eapply frame_clear_GET; eassumption. }
  assert (Tags : ∀ m s' a, List.In (m, (s', a)) (blocks_from base (l1 ++ (s, 0) :: l2)) →
                   clear_word st L (m - 4) ∧ clear_word st L (m + s' - 8)).
  { intros m s' a Hin. apply (hs_tags_clear _ _ _ HS _ _ a). exact Hin. }
  destruct (hs_ends_clear _ _ _ HS) as (Cph & Cpf & Cep).
  pose proof (hp_prologue _ _ _ _ _ HP) as [Ph Pf].
  pose proof (hp_epilogue _ _ _ _ _ HP) as Ge.
  assert (Hl : heap_listp st = base - 8) by (subst base; unfold first_block; lia).
  assert (Hbrk' : mem_brk st = r + tot + span l2').
  { rewrite Hbrk, El2, span_app. fold post. fold q. subst tot. lia. }
  exists st', (merged_lists L q s psz pa nsz na), (l1' ++ (tot, 0) :: l2'), r, tot.
  split; [exact Hc |].
  split.
  { constructor.
    - exact Hok'.
    - rewrite R5. apply (hp_aligned _ _ _ _ _ HP).
    - rewrite R4, R5. apply (hp_listp _ _ _ _ _ HP).
    - rewrite R4. split.
      + rewrite Keep; [exact Ph | exact Cph | rewrite Hl; subst r; lia].
      + rewrite Keep; [exact Pf | exact Cpf | rewrite Hl; subst r; lia].
    - rewrite Fb'. apply tiles_app. split.
      + eapply tiles_frame; [exact Ta |]. intros m s' a Hin.
        destruct (Low _ _ _ Hin) as (Hin0 & B1 & B2 & B3).
        destruct (Tags _ _ _ Hin0) as [C1 C2].
        split; apply Keep; try assumption; lia.
      + fold r. simpl. rewrite Z.add_0_r.
        split; [lia |]. split; [exact Htot8 |]. split; [auto |].
        split; [exact Gh' |]. split; [exact Gf' |].
        eapply tiles_frame; [exact Tb |]. intros m s' a Hin.
        destruct (High _ _ _ Hin) as (Hin0 & B1 & B2 & B3).
        destruct (Tags _ _ _ Hin0) as [C1 C2].
        split; apply Keep; try assumption; lia.
    - rewrite Fb', R2, Hbrk', span_app. simpl. subst r. lia.
    - rewrite R2, R3. exact Hroom.
    - rewrite R2. rewrite Keep; [exact Ge | exact Cep | lia].
    - intros m s' Hin. unfold heap_blocks in Hin. rewrite Fb' in Hin.
      apply M1 in Hin as [H | [E | H]].
      + destruct (Low _ _ _ H) as (Hin0 & B1 & B2 & B3).
        apply merged_lists_In.
        * apply (hp_listed _ _ _ _ _ HP); [exact Hin0 |]. fold base q. lia.
        * intros [E ->]. rewrite (proj2 (Z.eqb_eq pa 0) E) in Spre. lia.
        * intros [_ ->]. lia.
      + injection E as -> ->. rewrite <- Er, <- Et. apply merged_lists_In_start.
      + destruct (High _ _ _ H) as (Hin0 & B1 & B2 & B3).
        apply merged_lists_In.
        * apply (hp_listed _ _ _ _ _ HP); [exact Hin0 |]. fold base q. lia.
        * intros [_ ->]. lia.
        * intros [E ->]. rewrite (proj2 (Z.eqb_eq na 0) E) in Spost.
          specialize (Hnb E). subst tot. lia.
    - intros k m Hk Hin. unfold heap_blocks. rewrite Fb'.
      apply (merged_lists_In_inv st) in Hin;
        [| apply (hp_lists _ _ _ _ _ HP)
         | intros E; apply (jf_prev_free _ _ _ _ _ _ _ _ JF E)
         | intros E; apply (jf_next_free _ _ _ _ _ _ _ _ JF E)
         | exact Hk].
      destruct Hin as [E | (Hin & Np & Nn)].
      + exists tot. apply M1. right. left. rewrite E, Er. reflexivity.
      + destruct (hp_free _ _ _ _ _ HP k m Hk Hin) as (s0 & Hs0 & Hne).
        fold base q in Hne. unfold heap_blocks in Hs0. fold base in Hs0.
        exists s0. apply M1.
        apply M0 in Hs0 as [H | [H | [H | [H | H]]]].
        * left. exact H.
        * exfalso. apply free_part_In in H as [E H]. injection H as -> _.
          apply Np. split; [exact E |].
          rewrite (proj2 (Z.eqb_eq pa 0) E) in Spre. lia.
        * exfalso. injection H as -> _. apply Hne. reflexivity.
        * exfalso. apply free_part_In in H as [E H]. injection H as -> _.
          apply Nn. auto.
        * right. right. exact H. }
  split; [exact R |].
  split; [unfold heap_blocks; rewrite Fb'; apply M1; auto |].
  split; [lia |]. split; [subst tot; lia |].
  split.
  { intros q' t Hin. unfold heap_blocks in Hin |- *. fold base in Hin. rewrite Fb'.
    pose proof (hs_payload_untouched _ _ _ HS q' t) as Hun.
    unfold heap_blocks in Hun. fold base in Hun. specialize (λ a, Hun a Hin).
    apply M0 in Hin as [H | [H | [H | [H | H]]]].
    - destruct (Low _ _ _ H) as (_ & B1 & B2 & B3).
      split; [apply M1; auto |]. intros a Ha. apply F. split; [apply Hun; exact Ha | lia].
    - apply free_part_In in H as [_ H]. discriminate H.
    - discriminate H.
    - apply free_part_In in H as [_ H]. discriminate H.
    - destruct (High _ _ _ H) as (_ & B1 & B2 & B3).
      split; [apply M1; auto |]. intros a Ha. apply F. split; [apply Hun; exact Ha | lia]. }
  split.
  { intros q' t Hin. unfold heap_blocks in Hin |- *. fold base. rewrite Fb' in Hin.
    apply M1 in Hin as [H | [H | H]].
    - apply M0. auto.
    - discriminate H.
    - apply M0. auto 10. }
  intros N1 N2. apply naf_app.
  rewrite El1 in N1. rewrite El2 in N2.
  apply naf_app in N1 as (N1 & N1p & N1b). apply naf_app in N2 as (N2p & N2 & N2b).
  assert (Nl : ¬ last_free l1').
  { destruct Pa as [E | E]; [| exact (Pnl E)].
    intros C. apply N1b. split; [exact C |]. unfold pre, free_part. rewrite E. simpl.
    exists psz, []. reflexivity. }
  assert (Nh : ¬ head_free l2').
  { destruct Na as [E | E]; [| exact (Nnh E)].
    intros C. apply N2b. split; [| exact C]. unfold post, free_part. rewrite E. simpl.
    exists nsz, []. reflexivity. }
  split; [exact N1 |]. split; [| tauto].
  cbn [no_adjacent_free]. split; [| exact N2].
  destruct l2' as [| [s1 a1] l2']; [exact I |].
  intros [_ ->]. apply Nh. exists s1, l2'. reflexivity.
Qed.

End Pending.


(** ** [mm_free] keeps the heap invariant *)

Section FreeHeap.

(** Changing the tag of one block leaves the other blocks where they are. *)
Lemma blocks_replace_middle base l1 s a a' l2 x :
  List.In x (blocks_from base (l1 ++ (s, a) :: l2)) → fst x ≠ base + span l1 →
  List.In x (blocks_from base (l1 ++ (s, a') :: l2)).
Proof.
  rewrite !blocks_from_app, !in_app_iff. simpl.
  intros [H | [H | H]] Hne; auto. subst x. simpl in Hne. contradiction.
Qed.

Lemma span_replace_middle l1 s a a' l2 :
  span (l1 ++ (s, a') :: l2) = span (l1 ++ (s, a) :: l2).
Proof. rewrite !span_app. reflexivity. Qed.

Variables (st : state) (L : Z → list Z) (l1 : list (Z * Z)) (s : Z) (l2 : list (Z * Z)).
Hypothesis HK : heap_ok st L (l1 ++ (s, 1) :: l2).

(** The first statements of [mm_free] clear the allocation bit in both tags
    and leave the heap ready for [coalesce]. *)
Lemma mark_free_pending :
  ∃ st1, mark_free st (first_block st + span l1) = Ok st1 ∧
         heap_pending st1 L l1 s l2 ∧ same_regs st st1 ∧
         frame (λ a, untouched st L a ∧
                     (a < first_block st + span l1 - 4
                      ∨ first_block st + span l1 + s - 4 <= a)) st st1.
Proof.
  pose proof (heap_ok_shape _ _ _ HK) as HS.
  destruct (hs_layout _ _ _ HS) as (Hs & Hfb & Hb8 & Hsp & Hbrk32 & Hfl).
  pose proof Hs as (S1 & S2 & S3 & S4).
  pose proof (hk_tiles _ _ _ HK) as T.
  pose proof (hk_brk _ _ _ HK) as Hbrk. pose proof (hk_room _ _ _ HK) as Hroom.
  set (base := first_block st) in *. set (p := base + span l1) in *.
  assert (Bp : List.In (p, (s, 1)) (heap_blocks st (l1 ++ (s, 1) :: l2)))
    by apply blocks_In_middle.
  destruct (hs_block _ _ _ HS _ _ _ Bp) as (B1 & B2 & B3 & B4 & _ & Gh & Gf & B8).
  destruct (hs_tags_clear _ _ _ HS _ _ _ Bp) as [Ch Cf].
  assert (Eh : HDRP p = p - 4).
  { unfold HDRP, WSIZE. apply wrap_small. unfold numlists in *. lia. }
  destruct (tag_reads _ _ _ _ Gh ltac:(lia) B4 ltac:(auto)) as [Rs _].
  assert (Ft : FTRP st p = Ok (p + s - 8)).
  { rewrite <- Eh in Rs. rewrite (FTRP_val _ _ _ Rs). f_equal. apply wrap_small.
    unfold DSIZE, numlists in *. lia. }
  assert (Ew : wrap (PACK s 0) = s).
  { rewrite PACK_0. apply wrap_small. lia. }
  destruct (region_PUT st st L L (p - 4) (p + s - 4) (p + s - 8) (PACK s 0))
    as (st0 & P0 & R0 & Ok0 & G0 & N0 & F0);
    [exact Hs | apply same_regs_refl | apply (hk_lists _ _ _ HK)
    | unfold numlists in *; lia | lia | lia | lia
    | intros j m Hj Hm; destruct Cf as [_ C]; specialize (C j m Hj Hm); lia
    | apply frame_refl |].
  destruct (region_PUT st st0 L L (p - 4) (p + s - 4) (p - 4) (PACK s 0))
    as (st1 & P1 & R1 & Ok1 & G1 & N1 & F1);
    [exact Hs | exact R0 | exact Ok0
    | unfold numlists in *; lia | lia | lia | lia
    | intros j m Hj Hm; destruct Ch as [_ C]; specialize (C j m Hj Hm); lia
    | exact F0 |].
  rewrite Ew in G0, G1.
  assert (Same : ∀ t, t + 4 <= p - 4 ∨ p + s - 4 <= t → GET st1 t = GET st t).
  { intros t Ht. rewrite N1, N0 by lia. reflexivity. }
  pose proof R1 as (R11 & R12 & R13 & R14 & R15).
  assert (Fb1 : first_block st1 = base) by (unfold first_block; rewrite R14; reflexivity).
  pose proof (hk_prologue _ _ _ HK) as [Ph Pf].
  assert (Hl : heap_listp st = base - 8) by (subst base; unfold first_block; lia).
  exists st1. split.
  { unfold mark_free. rewrite <- Eh in Rs. rd Rs. rd Ft. rd P0. rewrite Eh. exact P1. }
  split; [| split; [exact R1 | exact F1]].
  apply tiles_app in T as [Ta Tb]. simpl in Tb.
  destruct Tb as (_ & _ & _ & _ & _ & Tb). fold p in Tb.
  constructor.
  - exact Ok1.
  - rewrite R15. apply (hk_aligned _ _ _ HK).
  - rewrite R14, R15. apply (hk_listp _ _ _ HK).
  - rewrite R14. rewrite !Same by (rewrite Hl; lia). auto.
  - rewrite Fb1. apply tiles_app. split.
    + eapply tiles_frame; [exact Ta |]. intros m s' a Hin.
      destruct (tiles_In _ _ _ _ _ _ Ta Hin) as (I1 & I2 & I3 & _).
      split; apply Same; lia.
    + fold p. simpl. rewrite Z.add_0_r.
      split; [lia |]. split; [exact B4 |]. split; [auto |].
      split; [exact G1 |]. split; [rewrite N1 by lia; exact G0 |].
      eapply tiles_frame; [exact Tb |]. intros m s' a Hin.
      destruct (tiles_In _ _ _ _ _ _ Tb Hin) as (I1 & I2 & I3 & _).
      split; apply Same; lia.
  - rewrite Fb1, R12, (span_replace_middle l1 s 1 0 l2). exact Hbrk.
  - rewrite R12, R13. exact Hroom.
  - rewrite R12. rewrite Same; [apply (hk_epilogue _ _ _ HK) | lia].
  - intros m s' Hin Hne. unfold heap_blocks in Hin. rewrite Fb1 in Hin, Hne.
    apply (hk_listed _ _ _ HK). unfold heap_blocks. fold base.
    eapply blocks_replace_middle; [exact Hin | exact Hne].
  - intros k m Hk Hin. rewrite Fb1. unfold heap_blocks. rewrite Fb1.
    destruct (hk_free _ _ _ HK k m Hk Hin) as [s' Hs'].
    assert (Hne : m ≠ base + span l1).
    { intros ->. unfold heap_blocks in Hs', Bp. fold base in Hs', Bp. fold p in Hs'.
      destruct (blocks_apart _ _ _ _ _ _ _ _ _ (hk_tiles _ _ _ HK) Hs' Bp)
        as [(_ & _ & C) | [H | H]]; [discriminate C | |];
        destruct (hs_block _ _ _ HS _ _ _ Hs') as (_ & _ & H16 & _); lia. }
    exists s'. split; [| exact Hne].
    eapply blocks_replace_middle; [exact Hs' | exact Hne].
Qed.

Lemma mm_free_heap :
  ∃ st' L' bl',
    mm_free st (first_block st + span l1) = Ok st' ∧
    heap_ok st' L' bl' ∧ same_regs st st' ∧
    keeps_others (first_block st + span l1) st (l1 ++ (s, 1) :: l2) st' bl' ∧
    (∀ q t, List.In (q, (t, 1)) (heap_blocks st' bl') →
            List.In (q, (t, 1)) (heap_blocks st (l1 ++ (s, 1) :: l2)) ∧
            q ≠ first_block st + span l1) ∧
    (∃ r tot, List.In (r, (tot, 0)) (heap_blocks st' bl') ∧
              r <= first_block st + span l1 ∧
              first_block st + span l1 + s <= r + tot) ∧
    (no_adjacent_free (l1 ++ (s, 1) :: l2) → no_adjacent_free bl').
Proof.
  pose proof (heap_ok_shape _ _ _ HK) as HS.
  destruct (hs_layout _ _ _ HS) as (Hs & Hfb & Hb8 & Hsp & Hbrk32 & Hfl).
  destruct mark_free_pending as (st1 & Hm & HP & R1 & F1).
  pose proof R1 as (_ & _ & _ & R14 & _).
  assert (Fb1 : first_block st1 = first_block st)
    by (unfold first_block; rewrite R14; reflexivity).
  destruct (coalesce_pending _ _ _ _ _ HP)
    as (st' & L' & bl' & r & tot & Hc & HK' & R' & Hin & Hr1 & Hr2 & Kept & Only & Naf).
  rewrite Fb1 in Hc, Hr1, Hr2.
  set (base := first_block st) in *. set (p := base + span l1) in *.
  assert (Bp : List.In (p, (s, 1)) (heap_blocks st (l1 ++ (s, 1) :: l2)))
    by apply blocks_In_middle.
  destruct (hs_block _ _ _ HS _ _ _ Bp) as (B1 & B2 & B3 & _).
  exists st', L', bl'. split.
  { rewrite mm_free_marks_then_coalesces.
    - rd Hm. rd Hc. reflexivity.
    - unfold NULL, numlists in *. lia. }
  split; [exact HK' |].
  split; [eapply same_regs_trans; eassumption |].
  split.
  { intros q t Hq Hne.
    assert (Hq0 : List.In (q, (t, 1)) (heap_blocks st1 (l1 ++ (s, 0) :: l2))).
    { unfold heap_blocks. rewrite Fb1.
      eapply blocks_replace_middle; [exact Hq | exact Hne]. }
    destruct (Kept q t Hq0) as [K1 K2]. split; [exact K1 |].
    intros a Ha. rewrite K2 by exact Ha. apply F1.
    split; [eapply hs_payload_untouched; eassumption |].
    destruct (hs_block _ _ _ HS _ _ _ Hq) as (_ & _ & Q3 & _).
    destruct (blocks_apart _ _ _ _ _ _ _ _ _ (hk_tiles _ _ _ HK) Hq Bp)
      as [(C & _) | [H | H]]; [contradiction | fold base p; lia | fold base p; lia]. }
  split.
  { intros q t Hq. specialize (Only q t Hq). unfold heap_blocks in Only.
    rewrite Fb1 in Only. fold base in Only.
    assert (Hne : q ≠ p).
    { intros ->. pose proof (hp_tiles _ _ _ _ _ HP) as T0. rewrite Fb1 in T0.
      fold base in T0.
      assert (Bq : List.In (p, (s, 0)) (blocks_from base (l1 ++ (s, 0) :: l2)))
        by apply blocks_In_middle.
      destruct (tiles_In _ _ _ _ _ _ T0 Only) as (_ & _ & Q3 & _).
      destruct (blocks_apart _ _ _ _ _ _ _ _ _ T0 Only Bq)
        as [(_ & _ & C) | [H | H]]; [discriminate C | lia | lia]. }
    split; [| exact Hne].
    eapply blocks_replace_middle; [exact Only | exact Hne]. }
  split; [exists r, tot; auto |].
  intros N. apply naf_app in N as (N1 & N2 & _). apply Naf; [exact N1 |].
  cbn [no_adjacent_free] in N2. tauto.
Qed.

End FreeHeap.


(** ** [extend_heap] keeps the heap invariant *)

Section ExtendHeapHeap.

(** Moving the break does not touch the lists. *)
Lemma lists_ok_set_brk st L b : lists_ok st L → lists_ok (set_brk st b) L.
Proof.
  intros Hok. pose proof (lo_sane _ _ Hok) as (S1 & S2 & S3 & S4).
  apply (lists_ok_below st _ L (mem_max_addr st) Hok); try reflexivity.
  - exact S4.
  - intros j m Hj Hm. destruct (lo_placed _ _ Hok j m Hj Hm) as (_ & _ & H). exact H.
Qed.

Variables (st : state) (L : Z → list Z) (bl : list (Z * Z)).
Hypothesis HK : heap_ok st L bl.
Variable words : Z.
Hypothesis Hwords : 16 <= wrap (WSIZE * (words + words mod 2)).

(** The three stores of [extend_heap] lay out a new block at the old break
    and leave the heap ready for [coalesce]. *)
Lemma extend_heap_pending :
  let bytes := wrap (WSIZE * (words + words mod 2)) in
  mem_brk st + bytes <= mem_max_addr st →
  ∃ st3, extend_heap st words = coalesce st3 (mem_brk st) ∧
         heap_pending st3 L bl bytes [] ∧
         heap_listp st3 = heap_listp st ∧ freelist_p st3 = freelist_p st ∧
         mem_start_brk st3 = mem_start_brk st ∧ mem_max_addr st3 = mem_max_addr st ∧
         mem_brk st3 = mem_brk st + bytes ∧
         ∀ a, untouched st L a → a < mem_brk st - 4 → raw_at st3 a = raw_at st a.
Proof.
  cbv zeta. intros Hfit.
  destruct (extend_heap_request_mult8 words) as [Hb Hb8].
  set (bytes := wrap (WSIZE * (words + words mod 2))) in *.
  pose proof (heap_ok_shape _ _ _ HK) as HS.
  destruct (hs_layout _ _ _ HS) as (Hs & Hfb & Hb8' & Hsp & Hbrk32 & Hfl).
  pose proof Hs as (S1 & S2 & S3 & S4).
  pose proof (hk_tiles _ _ _ HK) as T.
  pose proof (hk_brk _ _ _ HK) as Hbrk.
  pose proof (tiles_span8 _ _ _ T) as Hsp8.
  set (base := first_block st) in *. set (brk := mem_brk st) in *.
  set (stg := set_brk st (brk + bytes)).
  assert (Hsg : sane stg) by exact Hs.
  assert (Okg : lists_ok stg L) by (apply lists_ok_set_brk; apply (hk_lists _ _ _ HK)).
  assert (Cells : ∀ t, brk - 4 <= t → ∀ j m, 0 <= j < numlists → List.In m (L j) →
                        m + 8 <= t ∨ t + 4 <= m).
  { intros t Ht j m Hj Hm. destruct (hk_free _ _ _ HK j m Hj Hm) as [s' Hs'].
    destruct (hs_block _ _ _ HS _ _ _ Hs') as (_ & B2 & B3 & _). fold brk in B2. lia. }
  assert (Eh : HDRP brk = brk - 4).
  { unfold HDRP, WSIZE. apply wrap_small. unfold numlists in *. lia. }
  assert (Ew : wrap (PACK bytes 0) = bytes) by (rewrite PACK_0; apply wrap_small; exact Hb).
  destruct (region_PUT stg stg L L (brk - 4) (brk + bytes) (brk - 4) (PACK bytes 0))
    as (st1 & P1 & R1 & Ok1 & G1 & N1 & F1);
    [exact Hsg | apply same_regs_refl | exact Okg
    | simpl; unfold numlists in *; lia | simpl; lia | lia | lia
    | apply Cells; lia | apply frame_refl |].
  assert (Hh1 : GET_SIZE st1 (HDRP brk) = Ok bytes).
  { rewrite Eh. apply GET_SIZE_of_GET; [rewrite G1, Ew; reflexivity | exact Hb8]. }
  assert (Ft1 : FTRP st1 brk = Ok (brk + bytes - 8)).
  { rewrite (FTRP_val _ _ _ Hh1). f_equal. apply wrap_small.
    unfold DSIZE, numlists in *. lia. }
  destruct (region_PUT stg st1 L L (brk - 4) (brk + bytes) (brk + bytes - 8) (PACK bytes 0))
    as (st2 & P2 & R2 & Ok2 & G2 & N2 & F2);
    [exact Hsg | exact R1 | exact Ok1
    | simpl; unfold numlists in *; lia | simpl; lia | lia | lia
    | apply Cells; lia | exact F1 |].
  assert (Hh2 : GET_SIZE st2 (HDRP brk) = Ok bytes).
  { rewrite <- Hh1. apply GET_SIZE_same. rewrite Eh. apply N2. lia. }
  assert (Nx2 : NEXT_BLKP st2 brk = Ok (brk + bytes)).
  { rewrite (NEXT_BLKP_val _ _ _ Hh2). f_equal. apply wrap_small. lia. }
  assert (En : HDRP (brk + bytes) = brk + bytes - 4).
  { unfold HDRP, WSIZE. apply wrap_small. unfold numlists in *. lia. }
  destruct (region_PUT stg st2 L L (brk - 4) (brk + bytes) (brk + bytes - 4) (PACK 0 1))
    as (st3 & P3 & R3 & Ok3 & G3 & N3 & F3);
    [exact Hsg | exact R2 | exact Ok2
    | simpl; unfold numlists in *; lia | simpl; lia | lia | lia
    | apply Cells; lia | exact F2 |].
  assert (Same : ∀ t, t + 4 <= brk - 4 → GET st3 t = GET st t).
  { intros t Ht. rewrite N3, N2, N1 by lia. reflexivity. }
  pose proof R3 as (R31 & R32 & R33 & R34 & R35). simpl in R31, R32, R33, R34, R35.
  assert (Fb3 : first_block st3 = base) by (unfold first_block; rewrite R34; reflexivity).
  pose proof (hk_prologue _ _ _ HK) as [Ph Pf].
  assert (Hl : heap_listp st = base - 8) by (subst base; unfold first_block; lia).
  exists st3. split.
  { unfold extend_heap. rewrite extend_heap_request. fold bytes. unfold mem_sbrk.
    fold brk. destruct (Z.leb_spec (brk + bytes) (mem_max_addr st)) as [_ | C]; [| lia].
    fold stg.
    destruct (Z.eqb_spec brk SBRK_FAILED) as [C | _].
    { exfalso. unfold SBRK_FAILED in C. lia. }
    rewrite MAX_max, Z.max_l by lia.
    rewrite <- Eh in P1. rd P1. rd Ft1. rd P2. rd Nx2. rewrite <- En in P3. rd P3.
    reflexivity. }
  split.
  { constructor.
    - exact Ok3.
    - rewrite R35. apply (hk_aligned _ _ _ HK).
    - rewrite R34, R35. apply (hk_listp _ _ _ HK).
    - rewrite R34. rewrite !Same by (rewrite Hl, Hbrk; lia). auto.
    - rewrite Fb3. apply tiles_app. split.
      + eapply tiles_frame; [exact T |]. intros m s' a Hin.
        destruct (tiles_In _ _ _ _ _ _ T Hin) as (I1 & I2 & I3 & _).
        rewrite <- Hbrk in I2. split; apply Same; lia.
      + rewrite <- Hbrk. simpl. rewrite Z.add_0_r.
        split; [lia |]. split; [exact Hb8 |]. split; [auto |].
        split; [rewrite N3, N2 by lia; rewrite G1, Ew; reflexivity |].
        split; [rewrite N3 by lia; rewrite G2, Ew; reflexivity | exact I].
    - rewrite Fb3, R32, span_app. simpl. lia.
    - rewrite R32, R33. exact Hfit.
    - rewrite R32. replace (brk + bytes - 4) with (brk + bytes - 4) by lia.
      rewrite G3. reflexivity.
    - intros m s' Hin Hne. unfold heap_blocks in Hin. rewrite Fb3 in Hin, Hne.
      apply (hk_listed _ _ _ HK). unfold heap_blocks. fold base.
      rewrite blocks_from_app in Hin. apply in_app_or in Hin as [H | H]; [exact H |].
      simpl in H. destruct H as [H | []]. injection H as <- _. contradiction.
    - intros k m Hk Hin. rewrite Fb3. unfold heap_blocks. rewrite Fb3.
      destruct (hk_free _ _ _ HK k m Hk Hin) as [s' Hs'].
      destruct (hs_block _ _ _ HS _ _ _ Hs') as (_ & B2 & B3 & _). fold brk in B2.
      exists s'. split; [| lia].
      rewrite blocks_from_app. apply in_or_app. left. exact Hs'. }
  split_and!; try assumption.
  intros a Hun Ha. apply F3. split; [exact Hun | lia].
Qed.

(** [extend_heap] either is refused by the provider and changes nothing, or
    grows the heap by the requested bytes and leaves a free block of at
    least that size at its end. *)
Lemma extend_heap_heap :
  let bytes := wrap (WSIZE * (words + words mod 2)) in
  (mem_max_addr st < mem_brk st + bytes ∧ extend_heap st words = Ok (st, NULL)) ∨
  (mem_brk st + bytes <= mem_max_addr st ∧
   ∃ st' L' bl' r tot,
     extend_heap st words = Ok (st', r) ∧ heap_ok st' L' bl' ∧
     heap_listp st' = heap_listp st ∧ freelist_p st' = freelist_p st ∧
     mem_start_brk st' = mem_start_brk st ∧ mem_max_addr st' = mem_max_addr st ∧
     mem_brk st' = mem_brk st + bytes ∧
     List.In (r, (tot, 0)) (heap_blocks st' bl') ∧ bytes <= tot ∧
     r + tot = mem_brk st' ∧
     keeps_allocated st bl st' bl' ∧
     (∀ q t, List.In (q, (t, 1)) (heap_blocks st' bl') →
             List.In (q, (t, 1)) (heap_blocks st bl)) ∧
     (no_adjacent_free bl → no_adjacent_free bl')).
Proof.
  cbv zeta.
  set (bytes := wrap (WSIZE * (words + words mod 2))) in *.
  destruct (Z.leb_spec (mem_brk st + bytes) (mem_max_addr st)) as [Hfit | Hno].
  2:{ left. split; [exact Hno |]. unfold extend_heap. rewrite extend_heap_request.
      fold bytes. unfold mem_sbrk.
      destruct (Z.leb_spec (mem_brk st + bytes) (mem_max_addr st)); [lia |].
      rewrite Z.eqb_refl. reflexivity. }
  right. split; [exact Hfit |].
  pose proof (heap_ok_shape _ _ _ HK) as HS.
  pose proof (hk_brk _ _ _ HK) as Hbrk.
  destruct (extend_heap_pending Hfit) as (st3 & He & HP & R4 & R5 & R1 & R3 & R2 & Fr).
  fold bytes in HP, R2.
  assert (Fb3 : first_block st3 = first_block st)
    by (unfold first_block; rewrite R4; reflexivity).
  destruct (coalesce_pending _ _ _ _ _ HP)
    as (st' & L' & bl' & r & tot & Hc & HK' & R' & Hin & Hr1 & Hr2 & Kept & Only & Naf).
  rewrite Fb3, <- Hbrk in Hc, Hr1, Hr2.
  pose proof R' as (R1' & R2' & R3' & R4' & R5').
  exists st', L', bl', r, tot.
  split; [rewrite He; exact Hc |]. split; [exact HK' |].
  split; [congruence |]. split; [congruence |]. split; [congruence |].
  split; [congruence |]. split; [congruence |].
  split; [exact Hin |]. split; [lia |].
  split.
  { destruct (hs_block _ _ _ (heap_ok_shape _ _ _ HK') _ _ _ Hin) as (_ & B2 & _).
    rewrite R2', R2 in B2 |- *. lia. }
  split.
  { intros q t Hq.
    assert (Hq3 : List.In (q, (t, 1)) (heap_blocks st3 (bl ++ [(bytes, 0)]))).
    { unfold heap_blocks. rewrite Fb3, blocks_from_app. apply in_or_app. left. exact Hq. }
    destruct (Kept q t Hq3) as [K1 K2]. split; [exact K1 |].
    intros a Ha. rewrite K2 by exact Ha.
    destruct (hs_block _ _ _ HS _ _ _ Hq) as (_ & B2 & B3 & _).
    apply Fr; [eapply hs_payload_untouched; eassumption | lia]. }
  split.
  { intros q t Hq. specialize (Only q t Hq). unfold heap_blocks in Only |- *.
    rewrite Fb3, blocks_from_app in Only. apply in_app_or in Only as [H | H]; [exact H |].
    simpl in H. destruct H as [H | []]. discriminate H. }
  intros N. apply Naf; [exact N | exact I].
Qed.

End ExtendHeapHeap.


(** ** [mm_init] *)

Section Init.

Lemma tiles_span_zero st : ∀ bl p, tiles st p bl → span bl <= 0 → bl = [].
Proof.
  intros [| [s a] bl] p T H; [reflexivity | exfalso]. simpl in T, H.
  destruct T as (H16 & _ & _ & _ & _ & T). pose proof (tiles_span _ _ _ T). lia.
Qed.

(** The loop that clears the directory. *)
Lemma init_lists_spec n : ∀ st num,
  sane st → 0 <= num → num + Z.of_nat n = 12 →
  ∃ st', init_lists n st num = Ok st' ∧ same_regs st st' ∧
         (∀ k, num <= k < 12 → GETfreelistp st' k = Ok NULL) ∧
         (∀ k, 0 <= k < num → GETfreelistp st' k = GETfreelistp st k) ∧
         (∀ t, freelist_p st + 48 <= t → GET st' t = GET st t).
Proof.
  induction n as [| n IH]; intros st num Hs Hnum Hn.
  - exists st. simpl. split; [reflexivity |]. split; [apply same_regs_refl |].
    split; [intros k Hk; lia |]. auto.
  - cbn [init_lists]. unfold numlists at 1.
    destruct (Z.ltb_spec num 12) as [Hlt | C]; [| lia].
    assert (Hk : 0 <= num < numlists) by (unfold numlists; lia).
    destruct (SETfreelistp_Ok st num NULL Hs Hk) as [st1 H1].
    rd H1.
    pose proof H1 as P1. unfold SETfreelistp in P1.
    destruct (slot_addr _ _ Hs Hk) as [Ea _]. rewrite Ea in P1.
    pose proof (PUT_regs _ _ _ _ P1) as R1.
    destruct (IH st1 (num + 1) (sane_regs _ _ R1 Hs) ltac:(lia) ltac:(lia))
      as (st' & Hi & R' & Hz & Hlo & Hhi).
    exists st'. split; [exact Hi |].
    split; [eapply same_regs_trans; eassumption |].
    split; [| split].
    + intros k Hk'. destruct (Z.eq_dec k num) as [-> | Hne].
      * rewrite Hlo by lia. apply (SETfreelistp_get _ _ _ _ H1).
        unfold NULL. change (2 ^ 32) with 4294967296. lia.
      * apply Hz. lia.
    + intros k Hk'. rewrite Hlo by lia.
      apply (SETfreelistp_other st num NULL st1 k Hs Hk); [unfold numlists; lia | lia | exact H1].
    + intros t Ht. destruct R1 as (_ & _ & _ & _ & R15).
      rewrite Hhi by (rewrite R15; exact Ht).
      apply (GET_PUT_ne _ _ _ _ _ P1). lia.
Qed.

(** A heap without free blocks has well-formed lists as soon as every
    directory slot is null. *)
Lemma lists_ok_none st :
  sane st → (∀ k, 0 <= k < numlists → GETfreelistp st k = Ok NULL) →
  lists_ok st L_none.
Proof.
  intros Hs Hz. constructor.
  - exact Hs.
  - intros k Hk. exists NULL. split; [apply Hz; exact Hk | reflexivity].
  - intros k b _ [].
  - intros k _. constructor.
  - intros k k' b _ _ [].
Qed.

Variable st : state.
Hypothesis Hstart : 0 < mem_start_brk st <= mem_brk st.
Hypothesis Hal : mem_brk st mod 8 = 0.
Hypothesis Hmax : mem_max_addr st < 2 ^ 32.

(** Everything [mm_init] does before it extends the heap: the directory is
    cleared and the padding, the prologue and the epilogue are laid out. *)
Lemma mm_init_lays_out :
  mem_brk st + 64 <= mem_max_addr st →
  ∃ st8, mm_init st =
           ('(st', bp) ← extend_heap st8 (CHUNKS / WSIZE);
            if bp =? NULL then Ok (st', -1) else Ok (st', 0)) ∧
         heap_ok st8 L_none [] ∧
         freelist_p st8 = mem_brk st ∧ mem_brk st8 = mem_brk st + 64 ∧
         mem_start_brk st8 = mem_start_brk st ∧ mem_max_addr st8 = mem_max_addr st.
Proof.
  intros Hroom. set (b := mem_brk st) in *.
  set (st1 := set_freelist_p (set_brk st (b + 48)) b).
  assert (Hs1 : sane st1).
  { unfold sane, numlists. simpl. lia. }
  destruct (init_lists_spec 12 st1 0 Hs1 ltac:(lia) ltac:(reflexivity))
    as (st2 & Hi & R2 & Hz & _ & _).
  pose proof R2 as (R21 & R22 & R23 & R24 & R25). simpl in R21, R22, R23, R24, R25.
  set (st3 := set_heap_listp (set_brk st2 (b + 64)) (b + 48)).
  assert (Hs3 : sane st3).
  { unfold sane, numlists. simpl. rewrite R21, R23, R25. lia. }
  assert (Ok3 : lists_ok st3 L_none).
  { apply lists_ok_none; [exact Hs3 |]. intros k Hk. apply (Hz k). exact Hk. }
  assert (NoCells : ∀ t j m, 0 <= j < numlists → List.In m (L_none j) →
                             m + 8 <= t ∨ t + 4 <= m) by (intros t j m _ []).
  assert (Flp : freelist_p st3 = b) by exact R25.
  assert (Mx3 : mem_max_addr st3 = mem_max_addr st) by exact R23.
  destruct (region_PUT st3 st3 L_none L_none (b + 48) (b + 64) (b + 48) 0)
    as (st4 & P4 & R4 & Ok4 & G4 & N4 & F4);
    [exact Hs3 | apply same_regs_refl | exact Ok3
    | rewrite Flp; unfold numlists; lia | rewrite Mx3; lia | lia | lia
    | apply NoCells | apply frame_refl |].
  destruct (region_PUT st3 st4 L_none L_none (b + 48) (b + 64) (b + 52) (PACK DSIZE 1))
    as (st5 & P5 & R5 & Ok5 & G5 & N5 & F5);
    [exact Hs3 | exact R4 | exact Ok4
    | rewrite Flp; unfold numlists; lia | rewrite Mx3; lia | lia | lia
    | apply NoCells | exact F4 |].
  destruct (region_PUT st3 st5 L_none L_none (b + 48) (b + 64) (b + 56) (PACK DSIZE 1))
    as (st6 & P6 & R6 & Ok6 & G6 & N6 & F6);
    [exact Hs3 | exact R5 | exact Ok5
    | rewrite Flp; unfold numlists; lia | rewrite Mx3; lia | lia | lia
    | apply NoCells | exact F5 |].
  destruct (region_PUT st3 st6 L_none L_none (b + 48) (b + 64) (b + 60) (PACK 0 1))
    as (st7 & P7 & R7 & Ok7 & G7 & N7 & F7);
    [exact Hs3 | exact R6 | exact Ok6
    | rewrite Flp; unfold numlists; lia | rewrite Mx3; lia | lia | lia
    | apply NoCells | exact F6 |].
  pose proof R4 as (_ & _ & _ & R44 & _). pose proof R5 as (_ & _ & _ & R54 & _).
  pose proof R6 as (_ & _ & _ & R64 & _).
  pose proof R7 as (R71 & R72 & R73 & R74 & R75).
  simpl in R44, R54, R64, R71, R72, R73, R74, R75.
  assert (W1 : wrap (b + 48 + 1 * WSIZE) = b + 52) by (unfold WSIZE; rewrite wrap_small; lia).
  assert (W2 : wrap (b + 48 + 2 * WSIZE) = b + 56) by (unfold WSIZE; rewrite wrap_small; lia).
  assert (W3 : wrap (b + 48 + 3 * WSIZE) = b + 60) by (unfold WSIZE; rewrite wrap_small; lia).
  set (st8 := set_heap_listp st7 (b + 56)).
  exists st8. split.
  { unfold mm_init, mem_sbrk. fold b.
    destruct (Z.leb_spec (b + numlists * WSIZE) (mem_max_addr st)) as [_ | C];
      [| unfold numlists, WSIZE in C; lia].
    change (b + numlists * WSIZE) with (b + 48). fold st1. rd Hi.
    rewrite R22, R23.
    destruct (Z.leb_spec (b + 48 + 4 * WSIZE) (mem_max_addr st)) as [_ | C];
      [| unfold WSIZE in C; lia].
    replace (b + 48 + 4 * WSIZE) with (b + 64) by (unfold WSIZE; lia). fold st3.
    destruct (Z.eqb_spec (b + 48) SBRK_FAILED) as [C | _];
      [unfold SBRK_FAILED in C; lia |].
    change (heap_listp st3) with (b + 48). rd P4.
    rewrite R44, W1. rd P5. rewrite R54, W2. rd P6. rewrite R64, W3. rd P7.
    rewrite R74, W2. reflexivity. }
  assert (E9 : wrap (PACK DSIZE 1) = 9) by reflexivity.
  assert (E1 : wrap (PACK 0 1) = 1) by reflexivity.
  split.
  { constructor.
    - apply (lists_ok_below st7 st8 L_none (mem_max_addr st7) Ok7); try reflexivity.
      + destruct (lo_sane _ _ Ok7) as (_ & _ & _ & S4). exact S4.
      + intros j m _ [].
    - change (freelist_p st8) with (freelist_p st7). rewrite R75, R25. exact Hal.
    - change (freelist_p st8) with (freelist_p st7). rewrite R75, R25.
      unfold numlists. simpl. lia.
    - change (heap_listp st8) with (b + 56). split.
      + replace (b + 56 - 4) with (b + 52) by lia.
        change (GET st8 (b + 52)) with (GET st7 (b + 52)).
        rewrite N7, N6 by lia. rewrite G5, E9. reflexivity.
      + change (GET st8 (b + 56)) with (GET st7 (b + 56)).
        rewrite N7 by lia. rewrite G6, E9. reflexivity.
    - exact I.
    - change (mem_brk st8) with (mem_brk st7). rewrite R72. simpl.
      unfold first_block. simpl. lia.
    - change (mem_brk st8) with (mem_brk st7). change (mem_max_addr st8) with (mem_max_addr st7).
      rewrite R72, R73, R23. exact Hroom.
    - change (mem_brk st8) with (mem_brk st7). rewrite R72. simpl.
      replace (b + 64 - 4) with (b + 60) by lia.
      change (GET st8 (b + 60)) with (GET st7 (b + 60)). rewrite G7, E1. reflexivity.
    - intros m s [].
    - intros k m _ []. }
  split; [change (freelist_p st8) with (freelist_p st7); rewrite R75; exact R25 |].
  split; [change (mem_brk st8) with (mem_brk st7); rewrite R72; reflexivity |].
  split.
  - change (mem_start_brk st8) with (mem_start_brk st7). rewrite R71. exact R21.
  - change (mem_max_addr st8) with (mem_max_addr st7). rewrite R73. exact R23.
Qed.

Lemma mm_init_heap :
  mem_brk st + 96 <= mem_max_addr st →
  ∃ st' L', mm_init st = Ok (st', 0) ∧ heap_ok st' L' [(32, 0)] ∧
            freelist_p st' = mem_brk st ∧ mem_brk st' = mem_brk st + 96 ∧
            mem_start_brk st' = mem_start_brk st ∧
            mem_max_addr st' = mem_max_addr st.
Proof.
  intros Hroom.
  destruct (mm_init_lays_out ltac:(lia)) as (st8 & Hi & HK8 & E5 & E2 & E1 & E3).
  assert (Hw : 16 <= wrap (WSIZE * (CHUNKS / WSIZE + (CHUNKS / WSIZE) mod 2)))
    by (vm_compute; discriminate).
  destruct (extend_heap_heap st8 L_none [] HK8 (CHUNKS / WSIZE) Hw)
    as [[C _] | (_ & st' & L' & bl' & r & tot & He & HK' & R4 & R5 & R1 & R3 & R2
                 & Hin & Htot & Hend & _)].
  { exfalso. change (wrap (WSIZE * (CHUNKS / WSIZE + (CHUNKS / WSIZE) mod 2))) with 32 in C.
    lia. }
  change (wrap (WSIZE * (CHUNKS / WSIZE + (CHUNKS / WSIZE) mod 2))) with 32 in *.
  pose proof (heap_ok_shape _ _ _ HK') as HS'.
  destruct (hs_block _ _ _ HS' _ _ _ Hin) as (B1 & B2 & B3 & _).
  destruct (hs_layout _ _ _ HS') as (_ & Hfb & _).
  pose proof (hk_brk _ _ _ HK') as Hbrk'.
  pose proof (hk_tiles _ _ _ HK') as T'.
  assert (Ebl : bl' = [(32, 0)]).
  { unfold heap_blocks in Hin. destruct (blocks_In_split _ _ _ _ _ Hin) as (l1 & l2 & -> & Er).
    apply tiles_app in T' as [Ta Tb]. simpl in Tb.
    destruct Tb as (_ & _ & _ & _ & _ & Tb).
    pose proof (tiles_span _ _ _ Ta) as S1. pose proof (tiles_span _ _ _ Tb) as S2.
    rewrite span_app in Hbrk'. simpl in Hbrk'.
    rewrite (tiles_span_zero _ _ _ Ta) by lia.
    rewrite (tiles_span_zero _ _ _ Tb) by lia.
    simpl. f_equal. f_equal. lia. }
  subst bl'.
  exists st', L'. split.
  { rewrite Hi. rd He. destruct (Z.eqb_spec r NULL) as [C | _]; [| reflexivity].
    exfalso. unfold NULL in C. destruct (lo_sane _ _ (hk_lists _ _ _ HK')) as (S1 & _ & S3 & _).
    lia. }
  split; [exact HK' |]. split; [congruence |]. split; [lia |]. split; congruence.
Qed.

(** With room for the directory and the initial words but not for the first
    block, [mm_init] reports failure. *)
Lemma mm_init_no_room :
  mem_brk st + 48 <= mem_max_addr st < mem_brk st + 96 →
  ∃ st', mm_init st = Ok (st', -1).
Proof.
  intros [Hlo Hhi].
  destruct (Z.le_gt_cases (mem_brk st + 64) (mem_max_addr st)) as [H64 | H64].
  - destruct (mm_init_lays_out H64) as (st8 & Hi & HK8 & E5 & E2 & E1 & E3).
    assert (Hw : 16 <= wrap (WSIZE * (CHUNKS / WSIZE + (CHUNKS / WSIZE) mod 2)))
      by (vm_compute; discriminate).
    destruct (extend_heap_heap st8 L_none [] HK8 (CHUNKS / WSIZE) Hw)
      as [[_ He] | (C & _)].
    + exists st8. rewrite Hi. rd He. reflexivity.
    + exfalso.
      change (wrap (WSIZE * (CHUNKS / WSIZE + (CHUNKS / WSIZE) mod 2))) with 32 in C. lia.
  - set (b := mem_brk st) in *.
    set (st1 := set_freelist_p (set_brk st (b + 48)) b).
    assert (Hs1 : sane st1) by (unfold sane, numlists; simpl; lia).
    destruct (init_lists_spec 12 st1 0 Hs1 ltac:(lia) ltac:(reflexivity))
      as (st2 & Hi & R2 & _).
    pose proof R2 as (R21 & R22 & R23 & R24 & R25). simpl in R21, R22, R23, R24, R25.
    exists (set_heap_listp st2 SBRK_FAILED).
    unfold mm_init, mem_sbrk. fold b.
    destruct (Z.leb_spec (b + numlists * WSIZE) (mem_max_addr st)) as [_ | C];
      [| unfold numlists, WSIZE in C; lia].
    change (b + numlists * WSIZE) with (b + 48). fold st1. rd Hi.
    rewrite R22, R23.
    destruct (Z.leb_spec (b + 48 + 4 * WSIZE) (mem_max_addr st)) as [C | _];
      [unfold WSIZE in C; lia |].
    rewrite Z.eqb_refl. reflexivity.
Qed.

(** Without room for the directory the first request is refused, and
    [mm_init], which does not test that result, writes through the failure
    pointer. *)
Lemma mm_init_faults :
  mem_max_addr st < mem_brk st + 48 → mm_init st = Fault.
Proof.
  intros Hno. unfold mm_init, mem_sbrk.
  destruct (Z.leb_spec (mem_brk st + numlists * WSIZE) (mem_max_addr st)) as [C | _];
    [unfold numlists, WSIZE in C; lia |].
  change (init_lists 12 (set_freelist_p st SBRK_FAILED) 0)
    with (st1 ← SETfreelistp (set_freelist_p st SBRK_FAILED) 0 NULL;
          init_lists 11 st1 (0 + 1)).
  unfold SETfreelistp, PUT.
  assert (A : accessible (set_freelist_p st SBRK_FAILED)
                (freelist_slot (set_freelist_p st SBRK_FAILED) 0) 4 = false).
  { unfold accessible, freelist_slot. simpl.
    apply andb_false_iff. right. apply Z.leb_gt.
    pose proof Hmax as Hm. change (2 ^ 32) with 4294967296 in Hm.
    change (wrap (SBRK_FAILED + 4 * 0)) with 4294967295. lia. }
  rewrite A. reflexivity.
Qed.

End Init.


(** ** [mm_malloc] keeps the heap invariant *)

Section MallocHeap.

(** The search along a well-formed list whose members have readable
    headers. *)
Lemma find_fit_loop_dll st size : ∀ l pp h fuel,
  dllseg st pp h l NULL →
  (∀ m, List.In m l → ∃ sz, GET_SIZE st (HDRP m) = Ok sz) →
  (length l < fuel)%nat →
  ∃ r, find_fit_loop fuel st size h = Ok r ∧
       (r = NULL ∨ (List.In r l ∧ ∃ sz, GET_SIZE st (HDRP r) = Ok sz ∧ size <= sz)).
Proof.
  induction l as [| b l IH]; intros pp h fuel D Hr Hf.
  - simpl in D. subst h. destruct fuel; [simpl in Hf; lia |].
    exists NULL. simpl. auto.
  - simpl in D. destruct D as (-> & Hb & _ & n & Hn & D).
    destruct fuel as [| fuel]; [simpl in Hf; lia |]. simpl in Hf. simpl.
    destruct (Z.eqb_spec b NULL) as [| _]; [contradiction |].
    destruct (Hr b ltac:(left; reflexivity)) as [sz Hsz]. rd Hsz.
    destruct (Z.leb_spec size sz) as [Hle | Hgt].
    + exists b. split; [reflexivity |]. right. split; [left; reflexivity | eauto].
    + rd Hn. destruct (IH b n fuel D) as (r & Hl & Hres); [| lia |].
      * intros m Hm. apply Hr. right. exact Hm.
      * exists r. split; [exact Hl |]. destruct Hres as [-> | (Hin & Hsz')]; [auto |].
        right. split; [right; exact Hin | exact Hsz'].
Qed.

Lemma keeps_allocated_trans st1 bl1 st2 bl2 st3 bl3 :
  keeps_allocated st1 bl1 st2 bl2 → keeps_allocated st2 bl2 st3 bl3 →
  keeps_allocated st1 bl1 st3 bl3.
Proof.
  intros K1 K2 q t Hq. destruct (K1 q t Hq) as [H1 P1].
  destruct (K2 q t H1) as [H2 P2]. split; [exact H2 |].
  intros a Ha. rewrite P2, P1 by exact Ha. reflexivity.
Qed.

Variables (st : state) (L : Z → list Z) (bl : list (Z * Z)).
Hypothesis HK : heap_ok st L bl.

(** [find_fit] returns null or a free block that is large enough. *)
Lemma find_fit_heap fuel size :
  (length bl < fuel)%nat →
  ∃ r, find_fit fuel st size = Ok r ∧
       (r = NULL ∨ ∃ cs, List.In (r, (cs, 0)) (heap_blocks st bl) ∧ size <= cs).
Proof.
  intros Hf. pose proof (heap_ok_shape _ _ _ HK) as HS.
  destruct (hs_layout _ _ _ HS) as (Hs & Hfb & _ & _ & Hbrk32 & Hfl).
  pose proof (list_num_range size) as Hk.
  destruct (lo_heads _ _ (hk_lists _ _ _ HK) _ Hk) as (h & Eh & D).
  assert (Hd : ∀ m, List.In m (L (list_num size)) →
                    ∃ cs, List.In (m, (cs, 0)) (heap_blocks st bl) ∧
                          GET_SIZE st (HDRP m) = Ok cs).
  { intros m Hm. destruct (hk_free _ _ _ HK _ m Hk Hm) as [cs Hcs]. exists cs.
    split; [exact Hcs |].
    destruct (hs_block _ _ _ HS _ _ _ Hcs) as (B1 & B2 & B3 & B4 & B5 & B6 & _).
    assert (E : HDRP m = m - 4).
    { unfold HDRP, WSIZE. apply wrap_small. unfold numlists in *. lia. }
    rewrite E. apply (tag_reads _ _ _ _ B6); [lia | exact B4 | exact B5]. }
  destruct (find_fit_loop_dll st size (L (list_num size)) NULL h fuel D) as (r & Hl & Hres).
  - intros m Hm. destruct (Hd m Hm) as (cs & _ & H). eauto.
  - pose proof (hs_list_length _ _ _ HS _ Hk). lia.
  - exists r. split; [unfold find_fit; rd Eh; exact Hl |].
    destruct Hres as [-> | (Hin & sz & Hsz & Hle)]; [auto |].
    right. destruct (Hd r Hin) as (cs & Hcs & Hsz'). exists cs.
    split; [exact Hcs |]. congruence.
Qed.

End MallocHeap.

(** ** Rewriting a stretch of the heap *)

Section Replace.

Variables (st : state) (L : Z → list Z) (l1 old l2 : list (Z * Z)).
Variables (st' : state) (L' : Z → list Z) (mid : list (Z * Z)).
Hypothesis HK : heap_ok st L (l1 ++ old ++ l2).
Hypothesis Hspan : span mid = span old.
Hypothesis HF :
  frame (λ a, untouched st L a ∧
              (a < first_block st + span l1 - 4
               ∨ first_block st + span l1 + span old - 4 <= a)) st st'.
Hypothesis Hok' : lists_ok st' L'.
Hypothesis HT : tiles st' (first_block st + span l1) mid.
Hypothesis HL_listed :
  ∀ m s', List.In (m, (s', 0)) (blocks_from (first_block st + span l1) mid) →
          List.In m (L' (list_num s')).
Hypothesis HL_keep :
  ∀ k m, 0 <= k < numlists → List.In m (L k) →
         m < first_block st + span l1 ∨ first_block st + span l1 + span old <= m →
         List.In m (L' k).
Hypothesis HL_only :
  ∀ k m, 0 <= k < numlists → List.In m (L' k) →
         (∃ s', List.In (m, (s', 0)) (blocks_from (first_block st + span l1) mid)) ∨
         (List.In m (L k) ∧
          (m < first_block st + span l1 ∨ first_block st + span l1 + span old <= m)).

(** When the blocks [old] are rewritten into blocks [mid] of the same total
    size, with the lists updated to match and nothing else disturbed, the
    heap invariant holds again and the blocks around keep their payload. *)
Lemma heap_replace :
  heap_ok st' L' (l1 ++ mid ++ l2) ∧ same_regs st st' ∧
  (∀ x, List.In x (heap_blocks st' (l1 ++ mid ++ l2)) ↔
        List.In x (blocks_from (first_block st) l1) ∨
        List.In x (blocks_from (first_block st + span l1) mid) ∨
        List.In x (blocks_from (first_block st + span l1 + span old) l2)) ∧
  (∀ x, List.In x (heap_blocks st (l1 ++ old ++ l2)) ↔
        List.In x (blocks_from (first_block st) l1) ∨
        List.In x (blocks_from (first_block st + span l1) old) ∨
        List.In x (blocks_from (first_block st + span l1 + span old) l2)) ∧
  (∀ q t, List.In (q, (t, 1)) (blocks_from (first_block st) l1) ∨
          List.In (q, (t, 1)) (blocks_from (first_block st + span l1 + span old) l2) →
          ∀ a, q <= a < q + t - 8 → raw_at st' a = raw_at st a).
Proof.
  pose proof (heap_ok_shape _ _ _ HK) as HS.
  destruct (hs_layout _ _ _ HS) as (Hs & Hfb & Hb8 & Hsp & Hbrk32 & Hfl).
  pose proof (hk_tiles _ _ _ HK) as T. pose proof (hk_brk _ _ _ HK) as Hbrk.
  pose proof HF as [R _]. pose proof R as (R1 & R2 & R3 & R4 & R5).
  set (base := first_block st) in *. set (b := base + span l1) in *.
  assert (Fb' : first_block st' = base) by (unfold first_block; rewrite R4; reflexivity).
  apply tiles_app in T as [Ta Tb]. apply tiles_app in Tb as [To Tb]. fold b in To, Tb.
  pose proof (tiles_span _ _ _ Ta) as S1. pose proof (tiles_span _ _ _ To) as So.
  pose proof (tiles_span _ _ _ Tb) as S2.
  rewrite !span_app in Hbrk.
  assert (M0 : ∀ x, List.In x (heap_blocks st (l1 ++ old ++ l2)) ↔
                    List.In x (blocks_from base l1) ∨ List.In x (blocks_from b old) ∨
                    List.In x (blocks_from (b + span old) l2)).
  { intros x. unfold heap_blocks. fold base. rewrite !blocks_from_app, !in_app_iff.
    fold b. reflexivity. }
  assert (M1 : ∀ x, List.In x (heap_blocks st' (l1 ++ mid ++ l2)) ↔
                    List.In x (blocks_from base l1) ∨ List.In x (blocks_from b mid) ∨
                    List.In x (blocks_from (b + span old) l2)).
  { intros x. unfold heap_blocks. rewrite Fb', !blocks_from_app, !in_app_iff.
    fold b. rewrite Hspan. reflexivity. }
  assert (Low : ∀ m s a, List.In (m, (s, a)) (blocks_from base l1) →
                  List.In (m, (s, a)) (heap_blocks st (l1 ++ old ++ l2)) ∧
                  m + s <= b ∧ 16 <= s).
  { intros m s a Hin. split; [apply M0; auto |].
    destruct (tiles_In _ _ _ _ _ _ Ta Hin) as (_ & I2 & I3 & _). subst b. lia. }
  assert (High : ∀ m s a, List.In (m, (s, a)) (blocks_from (b + span old) l2) →
                   List.In (m, (s, a)) (heap_blocks st (l1 ++ old ++ l2)) ∧
                   b + span old <= m ∧ 16 <= s).
  { intros m s a Hin. split; [apply M0; auto |].
    destruct (tiles_In _ _ _ _ _ _ Tb Hin) as (I1 & _ & I3 & _). lia. }
  assert (Keep : ∀ t, clear_word st L t → t + 4 <= b - 4 ∨ b + span old - 4 <= t →
                      GET st' t = GET st t).
  { intros t Hcl Ht. eapply frame_clear_GET; eassumption. }
  destruct (hs_ends_clear _ _ _ HS) as (Cph & Cpf & Cep).
  pose proof (hk_prologue _ _ _ HK) as [Ph Pf].
  assert (Hl : heap_listp st = base - 8) by (subst base; unfold first_block; lia).
  split; [| split; [exact R | split; [exact M1 | split; [exact M0 |]]]].
  - constructor.
    + exact Hok'.
    + rewrite R5. apply (hk_aligned _ _ _ HK).
    + rewrite R4, R5. apply (hk_listp _ _ _ HK).
    + rewrite R4. split.
      * rewrite Keep; [exact Ph | exact Cph | rewrite Hl; subst b; lia].
      * rewrite Keep; [exact Pf | exact Cpf | rewrite Hl; subst b; lia].
    + rewrite Fb'. apply tiles_app. split; [| apply tiles_app; split].
      * eapply tiles_frame; [exact Ta |]. intros m s a Hin.
        destruct (Low _ _ _ Hin) as (Hin0 & B2 & B3).
        destruct (hs_tags_clear _ _ _ HS _ _ _ Hin0) as [C1 C2].
        split; apply Keep; try assumption; lia.
      * exact HT.
      * fold b. rewrite Hspan. eapply tiles_frame; [exact Tb |]. intros m s a Hin.
        destruct (High _ _ _ Hin) as (Hin0 & B2 & B3).
        destruct (hs_tags_clear _ _ _ HS _ _ _ Hin0) as [C1 C2].
        split; apply Keep; try assumption; lia.
    + rewrite Fb', R2, !span_app, Hspan. exact Hbrk.
    + rewrite R2, R3. apply (hk_room _ _ _ HK).
    + rewrite R2. rewrite Keep; [apply (hk_epilogue _ _ _ HK) | exact Cep |].
      right. fold base in Hbrk. subst b. lia.
    + intros m s Hin. apply M1 in Hin as [H | [H | H]].
      * destruct (Low _ _ _ H) as (Hin0 & B2 & B3).
        apply HL_keep; [apply list_num_range | | fold base b; lia].
        apply (hk_listed _ _ _ HK). exact Hin0.
      * apply HL_listed. exact H.
      * destruct (High _ _ _ H) as (Hin0 & B2 & B3).
        apply HL_keep; [apply list_num_range | | fold base b; lia].
        apply (hk_listed _ _ _ HK). exact Hin0.
    + intros k m Hk Hin.
      destruct (HL_only k m Hk Hin) as [[s' Hs'] | [HinL Hout]].
      * exists s'. apply M1. auto.
      * fold base b in Hout.
        destruct (hk_free _ _ _ HK k m Hk HinL) as [s' Hs']. exists s'.
        apply M1. apply M0 in Hs' as [H | [H | H]]; auto.
        exfalso. destruct (tiles_In _ _ _ _ _ _ To H) as (I1 & I2 & I3 & _). lia.
  - intros q t Hq a Ha. apply HF. fold base b.
    destruct Hq as [H | H].
    + destruct (Low _ _ _ H) as (Hin0 & B2 & B3).
      split; [eapply hs_payload_untouched; eassumption | lia].
    + destruct (High _ _ _ H) as (Hin0 & B2 & B3).
      split; [eapply hs_payload_untouched; eassumption | lia].
Qed.

End Replace.

(** ** [place] keeps the heap invariant *)

Section PlaceHeap.

Variables (st : state) (L : Z → list Z) (l1 : list (Z * Z)) (cs : Z) (l2 : list (Z * Z)).
Variable asize : Z.
Hypothesis HK : heap_ok st L (l1 ++ (cs, 0) :: l2).
Hypothesis Hfit : 16 <= asize <= cs.
Hypothesis Hmul : asize mod 8 = 0.

Lemma place_heap :
  ∃ st' L' bl' used,
    place st (first_block st + span l1) asize = Ok (st', first_block st + span l1) ∧
    heap_ok st' L' bl' ∧ same_regs st st' ∧
    List.In (first_block st + span l1, (used, 1)) (heap_blocks st' bl') ∧
    asize <= used <= cs ∧
    keeps_allocated st (l1 ++ (cs, 0) :: l2) st' bl' ∧
    allocates_only (first_block st + span l1) st (l1 ++ (cs, 0) :: l2) st' bl' ∧
    (∀ q t, List.In (q, (t, 1)) (heap_blocks st (l1 ++ (cs, 0) :: l2)) →
            q + t <= first_block st + span l1 ∨ first_block st + span l1 + cs <= q) ∧
    (no_adjacent_free (l1 ++ (cs, 0) :: l2) → no_adjacent_free bl').
Proof.
  pose proof (heap_ok_shape _ _ _ HK) as HS.
  pose proof (hk_tiles _ _ _ HK) as T.
  set (base := first_block st) in *. set (b := base + span l1) in *.
  assert (Bb : List.In (b, (cs, 0)) (heap_blocks st (l1 ++ (cs, 0) :: l2)))
    by apply blocks_In_middle.
  destruct (hs_block _ _ _ HS _ _ _ Bb) as (B1 & B2 & B3 & B4 & _ & _ & _ & B8).
  pose proof (hk_free_block _ _ _ HK _ _ Bb) as FB.
  destruct (place_spec st L b cs asize FB Hfit Hmul)
    as (st' & Hp & Gh & Gf & Grem & Hok' & F).
  set (mid := if 16 <=? cs - asize then [(asize, 1); (cs - asize, 0)] else [(cs, 1)]).
  set (used := placed_size cs asize) in *.
  assert (Hused : asize <= used <= cs).
  { subst used. unfold placed_size. destruct (16 <=? cs - asize); lia. }
  assert (Hspan : span mid = span [(cs, 0)]).
  { subst mid. destruct (16 <=? cs - asize); simpl; lia. }
  assert (So : span [(cs, 0)] = cs) by (simpl; lia).
  assert (Apart : ∀ m s' a, List.In (m, (s', a)) (heap_blocks st (l1 ++ (cs, 0) :: l2)) →
                    m ≠ b → m + s' <= b ∨ b + cs <= m).
  { intros m s' a Hin Hne.
    destruct (blocks_apart _ _ _ _ _ _ _ _ _ T Hin Bb) as [(C & _) | [H | H]];
      [contradiction | auto | auto]. }
  assert (Hmid : ∀ x, List.In x (blocks_from b mid) ↔
                      x = (b, (used, 1)) ∨
                      (16 <= cs - asize ∧ x = (b + asize, (cs - asize, 0)))).
  { intros x. subst mid used. unfold placed_size.
    destruct (Z.leb_spec 16 (cs - asize)); simpl; intuition (try lia; congruence). }
  destruct (heap_replace st L l1 [(cs, 0)] l2 st' (placed_lists L b cs asize) mid)
    as (HK' & R & M1 & M0 & Pay).
  - exact HK.
  - exact Hspan.
  - fold base b. rewrite So. exact F.
  - exact Hok'.
  - fold base b. subst mid. unfold used, placed_size in Gh, Gf.
    destruct (Z.leb_spec 16 (cs - asize)) as [Hrem | Hrem]; simpl.
    + destruct (Grem Hrem) as [Gh2 Gf2]. rewrite Z.add_0_r.
      replace (b + asize + (cs - asize) - 8) with (b + cs - 8) by lia.
      split_and!; auto; lia.
    + split_and!; auto; lia.
  - fold base b. intros m s' Hin. apply Hmid in Hin as [E | [Hrem E]]; [discriminate E |].
    injection E as -> ->. unfold placed_lists. cbv zeta.
    rewrite (proj2 (Z.leb_le _ _) Hrem), L_ins_same. left. reflexivity.
  - fold base b. rewrite So. intros k m Hk Hin Hout.
    unfold placed_lists. cbv zeta.
    assert (H1 : List.In m (L_del (list_num cs) b L k))
      by (apply L_del_keeps; [exact Hin | lia]).
    destruct (16 <=? cs - asize); [| exact H1].
    unfold L_ins. destruct (k =? _); [right |]; exact H1.
  - fold base b. rewrite So. intros k m Hk Hin.
    unfold placed_lists in Hin. cbv zeta in Hin.
    assert (H1 : (16 <= cs - asize ∧ m = b + asize) ∨
                 List.In m (L_del (list_num cs) b L k)).
    { destruct (Z.leb_spec 16 (cs - asize)) as [Hrem | Hrem]; [| auto].
      unfold L_ins in Hin. destruct (k =? _); [destruct Hin; auto | auto]. }
    destruct H1 as [[Hrem ->] | H1].
    + left. exists (cs - asize). apply Hmid. auto.
    + right.
      pose proof (L_del_fresh st L (list_num cs) b (hk_lists _ _ _ HK)
                    (list_num_range cs) (fb_listed _ _ _ _ FB) k Hk) as Hfr.
      assert (Hne : m ≠ b) by (intros ->; exact (Hfr H1)).
      apply L_del_sub in H1 as [H1 _]. split; [exact H1 |].
      destruct (hk_free _ _ _ HK k m Hk H1) as [s' Hs'].
      destruct (hs_block _ _ _ HS _ _ _ Hs') as (_ & _ & S3 & _).
      destruct (Apart _ _ _ Hs' Hne); lia.
  - fold base b in M1, M0, Pay. rewrite So in M1, M0, Pay.
    change (l1 ++ [(cs, 0)] ++ l2) with (l1 ++ (cs, 0) :: l2) in M0.
    exists st', (placed_lists L b cs asize), (l1 ++ mid ++ l2), used.
    split; [exact Hp |]. split; [exact HK' |]. split; [exact R |].
    split; [apply M1; right; left; apply Hmid; auto |].
    split; [exact Hused |].
    split.
    { intros q t Hq. apply M0 in Hq as [H | [H | H]].
      - split; [apply M1; auto | apply Pay; auto].
      - simpl in H. destruct H as [H | []]. discriminate H.
      - split; [apply M1; auto | apply Pay; auto]. }
    split.
    { intros q t Hq Hne. apply M1 in Hq as [H | [H | H]].
      - apply M0. auto.
      - apply Hmid in H as [E | [_ E]]; [| discriminate E].
        injection E as -> _. contradiction.
      - apply M0. auto. }
    split.
    { intros q t Hq. apply (Apart q t 1 Hq). intros ->.
      destruct (blocks_apart _ _ _ _ _ _ _ _ _ T Hq Bb) as [(_ & _ & C) | [H | H]];
        [discriminate C | |];
        destruct (hs_block _ _ _ HS _ _ _ Hq) as (_ & _ & Q3 & _); lia. }
    intros N. apply naf_app in N as (N1 & N2 & Nb).
    cbn [no_adjacent_free] in N2. destruct N2 as [Nh N2].
    apply naf_app. split; [exact N1 |]. split.
    + subst mid. destruct (16 <=? cs - asize); cbn [app no_adjacent_free].
      * split; [intros [C _]; discriminate C |]. split; [exact Nh | exact N2].
      * split; [| exact N2]. destruct l2 as [| [s1 a1] l2']; [exact I |].
        intros [C _]. discriminate C.
    + intros [Hl _]. apply Nb. split; [exact Hl |]. exists cs, l2. reflexivity.
Qed.

End PlaceHeap.



(** ** [mm_malloc] on a well-formed heap *)

Section MallocTheorem.

Lemma adjust_size_fits n :
  0 < n → n + 15 < 2 ^ 32 →
  16 <= adjust_size n ∧ adjust_size n mod 8 = 0 ∧ n + 8 <= adjust_size n.
Proof.
  intros Hn Hn32. destruct (Z.le_gt_cases n 8) as [Hle | Hgt].
  - rewrite (adjust_size_small n Hle). split_and!; [lia | reflexivity | lia].
  - destruct (adjust_size_large n Hgt) as [_ H]. specialize (H Hn32). lia.
Qed.

Variables (st : state) (L : Z → list Z) (bl : list (Z * Z)).
Hypothesis HK : heap_ok st L bl.
Variables (fuel : nat) (n : Z).
Hypothesis Hn : 0 < n.
Hypothesis Hn32 : n + 15 < 2 ^ 32.
Hypothesis Hfuel : (length bl < fuel)%nat.

(** Placing the request in a free block of the heap. *)
Lemma place_in_heap st0 L0 bl0 b cs :
  heap_ok st0 L0 bl0 → List.In (b, (cs, 0)) (heap_blocks st0 bl0) →
  adjust_size n <= cs →
  ∃ st' L' bl' used,
    place st0 b (adjust_size n) = Ok (st', b) ∧
    heap_ok st' L' bl' ∧ same_regs st0 st' ∧
    List.In (b, (used, 1)) (heap_blocks st' bl') ∧ n + 8 <= used ∧ b mod 8 = 0 ∧
    keeps_allocated st0 bl0 st' bl' ∧ allocates_only b st0 bl0 st' bl' ∧
    (∀ q t, List.In (q, (t, 1)) (heap_blocks st0 bl0) → q + t <= b ∨ b + used <= q) ∧
    (no_adjacent_free bl0 → no_adjacent_free bl').
Proof.
  intros HK0 Hin Hcs. destruct (adjust_size_fits n Hn Hn32) as (A16 & A8 & An).
  destruct (hs_block _ _ _ (heap_ok_shape _ _ _ HK0) _ _ _ Hin) as (_ & _ & _ & _ & _ & _ & _ & B8).
  unfold heap_blocks in Hin.
  destruct (blocks_In_split _ _ _ _ _ Hin) as (l1 & l2 & -> & ->).
  destruct (place_heap st0 L0 l1 cs l2 (adjust_size n) HK0 ltac:(lia) A8)
    as (st' & L' & bl' & used & Hp & HK' & R & Hu & Hused & Kp & Only & Fresh & Naf).
  exists st', L', bl', used.
  split_and!; try assumption; try lia.
  intros q t Hq. destruct (Fresh q t Hq); lia.
Qed.

Lemma mm_malloc_heap :
  (mm_malloc fuel st n = Ok (st, NULL) ∧
   mem_max_addr st < mem_brk st + Z.max (adjust_size n) CHUNKS ∧
   find_fit fuel st (adjust_size n) = Ok NULL)
  ∨
  (∃ st' L' bl' r used,
     mm_malloc fuel st n = Ok (st', r) ∧ heap_ok st' L' bl' ∧
     List.In (r, (used, 1)) (heap_blocks st' bl') ∧ n + 8 <= used ∧ r mod 8 = 0 ∧
     keeps_allocated st bl st' bl' ∧ allocates_only r st bl st' bl' ∧
     (∀ q t, List.In (q, (t, 1)) (heap_blocks st bl) → q + t <= r ∨ r + used <= q) ∧
     (no_adjacent_free bl → no_adjacent_free bl')).
Proof.
  destruct (adjust_size_fits n Hn Hn32) as (A16 & A8 & An).
  pose proof (heap_ok_shape _ _ _ HK) as HS.
  destruct (hs_layout _ _ _ HS) as (Hs & Hfb & _ & _ & Hbrk32 & Hfl).
  destruct (find_fit_heap st L bl HK fuel (adjust_size n) Hfuel) as (r0 & Hf & Hres).
  assert (Hm : mm_malloc fuel st n =
               if negb (r0 =? NULL) then place st r0 (adjust_size n)
               else '(st1, bp) ← extend_heap st (Z.max (adjust_size n) CHUNKS / WSIZE);
                    if bp =? NULL then Ok (st1, NULL)
                    else place st1 bp (adjust_size n)).
  { unfold mm_malloc. destruct (Z.eqb_spec n 0) as [C | _]; [lia |].
    cbv zeta. rd Hf. rewrite MAX_max. reflexivity. }
  destruct Hres as [-> | (cs & Hcs & Hle)].
  - rewrite Z.eqb_refl in Hm. cbn [negb] in Hm.
    pose proof (malloc_request n) as Hreq. cbv zeta in Hreq.
    destruct (adjust_size_range n) as (_ & _ & H32).
    assert (Hw : 16 <= wrap (WSIZE * (Z.max (adjust_size n) CHUNKS / WSIZE
                                     + (Z.max (adjust_size n) CHUNKS / WSIZE) mod 2)))
      by (rewrite Hreq; lia).
    destruct (extend_heap_heap st L bl HK _ Hw)
      as [[Hno He] | (_ & ste & Le & ble & r & tot & He & HKe & R4 & R5 & R1 & R3 & R2
                      & Hin & Htot & Hend & Kpe & Onlye & Nafe)];
      rewrite Hreq in *.
    + left. split; [rewrite Hm; rd He; reflexivity |]. split; [exact Hno | exact Hf].
    + right.
      destruct (place_in_heap ste Le ble r tot HKe Hin ltac:(lia))
        as (st' & L' & bl' & used & Hp & HK' & R & Hu & Hused & H8 & Kp & Only & Fresh & Naf).
      exists st', L', bl', r, used.
      assert (Hnn : r ≠ NULL).
      { destruct (hs_block _ _ _ (heap_ok_shape _ _ _ HKe) _ _ _ Hin) as (B1 & _).
        destruct (hs_layout _ _ _ (heap_ok_shape _ _ _ HKe)) as (_ & Hfbe & _ & _ & _ & Hfle).
        unfold NULL. lia. }
      split.
      { rewrite Hm. rd He. destruct (Z.eqb_spec r NULL); [contradiction | exact Hp]. }
      split_and!; try assumption.
      * eapply keeps_allocated_trans; eassumption.
      * intros q t Hq Hne. apply Onlye. apply (Only q t Hq Hne).
      * intros q t Hq. destruct (Kpe q t Hq) as [Hq' _]. apply (Fresh q t Hq').
      * intros N. apply Naf, Nafe, N.
  - right.
    destruct (place_in_heap st L bl r0 cs HK Hcs Hle)
      as (st' & L' & bl' & used & Hp & HK' & R & Hu & Hused & H8 & Kp & Only & Fresh & Naf).
    exists st', L', bl', r0, used.
    assert (Hnn : r0 ≠ NULL).
    { destruct (hs_block _ _ _ HS _ _ _ Hcs) as (B1 & _). unfold NULL. lia. }
    split.
    { rewrite Hm. destruct (Z.eqb_spec r0 NULL); [contradiction | exact Hp]. }
    split_and!; assumption.
Qed.

End MallocTheorem.


(** ** The checker accepts a well-formed heap *)

Section Counting.

Lemma counted_0 k : counted k 0 = k.
Proof. destruct k. unfold counted. simpl. f_equal. lia. Qed.

Lemma counted_S k n : counted (incr_numcount k) n = counted k (S n).
Proof. unfold counted, incr_numcount. simpl. f_equal. lia. Qed.

Lemma counted_add k n m : counted (counted k n) m = counted k (n + m).
Proof. unfold counted. simpl. f_equal. lia. Qed.

Lemma all_listed_In L : ∀ n num m,
  List.In m (all_listed L n num) ↔ ∃ k, num <= k < num + Z.of_nat n ∧ List.In m (L k).
Proof.
  induction n as [| n IH]; intros num m.
  - simpl. split; [contradiction | intros (k & Hk & _); lia].
  - cbn [all_listed]. rewrite in_app_iff, IH. split.
    + intros [H | (k & Hk & H)]; [exists num | exists k]; split; auto; lia.
    + intros (k & Hk & H). destruct (Z.eq_dec k num) as [-> | Hne]; [auto |].
      right. exists k. split; [lia | exact H].
Qed.

Lemma all_listed_NoDup st L : lists_ok st L → ∀ n num,
  0 <= num → num + Z.of_nat n <= numlists → List.NoDup (all_listed L n num).
Proof.
  intros Hok. induction n as [| n IH]; intros num H0 Hn; [constructor |].
  cbn [all_listed]. apply List.NoDup_app.
  - apply (lo_nodup _ _ Hok). lia.
  - apply IH; lia.
  - intros m Hm Hm'. apply all_listed_In in Hm' as (k & Hk & Hin).
    assert (num = k) by (eapply (lo_disjoint _ _ Hok); [| | eassumption | eassumption]; lia).
    lia.
Qed.

Lemma blocks_addresses_NoDup st : ∀ bl p,
  tiles st p bl → List.NoDup (map fst (blocks_from p bl)).
Proof.
  induction bl as [| [s a] bl IH]; intros p T; simpl; [constructor |].
  destruct T as (H16 & _ & _ & _ & _ & T). constructor; [| apply IH; exact T].
  intros Hin. apply in_map_iff in Hin as ([m [s' a']] & E & Hin). simpl in E. subst m.
  destruct (tiles_In _ _ _ _ _ _ T Hin) as (I1 & _). lia.
Qed.

Lemma NoDup_map_filter {A B} (f : A → B) (g : A → bool) (l : list A) :
  List.NoDup (map f l) → List.NoDup (map f (List.filter g l)).
Proof.
  induction l as [| x l IH]; simpl; intros H; [constructor |].
  inversion H as [| ? ? Hx Hl]; subst.
  destruct (g x); simpl; [| apply IH; exact Hl].
  constructor; [| apply IH; exact Hl].
  intros Hin. apply Hx. apply in_map_iff in Hin as (y & E & Hy).
  apply List.filter_In in Hy as [Hy _]. apply in_map_iff. eauto.
Qed.

Lemma free_blocks_length : ∀ bl p,
  length (List.filter (λ x, snd (snd x) =? 0) (blocks_from p bl)) = length (free_blocks bl).
Proof.
  induction bl as [| [s a] bl IH]; intros p; [reflexivity |].
  unfold free_blocks in *. simpl. destruct (a =? 0); simpl; rewrite IH; reflexivity.
Qed.

(** There are as many listed blocks as free blocks. *)
Lemma listed_count st L bl :
  heap_ok st L bl →
  length (all_listed L 12 0) = length (free_blocks bl).
Proof.
  intros HK. rewrite <- (free_blocks_length bl (first_block st)).
  rewrite <- (List.length_map fst (List.filter _ _)).
  apply Permutation.Permutation_length. apply Permutation.NoDup_Permutation.
  - apply (all_listed_NoDup st); [apply (hk_lists _ _ _ HK) | lia |].
    unfold numlists. simpl. lia.
  - apply NoDup_map_filter. apply (blocks_addresses_NoDup st). apply (hk_tiles _ _ _ HK).
  - intros m. rewrite all_listed_In. split.
    + intros (k & Hk & Hin).
      destruct (hk_free _ _ _ HK k m ltac:(unfold numlists; simpl in Hk; lia) Hin) as [s Hs].
      apply in_map_iff. exists (m, (s, 0)). split; [reflexivity |].
      apply List.filter_In. split; [exact Hs | reflexivity].
    + intros Hin. apply in_map_iff in Hin as ([m' [s a]] & E & Hin). simpl in E. subst m'.
      apply List.filter_In in Hin as [Hin Ha]. simpl in Ha. apply Z.eqb_eq in Ha. subst a.
      exists (list_num s). split; [pose proof (list_num_range s); unfold numlists in *; simpl; lia |].
      apply (hk_listed _ _ _ HK). exact Hin.
Qed.

End Counting.

Section CheckerAccepts.

Lemma walked_nil k : walked k [] = k.
Proof. destruct k. unfold walked. simpl. f_equal; lia. Qed.

(** The overlap test is silent on an aligned block with a readable
    header. *)
Lemma check_overlap_ok st p s k :
  GET_SIZE st (HDRP p) = Ok s → p mod 8 = 0 → check_overlap st p k = Ok k.
Proof.
  intros Hs Hp. unfold check_overlap.
  pose proof (FTRP_val _ _ _ Hs) as Hf. pose proof (NEXT_BLKP_val _ _ _ Hs) as Hn.
  rd Hf. rd Hn.
  destruct (FTRP_next_header _ _ _ _ Hp Hf Hn) as [_ C]. rewrite C. reflexivity.
Qed.

(** The heap walk over a tiling that ends in the epilogue header. *)
Lemma check_walk_ok st : ∀ bl p k fuel,
  tiles st p bl → GET st (p + span bl - 4) = Ok 1 →
  p mod 8 = 0 → 4 < p → p + span bl < 2 ^ 32 → 0 < c k →
  (length bl < fuel)%nat →
  check_walk fuel st p k = Ok (walked k bl).
Proof.
  induction bl as [| [s a] bl IH]; intros p k fuel T Ge Hp8 Hp Hhi Hc Hf.
  - simpl in Ge, Hhi. rewrite Z.add_0_r in Ge, Hhi.
    destruct fuel as [| fuel]; [simpl in Hf; lia |]. cbn [check_walk].
    assert (Eh : HDRP p = p - 4) by (unfold HDRP, WSIZE; apply wrap_small; lia).
    assert (Hs : GET_SIZE st (HDRP p) = Ok 0).
    { rewrite Eh. unfold GET_SIZE. rewrite Ge. reflexivity. }
    rd Hs. simpl. rewrite walked_nil. reflexivity.
  - simpl in T, Ge, Hhi. destruct T as (H16 & H8 & Ha & Hh & Hft & T).
    pose proof (tiles_span _ _ _ T) as Hsp.
    destruct fuel as [| fuel]; [simpl in Hf; lia |]. simpl in Hf. cbn [check_walk].
    assert (Eh : HDRP p = p - 4) by (unfold HDRP, WSIZE; apply wrap_small; lia).
    destruct (tag_reads _ _ _ _ Hh ltac:(lia) H8 Ha) as [Rs Ra].
    rewrite <- Eh in Rs, Ra. rd Rs.
    destruct (Z.eqb_spec s 0) as [C | _]; [lia |]. cbn [negb]. rd Ra.
    rewrite (check_overlap_ok _ _ _ _ Rs Hp8). cbn [mbind res_bind].
    set (k1 := if a =? 0 then incr_count k else k).
    assert (Hc1 : c k1 = c k) by (subst k1; destruct (a =? 0); reflexivity).
    unfold check_min_size. rewrite Hc1.
    destruct (Z.gtb_spec (c k) 0) as [_ | C]; [| lia].
    rd Rs. destruct (Z.ltb_spec s 16) as [C | _]; [lia |]. cbn [mbind res_bind].
    rewrite (NEXT_BLKP_val _ _ _ Rs). cbn [mbind res_bind].
    rewrite (wrap_small (p + s)) by lia.
    rewrite (IH (p + s) (incr_c k1) fuel T); try lia.
    + f_equal. unfold walked, free_blocks, incr_c. subst k1. cbn [List.filter snd length].
      destruct Ha as [-> | ->]; simpl; f_equal; lia.
    + replace (p + s + span bl - 4) with (p + (s + span bl) - 4) by lia. exact Ge.
    + simpl. lia.
Qed.

(** The list walk over a well-formed list all of whose members pass both
    tests. *)
Lemma check_list_ok st : ∀ l pp h fuel k,
  dllseg st pp h l NULL →
  (∀ m k', List.In m l → check_list_body st m k' = Ok (incr_numcount k')) →
  (length l < fuel)%nat →
  check_list fuel st h k = Ok (counted k (length l)).
Proof.
  induction l as [| b l IH]; intros pp h fuel k D Hb Hf.
  - simpl in D. subst h. destruct fuel; [simpl in Hf; lia |].
    simpl. rewrite counted_0. reflexivity.
  - simpl in D. destruct D as (-> & Hnn & _ & n & Hn & D).
    destruct fuel as [| fuel]; [simpl in Hf; lia |]. simpl in Hf. cbn [check_list].
    destruct (Z.eqb_spec b NULL) as [| _]; [contradiction |].
    rewrite (Hb b k ltac:(left; reflexivity)). cbn [mbind res_bind]. rd Hn.
    rewrite (IH b n fuel (incr_numcount k) D); [| | lia].
    + rewrite counted_S. reflexivity.
    + intros m k' Hm. apply Hb. right. exact Hm.
Qed.

Variables (st : state) (L : Z → list Z) (bl : list (Z * Z)).
Hypothesis HK : heap_ok st L bl.
Hypothesis NAF : no_adjacent_free bl.

(** A free block of a coalesced heap has allocated neighbours. *)
Lemma free_block_neighbours m s :
  List.In (m, (s, 0)) (heap_blocks st bl) →
  GET_ALLOC st (HDRP m) = Ok 0 ∧
  ∃ prev next, PREV_BLKP st m = Ok prev ∧ GET_ALLOC st (HDRP prev) = Ok 1 ∧
               NEXT_BLKP st m = Ok next ∧ GET_ALLOC st (HDRP next) = Ok 1.
Proof.
  intros Hin. pose proof (heap_ok_shape _ _ _ HK) as HS.
  destruct (hs_layout _ _ _ HS) as (Hs & Hfb & Hb8 & _ & Hbrk32 & Hfl).
  destruct (hs_block _ _ _ HS _ _ _ Hin) as (B1 & B2 & B3 & B4 & _ & Gh & _ & B8).
  pose proof (hk_tiles _ _ _ HK) as T. pose proof (hk_brk _ _ _ HK) as Hbrk.
  pose proof (hk_prologue _ _ _ HK) as [Ph Pf].
  pose proof (hk_epilogue _ _ _ HK) as Ge.
  unfold heap_blocks in Hin.
  destruct (blocks_In_split _ _ _ _ _ Hin) as (l1 & l2 & Ebl & Em).
  set (base := first_block st) in *.
  rewrite Ebl in T, Hbrk. apply tiles_app in T as [T1 T2]. simpl in T2.
  destruct T2 as (_ & _ & _ & _ & _ & T2). rewrite <- Em in T2.
  rewrite span_app in Hbrk. simpl in Hbrk.
  assert (Hl : heap_listp st = base - 8) by (subst base; unfold first_block; lia).
  rewrite Hl in Ph, Pf. replace (base - 8 - 4) with (base - 12) in Ph by lia.
  destruct (prev_cases st base l1 T1 Ph Pf)
    as (psz & pa & l1' & P8 & Pm & Pa & Pft & Phd & Plo & El1 & P16 & _).
  rewrite <- Em in Pft, Phd, Plo.
  assert (Epa : pa = 1).
  { destruct Pa as [E | E]; [exfalso | exact E].
    rewrite Ebl, El1 in NAF. unfold free_part in NAF. rewrite E in NAF. simpl in NAF.
    apply naf_app in NAF as (_ & _ & Nb). apply Nb. split.
    - exists psz, l1'. reflexivity.
    - exists s, l2. reflexivity. }
  assert (Ge' : GET st (m + s + span l2 - 4) = Ok 1).
  { replace (m + s + span l2) with (mem_brk st) by lia. exact Ge. }
  destruct (next_cases st (m + s) l2 T2 Ge')
    as (nsz & na & l2' & N0 & Nm & Na & Nhd & El2 & _ & _).
  assert (Ena : na = 1).
  { destruct Na as [E | E]; [exfalso | exact E].
    rewrite Ebl, El2 in NAF. unfold free_part in NAF. rewrite E in NAF. simpl in NAF.
    apply naf_app in NAF as (_ & N2 & _). cbn [no_adjacent_free] in N2. tauto. }
  subst pa na.
  destruct (tag_reads _ _ _ _ Gh ltac:(lia) B4 ltac:(auto)) as [Rs Ra].
  destruct (tag_reads _ _ _ _ Pft ltac:(lia) Pm ltac:(auto)) as [Rpf _].
  destruct (tag_reads _ _ _ _ Phd ltac:(lia) Pm ltac:(auto)) as [_ Rpa].
  destruct (tag_reads _ _ _ _ Nhd N0 Nm ltac:(auto)) as [_ Rna].
  assert (E1 : HDRP m = m - 4) by (unfold HDRP, WSIZE; apply wrap_small; lia).
  assert (E2 : wrap (m - DSIZE) = m - 8) by (unfold DSIZE; apply wrap_small; lia).
  assert (E3 : HDRP (m - psz) = m - psz - 4).
  { unfold HDRP, WSIZE. apply wrap_small. unfold numlists in *. lia. }
  assert (E4 : HDRP (m + s) = m + s - 4) by (unfold HDRP, WSIZE; apply wrap_small; lia).
  split; [rewrite E1; exact Ra |].
  exists (m - psz), (m + s).
  split.
  { rewrite <- E2 in Rpf. rewrite (PREV_BLKP_val _ _ _ Rpf). f_equal. apply wrap_small.
    unfold numlists in *. lia. }
  split; [rewrite E3; exact Rpa |].
  split.
  { rewrite <- E1 in Rs. rewrite (NEXT_BLKP_val _ _ _ Rs). f_equal. apply wrap_small. lia. }
  rewrite E4. exact Rna.
Qed.

Lemma check_list_body_ok j m k :
  0 <= j < numlists → List.In m (L j) →
  check_list_body st m k = Ok (incr_numcount k).
Proof.
  intros Hj Hin. destruct (hk_free _ _ _ HK j m Hj Hin) as [s Hs].
  destruct (free_block_neighbours m s Hs) as (Ha & prev & next & Hp & Hpa & Hn & Hna).
  unfold check_list_body, check_marked_free, check_contiguous.
  rd Ha. rd Hp. rd Hpa. rd Hn. rd Hna. reflexivity.
Qed.

Lemma check_lists_ok fuel : (length bl < fuel)%nat → ∀ n num k,
  0 <= num → num + Z.of_nat n = 12 →
  check_lists n fuel st num k = Ok (counted k (length (all_listed L n num))).
Proof.
  intros Hf. pose proof (heap_ok_shape _ _ _ HK) as HS.
  induction n as [| n IH]; intros num k H0 Hn.
  - simpl. rewrite counted_0. reflexivity.
  - cbn [check_lists all_listed]. unfold numlists at 1.
    destruct (Z.ltb_spec num 12) as [_ | C]; [| lia].
    assert (Hk : 0 <= num < numlists) by (unfold numlists; lia).
    destruct (lo_heads _ _ (hk_lists _ _ _ HK) num Hk) as (h & Eh & D).
    rd Eh.
    rewrite (check_list_ok st (L num) NULL h fuel k D).
    + cbn [mbind res_bind]. rewrite IH by lia.
      rewrite counted_add, List.length_app. reflexivity.
    + intros m k' Hm. apply (check_list_body_ok num); assumption.
    + pose proof (hs_list_length _ _ _ HS num Hk). lia.
Qed.

Lemma mm_check_heap fuel :
  (length bl + 1 < fuel)%nat → mm_check fuel st = Ok (1, []).
Proof.
  intros Hf. pose proof (heap_ok_shape _ _ _ HK) as HS.
  destruct (hs_layout _ _ _ HS) as (Hs & Hfb & Hb8 & Hsp & Hbrk32 & Hfl).
  pose proof (hk_prologue _ _ _ HK) as [Ph Pf].
  pose proof (hk_brk _ _ _ HK) as Hbrk.
  pose proof (hk_epilogue _ _ _ HK) as Ge.
  unfold mm_check.
  rewrite (check_lists_ok fuel ltac:(lia) 12 0) by lia. cbn [mbind res_bind].
  set (k1 := counted _ _).
  destruct fuel as [| fuel]; [lia |]. cbn [check_walk].
  set (hl := heap_listp st) in *.
  assert (Ehl : hl = first_block st - 8) by (unfold first_block; lia).
  assert (Eh : HDRP hl = hl - 4) by (unfold HDRP, WSIZE; apply wrap_small; lia).
  destruct (tag_reads st (hl - 4) 8 1 Ph ltac:(lia) ltac:(reflexivity) ltac:(auto)) as [Rs Ra].
  rewrite <- Eh in Rs, Ra. rd Rs. cbn [Z.eqb negb]. rd Ra. cbn [Z.eqb].
  rewrite (check_overlap_ok _ _ _ _ Rs ltac:(lia)). cbn [mbind res_bind].
  unfold check_min_size. change (c k1) with 0. cbn [Z.gtb Z.compare mbind res_bind].
  rewrite (NEXT_BLKP_val _ _ _ Rs). cbn [mbind res_bind].
  rewrite (wrap_small (hl + 8)) by lia.
  replace (hl + 8) with (first_block st) by lia.
  rewrite (check_walk_ok st bl (first_block st) (incr_c k1) fuel);
    [| apply (hk_tiles _ _ _ HK) | rewrite <- Hbrk; exact Ge | exact Hb8 | lia | lia
     | simpl; lia | lia].
  cbn [mbind res_bind].
  assert (Ec : count (walked (incr_c k1) bl) = numcount (walked (incr_c k1) bl)).
  { subst k1. unfold walked, incr_c, counted. cbn [count numcount].
    rewrite (listed_count _ _ _ HK). reflexivity. }
  rewrite Ec, Z.eqb_refl. reflexivity.
Qed.

End CheckerAccepts.


(** ** Client stores *)

Section ClientStore.

(** The lists only depend on the directory and on the link words. *)
Lemma lists_ok_words st st' L :
  lists_ok st L → same_regs st st' →
  (∀ j, 0 <= j < numlists →
        GET st' (freelist_p st + 4 * j) = GET st (freelist_p st + 4 * j)) →
  (∀ j m, 0 <= j < numlists → List.In m (L j) →
          GET st' m = GET st m ∧ GET st' (m + 4) = GET st (m + 4)) →
  lists_ok st' L.
Proof.
  intros [Hs Hh Hp Hn Hd] R Hslot Hcell.
  assert (Hs' : sane st') by (eapply sane_regs; eassumption).
  constructor; [exact Hs' | | | exact Hn | exact Hd].
  - intros j Hj. destruct (Hh j Hj) as (h & E & D). exists h. split.
    + unfold GETfreelistp in *. rewrite (same_regs_slot _ _ _ R).
      destruct (slot_addr _ _ Hs Hj) as [Ej _]. rewrite Ej in E |- *.
      rewrite Hslot by exact Hj. exact E.
    + eapply dllseg_frame; [| exact D]. intros b Hb.
      destruct (placed_addr _ _ Hs (Hp j b Hj Hb)) as (_ & _ & Eb & _).
      unfold cells_same, GET_PPTR, GET_NPTR. rewrite Eb.
      apply (Hcell j b Hj Hb).
  - intros j b Hj Hb. eapply placed_regs; [exact R | eapply Hp; eassumption].
Qed.

Variables (st : state) (L : Z → list Z) (bl : list (Z * Z)).
Hypothesis HK : heap_ok st L bl.

(** A store into the payload of an allocated block disturbs neither the
    invariant nor any other payload byte. *)
Lemma heap_ok_store q t a v :
  List.In (q, (t, 1)) (heap_blocks st bl) → q <= a < q + t - 8 →
  ∃ st', store8 st a v = Ok st' ∧ heap_ok st' L bl ∧ same_regs st st' ∧
         raw_at st' a = v ∧ ∀ a', a' ≠ a → raw_at st' a' = raw_at st a'.
Proof.
  intros Hq Ha. pose proof (heap_ok_shape _ _ _ HK) as HS.
  destruct (hs_layout _ _ _ HS) as (Hs & Hfb & Hb8 & Hsp & Hbrk32 & Hfl).
  pose proof Hs as (S1 & S2 & S3 & S4).
  destruct (hs_block _ _ _ HS _ _ _ Hq) as (B1 & B2 & B3 & _).
  pose proof (hk_room _ _ _ HK) as Hroom.
  pose proof (hs_payload_untouched _ _ _ HS q t a Hq Ha) as [Ud Uc].
  assert (Hacc : accessible st a 1 = true).
  { unfold accessible. apply andb_true_iff. rewrite !Z.leb_le. unfold numlists in *. lia. }
  assert (Hst : ∃ st', store8 st a v = Ok st').
  { unfold store8. rewrite Hacc. eauto. }
  destruct Hst as [st' Hst]. exists st'. split; [exact Hst |].
  destruct (store8_inv _ _ _ _ Hst) as (_ & R & Hv & Ho).
  pose proof R as (R1 & R2 & R3 & R4 & R5).
  assert (F : frame (λ x, x ≠ a) st st') by (split; [exact R | exact Ho]).
  assert (Word : ∀ w, a < w ∨ w + 4 <= a → GET st' w = GET st w).
  { intros w Hw. apply (frame_GET_word _ _ _ _ F). intros x Hx. lia. }
  assert (Tag : ∀ m s b, List.In (m, (s, b)) (heap_blocks st bl) →
                  GET st' (m - 4) = GET st (m - 4) ∧
                  GET st' (m + s - 8) = GET st (m + s - 8)).
  { intros m s b Hm. destruct (hs_block _ _ _ HS _ _ _ Hm) as (M1 & M2 & M3 & _).
    destruct (blocks_apart _ _ _ _ _ _ _ _ _ (hk_tiles _ _ _ HK) Hq Hm)
      as [(-> & -> & _) | [H | H]]; split; apply Word; lia. }
  assert (Fb' : first_block st' = first_block st)
    by (unfold first_block; rewrite R4; reflexivity).
  split; [| split; [exact R | split; [exact Hv | exact Ho]]].
  constructor.
  - apply (lists_ok_words st st' L (hk_lists _ _ _ HK) R).
    + intros j Hj. apply Word. unfold in_directory, numlists in *. lia.
    + intros j m Hj Hm. specialize (Uc j m Hj Hm). unfold in_cells in Uc.
      split; apply Word; lia.
  - rewrite R5. apply (hk_aligned _ _ _ HK).
  - rewrite R4, R5. apply (hk_listp _ _ _ HK).
  - rewrite R4. pose proof (hk_prologue _ _ _ HK) as [Ph Pf].
    unfold first_block in *. rewrite !Word by lia. auto.
  - rewrite Fb'. eapply tiles_frame; [apply (hk_tiles _ _ _ HK) |].
    intros m s b Hm. apply (Tag m s b Hm).
  - rewrite Fb', R2. apply (hk_brk _ _ _ HK).
  - rewrite R2, R3. exact Hroom.
  - rewrite R2. rewrite Word by lia. apply (hk_epilogue _ _ _ HK).
  - unfold heap_blocks. rewrite Fb'. apply (hk_listed _ _ _ HK).
  - unfold heap_blocks. rewrite Fb'. apply (hk_free _ _ _ HK).
Qed.

End ClientStore.

(** ** Fuel *)

Lemma find_fit_loop_fuel fuel : ∀ st size bp r k,
  find_fit_loop fuel st size bp = Ok r →
  find_fit_loop (fuel + k) st size bp = Ok r.
Proof.
  induction fuel as [| fuel IH]; intros st size bp r k H; simpl in H |- *;
    [discriminate |].
  destruct (bp =? NULL); [exact H |].
  inv_bind H. rewrite E. cbn [mbind res_bind].
  destruct (size <=? v); [exact H |].
  inv_bind H. rewrite E0. cbn [mbind res_bind]. apply IH. exact H.
Qed.

Lemma mm_malloc_fuel fuel k st n x :
  mm_malloc fuel st n = Ok x → mm_malloc (fuel + k) st n = Ok x.
Proof.
  unfold mm_malloc. destruct (n =? 0); [auto |]. intros H. inv_bind H.
  assert (E' : find_fit (fuel + k) st (adjust_size n) = Ok v).
  { unfold find_fit in *. inv_bind E. rewrite E0. cbn [mbind res_bind].
    apply find_fit_loop_fuel. exact E. }
  rewrite E'. cbn [mbind res_bind]. exact H.
Qed.

(** ** The client's blocks *)

Lemma client_block st L bl p t :
  heap_ok st L bl → List.In (p, (t, 1)) (heap_blocks st bl) →
  p mod 8 = 0 ∧ 0 < heap_listp st + 8 <= p ∧ p + t <= mem_brk st ∧ 16 <= t.
Proof.
  intros HK Hp. pose proof (heap_ok_shape _ _ _ HK) as HS.
  destruct (hs_layout _ _ _ HS) as (Hs & Hfb & Hb8 & Hsp & Hbrk32 & Hfl).
  destruct (hs_block _ _ _ HS _ _ _ Hp) as (B1 & B2 & B3 & B4 & B5 & B6 & B7 & B8).
  unfold first_block in *. repeat split; lia.
Qed.

Lemma client_ok_init st0 st :
  0 < mem_start_brk st0 <= mem_brk st0 → mem_brk st0 mod 8 = 0 →
  mem_max_addr st0 < 2 ^ 32 →
  mm_init st0 = Ok (st, 0) → client_ok st [].
Proof.
  intros Hstart Hal Hmax E.
  destruct (Z_lt_le_dec (mem_max_addr st0) (mem_brk st0 + 48)) as [H48 | H48].
  { rewrite (mm_init_faults st0 Hmax H48) in E. discriminate. }
  destruct (Z_lt_le_dec (mem_max_addr st0) (mem_brk st0 + 96)) as [H96 | H96].
  { destruct (mm_init_no_room st0 Hstart Hal Hmax (conj H48 H96)) as [st' E'].
    rewrite E' in E. discriminate. }
  destruct (mm_init_heap st0 Hstart Hal Hmax H96) as (st' & L' & E' & HK & _).
  rewrite E' in E. injection E as ->.
  exists L', [(32, 0)]. split; [exact HK |]. split; [simpl; tauto |].
  split; [constructor |]. intros p n [].
Qed.

Lemma client_ok_malloc st live fuel n st' r :
  client_ok st live → 0 < n → n + 15 < 2 ^ 32 →
  mm_malloc fuel st n = Ok (st', r) →
  client_ok st' (if r =? NULL then live else (r, n) :: live) ∧
  (r = NULL → st' = st) ∧
  (∀ p m a, List.In (p, m) live → p <= a < p + m → raw_at st' a = raw_at st a).
Proof.
  intros (L & bl & HK & NAF & ND & Hlive) Hn Hn32 E.
  apply (mm_malloc_fuel fuel (S (length bl))) in E.
  destruct (mm_malloc_heap st L bl HK (fuel + S (length bl)) n Hn Hn32 ltac:(lia))
    as [(E' & _) | (st1 & L1 & bl1 & r1 & used & E' & HK1 & Hr & Hu & Hr8 & Keep & Only & Apart & NAF1)];
    rewrite E' in E; injection E as <- <-.
  - change (NULL =? NULL) with true. cbv iota.
    split; [exists L, bl; auto |]. split; auto.
  - destruct (client_block _ _ _ _ _ HK1 Hr) as (_ & Hpos & _ & Hu16).
    assert (Hnz : r1 ≠ NULL).
    { assert (0 < r1) by lia. unfold NULL. lia. }
    apply Z.eqb_neq in Hnz. rewrite Hnz. apply Z.eqb_neq in Hnz.
    split; [| split; [tauto |]].
    + exists L1, bl1. split; [exact HK1 |]. split; [auto |]. split.
      * simpl. constructor; [| exact ND]. intros Hin.
        apply in_map_iff in Hin. destruct Hin as ([q m] & Eq & Hin). simpl in Eq. subst q.
        destruct (Hlive _ _ Hin) as (t & Ht & _).
        destruct (client_block _ _ _ _ _ HK Ht) as (_ & _ & _ & Ht16).
        destruct (Apart _ _ Ht); lia.
      * intros p m [Ep | Hin].
        -- injection Ep as <- <-. exists used. auto.
        -- destruct (Hlive _ _ Hin) as (t & Ht & Hm). exists t.
           split; [apply (Keep _ _ Ht) | exact Hm].
    + intros p m a Hin Ha. destruct (Hlive _ _ Hin) as (t & Ht & Hm).
      apply (Keep _ _ Ht). lia.
Qed.

Lemma client_ok_free st live p n :
  client_ok st live → List.In (p, n) live →
  ∃ st', mm_free st p = Ok st' ∧ same_regs st st' ∧
         client_ok st' (List.filter (λ x, negb (fst x =? p)) live) ∧
         (∀ q m a, List.In (q, m) live → q ≠ p → q <= a < q + m →
                   raw_at st' a = raw_at st a).
Proof.
  intros (L & bl & HK & NAF & ND & Hlive) Hin.
  destruct (Hlive _ _ Hin) as (t & Ht & Hn).
  destruct (blocks_In_split _ _ _ _ _ Ht) as (l1 & l2 & -> & ->).
  destruct (mm_free_heap st L l1 t l2 HK)
    as (st' & L' & bl' & E & HK' & R & Keep & _ & _ & NAF').
  exists st'. split; [exact E |]. split; [exact R |]. split.
  - exists L', bl'. split; [exact HK' |]. split; [auto |].
    split; [apply NoDup_map_filter; exact ND |].
    intros q m Hq. apply filter_In in Hq. destruct Hq as [Hq Hne].
    simpl in Hne. apply negb_true_iff, Z.eqb_neq in Hne.
    destruct (Hlive _ _ Hq) as (t' & Ht' & Hm). exists t'.
    split; [apply (Keep _ _ Ht' Hne) | exact Hm].
  - intros q m a Hq Hne Ha. destruct (Hlive _ _ Hq) as (t' & Ht' & Hm).
    apply (Keep _ _ Ht' Hne). lia.
Qed.

Lemma client_ok_store st live p n a v :
  client_ok st live → List.In (p, n) live → p <= a < p + n →
  ∃ st', store8 st a v = Ok st' ∧ same_regs st st' ∧ client_ok st' live ∧
         raw_at st' a = v ∧ ∀ a', a' ≠ a → raw_at st' a' = raw_at st a'.
Proof.
  intros (L & bl & HK & NAF & ND & Hlive) Hin Ha.
  destruct (Hlive _ _ Hin) as (t & Ht & Hn).
  destruct (heap_ok_store st L bl HK p t a v Ht ltac:(lia))
    as (st' & E & HK' & R & Hv & Ho).
  exists st'. split; [exact E |]. split; [exact R |].
  split; [| split; [exact Hv | exact Ho]].
  exists L, bl. split; [exact HK' |]. split; [exact NAF |]. split; [exact ND |].
  intros q m Hq. destruct (Hlive _ _ Hq) as (t' & Ht' & Hm). exists t'.
  split; [| exact Hm]. unfold heap_blocks, first_block in *.
  destruct R as (_ & _ & _ & -> & _). exact Ht'.
Qed.

Lemma reaches_client_ok st0 st live :
  0 < mem_start_brk st0 <= mem_brk st0 → mem_brk st0 mod 8 = 0 →
  mem_max_addr st0 < 2 ^ 32 →
  reaches st0 st live → client_ok st live.
Proof.
  intros Hstart Hal Hmax H. induction H as
    [st E | st live fuel n st' r H IH Hn Hn32 E
     | st live p n a v st' H IH Hin Ha E | st live p n st' H IH Hin E].
  - eapply client_ok_init; eassumption.
  - apply (client_ok_malloc st live fuel n st' r IH Hn Hn32 E).
  - destruct (client_ok_store st live p n a v IH Hin Ha) as (st1 & E1 & _ & C & _).
    rewrite E1 in E. injection E as <-. exact C.
  - destruct (client_ok_free st live p n IH Hin) as (st1 & E1 & _ & C & _).
    rewrite E1 in E. injection E as <-. exact C.
Qed.

(** What the invariant gives the client. *)
Lemma client_ok_facts st live :
  client_ok st live →
  (∃ F, ∀ fuel, (F <= fuel)%nat → mm_check fuel st = Ok (1, [])) ∧
  List.NoDup (map fst live) ∧
  (∀ p n, List.In (p, n) live →
          p ≠ NULL ∧ p mod 8 = 0 ∧
          heap_listp st + 8 <= p ∧ p + n + 8 <= mem_brk st) ∧
  (∀ p n q m, List.In (p, n) live → List.In (q, m) live → p ≠ q →
              p + n + 8 <= q ∨ q + m + 8 <= p).
Proof.
  intros (L & bl & HK & NAF & ND & Hlive). split; [| split; [exact ND | split]].
  - exists (S (S (length bl))). intros fuel Hf.
    apply (mm_check_heap st L bl HK NAF). lia.
  - intros p n Hin. destruct (Hlive _ _ Hin) as (t & Ht & Hn).
    destruct (client_block _ _ _ _ _ HK Ht) as (H8 & Hpos & Hbrk & _).
    unfold NULL. repeat split; lia.
  - intros p n q m Hp Hq Hne.
    destruct (Hlive _ _ Hp) as (t & Ht & Hn).
    destruct (Hlive _ _ Hq) as (t' & Ht' & Hm).
    destruct (blocks_apart _ _ _ _ _ _ _ _ _ (hk_tiles _ _ _ HK) Ht Ht')
      as [(Epq & _) | [H | H]]; [contradiction | lia | lia].
Qed.


(** ** The heap invariant on concrete heaps *)

Lemma lists_ok_init : lists_ok st_init L_init.
Proof.
  constructor.
  - unfold sane. split; [| split; [| split]]; zfact.
  - solve_heads L_init.
  - intros k b Hk Hb. case_k k Hk; members Hb; solve_placed.
  - intros k Hk. case_k k Hk;
      lazymatch goal with
      | |- List.NoDup (L_init ?j) =>
          let l := eval vm_compute in (L_init j) in change (L_init j) with l
      end;
      repeat constructor; simpl; intuition discriminate.
  - intros k k' b Hk Hk' Hb Hb'.
    case_k k Hk; members Hb; case_k k' Hk'; members Hb'; reflexivity.
Qed.

Lemma first_block_init : first_block st_init = 65600.
Proof. vm_compute; reflexivity. Qed.

Lemma heap_ok_init : heap_ok st_init L_init [(32, 0)].
Proof.
  constructor.
  - exact lists_ok_init.
  - vm_compute; reflexivity.
  - vm_compute; reflexivity.
  - split; vm_compute; reflexivity.
  - cbn [tiles]. split; [lia |]. split; [reflexivity |]. split; [auto |].
    split; [vm_compute; reflexivity |]. split; [vm_compute; reflexivity | exact I].
  - vm_compute; reflexivity.
  - vm_compute; discriminate.
  - vm_compute; reflexivity.
  - intros m s H. unfold heap_blocks in H. rewrite first_block_init in H.
    destruct H as [H | []]. injection H as <- <-. vm_compute. auto.
  - intros k m Hk Hm. case_k k Hk; members Hm. exists 32. left. vm_compute; reflexivity.
Qed.

Lemma lists_ok_full : lists_ok st_full L_none.
Proof.
  apply lists_ok_none.
  - unfold sane. split; [| split; [| split]]; zfact.
  - intros k Hk. case_k k Hk; vm_compute; reflexivity.
Qed.

Lemma heap_ok_full : heap_ok st_full L_none [(32, 1)].
Proof.
  constructor.
  - exact lists_ok_full.
  - vm_compute; reflexivity.
  - vm_compute; reflexivity.
  - split; vm_compute; reflexivity.
  - cbn [tiles]. split; [lia |]. split; [reflexivity |]. split; [auto |].
    split; [vm_compute; reflexivity |]. split; [vm_compute; reflexivity | exact I].
  - vm_compute; reflexivity.
  - vm_compute; discriminate.
  - vm_compute; reflexivity.
  - intros m s [H | []].
    pose proof (f_equal (λ x, snd (snd x)) H) as Ha. cbn [fst snd] in Ha. discriminate Ha.
  - intros k m Hk [].
Qed.

Lemma Ok_pair_inv {A B} (a a' : A) (b b' : B) :
  Ok (a, b) = Ok (a', b') → a = a' ∧ b = b'.
Proof. intros H. injection H as -> ->. auto. Qed.

(** ** The allocator on a well-formed heap *)

(** X10: [mm_init] by the room the region provider has left.  With at least
    96 bytes it returns 0 and leaves a well-formed heap whose only block is
    one free block of 32 bytes, which the checker accepts; the directory of
    list heads starts at the old break and the break has moved by 96 bytes.
    With 48 to 95 bytes the directory is obtained but a later request is
    refused, and it returns -1.  With less than 48 bytes the first request
    is refused, its result is not tested, and the loop that clears the
    directory stores through it: the call faults. *)
Theorem mm_init_by_room st :
  0 < mem_start_brk st <= mem_brk st → mem_brk st mod 8 = 0 →
  mem_max_addr st < 2 ^ 32 →
  (mem_brk st + 96 <= mem_max_addr st →
     ∃ st' L', mm_init st = Ok (st', 0) ∧ heap_ok st' L' [(32, 0)] ∧
               (∀ fuel, (2 < fuel)%nat → mm_check fuel st' = Ok (1, [])) ∧
               freelist_p st' = mem_brk st ∧ mem_brk st' = mem_brk st + 96 ∧
               mem_start_brk st' = mem_start_brk st ∧
               mem_max_addr st' = mem_max_addr st) ∧
  (mem_brk st + 48 <= mem_max_addr st < mem_brk st + 96 →
     ∃ st', mm_init st = Ok (st', -1)) ∧
  (mem_max_addr st < mem_brk st + 48 → mm_init st = Fault).
Proof.
  intros Hstart Hal Hmax. split; [| split].
  - intros Hroom.
    destruct (mm_init_heap st Hstart Hal Hmax Hroom) as (st' & L' & E & HK & R).
    exists st', L'. split; [exact E |]. split; [exact HK |]. split; [| exact R].
    intros fuel Hf. apply (mm_check_heap st' L' [(32, 0)] HK); [simpl; tauto |].
    simpl. lia.
  - apply (mm_init_no_room st Hstart Hal Hmax).
  - apply (mm_init_faults st Hmax).
Qed.

Lemma mm_init_by_room_witness :
  (∃ st' L', mm_init st_fresh = Ok (st', 0) ∧ heap_ok st' L' [(32, 0)] ∧
             mm_check 64 st' = Ok (1, [])) ∧
  (∃ st', mm_init (mkState ∅ 65536 65536 (65536 + 64) 0 0) = Ok (st', -1)) ∧
  mm_init (mkState ∅ 65536 65536 (65536 + 40) 0 0) = Fault.
Proof.
  split; [| split].
  - destruct (mm_init_by_room st_fresh) as (H & _ & _);
      [split; zfact | reflexivity | reflexivity |].
    destruct H as (st' & L' & E & HK & C & _); [vm_compute; discriminate |].
    exists st', L'. split; [exact E |]. split; [exact HK |]. apply C. lia.
  - destruct (mm_init_by_room (mkState ∅ 65536 65536 (65536 + 64) 0 0)) as (_ & H & _);
      [split; zfact | reflexivity | reflexivity |].
    apply H. split; vm_compute; [discriminate | reflexivity].
  - destruct (mm_init_by_room (mkState ∅ 65536 65536 (65536 + 40) 0 0)) as (_ & _ & H);
      [split; zfact | reflexivity | reflexivity |].
    apply H. vm_compute; reflexivity.
Defined.

(** X11: [mm_free] on an allocated block of a well-formed heap returns to a
    well-formed heap.  The provider's registers are unchanged; every other
    allocated block keeps its place, size and payload bytes; no block
    becomes allocated; the freed bytes lie inside one free block of the new
    heap; and a heap without adjacent free blocks stays so. *)
Theorem mm_free_keeps_heap st L bl p s :
  heap_ok st L bl → List.In (p, (s, 1)) (heap_blocks st bl) →
  ∃ st' L' bl',
    mm_free st p = Ok st' ∧ heap_ok st' L' bl' ∧ same_regs st st' ∧
    (∀ q t, List.In (q, (t, 1)) (heap_blocks st bl) → q ≠ p →
            List.In (q, (t, 1)) (heap_blocks st' bl') ∧
            ∀ a, q <= a < q + t - 8 → raw_at st' a = raw_at st a) ∧
    (∀ q t, List.In (q, (t, 1)) (heap_blocks st' bl') →
            List.In (q, (t, 1)) (heap_blocks st bl) ∧ q ≠ p) ∧
    (∃ r tot, List.In (r, (tot, 0)) (heap_blocks st' bl') ∧
              r <= p ∧ p + s <= r + tot) ∧
    (no_adjacent_free bl → no_adjacent_free bl').
Proof.
  intros HK Hp.
  destruct (blocks_In_split _ _ _ _ _ Hp) as (l1 & l2 & -> & ->).
  exact (mm_free_heap st L l1 s l2 HK).
Qed.

Lemma mm_free_keeps_heap_witness :
  heap_ok st_full L_none [(32, 1)] ∧
  List.In (65600, (32, 1)) (heap_blocks st_full [(32, 1)]) ∧
  ∃ st' L' bl', mm_free st_full 65600 = Ok st' ∧ heap_ok st' L' bl' ∧
                ∃ r tot, List.In (r, (tot, 0)) (heap_blocks st' bl') ∧
                         r <= 65600 ∧ 65600 + 32 <= r + tot.
Proof.
  assert (Hin : List.In (65600, (32, 1)) (heap_blocks st_full [(32, 1)]))
    by (left; vm_compute; reflexivity).
  split; [exact heap_ok_full |]. split; [exact Hin |].
  destruct (mm_free_keeps_heap st_full L_none [(32, 1)] 65600 32 heap_ok_full Hin)
    as (st' & L' & bl' & E & HK & _ & _ & _ & Hfree & _).
  exists st', L', bl'. split; [exact E |]. split; [exact HK | exact Hfree].
Defined.

(** X12: [mm_malloc(n)] on a well-formed heap, for [0 < n] with
    [n + 15 < 2^32].  Either it returns null and leaves the state as it is:
    then the list of the class of the adjusted size holds no fit and the
    provider has no room for [max(adjusted size, CHUNKS)] bytes.  Or it
    returns an 8-byte aligned pointer to an allocated block of at least
    [n + 8] bytes in a heap that is again well formed, in which every block
    that was allocated is still allocated at the same place with the same
    size and payload bytes, the new block is the only new allocated block
    and is disjoint from every block that was allocated; a heap without
    adjacent free blocks stays so. *)
Theorem mm_malloc_on_heap st L bl fuel n :
  heap_ok st L bl → 0 < n → n + 15 < 2 ^ 32 → (length bl < fuel)%nat →
  (mm_malloc fuel st n = Ok (st, NULL) ∧
   mem_max_addr st < mem_brk st + Z.max (adjust_size n) CHUNKS ∧
   find_fit fuel st (adjust_size n) = Ok NULL)
  ∨
  (∃ st' L' bl' r used,
     mm_malloc fuel st n = Ok (st', r) ∧ heap_ok st' L' bl' ∧
     List.In (r, (used, 1)) (heap_blocks st' bl') ∧
     n + 8 <= used ∧ r mod 8 = 0 ∧
     (∀ q t, List.In (q, (t, 1)) (heap_blocks st bl) →
             List.In (q, (t, 1)) (heap_blocks st' bl') ∧
             ∀ a, q <= a < q + t - 8 → raw_at st' a = raw_at st a) ∧
     (∀ q t, List.In (q, (t, 1)) (heap_blocks st' bl') → q ≠ r →
             List.In (q, (t, 1)) (heap_blocks st bl)) ∧
     (∀ q t, List.In (q, (t, 1)) (heap_blocks st bl) →
             q + t <= r ∨ r + used <= q) ∧
     (no_adjacent_free bl → no_adjacent_free bl')).
Proof.
  intros HK Hn Hn32 Hfuel. exact (mm_malloc_heap st L bl HK fuel n Hn Hn32 Hfuel).
Qed.

Lemma mm_malloc_on_heap_witness :
  heap_ok st_init L_init [(32, 0)] ∧
  ∃ st' L' bl' used,
    mm_malloc 64 st_init 24 = Ok (st', 65600) ∧ heap_ok st' L' bl' ∧
    List.In (65600, (used, 1)) (heap_blocks st' bl') ∧ 24 + 8 <= used.
Proof.
  split; [exact heap_ok_init |].
  assert (M : mm_malloc 64 st_init 24 = Ok (st_full, 65600)) by run_ok.
  destruct (mm_malloc_on_heap st_init L_init [(32, 0)] 64 24 heap_ok_init)
    as [(E & _) | (st' & L' & bl' & r & used & E & HK & Hr & Hu & _)];
    [lia | reflexivity | simpl; lia | |].
  - rewrite M in E. apply Ok_pair_inv in E. destruct E as [_ E]. discriminate E.
  - rewrite M in E. apply Ok_pair_inv in E. destruct E as [<- <-].
    exists st_full, L', bl', used. split; [exact M |]. auto.
Defined.

(** X13: the checker accepts every well-formed heap without adjacent free
    blocks: with fuel for the blocks of the heap [mm_check] returns 1 and
    prints nothing. *)
Theorem mm_check_accepts st L bl fuel :
  heap_ok st L bl → no_adjacent_free bl → (length bl + 1 < fuel)%nat →
  mm_check fuel st = Ok (1, []).
Proof. intros HK NAF Hf. exact (mm_check_heap st L bl HK NAF fuel Hf). Qed.

Lemma mm_check_accepts_witness :
  heap_ok st_full L_none [(32, 1)] ∧ no_adjacent_free [(32, 1)] ∧
  mm_check 3 st_full = Ok (1, []).
Proof.
  assert (N : no_adjacent_free [(32, 1)]) by (simpl; tauto).
  split; [exact heap_ok_full |]. split; [exact N |].
  apply (mm_check_accepts st_full L_none [(32, 1)] 3 heap_ok_full N). simpl. lia.
Defined.

(** X14: [extend_heap(words)] on a well-formed heap, for a request of at
    least 16 bytes after rounding.  When the provider has no room it
    returns null and leaves the state as it is.  Otherwise the break moves
    by exactly the requested bytes, the heap is again well formed, the
    result is a free block that ends at the new break and holds at least
    the requested bytes (more when the old last block was free and was
    merged), every allocated block keeps its place, size and payload bytes
    and no block becomes allocated. *)
Theorem extend_heap_keeps_heap st L bl words :
  heap_ok st L bl → 16 <= wrap (WSIZE * (words + words mod 2)) →
  let bytes := wrap (WSIZE * (words + words mod 2)) in
  (mem_max_addr st < mem_brk st + bytes ∧ extend_heap st words = Ok (st, NULL))
  ∨
  (mem_brk st + bytes <= mem_max_addr st ∧
   ∃ st' L' bl' r tot,
     extend_heap st words = Ok (st', r) ∧ heap_ok st' L' bl' ∧
     heap_listp st' = heap_listp st ∧ freelist_p st' = freelist_p st ∧
     mem_start_brk st' = mem_start_brk st ∧ mem_max_addr st' = mem_max_addr st ∧
     mem_brk st' = mem_brk st + bytes ∧
     List.In (r, (tot, 0)) (heap_blocks st' bl') ∧ bytes <= tot ∧
     r + tot = mem_brk st' ∧
     (∀ q t, List.In (q, (t, 1)) (heap_blocks st bl) →
             List.In (q, (t, 1)) (heap_blocks st' bl') ∧
             ∀ a, q <= a < q + t - 8 → raw_at st' a = raw_at st a) ∧
     (∀ q t, List.In (q, (t, 1)) (heap_blocks st' bl') →
             List.In (q, (t, 1)) (heap_blocks st bl)) ∧
     (no_adjacent_free bl → no_adjacent_free bl')).
Proof.
  intros HK Hw. exact (extend_heap_heap st L bl HK words Hw).
Qed.

Lemma extend_heap_keeps_heap_witness :
  heap_ok st_init L_init [(32, 0)] ∧
  16 <= wrap (WSIZE * (9 + 9 mod 2)) ∧
  ∃ st' L' bl' r tot,
    extend_heap st_init 9 = Ok (st', r) ∧ heap_ok st' L' bl' ∧
    mem_brk st' = mem_brk st_init + 40 ∧
    List.In (r, (tot, 0)) (heap_blocks st' bl') ∧ 40 <= tot.
Proof.
  assert (Hw : 16 <= wrap (WSIZE * (9 + 9 mod 2))) by (vm_compute; discriminate).
  split; [exact heap_ok_init |]. split; [exact Hw |].
  destruct (extend_heap_keeps_heap st_init L_init [(32, 0)] 9 heap_ok_init Hw)
    as [(Hno & _) | (_ & st' & L' & bl' & r & tot & E & HK & _ & _ & _ & _ & Hb & Hr & Ht & _)].
  - exfalso. vm_compute in Hno. discriminate Hno.
  - exists st', L', bl', r, tot. split; [exact E |]. split; [exact HK |].
    split; [exact Hb |]. split; [exact Hr | exact Ht].
Defined.

(** ** Sequences of calls *)

(** X15: every state a client reaches from a successful [mm_init] by calls
    of [mm_malloc], by calls of [mm_free] on blocks it holds and by stores
    into the requested bytes of blocks it holds, is a well-formed heap
    without adjacent free blocks, and [mm_check] returns 1 on it without a
    diagnostic.  The blocks the client holds have distinct, non-null, 8-byte
    aligned addresses inside the heap, their requested byte ranges are
    pairwise disjoint (at least two words apart), each of them can be
    freed, and each of their requested bytes can be stored to. *)
Theorem malloc_free_traces st0 st live :
  0 < mem_start_brk st0 <= mem_brk st0 → mem_brk st0 mod 8 = 0 →
  mem_max_addr st0 < 2 ^ 32 →
  reaches st0 st live →
  (∃ L bl, heap_ok st L bl ∧ no_adjacent_free bl) ∧
  (∃ F, ∀ fuel, (F <= fuel)%nat → mm_check fuel st = Ok (1, [])) ∧
  List.NoDup (map fst live) ∧
  (∀ p n, List.In (p, n) live →
          p ≠ NULL ∧ p mod 8 = 0 ∧
          heap_listp st + 8 <= p ∧ p + n + 8 <= mem_brk st) ∧
  (∀ p n q m, List.In (p, n) live → List.In (q, m) live → p ≠ q →
              p + n + 8 <= q ∨ q + m + 8 <= p) ∧
  (∀ p n, List.In (p, n) live → ∃ st', mm_free st p = Ok st') ∧
  (∀ p n a v, List.In (p, n) live → p <= a < p + n →
              ∃ st', store8 st a v = Ok st').
Proof.
  intros Hstart Hal Hmax H.
  pose proof (reaches_client_ok st0 st live Hstart Hal Hmax H) as C.
  destruct (client_ok_facts st live C) as (H1 & H2 & H3 & H4).
  split; [destruct C as (L & bl & HK & NAF & _); eauto |].
  split; [exact H1 |]. split; [exact H2 |]. split; [exact H3 |].
  split; [exact H4 |]. split.
  - intros p n Hin. destruct (client_ok_free st live p n C Hin) as (st' & E & _).
    eauto.
  - intros p n a v Hin Ha.
    destruct (client_ok_store st live p n a v C Hin Ha) as (st' & E & _). eauto.
Qed.

Lemma malloc_free_traces_witness :
  reaches st_fresh st_full [(65600, 24)] ∧
  (∃ F, ∀ fuel, (F <= fuel)%nat → mm_check fuel st_full = Ok (1, [])) ∧
  (∃ st', mm_free st_full 65600 = Ok st') ∧
  (∃ st', store8 st_full 65623 Byte.xff = Ok st').
Proof.
  assert (E0 : mm_init st_fresh = Ok (st_init, 0)) by run_ok.
  assert (E1 : mm_malloc 64 st_init 24 = Ok (st_full, 65600)) by run_ok.
  assert (B : 24 + 15 < 2 ^ 32) by reflexivity.
  assert (R : reaches st_fresh st_full [(65600, 24)])
    by exact (reach_malloc st_fresh st_init [] 64 24 st_full 65600
                (reach_init st_fresh st_init E0) ltac:(lia) B E1).
  split; [exact R |].
  destruct (malloc_free_traces st_fresh st_full [(65600, 24)])
    as (_ & C & _ & _ & _ & F & S);
    [split; zfact | reflexivity | reflexivity | exact R |].
  split; [exact C |]. split.
  - apply (F 65600 24). left; reflexivity.
  - apply (S 65600 24 65623 Byte.xff); [left; reflexivity | lia].
Defined.

(** X16: the allocator never touches the bytes a client holds.  In every
    state reached as above, a call of [mm_malloc] leaves each requested byte
    of each held block as it is (and a call that returns null leaves the
    whole state as it is), and a call of [mm_free] on a held block leaves
    each requested byte of the other held blocks as it is and changes none
    of the provider's registers. *)
Theorem held_bytes_undisturbed st0 st live :
  0 < mem_start_brk st0 <= mem_brk st0 → mem_brk st0 mod 8 = 0 →
  mem_max_addr st0 < 2 ^ 32 →
  reaches st0 st live →
  (∀ fuel n st' r, 0 < n → n + 15 < 2 ^ 32 →
     mm_malloc fuel st n = Ok (st', r) →
     (r = NULL → st' = st) ∧
     ∀ p m a, List.In (p, m) live → p <= a < p + m →
              raw_at st' a = raw_at st a) ∧
  (∀ p n st', List.In (p, n) live → mm_free st p = Ok st' →
     same_regs st st' ∧
     ∀ q m a, List.In (q, m) live → q ≠ p → q <= a < q + m →
              raw_at st' a = raw_at st a).
Proof.
  intros Hstart Hal Hmax H.
  pose proof (reaches_client_ok st0 st live Hstart Hal Hmax H) as C. split.
  - intros fuel n st' r Hn Hn32 E.
    destruct (client_ok_malloc st live fuel n st' r C Hn Hn32 E) as (_ & H1 & H2).
    auto.
  - intros p n st' Hin E.
    destruct (client_ok_free st live p n C Hin) as (st1 & E1 & R & _ & K).
    rewrite E1 in E. injection E as <-. auto.
Qed.

Lemma held_bytes_undisturbed_witness :
  reaches st_fresh st_full [(65600, 24)] ∧
  ∃ st', mm_malloc 64 st_full 100 = Ok (st', 65632) ∧
         raw_at st' 65607 = raw_at st_full 65607.
Proof.
  assert (E0 : mm_init st_fresh = Ok (st_init, 0)) by run_ok.
  assert (E1 : mm_malloc 64 st_init 24 = Ok (st_full, 65600)) by run_ok.
  assert (E2 : mm_malloc 64 st_full 100
               = Ok (state_of (mm_malloc 64 st_full 100), 65632)) by run_ok.
  assert (B : 24 + 15 < 2 ^ 32) by reflexivity.
  assert (R : reaches st_fresh st_full [(65600, 24)])
    by exact (reach_malloc st_fresh st_init [] 64 24 st_full 65600
                (reach_init st_fresh st_init E0) ltac:(lia) B E1).
  split; [exact R |].
  destruct (held_bytes_undisturbed st_fresh st_full [(65600, 24)]) as (M & _);
    [split; zfact | reflexivity | reflexivity | exact R |].
  exists (state_of (mm_malloc 64 st_full 100)). split; [exact E2 |].
  destruct (M 64%nat 100 _ 65632 ltac:(lia) ltac:(reflexivity) E2) as (_ & K).
  apply (K 65600 24 65607); [left; reflexivity | lia].
Defined.


(** ** [mm_realloc] in place *)

Section Retag.

Variables (st : state) (L : Z → list Z) (lo hi : Z).
Hypothesis Hs : sane st.
Hypothesis Hlo : freelist_p st + 4 * numlists <= lo.
Hypothesis Hhi : hi <= mem_max_addr st.

(** Writing the header and the footer of a block inside a region that holds
    no link word of a listed block. *)
Lemma mark_block st1 L1 bp size a :
  same_regs st st1 → lists_ok st1 L1 →
  lo <= bp - 4 → bp + size - 4 <= hi → 16 <= size → size mod 8 = 0 →
  a = 0 ∨ a = 1 →
  (∀ j m, 0 <= j < numlists → List.In m (L1 j) → m + 8 <= lo ∨ hi <= m) →
  frame (λ x, untouched st L x ∧ (x < lo ∨ hi <= x)) st st1 →
  ∃ st2 st3,
    PUT st1 (HDRP bp) (PACK size a) = Ok st2 ∧
    FTRP st2 bp = Ok (bp + size - 8) ∧
    PUT st2 (bp + size - 8) (PACK size a) = Ok st3 ∧
    same_regs st st3 ∧ lists_ok st3 L1 ∧
    GET st3 (bp - 4) = Ok (size + a) ∧ GET st3 (bp + size - 8) = Ok (size + a) ∧
    frame (λ x, untouched st L x ∧ (x < lo ∨ hi <= x)) st st3 ∧
    frame (λ x, x < bp - 4 ∨ bp <= x < bp + size - 8 ∨ bp + size - 4 <= x) st1 st3.
Proof.
  intros R1 Ok1 Hb1 Hb2 H16 H8 Ha Cl F1.
  pose proof Hs as (S1 & S2 & S3 & S4). unfold numlists in *.
  assert (E : HDRP bp = bp - 4) by (unfold HDRP, WSIZE; apply wrap_small; lia).
  assert (Ep : PACK size a = size + a).
  { destruct Ha as [-> | ->]; [rewrite PACK_0; lia | apply PACK_1; lia]. }
  assert (Ew : wrap (size + a) = size + a)
    by (apply wrap_small; change (2 ^ 32) with 4294967296 in *; lia).
  destruct (region_PUT st st1 L L1 lo hi (bp - 4) (PACK size a))
    as (st2 & P2 & R2 & Ok2 & G2 & N2 & F2);
    [exact Hs | exact R1 | exact Ok1 | unfold numlists; lia | lia | lia | lia
    | intros j m Hj Hm; destruct (Cl j m Hj Hm); lia | exact F1 |].
  assert (Hh2 : GET_SIZE st2 (HDRP bp) = Ok size).
  { rewrite E. eapply GET_SIZE_PUT_eq; [exact P2 | | exact H8 | exact Ha].
    change (2 ^ 32) with 4294967296 in *. lia. }
  assert (Ft2 : FTRP st2 bp = Ok (bp + size - 8)).
  { rewrite (FTRP_val _ _ _ Hh2). f_equal. apply wrap_small. unfold DSIZE.
    change (2 ^ 32) with 4294967296 in *. lia. }
  destruct (region_PUT st st2 L L1 lo hi (bp + size - 8) (PACK size a))
    as (st3 & P3 & R3 & Ok3 & G3 & N3 & F3);
    [exact Hs | exact R2 | exact Ok2 | unfold numlists; lia | lia | lia | lia
    | intros j m Hj Hm; destruct (Cl j m Hj Hm); lia | exact F2 |].
  exists st2, st3. rewrite E. split; [exact P2 |]. split; [exact Ft2 |].
  split; [exact P3 |]. split; [exact R3 |]. split; [exact Ok3 |].
  split; [rewrite N3 by lia; rewrite G2, Ep, Ew; reflexivity |].
  split; [rewrite G3, Ep, Ew; reflexivity |].
  split; [exact F3 |].
  eapply frame_weaken;
    [| eapply frame_trans; [exact (PUT_frame _ _ _ _ P2) | exact (PUT_frame _ _ _ _ P3)]].
  cbv beta. unfold outside_word. intros x Hx. lia.
Qed.

(** Splitting a stretch of [csize] bytes into an allocated block of [asize]
    bytes and a free remainder, which enters the list of its class. *)
Lemma split_block st1 L1 bp csize asize :
  same_regs st st1 → lists_ok st1 L1 →
  bp mod 8 = 0 → lo <= bp - 4 → bp + csize - 4 <= hi →
  16 <= asize → asize mod 8 = 0 → 16 <= csize - asize → csize mod 8 = 0 →
  (∀ j m, 0 <= j < numlists → List.In m (L1 j) →
          List.In m (L j) ∧ (m + 8 <= lo ∨ hi <= m)) →
  frame (λ x, untouched st L x ∧ (x < lo ∨ hi <= x)) st st1 →
  ∃ st2 st3 st4 st5 st6,
    PUT st1 (HDRP bp) (PACK asize 1) = Ok st2 ∧
    FTRP st2 bp = Ok (bp + asize - 8) ∧
    PUT st2 (bp + asize - 8) (PACK asize 1) = Ok st3 ∧
    NEXT_BLKP st3 bp = Ok (bp + asize) ∧
    PUT st3 (HDRP (bp + asize)) (PACK (csize - asize) 0) = Ok st4 ∧
    FTRP st4 (bp + asize) = Ok (bp + csize - 8) ∧
    PUT st4 (bp + csize - 8) (PACK (csize - asize) 0) = Ok st5 ∧
    ADD_free st5 (bp + asize) (csize - asize) = Ok st6 ∧
    same_regs st st6 ∧
    lists_ok st6 (L_ins (list_num (csize - asize)) (bp + asize) L1) ∧
    GET st6 (bp - 4) = Ok (asize + 1) ∧
    GET st6 (bp + asize - 8) = Ok (asize + 1) ∧
    GET st6 (bp + asize - 4) = Ok (csize - asize) ∧
    GET st6 (bp + csize - 8) = Ok (csize - asize) ∧
    frame (λ x, untouched st L x ∧ (x < lo ∨ hi <= x)) st st6 ∧
    frame (λ x, bp <= x < bp + asize - 8) st1 st6.
Proof.
  intros R1 Ok1 Hal Hb1 Hb2 Ha16 Ha8 Hrem Hc8 Cl F1.
  pose proof Hs as (S1 & S2 & S3 & S4).
  set (rem := csize - asize) in *.
  assert (Hr8 : rem mod 8 = 0) by (subst rem; lia).
  assert (Cl' : ∀ j m, 0 <= j < numlists → List.In m (L1 j) → m + 8 <= lo ∨ hi <= m).
  { intros j m Hj Hm. apply (Cl j m Hj Hm). }
  destruct (mark_block st1 L1 bp asize 1 R1 Ok1)
    as (st2 & st3 & P2 & Ft2 & P3 & R3 & Ok3 & G2 & G3 & F3 & K3);
    [lia | lia | lia | exact Ha8 | auto | exact Cl' | exact F1 |].
  assert (Hh3 : GET_SIZE st3 (HDRP bp) = Ok asize).
  { assert (E : HDRP bp = bp - 4).
    { unfold HDRP, WSIZE. apply wrap_small. unfold numlists in *. lia. }
    rewrite E. apply (tag_reads _ _ _ _ G2); [lia | exact Ha8 | auto]. }
  assert (Nx3 : NEXT_BLKP st3 bp = Ok (bp + asize)).
  { rewrite (NEXT_BLKP_val _ _ _ Hh3). f_equal. apply wrap_small.
    unfold numlists in *. change (2 ^ 32) with 4294967296 in *. lia. }
  destruct (mark_block st3 L1 (bp + asize) rem 0 R3 Ok3)
    as (st4 & st5 & P4 & Ft4 & P5 & R5 & Ok5 & G4 & G5 & F5 & K5);
    [subst rem; lia | subst rem; lia | lia | exact Hr8 | auto | exact Cl' | exact F3 |].
  replace (bp + asize + rem - 8) with (bp + csize - 8) in * by (subst rem; lia).
  rewrite Z.add_0_r in G4, G5.
  assert (Pf : placed st5 (bp + asize)).
  { eapply placed_regs; [exact R5 |]. unfold placed, numlists in *.
    subst rem. split; [lia |]. lia. }
  assert (Fr : ∀ j, 0 <= j < numlists → ¬ List.In (bp + asize) (L1 j)).
  { intros j Hj Hin. destruct (Cl' j _ Hj Hin); subst rem; lia. }
  destruct (ADD_free_spec st5 L1 (bp + asize) rem _ Ok5 Pf Fr eq_refl)
    as (st6 & HA & Ok6 & F6).
  assert (In6 : ∀ j m, List.In m (L_ins (list_num rem) (bp + asize) L1 j) →
                       m = bp + asize ∨ List.In m (L1 j)).
  { intros j m Hin. unfold L_ins in Hin.
    destruct (j =? list_num rem); [destruct Hin; auto | auto]. }
  assert (Keep : ∀ t, lo <= t → t + 4 <= hi →
                      t + 4 <= bp + asize ∨ bp + asize + 8 <= t →
                      GET st6 t = GET st5 t).
  { intros t T1 T2 T3. eapply untouched_GET; [exact F6 | |].
    - destruct R5 as (_ & _ & _ & _ & ->). lia.
    - intros j m Hj Hin. destruct (In6 j m Hin) as [-> | Hm]; [lia |].
      destruct (Cl' j m Hj Hm); lia. }
  assert (W35 : ∀ t, t + 4 <= bp + asize - 4 → GET st5 t = GET st3 t).
  { intros t Ht. apply (frame_GET_word _ _ _ _ K5). intros x Hx. lia. }
  exists st2, st3, st4, st5, st6.
  split; [exact P2 |]. split; [exact Ft2 |]. split; [exact P3 |].
  split; [exact Nx3 |]. split; [exact P4 |]. split; [exact Ft4 |].
  split; [exact P5 |]. split; [exact HA |].
  split; [eapply same_regs_trans; [exact R5 | apply F6] |].
  split; [exact Ok6 |].
  split; [rewrite Keep, W35 by (subst rem; lia); exact G2 |].
  split; [rewrite Keep, W35 by (subst rem; lia); exact G3 |].
  split; [rewrite Keep by (subst rem; lia); exact G4 |].
  split; [rewrite Keep by (subst rem; lia); exact G5 |].
  split.
  - eapply frame_weaken; [| eapply frame_trans; [exact F5 | exact F6]].
    cbv beta. intros x [Hx Hout]. split; [split; assumption |].
    destruct Hx as [Hd Hc']. split.
    + unfold in_directory in *. destruct R5 as (_ & _ & _ & _ & ->). exact Hd.
    + intros j m Hj Hin. destruct (In6 j m Hin) as [-> | Hm].
      * unfold in_cells. subst rem. lia.
      * apply (Hc' j m Hj). apply (Cl j m Hj Hm).
  - eapply frame_weaken;
      [| eapply frame_trans; [eapply frame_trans; [exact K3 | exact K5] | exact F6]].
    cbv beta. intros x Hx. split; [split; lia |]. split.
    + unfold in_directory. destruct R5 as (_ & _ & _ & _ & ->). lia.
    + intros j m Hj Hin. unfold in_cells.
      destruct (In6 j m Hin) as [-> | Hm]; [lia |].
      destruct (Cl' j m Hj Hm); lia.
Qed.

End Retag.

Section ReallocInPlace.

Variables (st : state) (L : Z → list Z) (l1 : list (Z * Z)) (t : Z) (l2 : list (Z * Z)).
Hypothesis HK : heap_ok st L (l1 ++ (t, 1) :: l2).
Variable n : Z.
Hypothesis Hn : 0 < n.
Hypothesis Hn31 : n + 7 < 2 ^ 31.

(** The tests at the head of [mm_realloc], for a held block and a size
    that is positive as a signed number after rounding. *)
Lemma realloc_entry :
  let p := first_block st + span l1 in
  GET_SIZE st (HDRP p) = Ok t ∧ (p =? NULL) = false ∧
  int_negative (ALIGN n) = false ∧ (wrap (ALIGN n) =? 0) = false ∧
  wrap (ALIGN n + DSIZE) = ALIGN n + 8 ∧
  ALIGN n mod 8 = 0 ∧ n <= ALIGN n < n + 8 ∧
  List.In (p, (t, 1)) (heap_blocks st (l1 ++ (t, 1) :: l2)) ∧
  HDRP p = p - 4 ∧
  (∀ j m, 0 <= j < numlists → List.In m (L j) →
          ∃ s, List.In (m, (s, 0)) (heap_blocks st (l1 ++ (t, 1) :: l2)) ∧
               (m + s <= p ∨ p + t <= m)).
Proof.
  intros p. pose proof (heap_ok_shape _ _ _ HK) as HS.
  destruct (hs_layout _ _ _ HS) as (Hs & Hfb & Hb8 & Hsp & Hbrk32 & Hfl).
  assert (Bp : List.In (p, (t, 1)) (heap_blocks st (l1 ++ (t, 1) :: l2)))
    by apply blocks_In_middle.
  destruct (hs_block _ _ _ HS _ _ _ Bp) as (B1 & B2 & B3 & B4 & _ & B6 & _ & B8).
  assert (E : HDRP p = p - 4).
  { unfold HDRP, WSIZE. apply wrap_small. lia. }
  assert (Ev : ALIGN n = 8 * ((n + 7) / 8)).
  { rewrite ALIGN_value. rewrite wrap_small; [reflexivity |].
    change (2 ^ 31) with 2147483648 in *. change (2 ^ 32) with 4294967296. lia. }
  change (2 ^ 31) with 2147483648 in *.
  split; [rewrite E; apply (tag_reads _ _ _ _ B6); [lia | exact B4 | auto] |].
  split; [apply Z.eqb_neq; unfold NULL; lia |].
  split.
  { unfold int_negative. apply Z.leb_gt. rewrite wrap_small;
      change (2 ^ 31) with 2147483648; change (2 ^ 32) with 4294967296; lia. }
  split.
  { apply Z.eqb_neq. rewrite wrap_small; change (2 ^ 32) with 4294967296; lia. }
  split.
  { unfold DSIZE. apply wrap_small. change (2 ^ 32) with 4294967296. lia. }
  split; [lia |]. split; [lia |]. split; [exact Bp |]. split; [exact E |].
  intros j m Hj Hm. destruct (hk_free _ _ _ HK j m Hj Hm) as [s Hs'].
  exists s. split; [exact Hs' |].
  destruct (blocks_apart _ _ _ _ _ _ _ _ _ (hk_tiles _ _ _ HK) Hs' Bp)
    as [(_ & _ & C) | [H | H]]; [discriminate C | auto | auto].
Qed.

(** The new size fits with at most 16 bytes to spare: nothing is done. *)
Lemma realloc_same fuel :
  ALIGN n + 8 <= t <= ALIGN n + 24 →
  mm_realloc fuel st (first_block st + span l1) n = Ok (st, first_block st + span l1).
Proof.
  intros Hfit.
  destruct realloc_entry as (Hsz & Hnull & Hneg & Hnz & Enb & _).
  unfold mm_realloc. cbv zeta. rd Hsz. rewrite Hnull, Hneg, Hnz, Enb.
  destruct (Z.eqb_spec (ALIGN n + 8) t) as [| Hne]; [reflexivity |].
  assert (C1 : (t >? ALIGN n + 8) = true) by (rewrite Z.gtb_ltb; apply Z.ltb_lt; lia).
  rewrite C1.
  assert (C2 : (wrap (t - (ALIGN n + 8)) <=? 2 * DSIZE) = true).
  { apply Z.leb_le. unfold DSIZE. rewrite wrap_small;
      change (2 ^ 32) with 4294967296; lia. }
  rewrite C2. reflexivity.
Qed.

(** More than 16 bytes to spare: the block is split and the remainder
    becomes a free block, which is not merged with a free successor. *)
Lemma realloc_shrink fuel :
  ALIGN n + 24 < t →
  let p := first_block st + span l1 in
  let nb := ALIGN n + 8 in
  ∃ st' L',
    mm_realloc fuel st p n = Ok (st', p) ∧
    heap_ok st' L' (l1 ++ (nb, 1) :: (t - nb, 0) :: l2) ∧
    same_regs st st' ∧
    (∀ a, p <= a < p + ALIGN n → raw_at st' a = raw_at st a) ∧
    (∀ q u, List.In (q, (u, 1)) (heap_blocks st (l1 ++ (t, 1) :: l2)) → q ≠ p →
            List.In (q, (u, 1)) (heap_blocks st' (l1 ++ (nb, 1) :: (t - nb, 0) :: l2)) ∧
            ∀ a, q <= a < q + u - 8 → raw_at st' a = raw_at st a).
Proof.
  intros Hbig p nb.
  destruct realloc_entry as (Hsz & Hnull & Hneg & Hnz & Enb & Ha8 & Har & Bp & E & Cl0).
  fold p in Hsz, Hnull, Bp, E, Cl0.
  pose proof (heap_ok_shape _ _ _ HK) as HS.
  destruct (hs_layout _ _ _ HS) as (Hs & Hfb & Hb8 & Hsp & Hbrk32 & Hfl).
  destruct (hs_block _ _ _ HS _ _ _ Bp) as (B1 & B2 & B3 & B4 & _ & B6 & _ & B8).
  pose proof (hk_room _ _ _ HK) as Hroom.
  assert (Cl : ∀ j m, 0 <= j < numlists → List.In m (L j) →
                 List.In m (L j) ∧ (m + 8 <= p - 4 ∨ p + t - 4 <= m)).
  { intros j m Hj Hm. split; [exact Hm |].
    destruct (Cl0 j m Hj Hm) as (s & Hs' & Hap).
    destruct (hs_block _ _ _ HS _ _ _ Hs') as (_ & _ & S3 & _). lia. }
  destruct (split_block st L (p - 4) (p + t - 4) Hs ltac:(unfold numlists in *; lia)
              ltac:(lia) st L p t nb (same_regs_refl st) (hk_lists _ _ _ HK))
    as (st2 & st3 & st4 & st5 & st6 & P2 & Ft2 & P3 & Nx3 & P4 & Ft4 & P5 & HA
        & R6 & Ok6 & G1 & G2 & G3 & G4 & F6 & K6);
    [exact B8 | lia | lia | subst nb; lia | subst nb; lia | subst nb; lia | exact B4
    | exact Cl | apply frame_refl |].
  exists st6, (L_ins (list_num (t - nb)) (p + nb) L).
  split.
  { unfold mm_realloc. cbv zeta. rd Hsz. rewrite Hnull, Hneg, Hnz, Enb. fold nb.
    destruct (Z.eqb_spec nb t) as [C | _]; [subst nb; lia |].
    assert (C1 : (t >? nb) = true)
      by (rewrite Z.gtb_ltb; apply Z.ltb_lt; subst nb; lia).
    rewrite C1.
    assert (Er : wrap (t - nb) = t - nb).
    { apply wrap_small. subst nb. change (2 ^ 32) with 4294967296 in *. lia. }
    rewrite Er.
    assert (C2 : (t - nb <=? 2 * DSIZE) = false)
      by (apply Z.leb_gt; unfold DSIZE; subst nb; lia).
    rewrite C2. rd P2. rd Ft2. rd P3. rd Nx3. rd P4. rd Ft4. rd P5. rd HA.
    reflexivity. }
  assert (So : span [(t, 1)] = t) by (simpl; lia).
  assert (Hmid : ∀ x, List.In x (blocks_from p [(nb, 1); (t - nb, 0)]) ↔
                      x = (p, (nb, 1)) ∨ x = (p + nb, (t - nb, 0))).
  { intros x. simpl. intuition congruence. }
  destruct (heap_replace st L l1 [(t, 1)] l2 st6
              (L_ins (list_num (t - nb)) (p + nb) L) [(nb, 1); (t - nb, 0)])
    as (HK' & R & M1 & M0 & Pay).
  - exact HK.
  - simpl. lia.
  - fold p. rewrite So. exact F6.
  - exact Ok6.
  - fold p. cbn [tiles]. rewrite Z.add_0_r.
    replace (p + nb + (t - nb) - 8) with (p + t - 8) by lia.
    replace (p + nb + (t - nb)) with (p + t) by lia.
    replace (p + nb - 4) with (p + nb - 4) by lia.
    split_and!; auto; subst nb; lia.
  - fold p. intros m s' Hin. apply Hmid in Hin as [C | C]; [discriminate C |].
    injection C as -> ->. rewrite L_ins_same. left. reflexivity.
  - fold p. intros k m Hk Hin _. unfold L_ins.
    destruct (k =? _); [right |]; exact Hin.
  - fold p. rewrite So. intros k m Hk Hin.
    assert (H1 : m = p + nb ∨ List.In m (L k)).
    { unfold L_ins in Hin. destruct (k =? _); [destruct Hin; auto | auto]. }
    destruct H1 as [-> | H1].
    + left. exists (t - nb). apply Hmid. auto.
    + right. split; [exact H1 |]. destruct (Cl0 k m Hk H1) as (s & Hs' & Hap).
      destruct (hs_block _ _ _ HS _ _ _ Hs') as (_ & _ & S3 & _). lia.
  - fold p in M1, M0, Pay. rewrite So in M1, M0, Pay.
    change (l1 ++ [(t, 1)] ++ l2) with (l1 ++ (t, 1) :: l2) in M0.
    change (l1 ++ [(nb, 1); (t - nb, 0)] ++ l2)
      with (l1 ++ (nb, 1) :: (t - nb, 0) :: l2) in HK', M1.
    split; [exact HK' |]. split; [exact R |]. split.
    + intros a Ha. apply K6. subst nb. lia.
    + intros q u Hq Hne. apply M0 in Hq as [H | [H | H]].
      * split; [apply M1; auto | apply Pay; auto].
      * simpl in H. destruct H as [H | []]. injection H as <- _. contradiction.
      * split; [apply M1; auto | apply Pay; auto].
Qed.

End ReallocInPlace.


(** ** [mm_realloc] growing into the next block *)

Section ReallocGrow.

Variables (st : state) (L : Z → list Z).
Variables (l1 : list (Z * Z)) (t nsz : Z) (l2 : list (Z * Z)).
Hypothesis HK : heap_ok st L (l1 ++ (t, 1) :: (nsz, 0) :: l2).
Variable n : Z.
Hypothesis Hn : 0 < n.
Hypothesis Hn31 : n + 7 < 2 ^ 31.
Hypothesis Hgrow : t < ALIGN n + 8 <= t + nsz.

Lemma realloc_grow fuel :
  let p := first_block st + span l1 in
  let nb := ALIGN n + 8 in
  let mid := if t + nsz - nb <? 16 then [(t + nsz, 1)]
             else [(nb, 1); (t + nsz - nb, 0)] in
  ∃ st' L',
    mm_realloc fuel st p n = Ok (st', p) ∧
    heap_ok st' L' (l1 ++ mid ++ l2) ∧
    same_regs st st' ∧
    (∀ a, p <= a < p + t - 8 → raw_at st' a = raw_at st a) ∧
    (∀ q u, List.In (q, (u, 1)) (heap_blocks st (l1 ++ (t, 1) :: (nsz, 0) :: l2)) →
            q ≠ p →
            List.In (q, (u, 1)) (heap_blocks st' (l1 ++ mid ++ l2)) ∧
            ∀ a, q <= a < q + u - 8 → raw_at st' a = raw_at st a) ∧
    (no_adjacent_free (l1 ++ (t, 1) :: (nsz, 0) :: l2) →
     no_adjacent_free (l1 ++ mid ++ l2)).
Proof.
  intros p nb mid.
  destruct (realloc_entry st L l1 t ((nsz, 0) :: l2) HK n Hn Hn31)
    as (Hsz & Hnull & Hneg & Hnz & Enb & Ha8 & Har & Bp & E & Cl0).
  fold p in Hsz, Hnull, Bp, E, Cl0.
  pose proof (heap_ok_shape _ _ _ HK) as HS.
  destruct (hs_layout _ _ _ HS) as (Hs & Hfb & Hb8 & Hsp & Hbrk32 & Hfl).
  pose proof Hs as (S1 & S2 & S3 & S4).
  destruct (hs_block _ _ _ HS _ _ _ Bp) as (B1 & B2 & B3 & B4 & _ & B6 & _ & B8).
  pose proof (hk_room _ _ _ HK) as Hroom.
  pose proof (hk_tiles _ _ _ HK) as T.
  set (bl := l1 ++ (t, 1) :: (nsz, 0) :: l2) in *.
  set (next := p + t).
  set (tot := t + nsz).
  assert (Bn : List.In (next, (nsz, 0)) (heap_blocks st bl)).
  { assert (El : bl = (l1 ++ [(t, 1)]) ++ (nsz, 0) :: l2)
      by (subst bl; rewrite <- app_assoc; reflexivity).
    rewrite El. unfold heap_blocks.
    replace next with (first_block st + span (l1 ++ [(t, 1)]))
      by (rewrite span_app; simpl; subst next p; lia).
    apply blocks_In_middle. }
  destruct (hs_block _ _ _ HS _ _ _ Bn) as (N1 & N2 & N3 & N4 & _ & N6 & N7 & N8).
  pose proof (hk_free_block _ _ _ HK _ _ Bn) as FB.
  assert (En : HDRP next = next - 4).
  { unfold HDRP, WSIZE. apply wrap_small. subst next. lia. }
  assert (Hnx : NEXT_BLKP st p = Ok next).
  { rewrite (NEXT_BLKP_val _ _ _ Hsz). f_equal. apply wrap_small. subst next. lia. }
  destruct (tag_reads _ _ _ _ N6 ltac:(lia) N4 ltac:(auto)) as [Hnsz Hnal].
  rewrite <- En in Hnsz, Hnal.
  (* the next block leaves its list *)
  destruct (deletefree_then_fresh st L next nsz (hk_lists _ _ _ HK)
              (fb_listed _ _ _ _ FB) Hnsz) as (st1 & D & Ok1 & Fr & F1).
  set (L1 := L_del (list_num nsz) next L) in *.
  pose proof F1 as [R1 _].
  assert (Cl : ∀ j m, 0 <= j < numlists → List.In m (L1 j) →
                 List.In m (L j) ∧ (m + 8 <= p - 4 ∨ p + tot - 4 <= m) ∧
                 (m < p ∨ p + tot <= m)).
  { intros j m Hj Hm. pose proof (L_del_sub _ _ _ _ _ Hm) as [Hm' _].
    split; [exact Hm' |].
    assert (Hne : m ≠ next) by (intros ->; exact (Fr j Hj Hm)).
    destruct (Cl0 j m Hj Hm') as (s & Hs' & Hap).
    destruct (hs_block _ _ _ HS _ _ _ Hs') as (_ & _ & S3' & _).
    destruct (blocks_apart _ _ _ _ _ _ _ _ _ T Hs' Bn) as [(C & _) | Hn'];
      [contradiction |].
    subst tot next. lia. }
  assert (W1 : ∀ w, clear_word st L w → GET st1 w = GET st w).
  { intros w [Hw1 Hw2]. eapply untouched_GET; [exact F1 | exact Hw1 | exact Hw2]. }
  destruct (hs_tags_clear _ _ _ HS _ _ _ Bp) as [Cp _].
  destruct (hs_tags_clear _ _ _ HS _ _ _ Bn) as [Cn _].
  assert (Hsz1 : GET_SIZE st1 (HDRP p) = Ok t).
  { rewrite <- Hsz. apply GET_SIZE_same. rewrite E. apply W1. exact Cp. }
  assert (Hnx1 : NEXT_BLKP st1 p = Ok next).
  { rewrite (NEXT_BLKP_val _ _ _ Hsz1). f_equal. apply wrap_small. subst next. lia. }
  assert (Hnsz1 : GET_SIZE st1 (HDRP next) = Ok nsz).
  { rewrite <- Hnsz. apply GET_SIZE_same. rewrite En. apply W1. exact Cn. }
  assert (Pay1 : ∀ a, p <= a < p + t - 8 → raw_at st1 a = raw_at st a).
  { intros a Ha. apply F1. eapply hs_payload_untouched; eassumption. }
  assert (F1' : frame (λ x, untouched st L x ∧ (x < p - 4 ∨ p + tot - 4 <= x)) st st1).
  { eapply frame_weaken; [| exact F1]. cbv beta. tauto. }
  assert (Et : wrap (t + nsz) = tot).
  { apply wrap_small. subst tot next. change (2 ^ 32) with 4294967296 in *. lia. }
  assert (Hlo : freelist_p st + 4 * numlists <= p - 4) by (unfold numlists; lia).
  assert (Hhi : p + tot - 4 <= mem_max_addr st) by (subst tot next; lia).
  assert (Cl' : ∀ j m, 0 <= j < numlists → List.In m (L1 j) →
                       m + 8 <= p - 4 ∨ p + tot - 4 <= m).
  { intros j m Hj Hm. apply (Cl j m Hj Hm). }
  assert (Cl'' : ∀ j m, 0 <= j < numlists → List.In m (L1 j) →
                        List.In m (L j) ∧ (m + 8 <= p - 4 ∨ p + tot - 4 <= m)).
  { intros j m Hj Hm. destruct (Cl j m Hj Hm) as (H1 & H2 & _). auto. }
  (* the merged block, tagged free *)
  destruct (mark_block st L (p - 4) (p + tot - 4) Hs Hlo Hhi st1 L1 p tot 0 R1 Ok1)
    as (st2 & st3 & P2 & Ft2 & P3 & R3 & Ok3 & G2 & G3 & F3 & K3);
    [lia | lia | subst tot; lia | subst tot; lia | auto | exact Cl' | exact F1' |].
  assert (Pay3 : ∀ a, p <= a < p + t - 8 → raw_at st3 a = raw_at st a).
  { intros a Ha. rewrite <- Pay1 by exact Ha. apply K3. subst tot. lia. }
  assert (Head : mm_realloc fuel st p n =
    (if wrap (tot - nb) <? 2 * DSIZE then
       st ← PUT st3 (HDRP p) (PACK tot 1);
       f ← FTRP st p;
       st ← PUT st f (PACK tot 1);
       Ok (st, p)
     else
       st ← PUT st3 (HDRP p) (PACK nb 1);
       f ← FTRP st p;
       st ← PUT st f (PACK nb 1);
       fin ← NEXT_BLKP st p;
       st ← PUT st (HDRP fin) (PACK (wrap (tot - nb)) 0);
       f ← FTRP st fin;
       st ← PUT st f (PACK (wrap (tot - nb)) 0);
       st ← ADD_free st fin (wrap (tot - nb));
       Ok (st, p))).
  { unfold mm_realloc. cbv zeta. rd Hsz. rewrite Hnull, Hneg, Hnz, Enb. fold nb.
    destruct (Z.eqb_spec nb t) as [C | _]; [subst nb; lia |].
    assert (C1 : (t >? nb) = false)
      by (rewrite Z.gtb_ltb; apply Z.ltb_ge; subst nb; lia).
    rewrite C1. rd Hnx. rd Hnal. rd Hnsz. rewrite Et.
    assert (C2 : (tot >=? nb) = true)
      by (rewrite Z.geb_leb; apply Z.leb_le; subst nb tot; lia).
    rewrite C2. cbn [Z.eqb andb]. rd D. rd Hnx1. rd Hnsz1. rewrite Et.
    rd P2. rd Ft2. rd P3. reflexivity. }
  assert (Er : wrap (tot - nb) = tot - nb).
  { apply wrap_small. subst nb tot next. change (2 ^ 32) with 4294967296 in *. lia. }
  rewrite Er in Head.
  assert (So : span [(t, 1); (nsz, 0)] = tot) by (simpl; subst tot; lia).
  assert (Bl : bl = l1 ++ [(t, 1); (nsz, 0)] ++ l2) by reflexivity.
  assert (Old : ∀ q u, List.In (q, (u, 1)) (blocks_from p [(t, 1); (nsz, 0)]) →
                       q = p).
  { intros q u Hq. simpl in Hq. destruct Hq as [H | [H | []]];
      [injection H as <- _; reflexivity | discriminate H]. }
  assert (NAF : ∀ m, (m = [(tot, 1)] ∨ ∃ r, m = [(nb, 1); (r, 0)]) →
                  no_adjacent_free bl → no_adjacent_free (l1 ++ m ++ l2)).
  { intros m Hm N. subst bl. apply naf_app in N as (Na & Nc & Nb).
    cbn [no_adjacent_free] in Nc. destruct Nc as (_ & Nh & Nc).
    apply naf_app. split; [exact Na |]. split.
    - destruct Hm as [-> | [r ->]]; cbn [app no_adjacent_free].
      + split; [| exact Nc]. destruct l2 as [| [s1 a1] l2']; [exact I |].
        intros [C _]. discriminate C.
      + split; [intros [C _]; discriminate C |]. split; [exact Nh | exact Nc].
    - intros [_ (s & l' & C)].
      destruct Hm as [-> | [r ->]]; discriminate C. }
  unfold DSIZE in Head. change (2 * 8) with 16 in Head.
  fold tot in mid. subst mid.
  destruct (Z.ltb_spec (tot - nb) 16) as [Hrem | Hrem].
  - (* the whole merged block is taken *)
    destruct (mark_block st L (p - 4) (p + tot - 4) Hs Hlo Hhi st3 L1 p tot 1 R3 Ok3)
      as (st4 & st5 & P4 & Ft4 & P5 & R5 & Ok5 & G4 & G5 & F5 & K5);
      [lia | lia | subst tot; lia | subst tot; lia | auto | exact Cl' | exact F3 |].
    exists st5, L1.
    split; [rewrite Head; rd P4; rd Ft4; rd P5; reflexivity |].
    destruct (heap_replace st L l1 [(t, 1); (nsz, 0)] l2 st5 L1 [(tot, 1)])
      as (HK' & R & M1 & M0 & Pay).
    + rewrite <- Bl. exact HK.
    + rewrite So. simpl. lia.
    + fold p. rewrite So. exact F5.
    + exact Ok5.
    + fold p. cbn [tiles]. split_and!; auto; subst tot; lia.
    + fold p. intros m s' [C | []]. discriminate C.
    + fold p. rewrite So. intros k m Hk Hin Hout.
      apply L_del_keeps; [exact Hin |]. subst next tot. lia.
    + fold p. rewrite So. intros k m Hk Hin. right.
      destruct (Cl k m Hk Hin) as (H1 & _ & H3). auto.
    + fold p in M1, M0, Pay. rewrite So in M1, M0, Pay. rewrite <- Bl in M0.
      split; [exact HK' |]. split; [exact R |]. split.
      { intros a Ha. rewrite <- Pay3 by exact Ha. apply K5. subst tot. lia. }
      split; [| apply NAF; auto].
      intros q u Hq Hne. apply M0 in Hq as [H | [H | H]].
      * split; [apply M1; auto | apply Pay; auto].
      * apply Old in H. contradiction.
      * split; [apply M1; auto | apply Pay; auto].
  - (* the merged block is split *)
    destruct (split_block st L (p - 4) (p + tot - 4) Hs Hlo Hhi st3 L1 p tot nb R3 Ok3)
      as (st4 & st5 & st6 & st7 & st8 & P4 & Ft4 & P5 & Nx5 & P6 & Ft6 & P7 & HA
          & R8 & Ok8 & G1 & G2' & G3' & G4 & F8 & K8);
      [exact B8 | lia | lia | subst nb; lia | subst nb; lia | lia | subst tot; lia
      | exact Cl'' | exact F3 |].
    exists st8, (L_ins (list_num (tot - nb)) (p + nb) L1).
    split.
    { rewrite Head. rd P4. rd Ft4. rd P5. rd Nx5. rd P6. rd Ft6. rd P7. rd HA.
      reflexivity. }
    assert (Hmid : ∀ x, List.In x (blocks_from p [(nb, 1); (tot - nb, 0)]) ↔
                        x = (p, (nb, 1)) ∨ x = (p + nb, (tot - nb, 0))).
    { intros x. simpl. intuition congruence. }
    destruct (heap_replace st L l1 [(t, 1); (nsz, 0)] l2 st8
                (L_ins (list_num (tot - nb)) (p + nb) L1) [(nb, 1); (tot - nb, 0)])
      as (HK' & R & M1 & M0 & Pay).
    + rewrite <- Bl. exact HK.
    + rewrite So. simpl. lia.
    + fold p. rewrite So. exact F8.
    + exact Ok8.
    + fold p. cbn [tiles]. rewrite Z.add_0_r.
      replace (p + nb + (tot - nb) - 8) with (p + tot - 8) by lia.
      split_and!; auto; subst nb tot; lia.
    + fold p. intros m s' Hin. apply Hmid in Hin as [C | C]; [discriminate C |].
      injection C as -> ->. rewrite L_ins_same. left. reflexivity.
    + fold p. rewrite So. intros k m Hk Hin Hout.
      assert (H1 : List.In m (L1 k))
        by (apply L_del_keeps; [exact Hin | subst next tot; lia]).
      unfold L_ins. destruct (k =? _); [right |]; exact H1.
    + fold p. rewrite So. intros k m Hk Hin.
      assert (H1 : m = p + nb ∨ List.In m (L1 k)).
      { unfold L_ins in Hin. destruct (k =? _); [destruct Hin; auto | auto]. }
      destruct H1 as [-> | H1].
      * left. exists (tot - nb). apply Hmid. auto.
      * right. destruct (Cl k m Hk H1) as (H2 & _ & H3). auto.
    + fold p in M1, M0, Pay. rewrite So in M1, M0, Pay. rewrite <- Bl in M0.
      split; [exact HK' |]. split; [exact R |]. split.
      { intros a Ha. rewrite <- Pay3 by exact Ha. apply K8. subst nb. lia. }
      split; [| apply NAF; eauto].
      intros q u Hq Hne. apply M0 in Hq as [H | [H | H]].
      * split; [apply M1; auto | apply Pay; auto].
      * apply Old in H. contradiction.
      * split; [apply M1; auto | apply Pay; auto].
Qed.

End ReallocGrow.


(** ** [mm_realloc] moving the block *)

(** What [mm_malloc] does to the provider's registers: only the break can
    move, and only by the extension it asked for. *)
Lemma mm_malloc_regs st L bl fuel n st' r :
  heap_ok st L bl → 0 < n → n + 15 < 2 ^ 32 → (length bl < fuel)%nat →
  mm_malloc fuel st n = Ok (st', r) →
  mem_start_brk st' = mem_start_brk st ∧ mem_max_addr st' = mem_max_addr st ∧
  heap_listp st' = heap_listp st ∧ freelist_p st' = freelist_p st ∧
  (mem_brk st' = mem_brk st ∨
   (mem_brk st' = mem_brk st + Z.max (adjust_size n) CHUNKS ∧
    mem_brk st' <= mem_max_addr st)).
Proof.
  intros HK Hn Hn32 Hfuel E.
  destruct (adjust_size_fits n Hn Hn32) as (A16 & A8 & An).
  destruct (find_fit_heap st L bl HK fuel (adjust_size n) Hfuel) as (r0 & Hf & Hres).
  unfold mm_malloc in E. destruct (Z.eqb_spec n 0) as [C | _]; [lia |].
  cbv zeta in E. rewrite Hf in E. cbn [mbind res_bind] in E. rewrite MAX_max in E.
  destruct Hres as [-> | (cs & Hcs & Hle)].
  - rewrite Z.eqb_refl in E. cbn [negb] in E.
    pose proof (malloc_request n) as Hreq. cbv zeta in Hreq.
    destruct (adjust_size_range n) as (_ & _ & H32).
    assert (Hw : 16 <= wrap (WSIZE * (Z.max (adjust_size n) CHUNKS / WSIZE
                                     + (Z.max (adjust_size n) CHUNKS / WSIZE) mod 2)))
      by (rewrite Hreq; lia).
    destruct (extend_heap_heap st L bl HK _ Hw)
      as [[Hno He] | (Hroom & ste & Le & ble & r1 & tot & He & HKe & R4 & R5 & R1 & R3 & R2
                      & Hin & Htot & Hend & _)];
      rewrite Hreq in *; rewrite He in E; cbn [mbind res_bind] in E.
    + rewrite Z.eqb_refl in E. injection E as <- _. auto 10.
    + assert (Hnn : r1 ≠ NULL).
      { destruct (hs_block _ _ _ (heap_ok_shape _ _ _ HKe) _ _ _ Hin) as (B1 & _).
        destruct (hs_layout _ _ _ (heap_ok_shape _ _ _ HKe)) as (_ & Hfbe & _ & _ & _ & Hfle).
        unfold NULL. lia. }
      destruct (Z.eqb_spec r1 NULL); [contradiction |].
      destruct (place_in_heap bl fuel n Hn Hn32 Hfuel ste Le ble r1 tot HKe Hin ltac:(lia))
        as (st2 & L2 & bl2 & used & Hp & _ & R & _).
      rewrite Hp in E. injection E as <- _.
      destruct R as (Q1 & Q2 & Q3 & Q4 & Q5).
      rewrite Q1, Q2, Q3, Q4, Q5, R1, R2, R3, R4, R5. split_and!; auto.
  - assert (Hnn : r0 ≠ NULL).
    { destruct (hs_block _ _ _ (heap_ok_shape _ _ _ HK) _ _ _ Hcs) as (B1 & _).
      destruct (hs_layout _ _ _ (heap_ok_shape _ _ _ HK)) as (_ & Hfbe & _ & _ & _ & Hfle).
      unfold NULL. lia. }
    destruct (Z.eqb_spec r0 NULL); [contradiction |]. cbn [negb] in E.
    destruct (place_in_heap bl fuel n Hn Hn32 Hfuel st L bl r0 cs HK Hcs Hle)
      as (st2 & L2 & bl2 & used & Hp & _ & R & _).
    rewrite Hp in E. injection E as <- _.
    destruct R as (Q1 & Q2 & Q3 & Q4 & Q5). auto 10.
Qed.

(** Copying into the payload of an allocated block keeps the heap. *)
Lemma memcpy_loop_heap L bl q u : ∀ k st dst src,
  heap_ok st L bl → List.In (q, (u, 1)) (heap_blocks st bl) →
  q <= dst → dst + Z.of_nat k <= q + u - 8 →
  mem_start_brk st <= src → src + Z.of_nat k <= mem_max_addr st →
  ∃ st', memcpy_loop k st dst src = Ok st' ∧ heap_ok st' L bl ∧ same_regs st st'.
Proof.
  induction k as [| k IH]; intros st dst src HK Hq Hd1 Hd2 Hs1 Hs2.
  - exists st. simpl. split; [reflexivity |]. split; [exact HK | apply same_regs_refl].
  - pose proof (heap_ok_shape _ _ _ HK) as HS.
    destruct (hs_layout _ _ _ HS) as ((S1 & S2 & S3 & S4) & Hfb & Hb8 & Hsp & Hbrk32 & Hfl).
    destruct (hs_block _ _ _ HS _ _ _ Hq) as (B1 & B2 & _).
    cbn [memcpy_loop].
    assert (Hl : load8 st src = Ok (raw_at st src)).
    { unfold load8. replace (accessible st src 1) with true; [reflexivity |].
      symmetry. unfold accessible. apply andb_true_iff. rewrite !Z.leb_le. lia. }
    rd Hl.
    destruct (heap_ok_store st L bl HK q u dst (raw_at st src) Hq ltac:(lia))
      as (st1 & E1 & HK1 & R1 & _).
    rd E1.
    pose proof R1 as (Q1 & Q2 & Q3 & Q4 & Q5).
    rewrite !wrap_small by (change (2 ^ 32) with 4294967296 in *; lia).
    destruct (IH st1 (dst + 1) (src + 1) HK1) as (st' & E' & HK' & R');
      [unfold heap_blocks, first_block in *; rewrite Q4; exact Hq
      | lia | lia | lia | lia |].
    exists st'. split; [exact E' |]. split; [exact HK' |].
    eapply same_regs_trans; eassumption.
Qed.

(** When the source runs past the end of the provider's memory, the copy
    faults. *)
Lemma memcpy_loop_fault L bl q u : ∀ k st dst src,
  heap_ok st L bl → List.In (q, (u, 1)) (heap_blocks st bl) →
  q <= dst → dst + Z.of_nat k <= q + u - 8 →
  mem_start_brk st <= src <= mem_max_addr st →
  mem_max_addr st < src + Z.of_nat k →
  memcpy_loop k st dst src = Fault.
Proof.
  induction k as [| k IH]; intros st dst src HK Hq Hd1 Hd2 Hs1 Hs2; [simpl in Hs2; lia |].
  pose proof (heap_ok_shape _ _ _ HK) as HS.
  destruct (hs_layout _ _ _ HS) as ((S1 & S2 & S3 & S4) & Hfb & Hb8 & Hsp & Hbrk32 & Hfl).
  destruct (hs_block _ _ _ HS _ _ _ Hq) as (B1 & B2 & _).
  cbn [memcpy_loop].
  destruct (Z.eq_dec src (mem_max_addr st)) as [Heq | Hne].
  - assert (Hl : load8 st src = Fault).
    { unfold load8. replace (accessible st src 1) with false; [reflexivity |].
      symmetry. unfold accessible. apply andb_false_iff. right. apply Z.leb_gt. lia. }
    rewrite Hl. reflexivity.
  - assert (Hl : load8 st src = Ok (raw_at st src)).
    { unfold load8. replace (accessible st src 1) with true; [reflexivity |].
      symmetry. unfold accessible. apply andb_true_iff. rewrite !Z.leb_le. lia. }
    rd Hl.
    destruct (heap_ok_store st L bl HK q u dst (raw_at st src) Hq ltac:(lia))
      as (st1 & E1 & HK1 & R1 & _).
    rd E1.
    pose proof R1 as (Q1 & Q2 & Q3 & Q4 & Q5).
    rewrite !wrap_small by (change (2 ^ 32) with 4294967296 in *; lia).
    apply (IH st1 (dst + 1) (src + 1) HK1);
      [unfold heap_blocks, first_block in *; rewrite Q4; exact Hq
      | lia | lia | lia | lia].
Qed.

Section ReallocMove.

Variables (st : state) (L : Z → list Z) (l1 : list (Z * Z)) (t : Z) (l2 : list (Z * Z)).
Hypothesis HK : heap_ok st L (l1 ++ (t, 1) :: l2).
Variable n : Z.
Hypothesis Hn : 0 < n.
Hypothesis Hn31 : n + 7 < 2 ^ 31.
Hypothesis Hbig : t < ALIGN n + 8.
Hypothesis Hnofit : ∀ s l, l2 = (s, 0) :: l → t + s < ALIGN n + 8.

Lemma realloc_falls_back :
  takes_fallback st (first_block st + span l1) n.
Proof.
  destruct (realloc_entry st L l1 t l2 HK n Hn Hn31)
    as (Hsz & Hnull & Hneg & Hnz & Enb & Ha8 & Har & Bp & E & Cl0).
  set (p := first_block st + span l1) in *.
  pose proof (heap_ok_shape _ _ _ HK) as HS.
  destruct (hs_layout _ _ _ HS) as ((S1 & S2 & S3 & S4) & Hfb & Hb8 & Hsp & Hbrk32 & Hfl).
  destruct (hs_block _ _ _ HS _ _ _ Bp) as (B1 & B2 & B3 & B4 & _ & B6 & _ & B8).
  pose proof (hk_tiles _ _ _ HK) as T. apply tiles_app in T as [_ T].
  cbn [tiles] in T. destruct T as (_ & _ & _ & _ & _ & T2). fold p in T2.
  pose proof (hk_brk _ _ _ HK) as Hbrk. rewrite span_app in Hbrk.
  cbn [span] in Hbrk. fold p in Hbrk.
  pose proof (hk_epilogue _ _ _ HK) as Hep.
  assert (Hbrk' : mem_brk st = p + t + span l2) by (subst p; lia).
  rewrite Hbrk' in Hep.
  destruct (next_cases st (p + t) l2 T2 Hep)
    as (nsz & na & l2' & Z1 & Z2 & Z3 & Z4 & Z5 & Z6 & Z7).
  destruct (tag_reads _ _ _ _ Z4 Z1 Z2 Z3) as [Gs Ga].
  assert (Hspan : span l2 = span (free_part na nsz) + span l2')
    by (rewrite Z5, span_app; reflexivity).
  assert (Hl2' : 0 <= span l2').
  { rewrite Z5 in T2. apply tiles_app in T2 as [_ T3].
    apply (tiles_span _ _ _ T3). }
  assert (Enx : HDRP (p + t) = p + t - 4).
  { unfold HDRP, WSIZE. apply wrap_small. lia. }
  unfold takes_fallback. cbv zeta. rewrite Enb.
  split; [apply Z.eqb_neq; exact Hnull |]. split; [exact Hneg |].
  split; [apply Z.eqb_neq; exact Hnz |].
  exists t, (p + t), na, nsz.
  split; [exact Hsz |].
  split; [rewrite (NEXT_BLKP_val _ _ _ Hsz); f_equal; apply wrap_small; lia |].
  rewrite Enx. split; [exact Ga |]. split; [exact Gs |]. split; [lia |].
  intros [-> Hle]. unfold free_part in Z5, Hspan. cbn [Z.eqb app span] in Z5, Hspan.
  specialize (Hnofit nsz l2' Z5).
  rewrite wrap_small in Hle; [lia |].
  change (2 ^ 32) with 4294967296 in *. lia.
Qed.

Variable fuel : nat.
Hypothesis Hfuel : (length (l1 ++ (t, 1%Z) :: l2) < fuel)%nat.

Lemma realloc_move :
  let p := first_block st + span l1 in
  let nb := ALIGN n + 8 in
  let bl := l1 ++ (t, 1) :: l2 in
  (mm_realloc fuel st p n = Ok (st, NULL) ∧
   mem_max_addr st < mem_brk st + Z.max (adjust_size nb) CHUNKS ∧
   find_fit fuel st (adjust_size nb) = Ok NULL)
  ∨
  (mm_realloc fuel st p n = Fault ∧ mem_max_addr st < p + nb ∧
   ∃ st1 r, mm_malloc fuel st nb = Ok (st1, r) ∧ r ≠ NULL ∧
            mem_brk st1 = mem_brk st)
  ∨
  (p + nb <= mem_max_addr st ∧
   ∃ st' L' bl' r used,
     mm_realloc fuel st p n = Ok (st', r) ∧ heap_ok st' L' bl' ∧
     List.In (r, (used, 1)) (heap_blocks st' bl') ∧ nb + 8 <= used ∧
     r mod 8 = 0 ∧ r ≠ p ∧
     (∀ q u, List.In (q, (u, 1)) (heap_blocks st bl) → q + u <= r ∨ r + used <= q) ∧
     (∀ i, 0 <= i < t - 8 → raw_at st' (r + i) = raw_at st (p + i)) ∧
     (∀ q u, List.In (q, (u, 1)) (heap_blocks st bl) → q ≠ p →
             List.In (q, (u, 1)) (heap_blocks st' bl') ∧
             ∀ a, q <= a < q + u - 8 → raw_at st' a = raw_at st a) ∧
     (∀ q u, List.In (q, (u, 1)) (heap_blocks st' bl') →
             q = r ∨ (List.In (q, (u, 1)) (heap_blocks st bl) ∧ q ≠ p)) ∧
     (no_adjacent_free bl → no_adjacent_free bl')).
Proof.
  intros p nb bl.
  destruct (realloc_entry st L l1 t l2 HK n Hn Hn31)
    as (Hsz & Hnull & Hneg & Hnz & Enb & Ha8 & Har & Bp & E & Cl0).
  fold p bl in Hsz, Hnull, Bp, E, Cl0.
  pose proof (heap_ok_shape _ _ _ HK) as HS.
  destruct (hs_layout _ _ _ HS) as ((S1 & S2 & S3 & S4) & Hfb & Hb8 & Hsp & Hbrk32 & Hfl).
  destruct (hs_block _ _ _ HS _ _ _ Bp) as (B1 & B2 & B3 & B4 & _ & B6 & _ & B8).
  pose proof (hk_room _ _ _ HK) as Hroom.
  rewrite (mm_realloc_takes_fallback fuel st p n realloc_falls_back), Enb. fold nb.
  assert (Hnb : 0 < nb) by (subst nb; lia).
  assert (Hnb32 : nb + 15 < 2 ^ 32).
  { subst nb. change (2 ^ 31) with 2147483648 in *.
    change (2 ^ 32) with 4294967296. lia. }
  destruct (mm_malloc_heap st L bl HK fuel nb Hnb Hnb32 Hfuel)
    as [(E1 & Hno & Hf)
       | (st1 & L1 & bl1 & r & used & E1 & HK1 & Hr & Hu & Hr8 & Keep & Only & Apart & NAF1)].
  { left. split; [| split; [exact Hno | exact Hf]].
    unfold realloc_fallback. rd E1. reflexivity. }
  right.
  destruct (mm_malloc_regs st L bl fuel nb st1 r HK Hnb Hnb32 Hfuel E1)
    as (Q1 & Q3 & Q4 & Q5 & Qb).
  pose proof (heap_ok_shape _ _ _ HK1) as HS1.
  destruct (hs_block _ _ _ HS1 _ _ _ Hr) as (C1 & C2 & C3 & _).
  assert (Fb1 : first_block st1 = first_block st)
    by (unfold first_block; rewrite Q4; reflexivity).
  assert (Hrn : (r =? NULL) = false).
  { apply Z.eqb_neq. unfold NULL. rewrite Fb1 in C1. lia. }
  destruct (Keep p t Bp) as [P1 Pay1].
  destruct (Apart p t Bp) as [Hap | Hap].
  all: assert (Hrp : r ≠ p) by lia.
  all: destruct (Z_le_gt_dec (p + nb) (mem_max_addr st)) as [Hread | Hread].
  all: try (left; split; [| split; [lia |]];
       [ unfold realloc_fallback; rd E1; rewrite Hrn; unfold memcpy;
         rewrite (memcpy_loop_fault L1 bl1 r used (Z.to_nat nb) st1 r p HK1 Hr);
         [reflexivity | lia | lia | lia | lia]
       | exists st1, r; split; [exact E1 |]; split; [apply Z.eqb_neq; exact Hrn |];
         destruct Qb as [Qb | [Qb Qm]]; [exact Qb |];
         pose proof (proj2 (proj2 (adjust_size_fits nb Hnb Hnb32))); lia ]).
  all: right; split; [exact Hread |].
  all: destruct (memcpy_loop_heap L1 bl1 r used (Z.to_nat nb) st1 r p HK1 Hr)
         as (st2 & E2 & HK2 & R2); [lia | lia | lia | lia |].
  all: assert (E2' : memcpy st1 r p nb = Ok st2) by exact E2.
  all: destruct (memcpy_spec st1 r p nb st2 ltac:(lia)
                   ltac:(change (2 ^ 32) with 4294967296 in *; lia) ltac:(lia) E2')
         as (F2 & Copy).
  all: pose proof R2 as (_ & _ & _ & R24 & _).
  all: assert (Fb2 : first_block st2 = first_block st1)
         by (unfold first_block; rewrite R24; reflexivity).
  all: assert (Blk2 : heap_blocks st2 bl1 = heap_blocks st1 bl1)
         by (unfold heap_blocks; rewrite Fb2; reflexivity).
  all: assert (P2 : List.In (p, (t, 1)) (heap_blocks st2 bl1)) by (rewrite Blk2; exact P1).
  all: pose proof P2 as P2'; unfold heap_blocks in P2';
       destruct (blocks_In_split _ _ _ _ _ P2') as (k1 & k2 & Ebl & Ep).
  all: rewrite Ebl in HK2;
       destruct (mm_free_heap st2 L1 k1 t k2 HK2)
         as (st3 & L3 & bl3 & E3 & HK3 & R3 & Others & Alloc3 & _ & NAF3).
  all: rewrite <- Ep in E3, Others, Alloc3; rewrite <- Ebl in Others, Alloc3, NAF3.
  all: exists st3, L3, bl3, r, used.
  all: split; [unfold realloc_fallback; rd E1; rewrite Hrn; rd E2'; rd E3; reflexivity |].
  all: split; [exact HK3 |].
  all: assert (Hr2 : List.In (r, (used, 1)) (heap_blocks st2 bl1)) by (rewrite Blk2; exact Hr).
  all: destruct (Others r used Hr2 Hrp) as [Hr3 Pay3].
  all: split; [exact Hr3 |]; split; [exact Hu |]; split; [exact Hr8 |];
       split; [exact Hrp |]; split; [exact Apart |].
  all: split; [intros i Hi; rewrite Pay3 by lia; rewrite Copy by lia; apply Pay1; lia |].
  all: split;
       [ intros q u Hq Hne; destruct (Keep q u Hq) as [Hq1 Payq];
         assert (Hq2 : List.In (q, (u, 1)) (heap_blocks st2 bl1)) by (rewrite Blk2; exact Hq1);
         destruct (Others q u Hq2 Hne) as [Hq3 Payq3];
         split; [exact Hq3 |]; intros a Ha;
         rewrite Payq3 by exact Ha; rewrite <- Payq by exact Ha;
         apply F2; destruct (Apart q u Hq); lia |].
  all: split; [| intros N; apply NAF3, NAF1, N].
  all: intros q u Hq; destruct (Alloc3 q u Hq) as [Hq2 Hne];
       rewrite Blk2 in Hq2;
       destruct (Z.eq_dec q r) as [-> | Hqr]; [left; reflexivity |];
       right; split; [apply (Only q u Hq2 Hqr) | exact Hne].
Qed.

End ReallocMove.


(** ** More concrete heaps *)

Ltac solve_lists L :=
  constructor;
  [ unfold sane; split; [| split; [| split]]; zfact
  | solve_heads L
  | let k := fresh "k" in let b := fresh "b" in
    let Hk := fresh "Hk" in let Hb := fresh "Hb" in
    intros k b Hk Hb; case_k k Hk; members Hb; solve_placed
  | let k := fresh "k" in let Hk := fresh "Hk" in
    intros k Hk; case_k k Hk;
    lazymatch goal with
    | |- List.NoDup (L ?j) =>
        let l := eval vm_compute in (L j) in change (L j) with l
    end;
    repeat constructor; simpl; intuition discriminate
  | let k := fresh "k" in let k' := fresh "k'" in let b := fresh "b" in
    let Hk := fresh "Hk" in let Hk' := fresh "Hk'" in
    let Hb := fresh "Hb" in let Hb' := fresh "Hb'" in
    intros k k' b Hk Hk' Hb Hb';
    case_k k Hk; members Hb; case_k k' Hk'; members Hb'; reflexivity ].

Ltac solve_tiles :=
  cbn [tiles];
  repeat (split; [first [ lia | reflexivity | (left; reflexivity)
                        | (right; reflexivity) | (vm_compute; reflexivity) ] |]);
  exact I.

Lemma lists_ok_holes : lists_ok st_holes L_holes.
Proof. solve_lists L_holes. Qed.

Lemma first_block_holes : first_block st_holes = 65600.
Proof. vm_compute; reflexivity. Qed.

Lemma heap_ok_holes : heap_ok st_holes L_holes bl_holes.
Proof.
  constructor.
  - exact lists_ok_holes.
  - vm_compute; reflexivity.
  - vm_compute; reflexivity.
  - split; vm_compute; reflexivity.
  - rewrite first_block_holes. unfold bl_holes. solve_tiles.
  - vm_compute; reflexivity.
  - vm_compute; discriminate.
  - vm_compute; reflexivity.
  - intros m s H. unfold heap_blocks in H. rewrite first_block_holes in H.
    simpl in H. repeat destruct H as [H | H]; try discriminate H; try contradiction;
      injection H as <- <-; vm_compute; auto.
  - intros k m Hk Hm. unfold heap_blocks. rewrite first_block_holes.
    case_k k Hk; members Hm; eexists; simpl; eauto 10.
Qed.

Lemma lists_ok_hundred : lists_ok st_hundred L_hundred.
Proof. solve_lists L_hundred. Qed.

Lemma first_block_hundred : first_block st_hundred = 65600.
Proof. vm_compute; reflexivity. Qed.

Lemma heap_ok_hundred : heap_ok st_hundred L_hundred [(112, 1); (32, 0)].
Proof.
  constructor.
  - exact lists_ok_hundred.
  - vm_compute; reflexivity.
  - vm_compute; reflexivity.
  - split; vm_compute; reflexivity.
  - rewrite first_block_hundred. solve_tiles.
  - vm_compute; reflexivity.
  - vm_compute; discriminate.
  - vm_compute; reflexivity.
  - intros m s H. unfold heap_blocks in H. rewrite first_block_hundred in H.
    simpl in H. repeat destruct H as [H | H]; try discriminate H; try contradiction;
      injection H as <- <-; vm_compute; auto.
  - intros k m Hk Hm. unfold heap_blocks. rewrite first_block_hundred.
    case_k k Hk; members Hm; eexists; simpl; eauto 10.
Qed.

Lemma lists_ok_brim : lists_ok st_brim L_init.
Proof. solve_lists L_init. Qed.

Lemma first_block_brim : first_block st_brim = 65600.
Proof. vm_compute; reflexivity. Qed.

Lemma heap_ok_brim : heap_ok st_brim L_init [(56, 0); (32, 1)].
Proof.
  constructor.
  - exact lists_ok_brim.
  - vm_compute; reflexivity.
  - vm_compute; reflexivity.
  - split; vm_compute; reflexivity.
  - rewrite first_block_brim. solve_tiles.
  - vm_compute; reflexivity.
  - vm_compute; discriminate.
  - vm_compute; reflexivity.
  - intros m s H. unfold heap_blocks in H. rewrite first_block_brim in H.
    simpl in H. repeat destruct H as [H | H]; try discriminate H; try contradiction;
      injection H as <- <-; vm_compute; auto.
  - intros k m Hk Hm. unfold heap_blocks. rewrite first_block_brim.
    case_k k Hk; members Hm; eexists; simpl; eauto 10.
Qed.

(** ** [mm_realloc] on a well-formed heap *)

(** X17: [mm_realloc(p, n)] on an allocated block of [t] bytes of a
    well-formed heap, for a size that is positive after rounding
    ([0 < n], [n + 7 < 2^31]) and a required block size
    [nb = ALIGN(n) + 8] of at most [t].  With at most 16 bytes to spare it
    returns [p] and changes nothing.  With more it returns [p] after
    splitting the block into an allocated block of [nb] bytes and a free
    block of [t - nb] bytes: the heap is again well formed, the first
    [ALIGN(n)] payload bytes and every other allocated block are as before.
    The free remainder is not merged with its successor: when the block
    after [p] was free the new heap has two adjacent free blocks, and only
    then. *)
Theorem mm_realloc_shrinks_in_place st L l1 t l2 fuel n p :
  heap_ok st L (l1 ++ (t, 1) :: l2) → p = first_block st + span l1 →
  0 < n → n + 7 < 2 ^ 31 → ALIGN n + 8 <= t →
  let nb := ALIGN n + 8 in
  (t <= nb + 16 → mm_realloc fuel st p n = Ok (st, p)) ∧
  (nb + 16 < t →
   ∃ st' L',
     mm_realloc fuel st p n = Ok (st', p) ∧
     heap_ok st' L' (l1 ++ (nb, 1) :: (t - nb, 0) :: l2) ∧
     same_regs st st' ∧
     (∀ a, p <= a < p + ALIGN n → raw_at st' a = raw_at st a) ∧
     (∀ q u, List.In (q, (u, 1)) (heap_blocks st (l1 ++ (t, 1) :: l2)) → q ≠ p →
             List.In (q, (u, 1))
               (heap_blocks st' (l1 ++ (nb, 1) :: (t - nb, 0) :: l2)) ∧
             ∀ a, q <= a < q + u - 8 → raw_at st' a = raw_at st a) ∧
     (head_free l2 → ¬ no_adjacent_free (l1 ++ (nb, 1) :: (t - nb, 0) :: l2)) ∧
     (no_adjacent_free (l1 ++ (t, 1) :: l2) → ¬ head_free l2 →
      no_adjacent_free (l1 ++ (nb, 1) :: (t - nb, 0) :: l2))).
Proof.
  intros HK -> Hn Hn31 Hfit nb. split.
  - intros Hle. apply (realloc_same st L l1 t l2 HK n Hn Hn31 fuel). subst nb. lia.
  - intros Hbig.
    destruct (realloc_shrink st L l1 t l2 HK n Hn Hn31 fuel ltac:(subst nb; lia))
      as (st' & L' & E & HK' & R & Pay & Others).
    exists st', L'. fold nb in HK', Others.
    split; [exact E |]. split; [exact HK' |]. split; [exact R |].
    split; [exact Pay |]. split; [exact Others |]. split.
    + intros (s & l' & ->) N. apply naf_app in N as (_ & N2 & _).
      cbn [no_adjacent_free] in N2. destruct N2 as (_ & B & _). apply B. auto.
    + intros N Hnh. apply naf_app in N as (N1 & N2 & Nb).
      cbn [no_adjacent_free] in N2. destruct N2 as (_ & N2).
      apply naf_app. split; [exact N1 |]. split.
      * cbn [no_adjacent_free]. split; [intros [C _]; discriminate C |].
        split; [| exact N2]. destruct l2 as [| [s a] l]; [exact I |].
        intros [_ ->]. apply Hnh. exists s, l. reflexivity.
      * intros [_ (s & l' & C)]. discriminate C.
Qed.

Lemma mm_realloc_shrinks_in_place_witness :
  (heap_ok st_holes L_holes ([(24, 0)] ++ (24, 1) :: [(24, 0); (24, 1); (64, 0)]) ∧
   mm_realloc 64 st_holes 65624 16 = Ok (st_holes, 65624)) ∧
  (heap_ok st_hundred L_hundred ([] ++ (112, 1) :: [(32, 0)]) ∧
   ∃ st' L', mm_realloc 64 st_hundred 65600 50 = Ok (st', 65600) ∧
             heap_ok st' L' [(64, 1); (48, 0); (32, 0)] ∧
             ¬ no_adjacent_free [(64, 1); (48, 0); (32, 0)]).
Proof.
  split.
  - split; [exact heap_ok_holes |].
    destruct (mm_realloc_shrinks_in_place st_holes L_holes [(24, 0)] 24
                [(24, 0); (24, 1); (64, 0)] 64 16 65624 heap_ok_holes) as [H _];
      [vm_compute; reflexivity | reflexivity | reflexivity | vm_compute; discriminate |].
    apply H. vm_compute; discriminate.
  - split; [exact heap_ok_hundred |].
    destruct (mm_realloc_shrinks_in_place st_hundred L_hundred [] 112
                [(32, 0)] 64 50 65600 heap_ok_hundred) as [_ H];
      [vm_compute; reflexivity | reflexivity | reflexivity | vm_compute; discriminate |].
    destruct H as (st' & L' & E & HK & _ & _ & _ & N & _); [vm_compute; reflexivity |].
    exists st', L'. split; [exact E |]. split; [exact HK |].
    apply N. exists 32, []. reflexivity.
Defined.

(** X18: [mm_realloc(p, n)] on an allocated block of [t] bytes that is
    followed by a free block of [nsz] bytes, when the required block size
    [nb = ALIGN(n) + 8] is more than [t] and at most [t + nsz].  It returns
    [p]: the free block leaves its list and the two become one allocated
    block of [t + nsz] bytes when fewer than 16 bytes would be left over,
    and otherwise an allocated block of [nb] bytes followed by a free block
    of the rest.  The heap is again well formed, the old payload bytes and
    every other allocated block are as before, and a heap without adjacent
    free blocks stays so. *)
Theorem mm_realloc_grows_in_place st L l1 t nsz l2 fuel n p :
  heap_ok st L (l1 ++ (t, 1) :: (nsz, 0) :: l2) → p = first_block st + span l1 →
  0 < n → n + 7 < 2 ^ 31 → t < ALIGN n + 8 <= t + nsz →
  let nb := ALIGN n + 8 in
  let mid := if t + nsz - nb <? 16 then [(t + nsz, 1)]
             else [(nb, 1); (t + nsz - nb, 0)] in
  ∃ st' L',
    mm_realloc fuel st p n = Ok (st', p) ∧
    heap_ok st' L' (l1 ++ mid ++ l2) ∧
    same_regs st st' ∧
    (∀ a, p <= a < p + t - 8 → raw_at st' a = raw_at st a) ∧
    (∀ q u, List.In (q, (u, 1)) (heap_blocks st (l1 ++ (t, 1) :: (nsz, 0) :: l2)) →
            q ≠ p →
            List.In (q, (u, 1)) (heap_blocks st' (l1 ++ mid ++ l2)) ∧
            ∀ a, q <= a < q + u - 8 → raw_at st' a = raw_at st a) ∧
    (no_adjacent_free (l1 ++ (t, 1) :: (nsz, 0) :: l2) →
     no_adjacent_free (l1 ++ mid ++ l2)).
Proof.
  intros HK -> Hn Hn31 Hgrow. exact (realloc_grow st L l1 t nsz l2 HK n Hn Hn31 Hgrow fuel).
Qed.

Lemma mm_realloc_grows_in_place_witness :
  heap_ok st_holes L_holes ([(24, 0)] ++ (24, 1) :: (24, 0) :: [(24, 1); (64, 0)]) ∧
  (∃ st' L', mm_realloc 64 st_holes 65624 24 = Ok (st', 65624) ∧
             heap_ok st' L' [(24, 0); (32, 1); (16, 0); (24, 1); (64, 0)]) ∧
  (∃ st' L', mm_realloc 64 st_holes 65624 40 = Ok (st', 65624) ∧
             heap_ok st' L' [(24, 0); (48, 1); (24, 1); (64, 0)]).
Proof.
  split; [exact heap_ok_holes |]. split.
  - destruct (mm_realloc_grows_in_place st_holes L_holes [(24, 0)] 24 24
                [(24, 1); (64, 0)] 64 24 65624 heap_ok_holes)
      as (st' & L' & E & HK & _);
      [vm_compute; reflexivity | reflexivity | reflexivity
      | split; [vm_compute; reflexivity | vm_compute; discriminate] |].
    exists st', L'. split; [exact E | exact HK].
  - destruct (mm_realloc_grows_in_place st_holes L_holes [(24, 0)] 24 24
                [(24, 1); (64, 0)] 64 40 65624 heap_ok_holes)
      as (st' & L' & E & HK & _);
      [vm_compute; reflexivity | reflexivity | reflexivity
      | split; [vm_compute; reflexivity | vm_compute; discriminate] |].
    exists st', L'. split; [exact E | exact HK].
Defined.

(** X19: [mm_realloc(p, n)] on an allocated block of [t] bytes when the
    required block size [nb = ALIGN(n) + 8] is more than [t] and the next
    block is allocated, is the epilogue, or is free but too small.  One of
    three things happens.  [mm_malloc(nb)] fails: null is returned and
    nothing has changed.  Or the block moves: the result is another 8-byte
    aligned allocated block of at least [nb + 8] bytes that overlaps none of
    the blocks that were allocated and starts with the old payload bytes,
    the old block is free, every other allocated block
    is as before, and the heap is well formed.  Or the call faults: [memcpy]
    reads [nb] bytes from [p], more than the old block holds, and when
    [mm_malloc] took the new block from a free list without moving the
    break and [p + nb] lies beyond the provider's memory, that read leaves
    the memory. *)
Theorem mm_realloc_moves st L l1 t l2 fuel n p :
  heap_ok st L (l1 ++ (t, 1) :: l2) → p = first_block st + span l1 →
  0 < n → n + 7 < 2 ^ 31 → t < ALIGN n + 8 →
  (∀ s l, l2 = (s, 0) :: l → t + s < ALIGN n + 8) →
  (length (l1 ++ (t, 1%Z) :: l2) < fuel)%nat →
  let nb := ALIGN n + 8 in
  let bl := l1 ++ (t, 1) :: l2 in
  (mm_realloc fuel st p n = Ok (st, NULL) ∧
   mem_max_addr st < mem_brk st + Z.max (adjust_size nb) CHUNKS ∧
   find_fit fuel st (adjust_size nb) = Ok NULL)
  ∨
  (mm_realloc fuel st p n = Fault ∧ mem_max_addr st < p + nb ∧
   ∃ st1 r, mm_malloc fuel st nb = Ok (st1, r) ∧ r ≠ NULL ∧
            mem_brk st1 = mem_brk st)
  ∨
  (p + nb <= mem_max_addr st ∧
   ∃ st' L' bl' r used,
     mm_realloc fuel st p n = Ok (st', r) ∧ heap_ok st' L' bl' ∧
     List.In (r, (used, 1)) (heap_blocks st' bl') ∧ nb + 8 <= used ∧
     r mod 8 = 0 ∧ r ≠ p ∧
     (∀ q u, List.In (q, (u, 1)) (heap_blocks st bl) → q + u <= r ∨ r + used <= q) ∧
     (∀ i, 0 <= i < t - 8 → raw_at st' (r + i) = raw_at st (p + i)) ∧
     (∀ q u, List.In (q, (u, 1)) (heap_blocks st bl) → q ≠ p →
             List.In (q, (u, 1)) (heap_blocks st' bl') ∧
             ∀ a, q <= a < q + u - 8 → raw_at st' a = raw_at st a) ∧
     (∀ q u, List.In (q, (u, 1)) (heap_blocks st' bl') →
             q = r ∨ (List.In (q, (u, 1)) (heap_blocks st bl) ∧ q ≠ p)) ∧
     (no_adjacent_free bl → no_adjacent_free bl')).
Proof.
  intros HK -> Hn Hn31 Hbig Hnofit Hfuel.
  exact (realloc_move st L l1 t l2 HK n Hn Hn31 Hbig Hnofit fuel Hfuel).
Qed.

Lemma mm_realloc_moves_witness :
  (heap_ok st_holes L_holes ([(24, 0)] ++ (24, 1) :: [(24, 0); (24, 1); (64, 0)]) ∧
   ∃ st' L' bl' used,
     mm_realloc 64 st_holes 65624 100 = Ok (st', 65696) ∧ heap_ok st' L' bl' ∧
     List.In (65696, (used, 1)) (heap_blocks st' bl') ∧ 112 + 8 <= used ∧
     raw_at st' (65696 + 3) = raw_at st_holes (65624 + 3)) ∧
  (heap_ok st_brim L_init ([(56, 0)] ++ (32, 1) :: []) ∧
   mm_realloc 64 st_brim 65656 40 = Fault ∧
   mem_max_addr st_brim < 65656 + 48).
Proof.
  split.
  - split; [exact heap_ok_holes |].
    assert (M : mm_realloc 64 st_holes 65624 100
                = Ok (state_of (mm_realloc 64 st_holes 65624 100), 65696)) by run_ok.
    destruct (mm_realloc_moves st_holes L_holes [(24, 0)] 24
                [(24, 0); (24, 1); (64, 0)] 64 100 65624 heap_ok_holes)
      as [(E & _) | [(E & _) | (_ & st' & L' & bl' & r & used & E & HK & Hr & Hu & _ & _ & _ & Copy & _)]];
      [vm_compute; reflexivity | reflexivity | reflexivity | vm_compute; reflexivity
      | intros s l H; injection H as <- _; vm_compute; reflexivity
      | simpl; lia | | |].
    + rewrite M in E. apply Ok_pair_inv in E. destruct E as [_ E]. discriminate E.
    + rewrite M in E. discriminate E.
    + rewrite M in E. apply Ok_pair_inv in E. destruct E as [<- <-].
      exists (state_of (mm_realloc 64 st_holes 65624 100)), L', bl', used.
      split; [exact M |]. split; [exact HK |]. split; [exact Hr |].
      split; [exact Hu |]. apply (Copy 3). lia.
  - split; [exact heap_ok_brim |].
    assert (M : mm_realloc 64 st_brim 65656 40 = Fault) by (vm_compute; reflexivity).
    destruct (mm_realloc_moves st_brim L_init [(56, 0)] 32 [] 64 40 65656 heap_ok_brim)
      as [(E & _) | [(E & Hmax & _) | (Hread & _)]];
      [vm_compute; reflexivity | reflexivity | reflexivity | vm_compute; reflexivity
      | intros s l H; discriminate H
      | simpl; lia | | |].
    + rewrite M in E. discriminate E.
    + split; [exact E | exact Hmax].
    + exfalso. vm_compute in Hread. apply Hread. reflexivity.
Defined.


(** ** The checker rejects a heap with adjacent free blocks *)

Section Reported.

Lemma reported_0 k : reported k 0 0 = k.
Proof.
  destruct k. unfold reported. simpl. rewrite app_nil_r. f_equal. lia.
Qed.

Lemma reported_add k n j n' j' :
  reported (reported k n j) n' j' = reported k (n + n') (j + j').
Proof.
  unfold reported. cbn [check numcount count c out].
  rewrite <- app_assoc, <- repeat_app. f_equal; [| lia].
  destruct j, j'; reflexivity.
Qed.

Lemma adjacent_free_split : ∀ bl,
  ¬ no_adjacent_free bl →
  ∃ l1 s1 s2 l2, bl = l1 ++ (s1, 0) :: (s2, 0) :: l2.
Proof.
  induction bl as [| [s a] bl IH]; intros N; [exfalso; apply N; exact I |].
  destruct bl as [| [s' a'] bl'].
  - exfalso. apply N. simpl. auto.
  - destruct (Z.eq_dec a 0) as [-> | Ha].
    + destruct (Z.eq_dec a' 0) as [-> | Ha'].
      * exists [], s, s', bl'. reflexivity.
      * destruct IH as (l1 & s1 & s2 & l2 & E).
        { intros N'. apply N. cbn [no_adjacent_free] in *. split; [| exact N'].
          intros [_ C]. contradiction. }
        exists ((s, 0) :: l1), s1, s2, l2. rewrite E. reflexivity.
    + destruct IH as (l1 & s1 & s2 & l2 & E).
      { intros N'. apply N. cbn [no_adjacent_free] in *. split; [| exact N'].
        intros [C _]. contradiction. }
      exists ((s, a) :: l1), s1, s2, l2. rewrite E. reflexivity.
Qed.

(** The list walk, when every member passes the allocation test; [Bad]
    singles out members that are known to fail the contiguity test. *)
Lemma check_list_reports st (Bad : Z → Prop) : ∀ l pp h fuel,
  dllseg st pp h l NULL →
  (∀ m, List.In m l →
        ∃ j, (∀ k, check_list_body st m k = Ok (reported k 1 j)) ∧
             (Bad m → (0 < j)%nat)) →
  (length l < fuel)%nat →
  ∃ j, (∀ k, check_list fuel st h k = Ok (reported k (length l) j)) ∧
       ((∃ m, List.In m l ∧ Bad m) → (0 < j)%nat).
Proof.
  induction l as [| b l IH]; intros pp h fuel D Hb Hf.
  - simpl in D. subst h. destruct fuel; [simpl in Hf; lia |].
    exists O. split.
    + intros k. simpl. rewrite reported_0. reflexivity.
    + intros (m & [] & _).
  - simpl in D. destruct D as (-> & Hnn & _ & n & Hn & D).
    destruct fuel as [| fuel]; [simpl in Hf; lia |]. simpl in Hf.
    destruct (Hb b ltac:(left; reflexivity)) as (jb & Eb & Bb).
    destruct (IH b n fuel D) as (j & El & Bl);
      [intros m Hm; apply Hb; right; exact Hm | lia |].
    exists (jb + j)%nat. split.
    + intros k. cbn [check_list].
      destruct (Z.eqb_spec b NULL) as [| _]; [contradiction |].
      rewrite Eb. cbn [mbind res_bind]. rd Hn. rewrite El, reported_add.
      reflexivity.
    + intros (m & [-> | Hm] & HB).
      * specialize (Bb HB). lia.
      * assert (0 < j)%nat by (apply Bl; eauto). lia.
Qed.

End Reported.

Section CheckerRejects.

Variables (st : state) (L : Z → list Z) (bl : list (Z * Z)).
Hypothesis HK : heap_ok st L bl.

(** What the two tests read around a free block of the heap. *)
Lemma free_block_reads l1 s l2 :
  bl = l1 ++ (s, 0) :: l2 →
  let m := first_block st + span l1 in
  GET_ALLOC st (HDRP m) = Ok 0 ∧
  ∃ prev next pa na,
    PREV_BLKP st m = Ok prev ∧ GET_ALLOC st (HDRP prev) = Ok pa ∧
    NEXT_BLKP st m = Ok next ∧ GET_ALLOC st (HDRP next) = Ok na ∧
    (head_free l2 → na = 0).
Proof.
  intros Ebl m. pose proof (heap_ok_shape _ _ _ HK) as HS.
  destruct (hs_layout _ _ _ HS) as (Hs & Hfb & Hb8 & _ & Hbrk32 & Hfl).
  assert (Hin : List.In (m, (s, 0)) (heap_blocks st bl))
    by (rewrite Ebl; apply blocks_In_middle).
  destruct (hs_block _ _ _ HS _ _ _ Hin) as (B1 & B2 & B3 & B4 & _ & Gh & _ & B8).
  pose proof (hk_tiles _ _ _ HK) as T. pose proof (hk_brk _ _ _ HK) as Hbrk.
  pose proof (hk_prologue _ _ _ HK) as [Ph Pf].
  pose proof (hk_epilogue _ _ _ HK) as Ge.
  set (base := first_block st) in *.
  rewrite Ebl in T, Hbrk. apply tiles_app in T as [T1 T2]. simpl in T2.
  destruct T2 as (_ & _ & _ & _ & _ & T2). fold m in T2.
  rewrite span_app in Hbrk. simpl in Hbrk.
  assert (Hl : heap_listp st = base - 8) by (subst base; unfold first_block; lia).
  rewrite Hl in Ph, Pf. replace (base - 8 - 4) with (base - 12) in Ph by lia.
  destruct (prev_cases st base l1 T1 Ph Pf)
    as (psz & pa & l1' & P8 & Pm & Pa & Pft & Phd & Plo & El1 & P16 & _).
  fold m in Pft, Phd, Plo.
  assert (Ge' : GET st (m + s + span l2 - 4) = Ok 1).
  { replace (m + s + span l2) with (mem_brk st) by (subst m; lia). exact Ge. }
  destruct (next_cases st (m + s) l2 T2 Ge')
    as (nsz & na & l2' & N0 & Nm & Na & Nhd & El2 & _ & Nh).
  destruct (tag_reads _ _ _ _ Gh ltac:(lia) B4 ltac:(auto)) as [Rs Ra].
  destruct (tag_reads _ _ _ _ Pft ltac:(lia) Pm Pa) as [Rpf _].
  destruct (tag_reads _ _ _ _ Phd ltac:(lia) Pm Pa) as [_ Rpa].
  destruct (tag_reads _ _ _ _ Nhd N0 Nm Na) as [_ Rna].
  assert (E1 : HDRP m = m - 4) by (unfold HDRP, WSIZE; apply wrap_small; lia).
  assert (E2 : wrap (m - DSIZE) = m - 8) by (unfold DSIZE; apply wrap_small; lia).
  assert (E3 : HDRP (m - psz) = m - psz - 4).
  { unfold HDRP, WSIZE. apply wrap_small. unfold numlists in *. lia. }
  assert (E4 : HDRP (m + s) = m + s - 4) by (unfold HDRP, WSIZE; apply wrap_small; lia).
  split; [rewrite E1; exact Ra |].
  exists (m - psz), (m + s), pa, na.
  split.
  { rewrite <- E2 in Rpf. rewrite (PREV_BLKP_val _ _ _ Rpf). f_equal. apply wrap_small.
    unfold numlists in *. lia. }
  split; [rewrite E3; exact Rpa |].
  split.
  { rewrite <- E1 in Rs. rewrite (NEXT_BLKP_val _ _ _ Rs). f_equal. apply wrap_small. lia. }
  split; [rewrite E4; exact Rna |].
  intros Hh. destruct Na as [-> | ->]; [reflexivity |].
  exfalso. unfold free_part in El2. simpl in El2. subst l2'. apply (Nh eq_refl Hh).
Qed.

(** The body of the list walk on a listed block; it reports when the block
    is the first of two adjacent free blocks. *)
Lemma check_list_body_reports l1 s1 s2 l2 i m :
  bl = l1 ++ (s1, 0) :: (s2, 0) :: l2 →
  0 <= i < numlists → List.In m (L i) →
  ∃ j, (∀ k, check_list_body st m k = Ok (reported k 1 j)) ∧
       (m = first_block st + span l1 → (0 < j)%nat).
Proof.
  intros Ebl Hi Hin. destruct (hk_free _ _ _ HK i m Hi Hin) as [s Hs].
  pose proof Hs as Hs'. unfold heap_blocks in Hs'.
  destruct (blocks_In_split _ _ _ _ _ Hs') as (k1 & k2 & Ek & Em).
  destruct (free_block_reads k1 s k2 Ek)
    as (Ha & prev & next & pa & na & Hp & Hpa & Hn & Hna & _).
  rewrite <- Em in Ha, Hp, Hn.
  assert (Body : ∀ k, check_list_body st m k =
            Ok (if (pa =? 0) || (na =? 0)
                then fail_with (incr_numcount k) msg_contiguous
                else incr_numcount k)).
  { intros k. unfold check_list_body, check_marked_free, check_contiguous.
    rd Ha. rd Hp. rd Hpa. rd Hn. rd Hna.
    destruct ((pa =? 0) || (na =? 0)); reflexivity. }
  assert (R0 : ∀ k, incr_numcount k = reported k 1 0).
  { intros k. unfold incr_numcount, reported. simpl. rewrite app_nil_r. reflexivity. }
  assert (R1 : ∀ k, fail_with (incr_numcount k) msg_contiguous = reported k 1 1).
  { intros k. reflexivity. }
  destruct ((pa =? 0) || (na =? 0)) eqn:Hbad.
  - exists 1%nat. split; [intros k; rewrite Body, R1; reflexivity | lia].
  - exists O. split; [intros k; rewrite Body, R0; reflexivity |].
    intros ->. exfalso.
    destruct (free_block_reads l1 s1 ((s2, 0) :: l2) Ebl)
      as (_ & prev' & next' & pa' & na' & Hp' & Hpa' & Hn' & Hna' & Hz).
    rewrite Hn in Hn'. injection Hn' as <-. rewrite Hna in Hna'. injection Hna' as <-.
    rewrite Hz in Hbad by (exists s2, l2; reflexivity).
    rewrite orb_true_r in Hbad. discriminate Hbad.
Qed.

Lemma check_lists_reports l1 s1 s2 l2 fuel :
  bl = l1 ++ (s1, 0) :: (s2, 0) :: l2 →
  (length bl < fuel)%nat → ∀ n num,
  0 <= num → num + Z.of_nat n = 12 →
  ∃ j, (∀ k, check_lists n fuel st num k
             = Ok (reported k (length (all_listed L n num)) j)) ∧
       ((∃ i, num <= i < 12 ∧ List.In (first_block st + span l1) (L i)) →
        (0 < j)%nat).
Proof.
  intros Ebl Hf. pose proof (heap_ok_shape _ _ _ HK) as HS.
  induction n as [| n IH]; intros num H0 Hn.
  - exists O. split; [intros k; simpl; rewrite reported_0; reflexivity |].
    intros (i & Hi & _). lia.
  - assert (Hk : 0 <= num < numlists) by (unfold numlists; lia).
    destruct (lo_heads _ _ (hk_lists _ _ _ HK) num Hk) as (h & Eh & D).
    destruct (check_list_reports st (λ m, m = first_block st + span l1)
                (L num) NULL h fuel D) as (j1 & E1 & B1).
    { intros m Hm. apply (check_list_body_reports l1 s1 s2 l2 num m Ebl Hk Hm). }
    { pose proof (hs_list_length _ _ _ HS num Hk). lia. }
    destruct (IH (num + 1)) as (j2 & E2 & B2); [lia | lia |].
    exists (j1 + j2)%nat. split.
    + intros k. cbn [check_lists all_listed]. unfold numlists at 1.
      destruct (Z.ltb_spec num 12) as [_ | C]; [| lia].
      rd Eh. rewrite E1. cbn [mbind res_bind]. rewrite E2, reported_add.
      rewrite List.length_app. reflexivity.
    + intros (i & Hi & Hin). destruct (Z.eq_dec i num) as [-> | Hne].
      * assert (0 < j1)%nat by (apply B1; eauto). lia.
      * assert (0 < j2)%nat by (apply B2; exists i; split; [lia | exact Hin]). lia.
Qed.

Lemma mm_check_adjacent fuel :
  ¬ no_adjacent_free bl → (length bl + 1 < fuel)%nat →
  ∃ j, (0 < j)%nat ∧ mm_check fuel st = Ok (0, repeat msg_contiguous j).
Proof.
  intros N Hf. pose proof (heap_ok_shape _ _ _ HK) as HS.
  destruct (hs_layout _ _ _ HS) as (Hs & Hfb & Hb8 & Hsp & Hbrk32 & Hfl).
  pose proof (hk_prologue _ _ _ HK) as [Ph Pf].
  pose proof (hk_brk _ _ _ HK) as Hbrk.
  pose proof (hk_epilogue _ _ _ HK) as Ge.
  destruct (adjacent_free_split bl N) as (l1 & s1 & s2 & l2 & Ebl).
  destruct (check_lists_reports l1 s1 s2 l2 fuel Ebl ltac:(lia) 12 0 ltac:(lia) ltac:(lia))
    as (j & E & B).
  assert (Hj : (0 < j)%nat).
  { apply B. exists (list_num s1). split; [pose proof (list_num_range s1);
                                            unfold numlists in *; lia |].
    apply (hk_listed _ _ _ HK). rewrite Ebl. apply blocks_In_middle. }
  exists j. split; [exact Hj |].
  unfold mm_check. rewrite E. cbn [mbind res_bind].
  set (k1 := reported _ _ _).
  destruct fuel as [| fuel]; [lia |]. cbn [check_walk].
  set (hl := heap_listp st) in *.
  assert (Ehl : hl = first_block st - 8) by (unfold first_block; lia).
  assert (Eh : HDRP hl = hl - 4) by (unfold HDRP, WSIZE; apply wrap_small; lia).
  destruct (tag_reads st (hl - 4) 8 1 Ph ltac:(lia) ltac:(reflexivity) ltac:(auto)) as [Rs Ra].
  rewrite <- Eh in Rs, Ra. rd Rs. cbn [Z.eqb negb]. rd Ra. cbn [Z.eqb].
  rewrite (check_overlap_ok _ _ _ _ Rs ltac:(lia)). cbn [mbind res_bind].
  unfold check_min_size. change (c k1) with 0. cbn [Z.gtb Z.compare mbind res_bind].
  rewrite (NEXT_BLKP_val _ _ _ Rs). cbn [mbind res_bind].
  rewrite (wrap_small (hl + 8)) by lia.
  replace (hl + 8) with (first_block st) by lia.
  rewrite (check_walk_ok st bl (first_block st) (incr_c k1) fuel);
    [| apply (hk_tiles _ _ _ HK) | rewrite <- Hbrk; exact Ge | exact Hb8 | lia | lia
     | simpl; lia | lia].
  cbn [mbind res_bind].
  assert (Ec : count (walked (incr_c k1) bl) = numcount (walked (incr_c k1) bl)).
  { subst k1. unfold walked, incr_c, reported. cbn [count numcount].
    rewrite (listed_count _ _ _ HK). reflexivity. }
  rewrite Ec, Z.eqb_refl. cbn [negb].
  subst k1. unfold walked, incr_c, reported. cbn [check out].
  destruct j as [| j]; [lia |]. reflexivity.
Qed.

End CheckerRejects.

(** X20: on a well-formed heap that has two adjacent free blocks the
    checker returns 0; what it prints is the contiguity diagnostic, once
    for every listed block with a free neighbour, and nothing else. *)
Theorem mm_check_rejects_adjacent st L bl fuel :
  heap_ok st L bl → ¬ no_adjacent_free bl → (length bl + 1 < fuel)%nat →
  ∃ j, (0 < j)%nat ∧ mm_check fuel st = Ok (0, repeat msg_contiguous j).
Proof.
  intros HK N Hf. exact (mm_check_adjacent st L bl HK fuel N Hf).
Qed.

Lemma heap_ok_shrunk :
  ∃ L', heap_ok (state_of (mm_realloc 64 st_hundred 65600 50)) L'
          [(64, 1); (48, 0); (32, 0)].
Proof.
  assert (M : mm_realloc 64 st_hundred 65600 50
              = Ok (state_of (mm_realloc 64 st_hundred 65600 50), 65600)) by run_ok.
  destruct (realloc_shrink st_hundred L_hundred [] 112 [(32, 0)] heap_ok_hundred 50
              ltac:(lia) ltac:(reflexivity) 64 ltac:(vm_compute; reflexivity))
    as (st' & L' & E & HK & _).
  replace (first_block st_hundred + span []) with 65600 in E
    by (vm_compute; reflexivity).
  rewrite M in E. apply Ok_pair_inv in E. destruct E as [<- _].
  exists L'. exact HK.
Qed.

Lemma mm_check_rejects_adjacent_witness :
  ∃ L', heap_ok (state_of (mm_realloc 64 st_hundred 65600 50)) L'
          [(64, 1); (48, 0); (32, 0)] ∧
        ¬ no_adjacent_free [(64, 1); (48, 0); (32, 0)] ∧
        ∃ j, (0 < j)%nat ∧
             mm_check 64 (state_of (mm_realloc 64 st_hundred 65600 50))
             = Ok (0, repeat msg_contiguous j).
Proof.
  destruct heap_ok_shrunk as [L' HK].
  assert (N : ¬ no_adjacent_free [(64, 1); (48, 0); (32, 0)]).
  { cbn [no_adjacent_free]. intros (_ & B & _). apply B. auto. }
  exists L'. split; [exact HK |]. split; [exact N |].
  apply (mm_check_rejects_adjacent _ L' [(64, 1); (48, 0); (32, 0)] 64 HK N).
  simpl. lia.
Defined.


(** ** Sequences of calls with [mm_realloc] *)

Lemma client_ok_heap st live : client_ok st live → client_heap st live.
Proof. intros (L & bl & HK & _ & ND & Hl). exists L, bl. auto. Qed.

Lemma client_heap_init st0 st :
  0 < mem_start_brk st0 <= mem_brk st0 → mem_brk st0 mod 8 = 0 →
  mem_max_addr st0 < 2 ^ 32 →
  mm_init st0 = Ok (st, 0) → client_heap st [].
Proof.
  intros H1 H2 H3 E. apply client_ok_heap. eapply client_ok_init; eassumption.
Qed.

Lemma client_heap_malloc st live fuel n st' r :
  client_heap st live → 0 < n → n + 15 < 2 ^ 32 →
  mm_malloc fuel st n = Ok (st', r) →
  client_heap st' (if r =? NULL then live else (r, n) :: live) ∧
  (r = NULL → st' = st) ∧
  (∀ p m a, List.In (p, m) live → p <= a < p + m → raw_at st' a = raw_at st a).
Proof.
  intros (L & bl & HK & ND & Hlive) Hn Hn32 E.
  apply (mm_malloc_fuel fuel (S (length bl))) in E.
  destruct (mm_malloc_heap st L bl HK (fuel + S (length bl)) n Hn Hn32 ltac:(lia))
    as [(E' & _) | (st1 & L1 & bl1 & r1 & used & E' & HK1 & Hr & Hu & Hr8 & Keep & Only & Apart & _)];
    rewrite E' in E; injection E as <- <-.
  - change (NULL =? NULL) with true. cbv iota.
    split; [exists L, bl; auto |]. split; auto.
  - destruct (client_block _ _ _ _ _ HK1 Hr) as (_ & Hpos & _ & Hu16).
    assert (Hnz : r1 ≠ NULL).
    { assert (0 < r1) by lia. unfold NULL. lia. }
    apply Z.eqb_neq in Hnz. rewrite Hnz. apply Z.eqb_neq in Hnz.
    split; [| split; [tauto |]].
    + exists L1, bl1. split; [exact HK1 |]. split.
      * simpl. constructor; [| exact ND]. intros Hin.
        apply in_map_iff in Hin. destruct Hin as ([q m] & Eq & Hin). simpl in Eq. subst q.
        destruct (Hlive _ _ Hin) as (t & Ht & _).
        destruct (client_block _ _ _ _ _ HK Ht) as (_ & _ & _ & Ht16).
        destruct (Apart _ _ Ht); lia.
      * intros p m [Ep | Hin].
        -- injection Ep as <- <-. exists used. auto.
        -- destruct (Hlive _ _ Hin) as (t & Ht & Hm). exists t.
           split; [apply (Keep _ _ Ht) | exact Hm].
    + intros p m a Hin Ha. destruct (Hlive _ _ Hin) as (t & Ht & Hm).
      apply (Keep _ _ Ht). lia.
Qed.

Lemma client_heap_free st live p n :
  client_heap st live → List.In (p, n) live →
  ∃ st', mm_free st p = Ok st' ∧ same_regs st st' ∧
         client_heap st' (List.filter (λ x, negb (fst x =? p)) live) ∧
         (∀ q m a, List.In (q, m) live → q ≠ p → q <= a < q + m →
                   raw_at st' a = raw_at st a).
Proof.
  intros (L & bl & HK & ND & Hlive) Hin.
  destruct (Hlive _ _ Hin) as (t & Ht & Hn).
  destruct (blocks_In_split _ _ _ _ _ Ht) as (l1 & l2 & -> & ->).
  destruct (mm_free_heap st L l1 t l2 HK)
    as (st' & L' & bl' & E & HK' & R & Keep & _).
  exists st'. split; [exact E |]. split; [exact R |]. split.
  - exists L', bl'. split; [exact HK' |].
    split; [apply NoDup_map_filter; exact ND |].
    intros q m Hq. apply filter_In in Hq. destruct Hq as [Hq Hne].
    simpl in Hne. apply negb_true_iff, Z.eqb_neq in Hne.
    destruct (Hlive _ _ Hq) as (t' & Ht' & Hm). exists t'.
    split; [apply (Keep _ _ Ht' Hne) | exact Hm].
  - intros q m a Hq Hne Ha. destruct (Hlive _ _ Hq) as (t' & Ht' & Hm).
    apply (Keep _ _ Ht' Hne). lia.
Qed.

Lemma client_heap_store st live p n a v :
  client_heap st live → List.In (p, n) live → p <= a < p + n →
  ∃ st', store8 st a v = Ok st' ∧ same_regs st st' ∧ client_heap st' live ∧
         raw_at st' a = v ∧ ∀ a', a' ≠ a → raw_at st' a' = raw_at st a'.
Proof.
  intros (L & bl & HK & ND & Hlive) Hin Ha.
  destruct (Hlive _ _ Hin) as (t & Ht & Hn).
  destruct (heap_ok_store st L bl HK p t a v Ht ltac:(lia))
    as (st' & E & HK' & R & Hv & Ho).
  exists st'. split; [exact E |]. split; [exact R |].
  split; [| split; [exact Hv | exact Ho]].
  exists L, bl. split; [exact HK' |]. split; [exact ND |].
  intros q m Hq. destruct (Hlive _ _ Hq) as (t' & Ht' & Hm). exists t'.
  split; [| exact Hm]. unfold heap_blocks, first_block in *.
  destruct R as (_ & _ & _ & -> & _). exact Ht'.
Qed.

Lemma realloc_fallback_fuel fuel k st p req x :
  realloc_fallback fuel st p req = Ok x →
  realloc_fallback (fuel + k) st p req = Ok x.
Proof.
  unfold realloc_fallback. intros H. inv_bind H.
  rewrite (mm_malloc_fuel _ k _ _ _ E). cbn [mbind res_bind]. exact H.
Qed.

(** The client's list after a block was replaced. *)
Lemma NoDup_replaced (live : list (Z * Z)) p r n :
  List.NoDup (map fst live) →
  (∀ u, List.In (r, u) live → r = p) →
  List.NoDup (map fst ((r, n) :: List.filter (λ x, negb (fst x =? p)) live)).
Proof.
  intros ND Hr. simpl. constructor; [| apply NoDup_map_filter; exact ND].
  intros Hin. apply in_map_iff in Hin as ([q u] & Eq & Hin). simpl in Eq. subst q.
  apply filter_In in Hin as [Hin Hne]. simpl in Hne.
  apply negb_true_iff, Z.eqb_neq in Hne. apply Hne. eapply Hr. exact Hin.
Qed.

Lemma client_heap_realloc st live fuel p m n st' r :
  client_heap st live → List.In (p, m) live → 0 < n → n + 7 < 2 ^ 31 →
  mm_realloc fuel st p n = Ok (st', r) →
  client_heap st' (if r =? NULL then live
                   else (r, n) :: List.filter (λ x, negb (fst x =? p)) live) ∧
  (r = NULL → st' = st) ∧
  (r ≠ NULL → ∀ i, 0 <= i < Z.min m n → raw_at st' (r + i) = raw_at st (p + i)) ∧
  (∀ q u a, List.In (q, u) live → q ≠ p → q <= a < q + u →
            raw_at st' a = raw_at st a).
Proof.
  intros (L & bl & HK & ND & Hlive) Hin Hn Hn31 E.
  destruct (Hlive _ _ Hin) as (t & Ht & Hm).
  destruct (client_block _ _ _ _ _ HK Ht) as (_ & Hpos & _ & Ht16).
  pose proof Ht as Ht'. unfold heap_blocks in Ht'.
  destruct (blocks_In_split _ _ _ _ _ Ht') as (l1 & l2 & Ebl & Ep).
  subst bl. clear Ht'.
  destruct (realloc_entry st L l1 t l2 HK n Hn Hn31)
    as (_ & _ & _ & _ & Enb & Ha8 & Har & _).
  assert (Hpn : (p =? NULL) = false) by (apply Z.eqb_neq; unfold NULL; lia).
  set (nb := ALIGN n + 8) in *.
  assert (Others : ∀ (st1 : state) (bl1 : list (Z * Z)),
            (∀ q u, List.In (q, (u, 1)) (heap_blocks st (l1 ++ (t, 1) :: l2)) → q ≠ p →
                    List.In (q, (u, 1)) (heap_blocks st1 bl1) ∧
                    ∀ a, q <= a < q + u - 8 → raw_at st1 a = raw_at st a) →
            (∀ q u, List.In (q, u) (List.filter (λ x, negb (fst x =? p)) live) →
                    ∃ t', List.In (q, (t', 1)) (heap_blocks st1 bl1) ∧ u + 8 <= t') ∧
            (∀ q u a, List.In (q, u) live → q ≠ p → q <= a < q + u →
                      raw_at st1 a = raw_at st a)).
  { intros st1 bl1 Keep. split.
    - intros q u Hq. apply filter_In in Hq as [Hq Hne]. simpl in Hne.
      apply negb_true_iff, Z.eqb_neq in Hne.
      destruct (Hlive _ _ Hq) as (t' & Hq' & Hu). exists t'.
      split; [apply (Keep _ _ Hq' Hne) | exact Hu].
    - intros q u a Hq Hne Ha. destruct (Hlive _ _ Hq) as (t' & Hq' & Hu).
      apply (Keep _ _ Hq' Hne). lia. }
  assert (InPlace : ∀ (st1 : state) (L1 : Z → list Z) (bl1 : list (Z * Z)) (t1 : Z),
            mm_realloc fuel st p n = Ok (st1, p) → heap_ok st1 L1 bl1 →
            List.In (p, (t1, 1)) (heap_blocks st1 bl1) → n + 8 <= t1 →
            (∀ i, 0 <= i < Z.min m n → raw_at st1 (p + i) = raw_at st (p + i)) →
            (∀ q u, List.In (q, (u, 1)) (heap_blocks st (l1 ++ (t, 1) :: l2)) → q ≠ p →
                    List.In (q, (u, 1)) (heap_blocks st1 bl1) ∧
                    ∀ a, q <= a < q + u - 8 → raw_at st1 a = raw_at st a) →
            client_heap st' (if r =? NULL then live
                             else (r, n) :: List.filter (λ x, negb (fst x =? p)) live) ∧
            (r = NULL → st' = st) ∧
            (r ≠ NULL → ∀ i, 0 <= i < Z.min m n →
                        raw_at st' (r + i) = raw_at st (p + i)) ∧
            (∀ q u a, List.In (q, u) live → q ≠ p → q <= a < q + u →
                      raw_at st' a = raw_at st a)).
  { intros st1 L1 bl1 t1 E1 HK1 Hp1 Ht1 Pay Keep.
    rewrite E1 in E. injection E as <- <-. rewrite Hpn.
    destruct (Others st1 bl1 Keep) as [O1 O2].
    split; [| split; [intros C; apply Z.eqb_neq in Hpn; contradiction
                     | split; [intros _; exact Pay | exact O2]]].
    exists L1, bl1. split; [exact HK1 |].
    split; [apply NoDup_replaced; [exact ND | reflexivity] |].
    intros q u [Eq | Hq]; [injection Eq as <- <-; eauto | apply O1; exact Hq]. }
  destruct (Z_le_gt_dec nb t) as [Hfit | Hbig].
  - destruct (Z_le_gt_dec t (nb + 16)) as [Hsame | Hsplit].
    + apply (InPlace st L (l1 ++ (t, 1) :: l2) t).
      * rewrite Ep. apply (realloc_same st L l1 t l2 HK n Hn Hn31 fuel). subst nb. lia.
      * exact HK.
      * exact Ht.
      * subst nb. lia.
      * reflexivity.
      * intros q u Hq _. auto.
    + destruct (realloc_shrink st L l1 t l2 HK n Hn Hn31 fuel ltac:(subst nb; lia))
        as (st1 & L1 & E1 & HK1 & R & Pay & Keep).
      rewrite <- Ep in E1, Pay, Keep. fold nb in HK1, Keep.
      apply (InPlace st1 L1 (l1 ++ (nb, 1) :: (t - nb, 0) :: l2) nb E1 HK1).
      * rewrite Ep. unfold heap_blocks.
        replace (first_block st1) with (first_block st)
          by (unfold first_block; destruct R as (_ & _ & _ & -> & _); reflexivity).
        apply blocks_In_middle.
      * subst nb. lia.
      * intros i Hi. apply Pay. lia.
      * exact Keep.
  - assert (Cases : (∃ s l, l2 = (s, 0) :: l ∧ nb <= t + s) ∨
                    (∀ s l, l2 = (s, 0) :: l → t + s < nb)).
    { destruct l2 as [| [s a] l]; [right; intros s l C; discriminate C |].
      destruct (Z.eq_dec a 0) as [-> | Ha];
        [| right; intros s' l' C; injection C as _ C _; congruence].
      destruct (Z_le_gt_dec nb (t + s)) as [Hle | Hgt]; [left; eauto |].
      right. intros s' l' C. injection C as <- _. lia. }
    destruct Cases as [(s & l & -> & Hle) | Hnofit].
    + destruct (realloc_grow st L l1 t s l HK n Hn Hn31 ltac:(subst nb; lia) fuel)
        as (st1 & L1 & E1 & HK1 & R & Pay & Keep & _).
      rewrite <- Ep in E1, Pay, Keep. fold nb in HK1, Keep.
      assert (Fb : first_block st1 = first_block st)
        by (unfold first_block; destruct R as (_ & _ & _ & -> & _); reflexivity).
      destruct (t + s - nb <? 16).
      * apply (InPlace st1 L1 (l1 ++ [(t + s, 1)] ++ l) (t + s) E1 HK1).
        -- rewrite Ep. unfold heap_blocks. rewrite Fb. apply blocks_In_middle.
        -- subst nb. lia.
        -- intros i Hi. apply Pay. lia.
        -- exact Keep.
      * apply (InPlace st1 L1 (l1 ++ [(nb, 1); (t + s - nb, 0)] ++ l) nb E1 HK1).
        -- rewrite Ep. unfold heap_blocks. rewrite Fb. apply blocks_In_middle.
        -- subst nb. lia.
        -- intros i Hi. apply Pay. lia.
        -- exact Keep.
    + assert (Hbig' : t < ALIGN n + 8) by (subst nb; lia).
      pose proof (realloc_falls_back st L l1 t l2 HK n Hn Hn31 Hbig' Hnofit) as TF.
      rewrite <- Ep in TF.
      rewrite (mm_realloc_takes_fallback fuel st p n TF) in E.
      apply (realloc_fallback_fuel fuel (S (length (l1 ++ (t, 1) :: l2)))) in E.
      rewrite <- (mm_realloc_takes_fallback _ st p n TF) in E.
      destruct (realloc_move st L l1 t l2 HK n Hn Hn31 Hbig' Hnofit
                  (fuel + S (length (l1 ++ (t, 1) :: l2))) ltac:(lia))
        as [(E1 & _) | [(E1 & _) | (_ & st1 & L1 & bl1 & r1 & used & E1 & HK1 & Hr & Hu
                                    & Hr8 & Hrp & Apart & Copy & Keep & _)]];
        rewrite <- Ep in E1; rewrite E1 in E; try discriminate E.
      * injection E as <- <-. change (NULL =? NULL) with true. cbv iota.
        split; [exists L, (l1 ++ (t, 1) :: l2); auto |].
        split; [reflexivity |]. split; [intros C; contradiction | reflexivity].
      * injection E as <- <-. rewrite <- Ep in Hrp, Copy, Keep.
        destruct (client_block _ _ _ _ _ HK1 Hr) as (_ & Hrpos & _ & Hu16).
        assert (Hrn : (r1 =? NULL) = false) by (apply Z.eqb_neq; unfold NULL; lia).
        rewrite Hrn. destruct (Others st1 bl1 Keep) as [O1 O2].
        split; [| split; [intros C; apply Z.eqb_neq in Hrn; contradiction
                         | split; [intros _ i Hi; apply Copy; lia | exact O2]]].
        exists L1, bl1. split; [exact HK1 |]. split.
        -- apply NoDup_replaced; [exact ND |]. intros u Hu'.
           destruct (Hlive _ _ Hu') as (tu & Htu & _).
           destruct (client_block _ _ _ _ _ HK Htu) as (_ & _ & _ & Htu16).
           destruct (Apart _ _ Htu); lia.
        -- intros q u [Eq | Hq]; [| apply O1; exact Hq].
           injection Eq as <- <-. exists used. split; [exact Hr | subst nb; lia].
Qed.

Lemma reaches_client_heap st0 st live :
  0 < mem_start_brk st0 <= mem_brk st0 → mem_brk st0 mod 8 = 0 →
  mem_max_addr st0 < 2 ^ 32 →
  reaches_with_realloc st0 st live → client_heap st live.
Proof.
  intros Hstart Hal Hmax H. induction H as
    [st E | st live fuel n st' r H IH Hn Hn32 E
     | st live p n a v st' H IH Hin Ha E | st live p n st' H IH Hin E
     | st live fuel p m n st' r H IH Hin Hn Hn31 E].
  - eapply client_heap_init; eassumption.
  - apply (client_heap_malloc st live fuel n st' r IH Hn Hn32 E).
  - destruct (client_heap_store st live p n a v IH Hin Ha) as (st1 & E1 & _ & C & _).
    rewrite E1 in E. injection E as <-. exact C.
  - destruct (client_heap_free st live p n IH Hin) as (st1 & E1 & _ & C & _).
    rewrite E1 in E. injection E as <-. exact C.
  - apply (client_heap_realloc st live fuel p m n st' r IH Hin Hn Hn31 E).
Qed.

Lemma client_heap_facts st live :
  client_heap st live →
  List.NoDup (map fst live) ∧
  (∀ p n, List.In (p, n) live →
          p ≠ NULL ∧ p mod 8 = 0 ∧
          heap_listp st + 8 <= p ∧ p + n + 8 <= mem_brk st) ∧
  (∀ p n q m, List.In (p, n) live → List.In (q, m) live → p ≠ q →
              p + n + 8 <= q ∨ q + m + 8 <= p).
Proof.
  intros (L & bl & HK & ND & Hlive). split; [exact ND | split].
  - intros p n Hin. destruct (Hlive _ _ Hin) as (t & Ht & Hn).
    destruct (client_block _ _ _ _ _ HK Ht) as (H8 & Hpos & Hbrk & _).
    unfold NULL. repeat split; lia.
  - intros p n q m Hp Hq Hne.
    destruct (Hlive _ _ Hp) as (t & Ht & Hn).
    destruct (Hlive _ _ Hq) as (t' & Ht' & Hm).
    destruct (blocks_apart _ _ _ _ _ _ _ _ _ (hk_tiles _ _ _ HK) Ht Ht')
      as [(Epq & _) | [H | H]]; [contradiction | lia | lia].
Qed.

(** X21: with [mm_realloc] among the calls the heap stays well formed.
    Every state a client reaches from a successful [mm_init] by calls of
    [mm_malloc], [mm_free] and [mm_realloc] on blocks it holds (sizes
    positive after rounding) and stores into the requested bytes
    of blocks it holds, is a well-formed heap; the blocks the client holds
    have distinct, non-null, 8-byte aligned addresses inside the heap and
    pairwise disjoint requested byte ranges, each can be freed and each
    requested byte can be stored to.  (The heap need not be free of
    adjacent free blocks any more, so [mm_check] may return 0.) *)
Theorem realloc_traces st0 st live :
  0 < mem_start_brk st0 <= mem_brk st0 → mem_brk st0 mod 8 = 0 →
  mem_max_addr st0 < 2 ^ 32 →
  reaches_with_realloc st0 st live →
  (∃ L bl, heap_ok st L bl) ∧
  List.NoDup (map fst live) ∧
  (∀ p n, List.In (p, n) live →
          p ≠ NULL ∧ p mod 8 = 0 ∧
          heap_listp st + 8 <= p ∧ p + n + 8 <= mem_brk st) ∧
  (∀ p n q m, List.In (p, n) live → List.In (q, m) live → p ≠ q →
              p + n + 8 <= q ∨ q + m + 8 <= p) ∧
  (∀ p n, List.In (p, n) live → ∃ st', mm_free st p = Ok st') ∧
  (∀ p n a v, List.In (p, n) live → p <= a < p + n →
              ∃ st', store8 st a v = Ok st').
Proof.
  intros Hstart Hal Hmax H.
  pose proof (reaches_client_heap st0 st live Hstart Hal Hmax H) as C.
  destruct (client_heap_facts st live C) as (H2 & H3 & H4).
  split; [destruct C as (L & bl & HK & _); eauto |].
  split; [exact H2 |]. split; [exact H3 |]. split; [exact H4 |]. split.
  - intros p n Hin. destruct (client_heap_free st live p n C Hin) as (st' & E & _).
    eauto.
  - intros p n a v Hin Ha.
    destruct (client_heap_store st live p n a v C Hin Ha) as (st' & E & _). eauto.
Qed.

Lemma realloc_traces_witness :
  reaches_with_realloc st_fresh (state_of (mm_realloc 64 st_hundred 65600 50))
    [(65600, 50)] ∧
  (∃ L bl, heap_ok (state_of (mm_realloc 64 st_hundred 65600 50)) L bl) ∧
  (∃ st', mm_free (state_of (mm_realloc 64 st_hundred 65600 50)) 65600 = Ok st').
Proof.
  assert (E0 : mm_init st_fresh = Ok (st_init, 0)) by run_ok.
  assert (E1 : mm_malloc 64 st_init 100 = Ok (st_hundred, 65600)) by run_ok.
  assert (E2 : mm_realloc 64 st_hundred 65600 50
               = Ok (state_of (mm_realloc 64 st_hundred 65600 50), 65600)) by run_ok.
  assert (R1 : reaches_with_realloc st_fresh st_hundred [(65600, 100)])
    by exact (rr_malloc st_fresh st_init [] 64 100 st_hundred 65600
                (rr_init st_fresh st_init E0) ltac:(lia) ltac:(reflexivity) E1).
  assert (R2 : reaches_with_realloc st_fresh
                 (state_of (mm_realloc 64 st_hundred 65600 50)) [(65600, 50)])
    by exact (rr_realloc st_fresh st_hundred [(65600, 100)] 64 65600 100 50
                (state_of (mm_realloc 64 st_hundred 65600 50)) 65600
                R1 ltac:(left; reflexivity) ltac:(lia) ltac:(reflexivity) E2).
  split; [exact R2 |].
  destruct (realloc_traces st_fresh (state_of (mm_realloc 64 st_hundred 65600 50))
              [(65600, 50)]) as (HK & _ & _ & _ & F & _);
    [split; zfact | reflexivity | reflexivity | exact R2 |].
  split; [exact HK |]. apply (F 65600 50). left; reflexivity.
Defined.

(** X22: [mm_realloc] keeps what the client stored.  In every state reached
    as above, a call [mm_realloc(p, n)] on a held block of [m] requested
    bytes that returns null leaves the whole state as it is; one that
    returns [r] leaves the first [min(m, n)] bytes of the old block at [r],
    and in both cases every requested byte of every other held block is
    unchanged.  Calls of [mm_malloc] and [mm_free] leave the requested
    bytes of the (other) held blocks unchanged as well. *)
Theorem realloc_keeps_contents st0 st live :
  0 < mem_start_brk st0 <= mem_brk st0 → mem_brk st0 mod 8 = 0 →
  mem_max_addr st0 < 2 ^ 32 →
  reaches_with_realloc st0 st live →
  (∀ fuel p m n st' r, List.In (p, m) live → 0 < n → n + 7 < 2 ^ 31 →
     mm_realloc fuel st p n = Ok (st', r) →
     (r = NULL → st' = st) ∧
     (r ≠ NULL → ∀ i, 0 <= i < Z.min m n →
                 raw_at st' (r + i) = raw_at st (p + i)) ∧
     (∀ q u a, List.In (q, u) live → q ≠ p → q <= a < q + u →
               raw_at st' a = raw_at st a)) ∧
  (∀ fuel n st' r, 0 < n → n + 15 < 2 ^ 32 →
     mm_malloc fuel st n = Ok (st', r) →
     ∀ p m a, List.In (p, m) live → p <= a < p + m →
              raw_at st' a = raw_at st a) ∧
  (∀ p n st', List.In (p, n) live → mm_free st p = Ok st' →
     ∀ q m a, List.In (q, m) live → q ≠ p → q <= a < q + m →
              raw_at st' a = raw_at st a).
Proof.
  intros Hstart Hal Hmax H.
  pose proof (reaches_client_heap st0 st live Hstart Hal Hmax H) as C.
  split; [| split].
  - intros fuel p m n st' r Hin Hn Hn31 E.
    destruct (client_heap_realloc st live fuel p m n st' r C Hin Hn Hn31 E)
      as (_ & H1 & H2 & H3). auto.
  - intros fuel n st' r Hn Hn32 E.
    destruct (client_heap_malloc st live fuel n st' r C Hn Hn32 E) as (_ & _ & H2).
    exact H2.
  - intros p n st' Hin E.
    destruct (client_heap_free st live p n C Hin) as (st1 & E1 & _ & _ & K).
    rewrite E1 in E. injection E as <-. exact K.
Qed.

Lemma realloc_keeps_contents_witness :
  reaches_with_realloc st_fresh st_holes [(65672, 16); (65624, 16)] ∧
  ∃ st', mm_realloc 64 st_holes 65624 100 = Ok (st', 65696) ∧
         raw_at st' (65696 + 15) = raw_at st_holes (65624 + 15) ∧
         raw_at st' 65672 = raw_at st_holes 65672.
Proof.
  assert (E0 : mm_init st_fresh = Ok (st_init, 0)) by run_ok.
  set (s1 := state_of (mm_malloc 64 st_init 16)).
  set (s2 := state_of (mm_malloc 64 s1 16)).
  set (s3 := state_of (mm_malloc 64 s2 16)).
  assert (E1 : mm_malloc 64 st_init 16 = Ok (s1, 65600)) by run_ok.
  assert (E2 : mm_malloc 64 s1 16 = Ok (s2, 65624)) by run_ok.
  assert (E3 : mm_malloc 64 s2 16 = Ok (s3, 65648)) by run_ok.
  assert (E4 : mm_malloc 64 s3 16 = Ok (st_four, 65672)) by run_ok.
  assert (E5 : mm_free st_four 65600 = Ok (state_or_fresh (mm_free st_four 65600)))
    by run_ok.
  assert (E6 : mm_free (state_or_fresh (mm_free st_four 65600)) 65648 = Ok st_holes)
    by run_ok.
  assert (E7 : mm_realloc 64 st_holes 65624 100
               = Ok (state_of (mm_realloc 64 st_holes 65624 100), 65696)) by run_ok.
  assert (B : 16 + 15 < 2 ^ 32) by reflexivity.
  assert (R1 : reaches_with_realloc st_fresh s1 [(65600, 16)])
    by exact (rr_malloc st_fresh st_init [] 64 16 s1 65600
                (rr_init st_fresh st_init E0) ltac:(lia) B E1).
  assert (R2 : reaches_with_realloc st_fresh s2 [(65624, 16); (65600, 16)])
    by exact (rr_malloc st_fresh s1 [(65600, 16)] 64 16 s2 65624 R1 ltac:(lia) B E2).
  assert (R3 : reaches_with_realloc st_fresh s3
                 [(65648, 16); (65624, 16); (65600, 16)])
    by exact (rr_malloc st_fresh s2 [(65624, 16); (65600, 16)] 64 16 s3 65648 R2
                ltac:(lia) B E3).
  assert (R4 : reaches_with_realloc st_fresh st_four
                 [(65672, 16); (65648, 16); (65624, 16); (65600, 16)])
    by exact (rr_malloc st_fresh s3 [(65648, 16); (65624, 16); (65600, 16)] 64 16
                st_four 65672 R3 ltac:(lia) B E4).
  assert (R5 : reaches_with_realloc st_fresh (state_or_fresh (mm_free st_four 65600))
                 [(65672, 16); (65648, 16); (65624, 16)])
    by exact (rr_free st_fresh st_four
                [(65672, 16); (65648, 16); (65624, 16); (65600, 16)] 65600 16
                (state_or_fresh (mm_free st_four 65600)) R4
                ltac:(right; right; right; left; reflexivity) E5).
  assert (R : reaches_with_realloc st_fresh st_holes [(65672, 16); (65624, 16)])
    by exact (rr_free st_fresh (state_or_fresh (mm_free st_four 65600))
                [(65672, 16); (65648, 16); (65624, 16)] 65648 16 st_holes R5
                ltac:(right; left; reflexivity) E6).
  split; [exact R |].
  destruct (realloc_keeps_contents st_fresh st_holes [(65672, 16); (65624, 16)])
    as (K & _ & _); [split; zfact | reflexivity | reflexivity | exact R |].
  destruct (K 64%nat 65624 16 100 (state_of (mm_realloc 64 st_holes 65624 100)) 65696)
    as (_ & Copy & Others);
    [right; left; reflexivity | lia | reflexivity | exact E7 |].
  exists (state_of (mm_realloc 64 st_holes 65624 100)).
  split; [exact E7 |]. split.
  - apply Copy; [discriminate | vm_compute; split; [discriminate | reflexivity]].
  - apply (Others 65672 16 65672); [left; reflexivity | discriminate | lia].
Defined.


(** ** Sizes close to [2^32] *)

(** [mm_malloc] looks at a non-zero size only through its adjusted size. *)
Lemma mm_malloc_adjusted fuel st n n' :
  n ≠ 0 → n' ≠ 0 → adjust_size n = adjust_size n' →
  mm_malloc fuel st n = mm_malloc fuel st n'.
Proof.
  intros Hn Hn' E. unfold mm_malloc.
  destruct (Z.eqb_spec n 0) as [| _]; [contradiction |].
  destruct (Z.eqb_spec n' 0) as [| _]; [contradiction |].
  cbv zeta. rewrite E. reflexivity.
Qed.

Lemma adjust_size_wraps n :
  2 ^ 32 - 15 <= n < 2 ^ 32 →
  adjust_size n = if n <? 2 ^ 32 - 7 then 0 else 8.
Proof.
  intros Hn. unfold adjust_size, DSIZE, wrap. change (2 ^ 32) with 4294967296 in *.
  destruct (Z.leb_spec n 8) as [C | _]; [lia |].
  destruct (Z.ltb_spec n (4294967296 - 7)); lia.
Qed.

(** X23: the size adjustment of [mm_malloc] overflows for the fifteen
    largest sizes: for [2^32 - 15 <= n < 2^32] the adjusted size is 0 (up
    to [2^32 - 8]) or 8 (above), below the minimum block size, and the call
    does not fail.  On the heap right after [mm_init], [mm_malloc(n)]
    returns 65600 for each of them.  In the first case the block at 65600
    has a free header of 64 bytes and is the head of free list 6, and the
    prologue footer has been overwritten with a tag of size 0.  In the
    second the block has 8 bytes, header and footer only: its footer is the
    word the returned pointer points at, and the header of the next (free,
    listed) block follows at 65604. *)
Theorem mm_malloc_size_wraps n :
  2 ^ 32 - 15 <= n < 2 ^ 32 →
  adjust_size n = (if n <? 2 ^ 32 - 7 then 0 else 8) ∧
  ∃ st', mm_malloc 64 st_init n = Ok (st', 65600) ∧
         if n <? 2 ^ 32 - 7
         then GET st' (65600 - 4) = Ok 64 ∧ GETfreelistp st' 6 = Ok 65600 ∧
              GET st' (heap_listp st') = Ok 1
         else GET st' (65600 - 4) = Ok 9 ∧ GET st' 65600 = Ok 9 ∧
              GET st' 65604 = Ok 56 ∧ GETfreelistp st' 5 = Ok 65608.
Proof.
  intros Hn. pose proof (adjust_size_wraps n Hn) as Ha. split; [exact Ha |].
  change (2 ^ 32) with 4294967296 in *.
  destruct (Z.ltb_spec n (4294967296 - 7)) as [Hlt | Hge].
  - exists (state_of (mm_malloc 64 st_init 4294967288)).
    rewrite (mm_malloc_adjusted 64 st_init n 4294967288);
      [| lia | discriminate | rewrite Ha; vm_compute; reflexivity].
    split; [run_ok |]. split; [vm_compute; reflexivity |].
    split; vm_compute; reflexivity.
  - exists (state_of (mm_malloc 64 st_init 4294967295)).
    rewrite (mm_malloc_adjusted 64 st_init n 4294967295);
      [| lia | discriminate | rewrite Ha; vm_compute; reflexivity].
    split; [run_ok |]. split; [vm_compute; reflexivity |].
    split; [vm_compute; reflexivity |]. split; vm_compute; reflexivity.
Qed.

Lemma mm_malloc_size_wraps_witness :
  (∃ st', mm_malloc 64 st_init 4294967288 = Ok (st', 65600) ∧
          GET st' (65600 - 4) = Ok 64 ∧ GETfreelistp st' 6 = Ok 65600) ∧
  (∃ st', mm_malloc 64 st_init 4294967295 = Ok (st', 65600) ∧
          GET st' (65600 - 4) = Ok 9 ∧ GET st' 65600 = Ok 9).
Proof.
  split.
  - destruct (mm_malloc_size_wraps 4294967288) as (_ & st' & E & P);
      [split; [vm_compute; discriminate | reflexivity] |].
    replace (4294967288 <? 2 ^ 32 - 7) with true in P by reflexivity.
    destruct P as (P1 & P2 & _). exists st'. auto.
  - destruct (mm_malloc_size_wraps 4294967295) as (_ & st' & E & P);
      [split; [vm_compute; discriminate | reflexivity] |].
    replace (4294967295 <? 2 ^ 32 - 7) with false in P by reflexivity.
    destruct P as (P1 & P2 & _). exists st'. auto.
Defined.


(** ** A request whose adjusted size overflows *)

(** C3: the adjusted size of [mm_malloc] is computed in 32-bit arithmetic
    and wraps around for the largest sizes.  For [n = 2^32 - 1] the
    adjusted size is 8, where [n + 8] rounded up to a multiple of 8 is
    [2^32 + 8]; on the heap right after [mm_init] the search misses, the
    provider grants the 32 bytes asked for, and [mm_malloc] returns the
    non-null pointer 65600 to an allocated block of 8 bytes, on which the
    checker reports a block below the minimum size.  For [n = 2^32 - 8] the
    adjusted size is 0 and the block returned is still tagged free and
    heads free list 6; the checker returns 0 as well. *)
Theorem mm_malloc_wrapped_request :
  (8 < 4294967295 ∧
   adjust_size 4294967295 = 8 ∧ 8 * ((4294967295 + 8 + 7) / 8) = 2 ^ 32 + 8 ∧
   find_fit 64 st_init (adjust_size 4294967295) = Ok NULL ∧
   ∃ st', mm_malloc 64 st_init 4294967295 = Ok (st', 65600) ∧ 65600 ≠ NULL ∧
          mem_brk st' = mem_brk st_init + Z.max 8 CHUNKS ∧
          GET_SIZE st' (HDRP 65600) = Ok 8 ∧ GET_ALLOC st' (HDRP 65600) = Ok 1 ∧
          mm_check 64 st' = Ok (0, [msg_too_small])) ∧
  (8 < 4294967288 ∧
   adjust_size 4294967288 = 0 ∧ 8 * ((4294967288 + 8 + 7) / 8) = 2 ^ 32 ∧
   ∃ st', mm_malloc 64 st_init 4294967288 = Ok (st', 65600) ∧ 65600 ≠ NULL ∧
          GET_SIZE st' (HDRP 65600) = Ok 64 ∧ GET_ALLOC st' (HDRP 65600) = Ok 0 ∧
          GETfreelistp st' (list_num 64) = Ok 65600 ∧
          mm_check 64 st' = Ok (0, [msg_contiguous])).
Proof.
  split.
  - split; [reflexivity |]. split; [vm_compute; reflexivity |].
    split; [vm_compute; reflexivity |]. split; [vm_compute; reflexivity |].
    exists (state_of (mm_malloc 64 st_init 4294967295)).
    split; [run_ok |]. split; [discriminate |].
    repeat split; vm_compute; reflexivity.
  - split; [reflexivity |]. split; [vm_compute; reflexivity |].
    split; [vm_compute; reflexivity |].
    exists (state_of (mm_malloc 64 st_init 4294967288)).
    split; [run_ok |]. split; [discriminate |].
    repeat split; vm_compute; reflexivity.
Qed.

(** ** The fallback path of [mm_realloc], step by step *)

Section FallbackSteps.

Variables (st : state) (L : Z → list Z) (l1 : list (Z * Z)) (t : Z) (l2 : list (Z * Z)).
Hypothesis HK : heap_ok st L (l1 ++ (t, 1) :: l2).
Variable n : Z.
Hypothesis Hn : 0 < n.
Hypothesis Hn31 : n + 7 < 2 ^ 31.
Hypothesis Hbig : t < ALIGN n + 8.
Hypothesis Hnofit : ∀ s l, l2 = (s, 0) :: l → t + s < ALIGN n + 8.
Variable fuel : nat.
Hypothesis Hfuel : (length (l1 ++ (t, 1%Z) :: l2) < fuel)%nat.
Hypothesis Hread : first_block st + span l1 + (ALIGN n + 8) <= mem_max_addr st.

Lemma realloc_fallback_steps :
  let p := first_block st + span l1 in
  let required := ALIGN n + 8 in
  let bl := l1 ++ (t, 1) :: l2 in
  takes_fallback st p n ∧
  ((mm_malloc fuel st required = Ok (st, NULL) ∧
    mm_realloc fuel st p n = Ok (st, NULL))
   ∨
   (∃ st1 q st2 st' L' bl' used,
      mm_malloc fuel st required = Ok (st1, q) ∧ q ≠ NULL ∧ q ≠ p ∧
      memcpy st1 q p required = Ok st2 ∧
      (∀ a, a < q ∨ q + required <= a → raw_at st2 a = raw_at st1 a) ∧
      (∀ i, 0 <= i < required → i < q - p ∨ q <= p →
            raw_at st2 (q + i) = raw_at st1 (p + i)) ∧
      mm_free st2 p = Ok st' ∧
      mm_realloc fuel st p n = Ok (st', q) ∧
      heap_ok st' L' bl' ∧
      List.In (q, (used, 1)) (heap_blocks st' bl') ∧ required + 8 <= used ∧
      (∀ u, ¬ List.In (p, (u, 1)) (heap_blocks st' bl')) ∧
      (∀ i, 0 <= i < t - 8 → raw_at st' (q + i) = raw_at st (p + i)) ∧
      (∀ m u, List.In (m, (u, 1)) (heap_blocks st bl) → m ≠ p →
              List.In (m, (u, 1)) (heap_blocks st' bl') ∧
              ∀ a, m <= a < m + u - 8 → raw_at st' a = raw_at st a))).
Proof.
  intros p required bl. subst p required bl.
  pose proof (realloc_falls_back st L l1 t l2 HK n Hn Hn31 Hbig Hnofit) as TF.
  split; [exact TF |].
  destruct (realloc_entry st L l1 t l2 HK n Hn Hn31)
    as (_ & _ & _ & _ & Enb & Ha8 & Har & Bp & _).
  pose proof (heap_ok_shape _ _ _ HK) as HS.
  destruct (hs_layout _ _ _ HS) as ((S1 & S2 & S3 & S4) & Hfb & Hb8 & Hsp & Hbrk32 & Hfl).
  assert (Hnb : 0 < (ALIGN n + 8)) by lia.
  assert (Hnb32 : (ALIGN n + 8) + 15 < 2 ^ 32).
  { change (2 ^ 31) with 2147483648 in *.
    change (2 ^ 32) with 4294967296. lia. }
  pose proof (mm_realloc_takes_fallback fuel st (first_block st + span l1) n TF) as EF.
  rewrite Enb in EF.
  destruct (realloc_move st L l1 t l2 HK n Hn Hn31 Hbig Hnofit fuel Hfuel)
    as [(E & _) | [(_ & Hmax & _) | (_ & st' & L' & bl' & r & used & E & HK' & Hr & Hu
                                     & Hr8 & Hrp & Apart & Copy & Keep & Alloc & _)]];
    cbv zeta in *.
  - left. split; [| exact E]. rewrite EF in E. unfold realloc_fallback in E.
    inv_bind E. destruct v as [st1 q]. destruct (Z.eqb_spec q NULL) as [-> | Hq].
    + injection E as ->. exact E0.
    + inv_bind E. inv_bind E. injection E as _ C. contradiction.
  - exfalso. lia.
  - right. destruct (client_block _ _ _ _ _ HK' Hr) as (_ & Hrpos & _ & _).
    assert (Hrn : r ≠ NULL) by (unfold NULL; lia).
    pose proof E as E'. rewrite EF in E'. unfold realloc_fallback in E'.
    inv_bind E'. destruct v as [st1 q].
    destruct (Z.eqb_spec q NULL) as [-> | Hq];
      [injection E' as _ C; symmetry in C; contradiction |].
    inv_bind E'. inv_bind E'. injection E' as -> ->.
    destruct (mm_malloc_regs st L _ fuel (ALIGN n + 8) st1 r HK Hnb Hnb32 Hfuel E0)
      as (Q1 & Q3 & _).
    destruct (memcpy_spec st1 r (first_block st + span l1) (ALIGN n + 8) v ltac:(lia)
                ltac:(change (2 ^ 32) with 4294967296 in *; lia) ltac:(lia) E1)
      as ([_ F2] & C2).
    exists st1, r, v, st', L', bl', used.
    split; [exact E0 |]. split; [exact Hrn |]. split; [exact Hrp |].
    split; [exact E1 |]. split; [exact F2 |]. split; [exact C2 |].
    split; [exact E2 |]. split; [exact E |]. split; [exact HK' |].
    split; [exact Hr |]. split; [exact Hu |]. split.
    { intros u Hp.
      destruct (Alloc (first_block st + span l1) u Hp) as [C | [_ C]]; [| contradiction].
      apply Hrp. symmetry. exact C. }
    split; [exact Copy | exact Keep].
Qed.

End FallbackSteps.



